(** * OffsetAllocator: a shallow embedding of [offsetAllocator.c]

    The development follows the C file top to bottom: the bit-scan
    intrinsics, the floating-point style bin encoding, the allocator
    structure with its node pool, and the public operations.  Unsigned
    32-bit arithmetic is written on [Z] with the wrap-around spelled out;
    heap arrays are lists indexed by [Z], and an access outside an array
    (undefined behaviour in C) makes the operation return [None]. *)

From Stdlib Require Import ZArith Lia Bool.
From stdpp Require Import base tactics option numbers list.

Local Open Scope Z_scope.

(** ** Machine words *)

Module Word.

Definition u32 (x : Z) : Z := x mod 2 ^ 32.
Definition u8 (x : Z) : Z := x mod 2 ^ 8.

Definition add32 (x y : Z) : Z := u32 (x + y).
Definition sub32 (x y : Z) : Z := u32 (x - y).
Definition shl32 (x k : Z) : Z := u32 (Z.shiftl x k).
Definition not32 (x : Z) : Z := u32 (Z.lnot x).

Definition is_u32 (x : Z) : Prop := 0 <= x < 2 ^ 32.
Definition is_u8 (x : Z) : Prop := 0 <= x < 2 ^ 8.

(** [leading_zeros n v] counts the zero bits of [v] from bit [n-1]
    down to the first set one; [trailing_zeros n i v] is the position of
    the first set bit among the [n] bits from [i] up. *)
Fixpoint leading_zeros (n : nat) (v : Z) : Z :=
  match n with
  | O => 0
  | S k => if Z.testbit v (Z.of_nat k) then 0 else 1 + leading_zeros k v
  end.

Fixpoint trailing_zeros (n : nat) (i : Z) (v : Z) : Z :=
  match n with
  | O => i
  | S k => if Z.testbit v i then i else trailing_zeros k (i + 1) v
  end.

End Word.
Import Word.

(** ** Bit scans ([__builtin_clz], [__builtin_ctz])

    The C builtins are undefined on 0.  The model scans the 32 bits and
    gives 32 there, as the [lzcnt]/[tzcnt] instructions do; every theorem
    below that depends on such a call has a non-zero argument. *)

Definition lzcnt_nonzero (v : Z) : Z := leading_zeros 32 v.
Definition tzcnt_nonzero (v : Z) : Z := trailing_zeros 32 0 v.

(** ** Constants *)

Definition MANTISSA_BITS : Z := 3.
Definition MANTISSA_VALUE : Z := shl32 1 MANTISSA_BITS.
Definition MANTISSA_MASK : Z := sub32 MANTISSA_VALUE 1.
Definition NODE_UNUSED : Z := 0xffffffff.
Definition NO_SPACE : Z := 0xffffffff.

Definition NUM_TOP_BINS : Z := 32.
Definition BINS_PER_LEAF : Z := 8.
Definition TOP_BINS_INDEX_SHIFT : Z := 3.
Definition LEAF_BINS_INDEX_MASK : Z := 0x7.
Definition NUM_LEAF_BINS : Z := NUM_TOP_BINS * BINS_PER_LEAF.

(** ** Bin encoding *)

Definition uintToFloatRoundUp (size : Z) : Z :=
  let exp := 0 in
  let mantissa := 0 in
  let '(exp, mantissa) :=
    if size <? MANTISSA_VALUE then
      (* Denorm: 0..(MANTISSA_VALUE-1) *)
      (exp, size)
    else
      let leadingZeros := lzcnt_nonzero size in
      let highestSetBit := sub32 31 leadingZeros in
      let mantissaStartBit := sub32 highestSetBit MANTISSA_BITS in
      let exp := add32 mantissaStartBit 1 in
      let mantissa := Z.land (Z.shiftr size mantissaStartBit) MANTISSA_MASK in
      let lowBitsMask := sub32 (shl32 1 mantissaStartBit) 1 in
      (* Round up! *)
      if Z.land size lowBitsMask =? 0 then (exp, mantissa)
      else (exp, add32 mantissa 1)
  in
  add32 (shl32 exp MANTISSA_BITS) mantissa.

Definition uintToFloatRoundDown (size : Z) : Z :=
  let exp := 0 in
  let mantissa := 0 in
  let '(exp, mantissa) :=
    if size <? MANTISSA_VALUE then
      (exp, size)
    else
      let leadingZeros := lzcnt_nonzero size in
      let highestSetBit := sub32 31 leadingZeros in
      let mantissaStartBit := sub32 highestSetBit MANTISSA_BITS in
      let exp := add32 mantissaStartBit 1 in
      let mantissa := Z.land (Z.shiftr size mantissaStartBit) MANTISSA_MASK in
      (exp, mantissa)
  in
  Z.lor (shl32 exp MANTISSA_BITS) mantissa.

Definition floatToUint (floatValue : Z) : Z :=
  let exponent := Z.shiftr floatValue MANTISSA_BITS in
  let mantissa := Z.land floatValue MANTISSA_MASK in
  if exponent =? 0 then
    (* Denorms *)
    mantissa
  else
    shl32 (Z.lor mantissa MANTISSA_VALUE) (sub32 exponent 1).

(** Utility: lowest set bit of [bitMask] at or after [startBitIndex]. *)
Definition findLowestSetBitAfter (bitMask startBitIndex : Z) : Z :=
  let maskBeforeStartIndex := sub32 (shl32 1 startBitIndex) 1 in
  let maskAfterStartIndex := not32 maskBeforeStartIndex in
  let bitsAfter := Z.land bitMask maskAfterStartIndex in
  if bitsAfter =? 0 then NO_SPACE
  else tzcnt_nonzero bitsAfter.

(** ** Arrays

    C arrays are lists indexed by a [Z]; an index outside the array is
    undefined behaviour and yields [None]. *)

Module Arr.

Definition get {A} (l : list A) (i : Z) : option A :=
  if decide (0 <= i) then l !! Z.to_nat i else None.

Definition set {A} (l : list A) (i : Z) (x : A) : option (list A) :=
  if decide (0 <= i < Z.of_nat (length l)) then Some (<[Z.to_nat i := x]> l)
  else None.

(** [l[i].field = ...] : read-modify-write of one element. *)
Definition upd {A} (l : list A) (i : Z) (f : A -> A) : option (list A) :=
  x ← get l i; set l i (f x).

End Arr.

(** ** Data model *)

Record Node := mkNode {
  dataOffset : Z;
  dataSize : Z;
  binListPrev : Z;
  binListNext : Z;
  neighborPrev : Z;
  neighborNext : Z;
  used : bool
}.

Definition with_dataSize (v : Z) (n : Node) : Node :=
  mkNode (dataOffset n) v (binListPrev n) (binListNext n) (neighborPrev n) (neighborNext n) (used n).
Definition with_binListPrev (v : Z) (n : Node) : Node :=
  mkNode (dataOffset n) (dataSize n) v (binListNext n) (neighborPrev n) (neighborNext n) (used n).
Definition with_binListNext (v : Z) (n : Node) : Node :=
  mkNode (dataOffset n) (dataSize n) (binListPrev n) v (neighborPrev n) (neighborNext n) (used n).
Definition with_neighborPrev (v : Z) (n : Node) : Node :=
  mkNode (dataOffset n) (dataSize n) (binListPrev n) (binListNext n) v (neighborNext n) (used n).
Definition with_neighborNext (v : Z) (n : Node) : Node :=
  mkNode (dataOffset n) (dataSize n) (binListPrev n) (binListNext n) (neighborPrev n) v (used n).
Definition with_used (v : bool) (n : Node) : Node :=
  mkNode (dataOffset n) (dataSize n) (binListPrev n) (binListNext n) (neighborPrev n) (neighborNext n) v.

Record Allocation := mkAllocation { offset : Z; metadata : Z }.

Definition EmptyAllocation : Allocation := mkAllocation NO_SPACE NO_SPACE.

Record StorageReport := mkStorageReport { totalFreeSpace : Z; largestFreeRegion : Z }.

Record Allocator := mkAllocator {
  m_size : Z;
  m_maxAllocs : Z;
  m_freeStorage : Z;
  m_usedBinsTop : Z;
  m_usedBins : list Z;
  m_binIndices : list Z;
  m_nodes : list Node;
  m_freeNodes : list Z;
  m_freeOffset : Z
}.

Definition set_freeStorage (v : Z) (a : Allocator) : Allocator :=
  mkAllocator (m_size a) (m_maxAllocs a) v (m_usedBinsTop a) (m_usedBins a)
    (m_binIndices a) (m_nodes a) (m_freeNodes a) (m_freeOffset a).
Definition set_usedBinsTop (v : Z) (a : Allocator) : Allocator :=
  mkAllocator (m_size a) (m_maxAllocs a) (m_freeStorage a) v (m_usedBins a)
    (m_binIndices a) (m_nodes a) (m_freeNodes a) (m_freeOffset a).
Definition set_usedBins (v : list Z) (a : Allocator) : Allocator :=
  mkAllocator (m_size a) (m_maxAllocs a) (m_freeStorage a) (m_usedBinsTop a) v
    (m_binIndices a) (m_nodes a) (m_freeNodes a) (m_freeOffset a).
Definition set_binIndices (v : list Z) (a : Allocator) : Allocator :=
  mkAllocator (m_size a) (m_maxAllocs a) (m_freeStorage a) (m_usedBinsTop a) (m_usedBins a)
    v (m_nodes a) (m_freeNodes a) (m_freeOffset a).
Definition set_nodes (v : list Node) (a : Allocator) : Allocator :=
  mkAllocator (m_size a) (m_maxAllocs a) (m_freeStorage a) (m_usedBinsTop a) (m_usedBins a)
    (m_binIndices a) v (m_freeNodes a) (m_freeOffset a).
Definition set_freeNodes (v : list Z) (a : Allocator) : Allocator :=
  mkAllocator (m_size a) (m_maxAllocs a) (m_freeStorage a) (m_usedBinsTop a) (m_usedBins a)
    (m_binIndices a) (m_nodes a) v (m_freeOffset a).
Definition set_freeOffset (v : Z) (a : Allocator) : Allocator :=
  mkAllocator (m_size a) (m_maxAllocs a) (m_freeStorage a) (m_usedBinsTop a) (m_usedBins a)
    (m_binIndices a) (m_nodes a) (m_freeNodes a) v.

(** ** Bin lists *)

(** [m_usedBins[top] &= ~(1 << leaf)], and the top bit when the leaf byte
    becomes zero: the tail shared by [allocate] and [removeNodeFromBin]. *)
Definition clearBinBits (a : Allocator) (topBinIndex leafBinIndex : Z) : option Allocator :=
  leafMask ← Arr.get (m_usedBins a) topBinIndex;
  usedBins ← Arr.set (m_usedBins a) topBinIndex
                (u8 (Z.land leafMask (Z.lnot (Z.shiftl 1 leafBinIndex))));
  let a := set_usedBins usedBins a in
  leafMask ← Arr.get (m_usedBins a) topBinIndex;
  (* All leaf bins empty? *)
  if leafMask =? 0 then
    Some (set_usedBinsTop
            (u32 (Z.land (m_usedBinsTop a) (Z.lnot (Z.shiftl 1 topBinIndex)))) a)
  else Some a.

Definition insertNodeIntoBin (a : Allocator) (size dataOffset : Z) : option (Z * Allocator) :=
  (* Round down to bin index to ensure that bin >= alloc *)
  let binIndex := uintToFloatRoundDown size in
  let topBinIndex := Z.shiftr binIndex TOP_BINS_INDEX_SHIFT in
  let leafBinIndex := Z.land binIndex LEAF_BINS_INDEX_MASK in
  (* Bin was empty before? *)
  head ← Arr.get (m_binIndices a) binIndex;
  a ← (if decide (head = NODE_UNUSED) then
         (* Set bin mask bits *)
         leafMask ← Arr.get (m_usedBins a) topBinIndex;
         usedBins ← Arr.set (m_usedBins a) topBinIndex
                       (u8 (Z.lor leafMask (Z.shiftl 1 leafBinIndex)));
         Some (set_usedBinsTop
                 (u32 (Z.lor (m_usedBinsTop a) (Z.shiftl 1 topBinIndex)))
                 (set_usedBins usedBins a))
       else Some a);
  (* Take a freelist node and insert on top of the bin linked list *)
  topNodeIndex ← Arr.get (m_binIndices a) binIndex;
  nodeIndex ← Arr.get (m_freeNodes a) (m_freeOffset a);
  let a := set_freeOffset (sub32 (m_freeOffset a) 1) a in
  nodes ← Arr.set (m_nodes a) nodeIndex
            (mkNode dataOffset size NODE_UNUSED topNodeIndex NODE_UNUSED NODE_UNUSED false);
  nodes ← (if decide (topNodeIndex = NODE_UNUSED) then Some nodes
           else Arr.upd nodes topNodeIndex (with_binListPrev nodeIndex));
  binIndices ← Arr.set (m_binIndices a) binIndex nodeIndex;
  let a := set_binIndices binIndices (set_nodes nodes a) in
  let a := set_freeStorage (add32 (m_freeStorage a) size) a in
  Some (nodeIndex, a).

Definition removeNodeFromBin (a : Allocator) (nodeIndex : Z) : option Allocator :=
  node ← Arr.get (m_nodes a) nodeIndex;
  a ← (if decide (binListPrev node ≠ NODE_UNUSED) then
         (* Easy case: We have previous node. Just remove this node from
            the middle of the list. *)
         nodes ← Arr.upd (m_nodes a) (binListPrev node) (with_binListNext (binListNext node));
         node ← Arr.get nodes nodeIndex;
         nodes ← (if decide (binListNext node ≠ NODE_UNUSED) then
                    Arr.upd nodes (binListNext node) (with_binListPrev (binListPrev node))
                  else Some nodes);
         Some (set_nodes nodes a)
       else
         (* Hard case: We are the first node in a bin. Find the bin. *)
         let binIndex := uintToFloatRoundDown (dataSize node) in
         let topBinIndex := Z.shiftr binIndex TOP_BINS_INDEX_SHIFT in
         let leafBinIndex := Z.land binIndex LEAF_BINS_INDEX_MASK in
         binIndices ← Arr.set (m_binIndices a) binIndex (binListNext node);
         nodes ← (if decide (binListNext node ≠ NODE_UNUSED) then
                    Arr.upd (m_nodes a) (binListNext node) (with_binListPrev NODE_UNUSED)
                  else Some (m_nodes a));
         let a := set_nodes nodes (set_binIndices binIndices a) in
         (* Bin empty? *)
         head ← Arr.get (m_binIndices a) binIndex;
         if decide (head = NODE_UNUSED) then clearBinBits a topBinIndex leafBinIndex
         else Some a);
  (* Insert the node to freelist *)
  let a := set_freeOffset (add32 (m_freeOffset a) 1) a in
  freeNodes ← Arr.set (m_freeNodes a) (m_freeOffset a) nodeIndex;
  let a := set_freeNodes freeNodes a in
  node ← Arr.get (m_nodes a) nodeIndex;
  Some (set_freeStorage (sub32 (m_freeStorage a) (dataSize node)) a).

(** ** Public operations *)

(** The loop of [resetAllocator] filling [m_freeNodes]: [n] iterations
    left, at index [i]. *)
Fixpoint freeNodes_loop (n : nat) (i maxAllocs : Z) : list Z :=
  match n with
  | O => []
  | S k => sub32 (sub32 maxAllocs i) 1 :: freeNodes_loop k (i + 1) maxAllocs
  end.

(** The pool pointers are non-null once [initAllocator] has run; the model
    has no null pool. *)
Definition resetAllocator (a : Allocator) : option Allocator :=
  let a := set_freeStorage 0 a in
  let a := set_usedBinsTop 0 a in
  let a := set_freeOffset (sub32 (m_maxAllocs a) 1) a in
  let a := set_usedBins (replicate (Z.to_nat NUM_TOP_BINS) 0) a in
  let a := set_binIndices (replicate (Z.to_nat NUM_LEAF_BINS) NODE_UNUSED) a in
  (* calloc, then the loop over [i < m_maxAllocs] *)
  let a := set_nodes (replicate (Z.to_nat (m_maxAllocs a))
                        (mkNode 0 0 NODE_UNUSED NODE_UNUSED NODE_UNUSED NODE_UNUSED false)) a in
  (* Freelist is a stack. Nodes in inverse order so that [0] pops first. *)
  let a := set_freeNodes (freeNodes_loop (Z.to_nat (m_maxAllocs a)) 0 (m_maxAllocs a)) a in
  (* Start state: Whole storage as one big node *)
  r ← insertNodeIntoBin a (m_size a) 0;
  Some r.2.

Definition initAllocator (size max_allocs : Z) : option Allocator :=
  resetAllocator (mkAllocator size max_allocs 0 0 [] [] [] [] 0).

(** Lines 239-267 of [allocate]: the two-level bitmap search.  [Some None]
    is the out-of-space return, [Some (Some (top, leaf))] the bin found. *)
Definition allocate_findBin (a : Allocator) (size : Z) : option (option (Z * Z)) :=
  (* Round up to bin index to ensure that alloc >= bin *)
  let minBinIndex := uintToFloatRoundUp size in
  let minTopBinIndex := Z.shiftr minBinIndex TOP_BINS_INDEX_SHIFT in
  let minLeafBinIndex := Z.land minBinIndex LEAF_BINS_INDEX_MASK in
  let topBinIndex := minTopBinIndex in
  let leafBinIndex := NO_SPACE in
  (* If top bin exists, scan its leaf bin. This can fail (NO_SPACE). *)
  leafBinIndex ← (if decide (Z.land (m_usedBinsTop a) (shl32 1 topBinIndex) ≠ 0) then
                    leafMask ← Arr.get (m_usedBins a) topBinIndex;
                    Some (findLowestSetBitAfter leafMask minLeafBinIndex)
                  else Some leafBinIndex);
  (* If we didn't find space in top bin, we search top bin from +1 *)
  if decide (leafBinIndex = NO_SPACE) then
    let topBinIndex := findLowestSetBitAfter (m_usedBinsTop a) (add32 minTopBinIndex 1) in
    (* Out of space? *)
    if decide (topBinIndex = NO_SPACE) then Some None
    else
      leafMask ← Arr.get (m_usedBins a) topBinIndex;
      Some (Some (topBinIndex, tzcnt_nonzero leafMask))
  else Some (Some (topBinIndex, leafBinIndex)).

Definition allocate (a : Allocator) (size : Z) : option (Allocation * Allocator) :=
  let res := EmptyAllocation in
  (* Out of allocations? *)
  if decide (m_freeOffset a = 0) then Some (res, a)
  else
    found ← allocate_findBin a size;
    match found with
    | None => Some (res, a)
    | Some (topBinIndex, leafBinIndex) =>
      let binIndex := Z.lor (shl32 topBinIndex TOP_BINS_INDEX_SHIFT) leafBinIndex in
      (* Pop the top node of the bin. Bin top = node.next. *)
      nodeIndex ← Arr.get (m_binIndices a) binIndex;
      node ← Arr.get (m_nodes a) nodeIndex;
      let nodeTotalSize := dataSize node in
      nodes ← Arr.upd (m_nodes a) nodeIndex (fun n => with_used true (with_dataSize size n));
      let a := set_nodes nodes a in
      node ← Arr.get (m_nodes a) nodeIndex;
      binIndices ← Arr.set (m_binIndices a) binIndex (binListNext node);
      let a := set_binIndices binIndices a in
      nodes ← (if decide (binListNext node ≠ NODE_UNUSED) then
                 Arr.upd (m_nodes a) (binListNext node) (with_binListPrev NODE_UNUSED)
               else Some (m_nodes a));
      let a := set_nodes nodes a in
      let a := set_freeStorage (sub32 (m_freeStorage a) nodeTotalSize) a in
      (* Bin empty? *)
      head ← Arr.get (m_binIndices a) binIndex;
      a ← (if decide (head = NODE_UNUSED) then clearBinBits a topBinIndex leafBinIndex
           else Some a);
      (* Push back reminder N elements to a lower bin *)
      let reminderSize := sub32 nodeTotalSize size in
      a ← (if decide (reminderSize > 0) then
             node ← Arr.get (m_nodes a) nodeIndex;
             '(newNodeIndex, a) ← insertNodeIntoBin a reminderSize (add32 (dataOffset node) size);
             (* Link nodes next to each other so that we can merge them
                later if both are free *)
             node ← Arr.get (m_nodes a) nodeIndex;
             nodes ← (if decide (neighborNext node ≠ NODE_UNUSED) then
                        Arr.upd (m_nodes a) (neighborNext node) (with_neighborPrev newNodeIndex)
                      else Some (m_nodes a));
             nodes ← Arr.upd nodes newNodeIndex (with_neighborPrev nodeIndex);
             node ← Arr.get nodes nodeIndex;
             nodes ← Arr.upd nodes newNodeIndex (with_neighborNext (neighborNext node));
             nodes ← Arr.upd nodes nodeIndex (with_neighborNext newNodeIndex);
             Some (set_nodes nodes a)
           else Some a);
      node ← Arr.get (m_nodes a) nodeIndex;
      Some (mkAllocation (dataOffset node) nodeIndex, a)
    end.

(** [freeAllocation], lines 336-349: merge with a free previous neighbor. *)
Definition freeAllocation_mergePrev (a : Allocator) (nodeIndex offset size : Z)
    : option (Z * Z * Allocator) :=
  node ← Arr.get (m_nodes a) nodeIndex;
  prevUsed ← (if decide (neighborPrev node ≠ NODE_UNUSED) then
                used <$> Arr.get (m_nodes a) (neighborPrev node)
              else Some true);
  if decide (neighborPrev node ≠ NODE_UNUSED ∧ prevUsed = false) then
    (* Previous (contiguous) free node: Change offset to previous node
       offset. Sum sizes *)
    prevNode ← Arr.get (m_nodes a) (neighborPrev node);
    let offset := dataOffset prevNode in
    let size := add32 size (dataSize prevNode) in
    (* Remove node from the bin linked list and put it in the freelist *)
    a ← removeNodeFromBin a (neighborPrev node);
    (* [prevNode] points into the pool: read it again after the call *)
    prevNode ← Arr.get (m_nodes a) (neighborPrev node);
    nodes ← Arr.upd (m_nodes a) nodeIndex (with_neighborPrev (neighborPrev prevNode));
    Some (offset, size, set_nodes nodes a)
  else Some (offset, size, a).

(** [freeAllocation], lines 351-362: merge with a free next neighbor. *)
Definition freeAllocation_mergeNext (a : Allocator) (nodeIndex size : Z)
    : option (Z * Allocator) :=
  node ← Arr.get (m_nodes a) nodeIndex;
  nextUsed ← (if decide (neighborNext node ≠ NODE_UNUSED) then
                used <$> Arr.get (m_nodes a) (neighborNext node)
              else Some true);
  if decide (neighborNext node ≠ NODE_UNUSED ∧ nextUsed = false) then
    (* Next (contiguous) free node: Offset remains the same. Sum sizes. *)
    nextNode ← Arr.get (m_nodes a) (neighborNext node);
    let size := add32 size (dataSize nextNode) in
    (* Remove node from the bin linked list and put it in the freelist *)
    a ← removeNodeFromBin a (neighborNext node);
    (* [nextNode] points into the pool: read it again after the call *)
    nextNode ← Arr.get (m_nodes a) (neighborNext node);
    nodes ← Arr.upd (m_nodes a) nodeIndex (with_neighborNext (neighborNext nextNode));
    Some (size, set_nodes nodes a)
  else Some (size, a).

(** [freeAllocation], lines 364-385: the freed slot goes back to the
    freelist, the combined region into its bin and between the neighbors. *)
Definition freeAllocation_insertCombined (a : Allocator) (nodeIndex size offset : Z)
    : option Allocator :=
  node ← Arr.get (m_nodes a) nodeIndex;
  let neighborNext := neighborNext node in
  let neighborPrev := neighborPrev node in
  (* Insert the removed node to freelist *)
  let a := set_freeOffset (add32 (m_freeOffset a) 1) a in
  freeNodes ← Arr.set (m_freeNodes a) (m_freeOffset a) nodeIndex;
  let a := set_freeNodes freeNodes a in
  (* Insert the (combined) free node to bin *)
  '(combinedNodeIndex, a) ← insertNodeIntoBin a size offset;
  (* Connect neighbors with the new combined node *)
  nodes ← (if decide (neighborNext ≠ NODE_UNUSED) then
             nodes ← Arr.upd (m_nodes a) combinedNodeIndex (with_neighborNext neighborNext);
             Arr.upd nodes neighborNext (with_neighborPrev combinedNodeIndex)
           else Some (m_nodes a));
  nodes ← (if decide (neighborPrev ≠ NODE_UNUSED) then
             nodes ← Arr.upd nodes combinedNodeIndex (with_neighborPrev neighborPrev);
             Arr.upd nodes neighborPrev (with_neighborNext combinedNodeIndex)
           else Some nodes);
  Some (set_nodes nodes a).

Definition freeAllocation (a : Allocator) (allocation : Allocation) : option Allocator :=
  let nodeIndex := metadata allocation in
  node ← Arr.get (m_nodes a) nodeIndex;
  (* Merge with neighbors... *)
  let offset := dataOffset node in
  let size := dataSize node in
  '(offset, size, a) ← freeAllocation_mergePrev a nodeIndex offset size;
  '(size, a) ← freeAllocation_mergeNext a nodeIndex size;
  freeAllocation_insertCombined a nodeIndex size offset.

Definition storageReport (a : Allocator) : option StorageReport :=
  let largestFreeRegion := 0 in
  let freeStorage := 0 in
  (* Out of allocations? -> Zero free space *)
  if decide (m_freeOffset a > 0) then
    let freeStorage := m_freeStorage a in
    if decide (m_usedBinsTop a ≠ 0) then
      let topBinIndex := sub32 31 (lzcnt_nonzero (m_usedBinsTop a)) in
      leafMask ← Arr.get (m_usedBins a) topBinIndex;
      let leafBinIndex := sub32 31 (lzcnt_nonzero leafMask) in
      let largestFreeRegion :=
        floatToUint (Z.lor (shl32 topBinIndex TOP_BINS_INDEX_SHIFT) leafBinIndex) in
      Some (mkStorageReport freeStorage largestFreeRegion)
    else Some (mkStorageReport freeStorage largestFreeRegion)
  else Some (mkStorageReport freeStorage largestFreeRegion).

(** * Specification vocabulary *)

(** ** The node pool seen from outside *)

(** Slots [0 .. m_freeOffset] of [m_freeNodes]: the free-slot stack.  When
    the stack is empty [m_freeOffset] has wrapped to [0xffffffff]. *)
Definition stack (a : Allocator) : list Z :=
  take (Z.to_nat (add32 (m_freeOffset a) 1)) (m_freeNodes a).

Definition node (a : Allocator) (n : Z) : option Node := Arr.get (m_nodes a) n.

(** A pool slot is live when it is not on the free-slot stack. *)
Definition live (a : Allocator) (n : Z) : Prop :=
  0 <= n < m_maxAllocs a /\ n ∉ stack a.

(** The double-delete check of [freeAllocation]: the node is handed out. *)
Definition node_in_use (a : Allocator) (n : Z) : Prop :=
  exists nd, node a n = Some nd /\ used nd = true.

(** The pool was obtained by [calloc (m_maxAllocs, ...)], with [m_maxAllocs]
    a [uint32]. *)
Definition pool_sized (a : Allocator) : Prop :=
  Z.of_nat (length (m_nodes a)) = m_maxAllocs a /\ is_u32 (m_maxAllocs a).

(** ** Neighbor chain *)

(** [seg nodes prev off l next endoff]: the nodes [l], in this order, are
    linked through [neighborPrev]/[neighborNext] between [prev] and [next],
    start at [off], follow each other without gap and end at [endoff]. *)
Fixpoint seg (nodes : list Node) (prev off : Z) (l : list Z) (next endoff : Z) : Prop :=
  match l with
  | [] => off = endoff
  | n :: l' =>
      exists nd, Arr.get nodes n = Some nd
        /\ neighborPrev nd = prev
        /\ dataOffset nd = off
        /\ 0 <= dataSize nd
        /\ neighborNext nd = hd next l'
        /\ seg nodes n (off + dataSize nd) l' next endoff
  end.

(** The last element of a list, or [d] for the empty list. *)
Definition last_or {A} (d : A) (l : list A) : A := default d (last l).

Definition is_free (nodes : list Node) (n : Z) : bool :=
  match Arr.get nodes n with
  | Some nd => negb (used nd)
  | None => false
  end.

(** No two consecutive flags are both set; [p] is the flag before the list. *)
Fixpoint sparse (p : bool) (l : list bool) : Prop :=
  match l with
  | [] => True
  | b :: l' => ~ (p = true /\ b = true) /\ sparse b l'
  end.

(** ** Bins *)

Definition bin_of (nd : Node) : Z := uintToFloatRoundDown (dataSize nd).

Record bitmap_ok (top : Z) (usedBins binIndices : list Z) : Prop := {
  bm_top_range : is_u32 top;
  bm_leaf_len : length usedBins = 32%nat;
  bm_bins_len : length binIndices = 256%nat;
  bm_leaf_range : forall i x, Arr.get usedBins i = Some x -> is_u8 x;
  bm_top : forall i x, Arr.get usedBins i = Some x ->
             (Z.testbit top i = true <-> x <> 0);
  bm_leaf : forall i j x h, 0 <= j < 8 ->
             Arr.get usedBins i = Some x -> Arr.get binIndices (8 * i + j) = Some h ->
             (Z.testbit x j = true <-> h <> NODE_UNUSED)
}.

Definition free_in (nodes : list Node) (L : list Z) (n : Z) (nd : Node) : Prop :=
  n ∈ L /\ Arr.get nodes n = Some nd /\ used nd = false.

Record bins_ok (nodes : list Node) (binIndices : list Z) (L : list Z) : Prop := {
  bins_head : forall b h, Arr.get binIndices b = Some h -> h <> NODE_UNUSED ->
      exists nd, free_in nodes L h nd /\ binListPrev nd = NODE_UNUSED /\ bin_of nd = b;
  bins_size : forall n nd, free_in nodes L n nd -> is_u32 (dataSize nd);
  bins_first : forall n nd, free_in nodes L n nd -> binListPrev nd = NODE_UNUSED ->
      Arr.get binIndices (bin_of nd) = Some n;
  bins_prev : forall n nd, free_in nodes L n nd -> binListPrev nd <> NODE_UNUSED ->
      exists pd, free_in nodes L (binListPrev nd) pd /\ binListNext pd = n;
  bins_next : forall n nd, free_in nodes L n nd -> binListNext nd <> NODE_UNUSED ->
      exists xd, free_in nodes L (binListNext nd) xd /\ binListPrev xd = n
                 /\ bin_of xd = bin_of nd
}.

(** Valid indices are never the sentinel. *)
Definition no_sentinel (nodes : list Node) : Prop :=
  forall j nd, Arr.get nodes j = Some nd -> j <> NODE_UNUSED.

(** How the node array changes around one bin-list operation.  [nodes']
    is [nodes] after node [p], with bin links [q] and [r], was unlinked;
    after node [k] was put in front of [t]; with the bin-list fields kept;
    with the address fields kept. *)
Definition unlinked (p q r : Z) (nodes nodes' : list Node) : Prop :=
  length nodes' = length nodes
  /\ forall j nd, j <> p -> Arr.get nodes j = Some nd ->
       exists nd', Arr.get nodes' j = Some nd'
         /\ used nd' = used nd /\ dataSize nd' = dataSize nd
         /\ binListPrev nd' = (if decide (j = r) then q else binListPrev nd)
         /\ binListNext nd' = (if decide (j = q) then r else binListNext nd).

Definition linked (k t size : Z) (nodes nodes' : list Node) : Prop :=
  length nodes' = length nodes
  /\ (exists kd, Arr.get nodes' k = Some kd
         /\ used kd = false /\ dataSize kd = size
         /\ binListPrev kd = NODE_UNUSED /\ binListNext kd = t)
  /\ forall j nd, j <> k -> Arr.get nodes j = Some nd ->
       exists nd', Arr.get nodes' j = Some nd'
         /\ used nd' = used nd /\ dataSize nd' = dataSize nd
         /\ binListPrev nd' = (if decide (j = t) then k else binListPrev nd)
         /\ binListNext nd' = binListNext nd.

Definition bin_same (nodes nodes' : list Node) : Prop :=
  length nodes' = length nodes
  /\ forall j nd, Arr.get nodes j = Some nd ->
       exists nd', Arr.get nodes' j = Some nd'
         /\ used nd' = used nd /\ dataSize nd' = dataSize nd
         /\ binListPrev nd' = binListPrev nd
         /\ binListNext nd' = binListNext nd.

Definition geom_eq (nd nd' : Node) : Prop :=
  dataOffset nd' = dataOffset nd /\ dataSize nd' = dataSize nd
  /\ used nd' = used nd
  /\ neighborPrev nd' = neighborPrev nd /\ neighborNext nd' = neighborNext nd.

(** The address fields of every node but [k] are kept. *)
Definition geom_same (k : Z) (nodes nodes' : list Node) : Prop :=
  length nodes' = length nodes
  /\ forall j nd, j <> k -> Arr.get nodes j = Some nd ->
       exists nd', Arr.get nodes' j = Some nd' /\ geom_eq nd nd'.

(** The fields of node [j] after a node with bin links [q] and [r] was
    unlinked. *)
Definition unlink_fields (q r j : Z) (nd : Node) : Node :=
  (if decide (j = r) then with_binListPrev q else id)
    ((if decide (j = q) then with_binListNext r else id) nd).

(** The address fields of every node are kept. *)
Definition geom_keep (nodes nodes' : list Node) : Prop :=
  length nodes' = length nodes
  /\ forall j nd, Arr.get nodes j = Some nd ->
       exists nd', Arr.get nodes' j = Some nd' /\ geom_eq nd nd'.

(** [fs] is the content of the free-slot stack, bottom first. *)
Definition stack_is (freeNodes : list Z) (freeOffset : Z) (fs : list Z) : Prop :=
  Z.of_nat (length freeNodes) < 2 ^ 32
  /\ freeOffset = u32 (Z.of_nat (length fs) - 1)
  /\ take (length fs) freeNodes = fs.

(** ** The allocator invariant

    [L] lists the live nodes in address order, [fs] is the free-slot
    stack, bottom first. *)
Record Inv (a : Allocator) (L fs : list Z) : Prop := {
  inv_size : is_u32 (m_size a);
  inv_max : m_maxAllocs a < 2 ^ 32;
  inv_nodes_len : Z.of_nat (length (m_nodes a)) = m_maxAllocs a;
  inv_free_len : Z.of_nat (length (m_freeNodes a)) = m_maxAllocs a;
  inv_offset : m_freeOffset a = u32 (Z.of_nat (length fs) - 1);
  inv_stack : take (length fs) (m_freeNodes a) = fs;
  inv_nodup : NoDup (L ++ fs);
  inv_cover : forall i, 0 <= i < m_maxAllocs a -> i ∈ L \/ i ∈ fs;
  inv_fs_range : forall k, k ∈ fs -> 0 <= k < m_maxAllocs a;
  inv_count : Z.of_nat (length L) + Z.of_nat (length fs) = m_maxAllocs a;
  inv_used : forall i nd, Arr.get (m_nodes a) i = Some nd -> used nd = true -> i ∈ L;
  inv_chain : seg (m_nodes a) NODE_UNUSED 0 L NODE_UNUSED (m_size a);
  inv_sparse : sparse false (is_free (m_nodes a) <$> L);
  inv_bitmap : bitmap_ok (m_usedBinsTop a) (m_usedBins a) (m_binIndices a);
  inv_bins : bins_ok (m_nodes a) (m_binIndices a) L
}.

(** Inside [freeAllocation]: [a0] is the allocator at the call, with live
    nodes [l1 ++ mp ++ n :: mx ++ l2]; [a] is the allocator once the free
    neighbors [mp] (before [n]) and [mx] (after [n]) have been taken out of
    their bins. *)
Record Merged (a0 a : Allocator) (l1 mp : list Z) (n : Z) (mx l2 fs : list Z) : Prop := {
  mg_size : m_size a = m_size a0;
  mg_max : m_maxAllocs a = m_maxAllocs a0;
  mg_nlen : length (m_nodes a) = length (m_nodes a0);
  mg_flen : length (m_freeNodes a) = length (m_freeNodes a0);
  mg_stack : stack_is (m_freeNodes a) (m_freeOffset a) (fs ++ mp ++ mx);
  mg_bitmap : bitmap_ok (m_usedBinsTop a) (m_usedBins a) (m_binIndices a);
  mg_bins : bins_ok (m_nodes a) (m_binIndices a) (l1 ++ n :: l2);
  mg_geom : forall j nd, j <> n -> Arr.get (m_nodes a0) j = Some nd ->
      exists nd', Arr.get (m_nodes a) j = Some nd' /\ geom_eq nd nd';
  mg_node : exists nd0 nd', Arr.get (m_nodes a0) n = Some nd0
      /\ Arr.get (m_nodes a) n = Some nd'
      /\ used nd' = used nd0
      /\ neighborPrev nd' = last_or NODE_UNUSED l1
      /\ neighborNext nd' = hd NODE_UNUSED l2
}.

(** ** States produced by the public operations *)

Inductive reachable : Allocator -> Prop :=
| reach_init size max_allocs a :
    is_u32 size -> is_u32 max_allocs ->
    initAllocator size max_allocs = Some a -> reachable a
| reach_reset a a' :
    reachable a -> resetAllocator a = Some a' -> reachable a'
| reach_allocate a size res a' :
    reachable a -> is_u32 size ->
    allocate a size = Some (res, a') -> reachable a'
| reach_free a allocation a' :
    reachable a -> node_in_use a (metadata allocation) ->
    freeAllocation a allocation = Some a' -> reachable a'.

(** ** The properties the public operations keep *)

(** The live nodes, in the order of the chain, tile [[0, m_size)]. *)
Definition neighbor_chain_tiles (a : Allocator) : Prop :=
  exists chain : list Z,
    NoDup chain
    /\ (forall n, n ∈ chain <-> live a n)
    /\ seg (m_nodes a) NODE_UNUSED 0 chain NODE_UNUSED (m_size a).

Definition next_is_adjacent (a : Allocator) : Prop :=
  forall n nd, live a n -> node a n = Some nd -> neighborNext nd <> NODE_UNUSED ->
    exists md, node a (neighborNext nd) = Some md
      /\ live a (neighborNext nd)
      /\ dataOffset md = dataOffset nd + dataSize nd.

Definition no_adjacent_free (a : Allocator) : Prop :=
  forall n nd, live a n -> node a n = Some nd -> used nd = false ->
    (neighborNext nd <> NODE_UNUSED ->
       exists md, node a (neighborNext nd) = Some md /\ used md = true)
    /\ (neighborPrev nd <> NODE_UNUSED ->
       exists pd, node a (neighborPrev nd) = Some pd /\ used pd = true).

Definition bitmap_exact (a : Allocator) : Prop :=
  (forall i, 0 <= i < 32 ->
     exists x, Arr.get (m_usedBins a) i = Some x
       /\ (Z.testbit (m_usedBinsTop a) i = true <-> x <> 0))
  /\ (forall i j, 0 <= i < 32 -> 0 <= j < 8 ->
     exists x h, Arr.get (m_usedBins a) i = Some x
       /\ Arr.get (m_binIndices a) (i * 8 + j) = Some h
       /\ (Z.testbit x j = true <-> h <> NODE_UNUSED)).

(** What a call [allocate a size = (res, a')] did: either it failed and
    changed nothing, or it popped a free node at least as large as the
    request, and cut the rest, if any, into a new free node behind it. *)
Definition alloc_post (a : Allocator) (size : Z) (res : Allocation) (a' : Allocator) : Prop :=
  (res = EmptyAllocation /\ a' = a)
  \/ exists nd nd',
       node a (metadata res) = Some nd /\ used nd = false
       /\ size <= dataSize nd
       /\ sub32 (dataSize nd) size = dataSize nd - size
       /\ node a' (metadata res) = Some nd'
       /\ used nd' = true /\ dataSize nd' = size
       /\ dataOffset nd' = dataOffset nd /\ offset res = dataOffset nd
       /\ (dataSize nd - size > 0 ->
            exists kd, node a' (neighborNext nd') = Some kd
              /\ used kd = false
              /\ dataSize kd = dataSize nd - size
              /\ dataOffset kd = dataOffset nd + size).

(** ** Storage report, as the specification words it *)

Definition highest_set_bit (v : Z) : Z := Z.log2 v.

Definition report_spec (a : Allocator) : StorageReport :=
  mkStorageReport (m_freeStorage a)
    (if decide (m_usedBinsTop a = 0) then 0
     else
       let t := highest_set_bit (m_usedBinsTop a) in
       let l := highest_set_bit (default 0 (Arr.get (m_usedBins a) t)) in
       floatToUint (Z.lor (Z.shiftl t 3) l)).

(** The bitmap words are well-formed enough for the report to be defined:
    the bit scans run on non-zero words. *)
Definition report_defined (a : Allocator) : Prop :=
  is_u32 (m_usedBinsTop a)
  /\ length (m_usedBins a) = 32%nat
  /\ (forall i x, Arr.get (m_usedBins a) i = Some x -> is_u8 x)
  /\ (forall i x, Arr.get (m_usedBins a) i = Some x ->
        Z.testbit (m_usedBinsTop a) i = true -> x <> 0).

(** ** Scenarios *)

Definition MiB256 : Z := 1024 * 1024 * 256.

Definition scenario4 : option (Z * Z * Z) :=
  a0 ← initAllocator MiB256 (128 * 1024);
  '(a, s) ← allocate a0 1024;
  '(b, s) ← allocate s 3456;
  s ← freeAllocation s a;
  '(c, s) ← allocate s 2345;
  '(d, s) ← allocate s 456;
  '(e, s) ← allocate s 512;
  Some (offset c, offset d, offset e).

(** A small run used to exercise the theorems: a pool of 1024 units with
    8 node slots; two allocations; both freed again, the second free
    merging with both neighbors. *)
Definition blank : Allocator := mkAllocator 0 0 0 0 [] [] [] [] 0.

Definition demo_fresh : Allocator := default blank (initAllocator 1024 8).

Definition demo_first : Allocation * Allocator :=
  default (EmptyAllocation, blank) (allocate demo_fresh 100).

Definition demo_second : Allocation * Allocator :=
  default (EmptyAllocation, blank) (allocate demo_first.2 200).

Definition demo_freed : Allocator :=
  default blank (freeAllocation demo_second.2 demo_first.1).

Definition demo_merged : Allocator :=
  default blank (freeAllocation demo_freed demo_second.1).

(** A pool with two node slots: after [initAllocator] one slot is left on
    the stack and [m_freeOffset] is 0. *)
Definition two_slots : Allocator := default blank (initAllocator 1024 2).

(** Steps of [floatToUint] over consecutive bin indices. *)
Definition step_mono (v : Z) : bool := floatToUint v <=? floatToUint (v + 1).

Definition roundtrip_ok (v : Z) : bool :=
  (uintToFloatRoundUp (floatToUint v) =? v) && (uintToFloatRoundDown (floatToUint v) =? v).

(** * The rest of [offsetAllocator.c] *)

(** ** [allocationSize]

    The function is [static] and has no caller in the file.  A null pool
    pointer is the empty pool [[]] that [initAllocator] starts from. *)
Definition allocationSize (a : Allocator) (allocation : Allocation) : option Z :=
  if decide (metadata allocation = NO_SPACE) then Some 0
  else
    match m_nodes a with
    | [] => Some 0
    | _ :: _ =>
        node ← Arr.get (m_nodes a) (metadata allocation);
        Some (dataSize node)
    end.

(** ** Regions *)

(** The region [[dataOffset, dataOffset + dataSize)] of a node lies in the
    space of the allocator. *)
Definition region_in_space (a : Allocator) (nd : Node) : Prop :=
  0 <= dataOffset nd /\ 0 <= dataSize nd /\ dataOffset nd + dataSize nd <= m_size a.

(** Two regions do not overlap. *)
Definition regions_apart (nd md : Node) : Prop :=
  dataOffset nd + dataSize nd <= dataOffset md
  \/ dataOffset md + dataSize md <= dataOffset nd.

(** No live node is handed out. *)
Definition nothing_in_use (a : Allocator) : Prop :=
  forall n nd, live a n -> node a n = Some nd -> used nd = false.

(** The state right after [resetAllocator]: node 0 is the only live node,
    free, and spans the whole space; every other slot is on the stack. *)
Definition fresh_state (a : Allocator) : Prop :=
  (forall k, live a k <-> k = 0)
  /\ (exists nd, node a 0 = Some nd
        /\ dataOffset nd = 0 /\ dataSize nd = m_size a /\ used nd = false
        /\ neighborPrev nd = NODE_UNUSED /\ neighborNext nd = NODE_UNUSED)
  /\ m_freeStorage a = m_size a
  /\ Z.of_nat (length (stack a)) = m_maxAllocs a - 1.

(** An allocator whose fields hold leftovers of an earlier use. *)
Definition demo_stale : Allocator :=
  mkAllocator 4096 4 77 5 [1; 2] [3] [] [9; 9; 9] 17.

(** A third allocation in the run of [demo_second]. *)
Definition demo_third : Allocation * Allocator :=
  default (EmptyAllocation, blank) (allocate demo_second.2 300).

(** ** Bookkeeping: free storage and bin lists *)

(** The size a node contributes to the free storage. *)
Definition free_size (nodes : list Node) (n : Z) : Z :=
  match Arr.get nodes n with
  | Some nd => if used nd then 0 else dataSize nd
  | None => 0
  end.

Definition free_total (nodes : list Node) (l : list Z) : Z :=
  foldr Z.add 0 (free_size nodes <$> l).

(** [bin_rank nodes n k]: following [binListPrev] from node [n] reaches
    the first node of a bin list after [k] steps. *)
Inductive bin_rank (nodes : list Node) : Z -> nat -> Prop :=
| rank_head n nd :
    Arr.get nodes n = Some nd -> binListPrev nd = NODE_UNUSED ->
    bin_rank nodes n 0
| rank_next n nd k :
    Arr.get nodes n = Some nd -> binListPrev nd <> NODE_UNUSED ->
    bin_rank nodes (binListPrev nd) k ->
    bin_rank nodes n (S k).

(** Every free live node hangs on a bin list. *)
Definition rank_ok (nodes : list Node) (L : list Z) : Prop :=
  forall n nd, free_in nodes L n nd -> exists k, bin_rank nodes n k.

(** What the allocator keeps besides [Inv]: no free node is off the bin
    lists, and [m_freeStorage] is the sum of the free sizes. *)
Record Ledger (a : Allocator) (L : list Z) : Prop := {
  led_rank : rank_ok (m_nodes a) L;
  led_storage : m_freeStorage a = free_total (m_nodes a) L
}.

(** The same inside [freeAllocation], see [Merged]. *)
Record MergedLedger (a0 a : Allocator) (l1 mp : list Z) (n : Z) (mx l2 : list Z) : Prop := {
  ml_rank : rank_ok (m_nodes a) (l1 ++ n :: l2);
  ml_storage : m_freeStorage a
               = free_total (m_nodes a0) (l1 ++ mp ++ n :: mx ++ l2)
                 - free_total (m_nodes a0) (mp ++ mx)
}.

(** The nodes handed out keep their region across an operation, except
    node [n]. *)
Definition others_kept (a a' : Allocator) (n : Z) : Prop :=
  forall j nd, j <> n -> Arr.get (m_nodes a) j = Some nd -> used nd = true ->
    exists nd', Arr.get (m_nodes a') j = Some nd'
      /\ dataOffset nd' = dataOffset nd /\ dataSize nd' = dataSize nd
      /\ used nd' = true.

(** What [allocate] did, beyond [alloc_post]; [L] and [L'] are the
    neighbor chains before and after. *)
Definition alloc_more (a : Allocator) (size : Z) (res : Allocation) (a' : Allocator)
    (L L' : list Z) : Prop :=
  (metadata res = NO_SPACE <->
     m_freeOffset a = 0 \/ allocate_findBin a size = Some None)
  /\ (metadata res <> NO_SPACE ->
        exists t l, allocate_findBin a size = Some (Some (t, l))
          /\ Arr.get (m_binIndices a) (8 * t + l) = Some (metadata res))
  /\ others_kept a a' (metadata res)
  /\ (Ledger a L ->
        Ledger a' L'
        /\ (metadata res <> NO_SPACE -> m_freeStorage a' = m_freeStorage a - size)).

(** Node [k] is a neighbor that [freeAllocation] merges with the node
    [nd] it is given: the previous or the next one, present and not in
    use (the two tests of lines 336 and 350). *)
Definition free_neighbor_of (a : Allocator) (nd : Node) (k : Z) : Prop :=
  (k = neighborPrev nd \/ k = neighborNext nd)
  /\ k <> NODE_UNUSED /\ is_free (m_nodes a) k = true.

(** What [freeAllocation] did to the node [n] it was given and to the
    rest: the node is free, starts where its free previous neighbor
    started, has the sizes of its free neighbors added to its own, and is
    the first node of the bin of that size; the merged neighbors have left
    the chain. *)
Definition free_more (a : Allocator) (n : Z) (a' : Allocator) (L L' : list Z) : Prop :=
  n ∈ L' /\ others_kept a a' n
  /\ (forall nd, Arr.get (m_nodes a) n = Some nd ->
        exists nd', Arr.get (m_nodes a') n = Some nd' /\ used nd' = false
          /\ dataOffset nd' = dataOffset nd - free_size (m_nodes a) (neighborPrev nd)
          /\ dataSize nd'
             = free_size (m_nodes a) (neighborPrev nd) + dataSize nd
               + free_size (m_nodes a) (neighborNext nd)
          /\ Arr.get (m_binIndices a') (uintToFloatRoundDown (dataSize nd')) = Some n
          /\ (forall k, k ∈ L' <-> k ∈ L /\ ~ free_neighbor_of a nd k)
          /\ (Ledger a L ->
                Ledger a' L' /\ m_freeStorage a' = m_freeStorage a + dataSize nd)).

(** The same in terms of the state alone: [a'] is the allocator after
    [freeAllocation] was given node [n], which was [nd] in [a]. *)
Definition merged_free (a : Allocator) (n : Z) (nd : Node) (a' : Allocator) : Prop :=
  exists nd', live a' n /\ node a' n = Some nd' /\ used nd' = false
    /\ dataOffset nd' = dataOffset nd - free_size (m_nodes a) (neighborPrev nd)
    /\ dataSize nd'
       = free_size (m_nodes a) (neighborPrev nd) + dataSize nd
         + free_size (m_nodes a) (neighborNext nd)
    /\ Arr.get (m_binIndices a') (uintToFloatRoundDown (dataSize nd')) = Some n
    /\ forall k, live a' k <-> live a k /\ ~ free_neighbor_of a nd k.

(** ** The live nodes, read off the state *)

(** The pool slots that are not on the free-slot stack, in index order. *)
Definition live_nodes (a : Allocator) : list Z :=
  filter (fun n => n ∉ stack a) (seqZ 0 (m_maxAllocs a)).

(** The sizes of the free live nodes, added up. *)
Definition free_space (a : Allocator) : Z := free_total (m_nodes a) (live_nodes a).

(** The free live nodes whose size rounds down to bin [b]. *)
Definition regions_in_bin (a : Allocator) (b : Z) : list Z :=
  filter (fun n => is_free (m_nodes a) n = true
                   /\ bin_of <$> Arr.get (m_nodes a) n = Some b) (live_nodes a).

(** Bin [b] has a first node. *)
Definition bin_nonempty (a : Allocator) (b : Z) : Prop :=
  exists h, Arr.get (m_binIndices a) b = Some h /\ h <> NODE_UNUSED.

(** ** [storageReportFull] *)

Record FreeRegion := mkFreeRegion { region_size : Z; region_count : Z }.

(** The [while] loop of [storageReportFull]: it follows [binListNext] from
    [nodeIndex] and counts the steps.  [fuel] bounds the number of turns;
    the result is [None] when the pool is read out of range or when the
    loop has not ended after [fuel] turns. *)
Fixpoint binCount (fuel : nat) (nodes : list Node) (nodeIndex count : Z) : option Z :=
  if decide (nodeIndex = NODE_UNUSED) then Some count
  else
    match fuel with
    | O => None
    | S fuel' =>
        node ← Arr.get nodes nodeIndex;
        binCount fuel' nodes (binListNext node) (add32 count 1)
    end.

Definition storageReportFull (fuel : nat) (a : Allocator) : option (list FreeRegion) :=
  mapM (fun i =>
          let count := 0 in
          nodeIndex ← Arr.get (m_binIndices a) i;
          count ← binCount fuel (m_nodes a) nodeIndex count;
          Some (mkFreeRegion (floatToUint i) count))
       (seqZ 0 NUM_LEAF_BINS).

(** [bin_list nodes n l]: following [binListNext] from node [n] visits the
    nodes [l] and then reaches [NODE_UNUSED]. *)
Inductive bin_list (nodes : list Node) : Z -> list Z -> Prop :=
| bin_list_end : bin_list nodes NODE_UNUSED []
| bin_list_step n nd l :
    n <> NODE_UNUSED -> Arr.get nodes n = Some nd ->
    bin_list nodes (binListNext nd) l ->
    bin_list nodes n (n :: l).

(** The report [storageReportFull] is expected to give: per bin its nominal
    size and the number of free live nodes of that bin. *)
Definition full_report (a : Allocator) : list FreeRegion :=
  (fun i => mkFreeRegion (floatToUint i) (Z.of_nat (length (regions_in_bin a i))))
    <$> seqZ 0 NUM_LEAF_BINS.

(** ** Size classes *)

(** The nominal size grows strictly from one bin to the next. *)
Definition step_strict (v : Z) : bool := floatToUint v <? floatToUint (v + 1).

(** A pool with a single node slot. *)
Definition one_slot : Allocator := default blank (initAllocator 1024 1).

(** A pool whose size is not the nominal size of a bin. *)
Definition odd_pool : Allocator := default blank (initAllocator 1000 8).

(** * Properties *)

(** ** Bit scans *)

Section BitScan.

Lemma leading_zeros_spec (n : nat) (v h : Z) :
  0 <= h < Z.of_nat n -> 2 ^ h <= v < 2 ^ (h + 1) ->
  leading_zeros n v = Z.of_nat n - 1 - h.
Proof.
  intros Hh Hv. induction n as [|k IH]; [lia|].
  cbn [leading_zeros].
  destruct (decide (h = Z.of_nat k)) as [->|Hne].
  - assert (Z.testbit v (Z.of_nat k) = true) as ->; [|lia].
    apply Z.testbit_true; [lia|].
    assert (v / 2 ^ Z.of_nat k = 1) as ->; [|done].
    symmetry. apply Z.div_unique with (r := v - 2 ^ Z.of_nat k).
    + left. replace (Z.of_nat k + 1) with (Z.succ (Z.of_nat k)) in Hv by lia.
      rewrite Z.pow_succ_r in Hv; lia.
    + lia.
  - assert (Z.testbit v (Z.of_nat k) = false) as ->.
    { apply Z.testbit_false; [lia|].
      rewrite Z.div_small; [done|]. split; [lia|].
      eapply Z.lt_le_trans; [apply Hv|].
      apply Z.pow_le_mono_r; lia. }
    rewrite IH; lia.
Qed.

Lemma lzcnt_log2 (v : Z) : 0 < v < 2 ^ 32 -> lzcnt_nonzero v = 31 - Z.log2 v.
Proof.
  intros Hv. unfold lzcnt_nonzero.
  pose proof (Z.log2_spec v ltac:(lia)) as Hs.
  assert (Z.log2 v < 32).
  { apply Z.log2_lt_pow2; lia. }
  pose proof (Z.log2_nonneg v).
  rewrite (leading_zeros_spec 32 v (Z.log2 v)); [lia|lia|].
  replace (Z.log2 v + 1) with (Z.succ (Z.log2 v)) by lia. done.
Qed.

Lemma trailing_zeros_spec (n : nat) (i v : Z) :
  0 <= i ->
  (exists j, i <= j < i + Z.of_nat n /\ Z.testbit v j = true) ->
  i <= trailing_zeros n i v < i + Z.of_nat n
  /\ Z.testbit v (trailing_zeros n i v) = true
  /\ forall j, i <= j < trailing_zeros n i v -> Z.testbit v j = false.
Proof.
  revert i. induction n as [|k IH]; intros i Hi (j & Hj & Hb); [lia|].
  cbn [trailing_zeros]. destruct (Z.testbit v i) eqn:Hbi.
  - split; [lia|]. split; [done|]. intros; lia.
  - destruct (IH (i + 1)) as (H1 & H2 & H3); [lia| |].
    + exists j. split; [|done].
      destruct (decide (j = i)) as [->|]; [congruence|lia].
    + split; [lia|]. split; [done|].
      intros j' Hj'. destruct (decide (j' = i)) as [->|]; [done|].
      apply H3; lia.
Qed.

Lemma nonzero_has_bit (v : Z) (n : Z) :
  0 <= n -> 0 <= v < 2 ^ n -> v <> 0 -> exists j, 0 <= j < n /\ Z.testbit v j = true.
Proof.
  intros Hn Hv Hnz. exists (Z.log2 v).
  split; [|apply Z.bit_log2; lia].
  split; [apply Z.log2_nonneg|]. apply Z.log2_lt_pow2; lia.
Qed.

Lemma bit_nonzero (v j : Z) : Z.testbit v j = true -> v <> 0.
Proof. intros Hb ->. by rewrite Z.bits_0 in Hb. Qed.

Lemma bit_lower_bound (v j : Z) : 0 <= j -> 0 <= v -> Z.testbit v j = true -> 2 ^ j <= v.
Proof.
  intros Hj Hv Hb. destruct (decide (v < 2 ^ j)) as [Hlt|]; [|lia].
  assert (Z.testbit v j = false); [|congruence].
  apply Z.testbit_false; [done|]. rewrite Z.div_small; [done|lia].
Qed.

Lemma tzcnt_spec (v : Z) :
  0 <= v < 2 ^ 32 -> v <> 0 ->
  0 <= tzcnt_nonzero v < 32
  /\ Z.testbit v (tzcnt_nonzero v) = true
  /\ forall j, 0 <= j < tzcnt_nonzero v -> Z.testbit v j = false.
Proof.
  intros Hv Hnz. unfold tzcnt_nonzero.
  apply (trailing_zeros_spec 32 0 v); [lia|].
  destruct (nonzero_has_bit v 32) as (j & ? & ?); [lia|done|done|].
  exists j. split; [lia|done].
Qed.

End BitScan.

Example enc_spot :
  map uintToFloatRoundUp [17; 118; 1024; 65536; 529445; 1048575] = [17; 39; 64; 112; 137; 144]
  /\ map uintToFloatRoundDown [17; 118; 1024; 65536; 529445; 1048575] = [16; 38; 64; 112; 136; 143].
Proof. split; vm_compute; reflexivity. Qed.

(** ** Bin encoding *)

Section Encoding.

Lemma u32_small x : 0 <= x < 2 ^ 32 -> u32 x = x.
Proof. intros. unfold u32. by apply Z.mod_small. Qed.

Lemma lor_shl3 (e m : Z) : 0 <= e -> 0 <= m < 8 -> Z.lor (Z.shiftl e 3) m = 8 * e + m.
Proof.
  intros He Hm.
  pose proof (Z.add_lor_land (Z.shiftl e 3) m) as Hadd.
  assert (Z.land (Z.shiftl e 3) m = 0) as Hz.
  { apply Z.bits_inj'. intros i Hi. rewrite Z.land_spec, Z.bits_0.
    destruct (decide (i < 3)).
    - rewrite Z.shiftl_spec_low by lia. done.
    - assert (Z.testbit m i = false) as ->; [|by rewrite andb_false_r].
      apply Z.testbit_false; [lia|]. rewrite Z.div_small; [done|].
      split; [lia|]. apply Z.lt_le_trans with 8; [lia|].
      change 8 with (2 ^ 3). apply Z.pow_le_mono_r; lia. }
  rewrite Hz in Hadd. rewrite Z.shiftl_mul_pow2 in Hadd by lia.
  rewrite Z.shiftl_mul_pow2 by lia.
  change (2 ^ 3) with 8 in *. lia.
Qed.

Lemma pow2_range (m : Z) : 0 <= m <= 28 -> 1 <= 2 ^ m <= 2 ^ 28.
Proof.
  intros. split.
  - pose proof (Z.pow_pos_nonneg 2 m). lia.
  - apply Z.pow_le_mono_r; lia.
Qed.

Lemma enc_large (S : Z) :
  8 <= S < 2 ^ 32 ->
  let m := Z.log2 S - 3 in
  0 <= m <= 28 /\ 8 <= S / 2 ^ m < 16 /\
  uintToFloatRoundDown S = 8 * (m + 1) + (S / 2 ^ m - 8) /\
  uintToFloatRoundUp S =
    8 * (m + 1) + (S / 2 ^ m - 8) + (if S mod 2 ^ m =? 0 then 0 else 1).
Proof.
  intros HS m.
  pose proof (Z.log2_spec S ltac:(lia)) as Hlog.
  assert (3 <= Z.log2 S) by (apply Z.log2_le_pow2; lia).
  assert (Z.log2 S < 32) by (apply Z.log2_lt_pow2; lia).
  assert (Hm : 0 <= m <= 28) by lia.
  pose proof (pow2_range m Hm) as Hp.
  assert (Hq : 8 <= S / 2 ^ m < 16).
  { replace (Z.log2 S) with (m + 3) in Hlog by lia.
    replace (Z.succ (m + 3)) with (m + 4) in Hlog by lia.
    rewrite !Z.pow_add_r in Hlog by lia.
    split.
    - apply Z.div_le_lower_bound; lia.
    - apply Z.div_lt_upper_bound; lia. }
  assert (Hcommon : sub32 (sub32 31 (lzcnt_nonzero S)) MANTISSA_BITS = m).
  { rewrite lzcnt_log2 by lia. unfold sub32, MANTISSA_BITS.
    rewrite (u32_small (31 - _)) by lia. rewrite u32_small by lia. lia. }
  assert (Hmant : Z.land (Z.shiftr S m) MANTISSA_MASK = S / 2 ^ m - 8).
  { change MANTISSA_MASK with (Z.ones 3). rewrite Z.land_ones by lia.
    rewrite Z.shiftr_div_pow2 by lia.
    change (2 ^ 3) with 8. symmetry. apply Z.mod_unique with 1; lia. }
  assert (Hexp : shl32 (add32 m 1) MANTISSA_BITS = Z.shiftl (m + 1) 3).
  { unfold shl32, add32, MANTISSA_BITS. rewrite (u32_small (m + 1)) by lia.
    rewrite u32_small; [done|]. rewrite Z.shiftl_mul_pow2 by lia. lia. }
  split; [done|]. split; [done|]. split.
  - unfold uintToFloatRoundDown.
    change MANTISSA_VALUE with 8.
    destruct (Z.ltb_spec S 8); [lia|]. cbv beta iota zeta.
    rewrite Hcommon, Hmant, Hexp. rewrite lor_shl3; lia.
  - unfold uintToFloatRoundUp.
    change MANTISSA_VALUE with 8.
    destruct (Z.ltb_spec S 8); [lia|]. cbv beta iota zeta.
    rewrite Hcommon, Hmant.
    assert (sub32 (shl32 1 m) 1 = Z.ones m) as ->.
    { unfold sub32, shl32. rewrite Z.shiftl_mul_pow2 by lia.
      rewrite Z.ones_equiv. rewrite (u32_small (1 * _)) by lia.
      rewrite u32_small by lia. lia. }
    rewrite Z.land_ones by lia.
    destruct (Z.eqb_spec (S mod 2 ^ m) 0); rewrite Hexp;
      rewrite Z.shiftl_mul_pow2 by lia; change (2 ^ 3) with 8.
    + unfold add32. rewrite u32_small; lia.
    + unfold add32. rewrite (u32_small (_ + 1)) by lia. rewrite u32_small; lia.
Qed.

Lemma floatToUint_denorm (v : Z) : 0 <= v < 8 -> floatToUint v = v.
Proof.
  intros Hv. unfold floatToUint, MANTISSA_BITS.
  rewrite Z.shiftr_div_pow2 by lia. change (2 ^ 3) with 8.
  rewrite Z.div_small by lia. cbn [Z.eqb].
  change MANTISSA_MASK with (Z.ones 3). rewrite Z.land_ones by lia.
  apply Z.mod_small. change (2 ^ 3) with 8. lia.
Qed.

Lemma floatToUint_enc (e mant : Z) :
  1 <= e <= 29 -> 0 <= mant < 8 ->
  floatToUint (8 * e + mant) = (8 + mant) * 2 ^ (e - 1).
Proof.
  intros He Hm. unfold floatToUint, MANTISSA_BITS.
  rewrite Z.shiftr_div_pow2 by lia. change (2 ^ 3) with 8.
  assert ((8 * e + mant) / 8 = e) as ->.
  { symmetry. apply Z.div_unique with mant; lia. }
  destruct (Z.eqb_spec e 0); [lia|].
  change MANTISSA_MASK with (Z.ones 3). rewrite Z.land_ones by lia.
  change (2 ^ 3) with 8.
  assert ((8 * e + mant) mod 8 = mant) as ->.
  { symmetry. apply Z.mod_unique with e; lia. }
  change MANTISSA_VALUE with (Z.shiftl 1 3).
  rewrite Z.lor_comm, lor_shl3 by lia.
  unfold shl32, sub32. rewrite (u32_small (e - 1)) by lia.
  rewrite Z.shiftl_mul_pow2 by lia.
  pose proof (pow2_range (e - 1) ltac:(lia)).
  rewrite u32_small; [lia|]. nia.
Qed.

Lemma uintToFloat_denorm (S : Z) :
  0 <= S < 8 -> uintToFloatRoundUp S = S /\ uintToFloatRoundDown S = S.
Proof.
  intros HS. unfold uintToFloatRoundUp, uintToFloatRoundDown.
  change MANTISSA_VALUE with 8. destruct (Z.ltb_spec S 8); [|lia].
  cbv beta iota zeta. change (shl32 0 MANTISSA_BITS) with 0.
  split; [|done]. unfold add32. apply u32_small. lia.
Qed.

Lemma uintToFloatRoundDown_bounds (S : Z) :
  0 <= S < 2 ^ 32 ->
  0 <= uintToFloatRoundDown S <= 239 /\ floatToUint (uintToFloatRoundDown S) <= S.
Proof.
  intros HS. destruct (decide (S < 8)) as [Hs|Hs].
  - destruct (uintToFloat_denorm S) as [_ ->]; [lia|].
    rewrite floatToUint_denorm; lia.
  - destruct (enc_large S) as (Hm & Hq & -> & _); [lia|].
    set (m := Z.log2 S - 3) in *. split; [lia|].
    replace (8 * (m + 1) + (S / 2 ^ m - 8)) with (8 * (m + 1) + (S / 2 ^ m - 8)) by lia.
    rewrite floatToUint_enc by lia.
    replace (m + 1 - 1) with m by lia.
    pose proof (pow2_range m Hm).
    pose proof (Z.mul_div_le S (2 ^ m) ltac:(lia)). lia.
Qed.

Lemma uintToFloatRoundUp_range (S : Z) :
  0 <= S < 2 ^ 32 -> 0 <= uintToFloatRoundUp S <= 240.
Proof.
  intros HS. destruct (decide (S < 8)) as [Hs|Hs].
  - destruct (uintToFloat_denorm S) as [-> _]; lia.
  - destruct (enc_large S) as (Hm & Hq & _ & ->); [lia|].
    destruct (_ =? _); lia.
Qed.

Lemma uintToFloatRoundUp_bounds (S : Z) :
  0 <= S <= 0xF0000000 ->
  0 <= uintToFloatRoundUp S <= 239 /\ S <= floatToUint (uintToFloatRoundUp S).
Proof.
  intros HS. destruct (decide (S < 8)) as [Hs|Hs].
  - destruct (uintToFloat_denorm S) as [-> _]; [lia|].
    rewrite floatToUint_denorm; lia.
  - destruct (enc_large S) as (Hm & Hq & _ & ->); [lia|].
    set (m := Z.log2 S - 3) in *.
    pose proof (pow2_range m Hm) as Hp.
    pose proof (Z.div_mod S (2 ^ m) ltac:(lia)) as Hdm.
    pose proof (Z.mod_pos_bound S (2 ^ m) ltac:(lia)) as Hmb.
    destruct (Z.eqb_spec (S mod 2 ^ m) 0) as [Hz|Hnz].
    + split; [lia|]. rewrite Z.add_0_r. rewrite floatToUint_enc by lia.
      replace (m + 1 - 1) with m by lia. lia.
    + assert (Hcarry : m <= 27 \/ S / 2 ^ m < 15).
      { destruct (decide (m <= 27)); [by left|right].
        assert (m = 28) as Hm28 by lia. rewrite Hm28 in *.
        change (2 ^ 28) with 268435456 in *. lia. }
      destruct (decide (S / 2 ^ m < 15)) as [Hlt|Hge].
      * split; [lia|].
        replace (8 * (m + 1) + (S / 2 ^ m - 8) + 1)
          with (8 * (m + 1) + (S / 2 ^ m - 7)) by lia.
        rewrite floatToUint_enc by lia.
        replace (m + 1 - 1) with m by lia. nia.
      * assert (S / 2 ^ m = 15) as Hq15 by lia.
        split; [lia|]. rewrite Hq15 in *.
        replace (8 * (m + 1) + (15 - 8) + 1) with (8 * (m + 2) + 0) by lia.
        rewrite floatToUint_enc by lia.
        replace (m + 2 - 1) with (Z.succ m) by lia.
        rewrite Z.pow_succ_r by lia. lia.
Qed.

Lemma floatToUint_steps : forallb step_mono (seqZ 0 239) = true.
Proof. vm_compute. reflexivity. Qed.

Lemma floatToUint_mono (v w : Z) :
  0 <= v <= w -> w <= 239 -> floatToUint v <= floatToUint w.
Proof.
  intros [Hv Hvw] Hw.
  replace w with (v + Z.of_nat (Z.to_nat (w - v))) in * by lia.
  generalize dependent (Z.to_nat (w - v)). intros n _ Hn.
  induction n as [|n IH]; [replace (v + Z.of_nat 0) with v by lia; lia|].
  etrans; [apply IH; lia|].
  replace (v + Z.of_nat (S n)) with (v + Z.of_nat n + 1) by lia.
  pose proof floatToUint_steps as Hall.
  rewrite forallb_forall in Hall.
  specialize (Hall (v + Z.of_nat n)). unfold step_mono in Hall.
  apply Z.leb_le, Hall. apply list_elem_of_In, elem_of_seqZ. lia.
Qed.

Lemma round_up_le_round_down (S T : Z) :
  0 <= S < 2 ^ 32 -> 0 <= T < 2 ^ 32 ->
  uintToFloatRoundUp S <= uintToFloatRoundDown T -> S <= T.
Proof.
  intros HS HT Hle.
  destruct (uintToFloatRoundDown_bounds T HT) as [Hd1 Hd2].
  pose proof (uintToFloatRoundUp_range S HS) as Hu.
  destruct (decide (S <= 0xF0000000)) as [Hs|Hs].
  - destruct (uintToFloatRoundUp_bounds S ltac:(lia)) as [Hu1 Hu2].
    etrans; [apply Hu2|]. etrans; [|apply Hd2].
    apply floatToUint_mono; lia.
  - exfalso. destruct (enc_large S) as (Hm & Hq & _ & Hup); [lia|].
    set (m := Z.log2 S - 3) in *.
    pose proof (pow2_range m Hm) as Hp.
    pose proof (Z.div_mod S (2 ^ m) ltac:(lia)) as Hdm.
    pose proof (Z.mod_pos_bound S (2 ^ m) ltac:(lia)) as Hmb.
    assert (m = 28) as Hm28.
    { destruct (decide (m = 28)); [done|exfalso].
      assert (2 ^ m <= 2 ^ 27) by (apply Z.pow_le_mono_r; lia).
      change (2 ^ 27) with 134217728 in *. nia. }
    rewrite Hm28 in *. change (2 ^ 28) with 268435456 in *.
    destruct (Z.eqb_spec (S mod 268435456) 0); lia.
Qed.

End Encoding.

(** ** Arrays *)

Module ArrFacts.
Section ArrFacts.
Context {A : Type}.
Implicit Types (l : list A) (i j : Z) (x : A).

Lemma get_Some_range l i x : Arr.get l i = Some x -> 0 <= i < Z.of_nat (length l).
Proof.
  unfold Arr.get. case_decide; [|done]. intros Hl%lookup_lt_Some. lia.
Qed.

Lemma get_in_range l i : 0 <= i < Z.of_nat (length l) -> is_Some (Arr.get l i).
Proof.
  intros Hi. unfold Arr.get. case_decide; [|lia].
  apply lookup_lt_is_Some. lia.
Qed.

Lemma get_None l i : ~ (0 <= i < Z.of_nat (length l)) -> Arr.get l i = None.
Proof.
  intros Hi. destruct (Arr.get l i) eqn:E; [|done].
  apply get_Some_range in E. lia.
Qed.

Lemma set_Some l i x :
  0 <= i < Z.of_nat (length l) -> Arr.set l i x = Some (<[Z.to_nat i := x]> l).
Proof. intros Hi. unfold Arr.set. by case_decide. Qed.

Lemma set_inv l i x l' :
  Arr.set l i x = Some l' ->
  0 <= i < Z.of_nat (length l) /\ l' = <[Z.to_nat i := x]> l.
Proof. unfold Arr.set. case_decide; [|done]. intros [= <-]. done. Qed.

Lemma set_length l i x l' : Arr.set l i x = Some l' -> length l' = length l.
Proof. intros [_ ->]%set_inv. apply length_insert. Qed.

Lemma get_set l i x l' j :
  Arr.set l i x = Some l' ->
  Arr.get l' j = if decide (j = i) then Some x else Arr.get l j.
Proof.
  intros [Hi ->]%set_inv. unfold Arr.get.
  destruct (decide (j = i)) as [->|Hj].
  - case_decide; [|lia]. apply list_lookup_insert_eq. lia.
  - case_decide; [|done]. apply list_lookup_insert_ne. lia.
Qed.

Lemma upd_Some l i x f :
  Arr.get l i = Some x -> Arr.upd l i f = Some (<[Z.to_nat i := f x]> l).
Proof.
  intros H. unfold Arr.upd. rewrite H. cbn.
  apply set_Some. by eapply get_Some_range.
Qed.

Lemma upd_inv l i f l' :
  Arr.upd l i f = Some l' ->
  exists x, Arr.get l i = Some x /\ Arr.set l i (f x) = Some l'.
Proof.
  unfold Arr.upd. destruct (Arr.get l i) as [x|]; [|done]. cbn. eauto.
Qed.

Lemma upd_length l i f l' : Arr.upd l i f = Some l' -> length l' = length l.
Proof. intros (x & _ & H)%upd_inv. by eapply set_length. Qed.

Lemma get_upd l i f l' j :
  Arr.upd l i f = Some l' ->
  Arr.get l' j = if decide (j = i) then f <$> Arr.get l i else Arr.get l j.
Proof.
  intros (x & Hx & H)%upd_inv. rewrite (get_set _ _ _ _ j H).
  case_decide; [by rewrite Hx|done].
Qed.

Lemma get_replicate (n : nat) x i :
  Arr.get (replicate n x) i = if decide (0 <= i < Z.of_nat n) then Some x else None.
Proof.
  unfold Arr.get. case_decide; case_decide; try lia; try done.
  - apply lookup_replicate_2. lia.
  - apply lookup_replicate_None. lia.
Qed.

End ArrFacts.
End ArrFacts.
Import ArrFacts.

(** ** Claims on single calls *)

Lemma stack_unfold (a : Allocator) :
  stack a = take (Z.to_nat (add32 (m_freeOffset a) 1)) (m_freeNodes a).
Proof. done. Qed.

Lemma allocate_out_of_allocations (a : Allocator) (size : Z) :
  m_freeOffset a = 0 -> allocate a size = Some (EmptyAllocation, a).
Proof. intros H. unfold allocate. by case_decide. Qed.

(** ** Encoding round trips and bounds *)

Lemma roundtrip_all : forallb roundtrip_ok (seqZ 0 240) = true.
Proof. vm_compute. reflexivity. Qed.

(** C4: for every bin index [v < 240], encoding the nominal size of bin [v]
    gives back [v], rounding up as well as rounding down. *)
Theorem encoding_roundtrip (v : Z) :
  0 <= v < 240 ->
  uintToFloatRoundUp (floatToUint v) = v /\ uintToFloatRoundDown (floatToUint v) = v.
Proof.
  intros Hv. pose proof roundtrip_all as Hall.
  rewrite forallb_forall in Hall.
  specialize (Hall v). unfold roundtrip_ok in Hall.
  rewrite andb_true_iff, !Z.eqb_eq in Hall.
  apply Hall, list_elem_of_In, elem_of_seqZ. lia.
Qed.

Lemma encoding_roundtrip_witness :
  uintToFloatRoundUp (floatToUint 239) = 239 /\ uintToFloatRoundDown (floatToUint 239) = 239.
Proof. apply (encoding_roundtrip 239). lia. Defined.

(** C5, as the code has it: the round-down bin never exceeds the size; the
    round-up bin covers the size as long as the size is at most
    [0xF0000000], the nominal size of bin 239. *)
Theorem encoding_bounds (S : Z) :
  is_u32 S ->
  floatToUint (uintToFloatRoundDown S) <= S
  /\ (S <= 0xF0000000 -> S <= floatToUint (uintToFloatRoundUp S)).
Proof.
  intros HS. split.
  - by apply uintToFloatRoundDown_bounds.
  - intros Hle. apply uintToFloatRoundUp_bounds. unfold is_u32 in HS. lia.
Qed.

Lemma encoding_bounds_witness :
  floatToUint (uintToFloatRoundDown 0xF0000000) <= 0xF0000000
  /\ (0xF0000000 <= 0xF0000000 ->
      0xF0000000 <= floatToUint (uintToFloatRoundUp 0xF0000000)).
Proof. apply (encoding_bounds 0xF0000000). unfold is_u32. lia. Defined.

(** Above [0xF0000000] the round-up index is 240, whose nominal size
    [8 << 29] wraps to 0 in 32 bits. *)
Lemma encoding_round_up_overflows :
  is_u32 0xFFFFFFFF
  /\ ~ (floatToUint (uintToFloatRoundUp 0xFFFFFFFF) >= 0xFFFFFFFF
        /\ floatToUint (uintToFloatRoundDown 0xFFFFFFFF) <= 0xFFFFFFFF).
Proof.
  split; [unfold is_u32; lia|].
  assert (floatToUint (uintToFloatRoundUp 0xFFFFFFFF) = 0) as -> by (vm_compute; reflexivity).
  lia.
Qed.

(** ** Single calls *)

(** C1: with exactly one free slot left and a bin that fits, [allocate]
    still reports exhaustion. *)
Theorem allocate_last_slot_fails :
  exists a,
    initAllocator 1024 2 = Some a
    /\ stack a = [1]
    /\ allocate_findBin a 1 = Some (Some (8, 0))
    /\ allocate a 1 = Some (EmptyAllocation, a).
Proof.
  eexists. split; [vm_compute; reflexivity|].
  split; [vm_compute; reflexivity|].
  split; vm_compute; reflexivity.
Qed.

Ltac step_bind H :=
  match type of H with
  | mbind _ ?e = Some _ =>
      let E := fresh "E" in destruct e eqn:E; cbn [mbind option_bind] in H; [|discriminate H]
  end.

Lemma allocate_result (a : Allocator) (size : Z) (res : Allocation) (a' : Allocator) :
  allocate a size = Some (res, a') ->
  (res = EmptyAllocation /\ a' = a) \/ is_Some (Arr.get (m_nodes a) (metadata res)).
Proof.
  unfold allocate. case_decide; [intros [= <- <-]; by left|].
  intros Ha. step_bind Ha.
  destruct o as [[top leaf]|]; [|injection Ha as <- <-; by left].
  step_bind Ha. step_bind Ha.
  right. repeat step_bind Ha.
  injection Ha as <- <-. cbn. eauto.
Qed.

(** C3: a failed [allocate] leaves every field of the allocator as it
    was. *)
Theorem allocate_failure_keeps_state (a : Allocator) (size : Z) (res : Allocation)
    (a' : Allocator) :
  pool_sized a ->
  allocate a size = Some (res, a') ->
  res = EmptyAllocation ->
  a' = a.
Proof.
  intros [Hlen Hmax] Halloc ->.
  destruct (allocate_result _ _ _ _ Halloc) as [[_ ?]|[nd Hnd]]; [done|].
  apply get_Some_range in Hnd. cbn in Hnd.
  unfold is_u32 in Hmax. unfold NO_SPACE in Hnd. lia.
Qed.

(** ** Storage report *)

Lemma storageReport_zero_offset (a : Allocator) :
  m_freeOffset a = 0 -> storageReport a = Some (mkStorageReport 0 0).
Proof. intros H. unfold storageReport. rewrite H. by case_decide. Qed.

Lemma storageReport_positive (a : Allocator) :
  report_defined a ->
  m_freeOffset a > 0 ->
  storageReport a = Some (report_spec a).
Proof.
  intros (Htop & Hlen & Hleaf & Hnz) Hoff.
  unfold storageReport, report_spec, highest_set_bit.
  case_decide; [|lia].
  destruct (decide (m_usedBinsTop a = 0)) as [->|Hne]; [done|].
  case_decide; [|done].
  unfold is_u32 in Htop.
  assert (0 <= Z.log2 (m_usedBinsTop a) < 32) as Ht.
  { split; [apply Z.log2_nonneg|]. apply Z.log2_lt_pow2; lia. }
  rewrite lzcnt_log2 by lia.
  assert (sub32 31 (31 - Z.log2 (m_usedBinsTop a)) = Z.log2 (m_usedBinsTop a)) as ->.
  { unfold sub32. rewrite u32_small; lia. }
  destruct (get_in_range (m_usedBins a) (Z.log2 (m_usedBinsTop a))) as [x Hx]; [lia|].
  rewrite Hx. cbn [mbind option_bind default].
  pose proof (Hleaf _ _ Hx) as Hx8. unfold is_u8 in Hx8.
  assert (x <> 0) as Hx0.
  { apply (Hnz _ _ Hx). apply Z.bit_log2. lia. }
  assert (0 <= Z.log2 x < 8) as Hl.
  { split; [apply Z.log2_nonneg|]. apply Z.log2_lt_pow2; lia. }
  rewrite lzcnt_log2 by lia.
  assert (sub32 31 (31 - Z.log2 x) = Z.log2 x) as ->.
  { unfold sub32. rewrite u32_small; lia. }
  do 3 f_equal. unfold shl32, TOP_BINS_INDEX_SHIFT.
  rewrite u32_small; [done|]. rewrite Z.shiftl_mul_pow2 by lia. lia.
Qed.

(** ** End-to-end scenario *)

(** C9: the fourth scenario of the test-suite. *)
Theorem scenario4_offsets : scenario4 = Some (4480, 0, 456).
Proof. vm_compute. reflexivity. Qed.

(** ** The two-level bitmap *)

Section Bits.

Lemma testbit_one_shl (k i : Z) :
  0 <= k -> Z.testbit (Z.shiftl 1 k) i = (i =? k).
Proof.
  intros Hk. rewrite Z.shiftl_mul_pow2, Z.mul_1_l by done.
  rewrite Z.pow2_bits_eqb by done. apply Z.eqb_sym.
Qed.

Lemma testbit_above (x n i : Z) : 0 <= x < 2 ^ n -> 0 <= n <= i -> Z.testbit x i = false.
Proof.
  intros Hx Hi. rewrite <- (Z.mod_small x (2 ^ n)) by done.
  by apply Z.mod_pow2_bits_high.
Qed.

Lemma is_u8_u8 (x : Z) : is_u8 (u8 x).
Proof. unfold is_u8, u8. apply Z.mod_pos_bound. lia. Qed.

Lemma is_u32_u32 (x : Z) : is_u32 (u32 x).
Proof. unfold is_u32, u32. apply Z.mod_pos_bound. lia. Qed.

Lemma testbit_u8 (x j : Z) : 0 <= j < 8 -> Z.testbit (u8 x) j = Z.testbit x j.
Proof. intros Hj. unfold u8. apply Z.mod_pow2_bits_low. lia. Qed.

Lemma testbit_u32 (x j : Z) : 0 <= j < 32 -> Z.testbit (u32 x) j = Z.testbit x j.
Proof. intros Hj. unfold u32. apply Z.mod_pow2_bits_low. lia. Qed.

Lemma testbit_set (x l j : Z) :
  0 <= l -> Z.testbit (Z.lor x (Z.shiftl 1 l)) j = Z.testbit x j || (j =? l).
Proof. intros. by rewrite Z.lor_spec, testbit_one_shl. Qed.

Lemma testbit_clear (x l j : Z) :
  0 <= l -> 0 <= j ->
  Z.testbit (Z.land x (Z.lnot (Z.shiftl 1 l))) j = Z.testbit x j && negb (j =? l).
Proof. intros. by rewrite Z.land_spec, Z.lnot_spec, testbit_one_shl. Qed.

Lemma zero_iff_bits (x n : Z) :
  0 <= n -> 0 <= x < 2 ^ n ->
  x = 0 <-> forall j, 0 <= j < n -> Z.testbit x j = false.
Proof.
  intros Hn Hx. split.
  - intros -> j _. apply Z.bits_0.
  - intros Hb. destruct (decide (x = 0)) as [|Hnz]; [done|].
    destruct (nonzero_has_bit x n Hn Hx Hnz) as (j & Hj & Hbj).
    rewrite Hb in Hbj; done.
Qed.

(** Splitting a bin index into its top and leaf parts. *)
Lemma bin_split (b : Z) :
  0 <= b < 256 ->
  let t := Z.shiftr b TOP_BINS_INDEX_SHIFT in
  let l := Z.land b LEAF_BINS_INDEX_MASK in
  0 <= t < 32 /\ 0 <= l < 8 /\ b = 8 * t + l.
Proof.
  intros Hb. cbn zeta. unfold TOP_BINS_INDEX_SHIFT.
  change LEAF_BINS_INDEX_MASK with (Z.ones 3).
  rewrite Z.shiftr_div_pow2, Z.land_ones by lia.
  change (2 ^ 3) with 8.
  pose proof (Z.div_mod b 8 ltac:(lia)).
  pose proof (Z.mod_pos_bound b 8 ltac:(lia)).
  split; [|lia].
  split; [apply Z.div_pos; lia|apply Z.div_lt_upper_bound; lia].
Qed.

Lemma bin_join (t l : Z) :
  0 <= t < 32 -> 0 <= l < 8 ->
  Z.lor (shl32 t TOP_BINS_INDEX_SHIFT) l = 8 * t + l.
Proof.
  intros Ht Hl. unfold shl32, TOP_BINS_INDEX_SHIFT.
  rewrite u32_small.
  - apply lor_shl3; lia.
  - rewrite Z.shiftl_mul_pow2 by lia. lia.
Qed.

Lemma bin_unsplit (t l : Z) :
  0 <= t < 32 -> 0 <= l < 8 ->
  Z.shiftr (8 * t + l) TOP_BINS_INDEX_SHIFT = t
  /\ Z.land (8 * t + l) LEAF_BINS_INDEX_MASK = l.
Proof.
  intros Ht Hl. destruct (bin_split (8 * t + l)) as (H1 & H2 & H3); [lia|].
  cbn zeta in *. lia.
Qed.

End Bits.

Section Bitmap.

Implicit Types (top : Z) (ub bi : list Z).

Lemma bitmap_get_leaf top ub bi (i : Z) :
  bitmap_ok top ub bi -> 0 <= i < 32 -> is_Some (Arr.get ub i).
Proof. intros [Htop Hlen Hblen Hlr Htb Hlf] Hi. apply get_in_range. lia. Qed.

Lemma bitmap_get_bin top ub bi (b : Z) :
  bitmap_ok top ub bi -> 0 <= b < 256 -> is_Some (Arr.get bi b).
Proof. intros [Htop Hlen Hblen Hlr Htb Hlf] Hi. apply get_in_range. lia. Qed.

(** Replacing a non-empty bin head by another node leaves the bits alone. *)
Lemma bitmap_ok_replace top ub bi b h k bi' :
  bitmap_ok top ub bi ->
  Arr.get bi b = Some h -> h <> NODE_UNUSED ->
  Arr.set bi b k = Some bi' -> k <> NODE_UNUSED ->
  bitmap_ok top ub bi'.
Proof.
  intros [Htop Hlen Hblen Hlr Htb Hlf] Hh Hhu Hset Hk. split; try done.
  - by rewrite (set_length _ _ _ _ Hset).
  - intros i j x h' Hj Hx. rewrite (get_set _ _ _ _ _ Hset).
    case_decide as Hb; [|by eauto].
    intros [= <-]. rewrite <- Hb in Hh.
    rewrite (Hlf i j x h Hj Hx Hh). done.
Qed.

(** A first node enters the empty bin [8 t + l]. *)
Lemma bitmap_ok_set top ub bi t l x k ub' bi' :
  bitmap_ok top ub bi ->
  0 <= t < 32 -> 0 <= l < 8 ->
  Arr.get ub t = Some x ->
  Arr.set ub t (u8 (Z.lor x (Z.shiftl 1 l))) = Some ub' ->
  Arr.set bi (8 * t + l) k = Some bi' -> k <> NODE_UNUSED ->
  bitmap_ok (u32 (Z.lor top (Z.shiftl 1 t))) ub' bi'.
Proof.
  intros [Htop Hlen Hblen Hlr Htb Hlf] Ht Hl Hx Hub Hbi Hk. split.
  - apply is_u32_u32.
  - by rewrite (set_length _ _ _ _ Hub).
  - by rewrite (set_length _ _ _ _ Hbi).
  - intros i y. rewrite (get_set _ _ _ _ _ Hub).
    case_decide; [intros [= <-]; apply is_u8_u8|by eauto].
  - intros i y Hy. pose proof Hy as Hr%get_Some_range.
    rewrite (set_length _ _ _ _ Hub), Hlen in Hr.
    rewrite (get_set _ _ _ _ _ Hub) in Hy.
    rewrite testbit_u32, testbit_set by lia.
    destruct (decide (i = t)) as [Hi|Hi].
    + injection Hy as <-. subst i. rewrite Z.eqb_refl, orb_true_r.
      split; [intros _|done].
      apply (bit_nonzero _ l). rewrite testbit_u8, testbit_set by lia.
      by rewrite Z.eqb_refl, orb_true_r.
    + rewrite <- (Htb i y Hy).
      destruct (Z.eqb_spec i t); [done|]. by rewrite orb_false_r.
  - intros i j y h Hj Hy.
    rewrite (get_set _ _ _ _ _ Hub) in Hy. rewrite (get_set _ _ _ _ _ Hbi).
    destruct (decide (8 * i + j = 8 * t + l)) as [Hb|Hb].
    + assert (i = t /\ j = l) as [-> ->] by lia.
      rewrite decide_True in Hy by done. injection Hy as <-. intros [= <-].
      rewrite testbit_u8, testbit_set by lia.
      by rewrite Z.eqb_refl, orb_true_r.
    + intros Hh. destruct (decide (i = t)) as [Hi|Hi].
      * injection Hy as <-. subst i.
        rewrite testbit_u8, testbit_set by lia.
        destruct (Z.eqb_spec j l); [lia|]. rewrite orb_false_r. by eauto.
      * by eauto.
Qed.

(** The last node leaves bin [8 t + l]: the leaf bit is cleared, and the
    top bit with it when the leaf byte becomes zero. *)
Lemma bitmap_ok_clear top ub bi t l x ub' bi' :
  bitmap_ok top ub bi ->
  0 <= t < 32 -> 0 <= l < 8 ->
  Arr.get ub t = Some x ->
  Arr.set ub t (u8 (Z.land x (Z.lnot (Z.shiftl 1 l)))) = Some ub' ->
  Arr.set bi (8 * t + l) NODE_UNUSED = Some bi' ->
  bitmap_ok
    (if u8 (Z.land x (Z.lnot (Z.shiftl 1 l))) =? 0
     then u32 (Z.land top (Z.lnot (Z.shiftl 1 t))) else top)
    ub' bi'.
Proof.
  intros [Htop Hlen Hblen Hlr Htb Hlf] Ht Hl Hx Hub Hbi.
  set (x' := u8 (Z.land x (Z.lnot (Z.shiftl 1 l)))) in *.
  split.
  - destruct (x' =? 0); [apply is_u32_u32|done].
  - by rewrite (set_length _ _ _ _ Hub).
  - by rewrite (set_length _ _ _ _ Hbi).
  - intros i y. rewrite (get_set _ _ _ _ _ Hub).
    case_decide; [intros [= <-]; apply is_u8_u8|by eauto].
  - intros i y Hy. pose proof Hy as Hr%get_Some_range.
    rewrite (set_length _ _ _ _ Hub), Hlen in Hr.
    rewrite (get_set _ _ _ _ _ Hub) in Hy.
    destruct (decide (i = t)) as [Hi|Hi].
    + injection Hy as <-. subst i.
      destruct (Z.eqb_spec x' 0) as [Hz|Hz].
      * rewrite testbit_u32, testbit_clear by lia.
        rewrite Z.eqb_refl, andb_false_r. split; [done|]. intros Hn. by destruct Hn.
      * split; [done|intros _]. apply (Htb t x Hx).
        intros ->. apply Hz. unfold x'. by rewrite Z.land_0_l.
    + rewrite <- (Htb i y Hy).
      destruct (x' =? 0); [|done].
      rewrite testbit_u32, testbit_clear by lia.
      destruct (Z.eqb_spec i t); [done|]. by rewrite andb_true_r.
  - intros i j y h Hj Hy.
    rewrite (get_set _ _ _ _ _ Hub) in Hy. rewrite (get_set _ _ _ _ _ Hbi).
    destruct (decide (8 * i + j = 8 * t + l)) as [Hb|Hb].
    + assert (i = t /\ j = l) as [-> ->] by lia.
      rewrite decide_True in Hy by done. injection Hy as <-. intros [= <-].
      unfold x'. rewrite testbit_u8, testbit_clear by lia.
      rewrite Z.eqb_refl, andb_false_r. split; [done|]. intros Hn. by destruct Hn.
    + intros Hh. destruct (decide (i = t)) as [Hi|Hi].
      * injection Hy as <-. subst i.
        unfold x'. rewrite testbit_u8, testbit_clear by lia.
        destruct (Z.eqb_spec j l); [lia|]. rewrite andb_true_r. by eauto.
      * by eauto.
Qed.

Lemma clearBinBits_spec (a : Allocator) (t l : Z) (bi0 : list Z) :
  bitmap_ok (m_usedBinsTop a) (m_usedBins a) bi0 ->
  0 <= t < 32 -> 0 <= l < 8 ->
  Arr.set bi0 (8 * t + l) NODE_UNUSED = Some (m_binIndices a) ->
  exists top' ub',
    clearBinBits a t l = Some (set_usedBinsTop top' (set_usedBins ub' a))
    /\ bitmap_ok top' ub' (m_binIndices a).
Proof.
  intros Hbm Ht Hl Hbi. unfold clearBinBits.
  destruct (bitmap_get_leaf _ _ _ t Hbm Ht) as [x Hx]. rewrite Hx. cbn.
  pose proof (bm_leaf_len _ _ _ Hbm) as Hlen.
  rewrite set_Some by lia. cbn.
  set (x' := u8 (Z.land x (Z.lnot (Z.shiftl 1 l)))).
  set (ub' := <[Z.to_nat t := x']> (m_usedBins a)).
  assert (Hub : Arr.set (m_usedBins a) t x' = Some ub') by (apply set_Some; lia).
  rewrite (get_set _ _ _ _ t Hub). case_decide; [|done]. cbn.
  pose proof (bitmap_ok_clear _ _ _ t l x ub' _ Hbm Ht Hl Hx Hub Hbi) as Hok.
  fold x' in Hok.
  destruct (x' =? 0); eexists _, ub'; (split; [reflexivity|]); done.
Qed.

End Bitmap.

(** ** Bin free-lists *)

Section Bins.

Implicit Types (nodes : list Node) (bi L : list Z).

Lemma get_same_length {A} (l l' : list A) (i : Z) :
  length l' = length l -> is_Some (Arr.get l' i) -> is_Some (Arr.get l i).
Proof.
  intros Hlen [x Hx%get_Some_range]. apply get_in_range. lia.
Qed.

Lemma bins_ok_live nodes bi L L' :
  bins_ok nodes bi L ->
  (forall n nd, free_in nodes L n nd <-> free_in nodes L' n nd) ->
  bins_ok nodes bi L'.
Proof.
  intros [H1 H2 H3 H4 H5] HL. split.
  - intros b h Hb Hh. destruct (H1 b h Hb Hh) as (nd & ? & ?).
    exists nd. by rewrite <- HL.
  - intros n nd Hn%HL. eauto.
  - intros n nd Hn%HL. eauto.
  - intros n nd Hn%HL Hne. destruct (H4 n nd Hn Hne) as (pd & ? & ?).
    exists pd. by rewrite <- HL.
  - intros n nd Hn%HL Hne. destruct (H5 n nd Hn Hne) as (xd & ? & ?).
    exists xd. by rewrite <- HL.
Qed.

Lemma bins_ok_frame nodes nodes' bi L :
  bins_ok nodes bi L -> bin_same nodes nodes' -> bins_ok nodes' bi L.
Proof.
  intros [H1 H2 H3 H4 H5] [Hlen Hsame].
  assert (Hfwd : forall n nd, free_in nodes L n nd ->
            exists nd', free_in nodes' L n nd' /\ dataSize nd' = dataSize nd
              /\ binListPrev nd' = binListPrev nd /\ binListNext nd' = binListNext nd).
  { intros n nd (HnL & Hnd & Hu).
    destruct (Hsame n nd Hnd) as (nd' & Hnd' & Hu' & ?).
    exists nd'. repeat split; try done; try tauto. congruence. }
  assert (Hbwd : forall n nd', free_in nodes' L n nd' ->
            exists nd, free_in nodes L n nd /\ dataSize nd' = dataSize nd
              /\ binListPrev nd' = binListPrev nd /\ binListNext nd' = binListNext nd).
  { intros n nd' (HnL & Hnd' & Hu).
    destruct (get_same_length nodes nodes' n Hlen) as [nd Hnd]; [by eauto|].
    destruct (Hsame n nd Hnd) as (nd2 & Hnd2 & Hu' & ?).
    assert (nd2 = nd') as -> by congruence.
    exists nd. repeat split; try done; try tauto. congruence. }
  split; unfold bin_of in *.
  - intros b h Hb Hh. destruct (H1 b h Hb Hh) as (nd & Hf & Hp & Hbin).
    destruct (Hfwd h nd Hf) as (nd' & ? & Hs & Hp' & ?).
    exists nd'. rewrite Hs, Hp'. done.
  - intros n nd' (nd & Hf & Hs & _)%Hbwd. rewrite Hs. eauto.
  - intros n nd' (nd & Hf & Hs & Hp & _)%Hbwd. rewrite Hs, Hp. eauto.
  - intros n nd' (nd & Hf & Hs & Hp & _)%Hbwd. rewrite Hp. intros Hne.
    destruct (H4 n nd Hf Hne) as (pd & Hpf & Hpn).
    destruct (Hfwd _ pd Hpf) as (pd' & ? & _ & _ & Hn').
    exists pd'. rewrite Hn'. done.
  - intros n nd' (nd & Hf & Hs & _ & Hn)%Hbwd. rewrite Hn, Hs. intros Hne.
    destruct (H5 n nd Hf Hne) as (xd & Hxf & Hxp & Hxb).
    destruct (Hfwd _ xd Hxf) as (xd' & ? & Hs' & Hp' & _).
    exists xd'. rewrite Hs', Hp'. done.
Qed.

Lemma no_sentinel_length nodes :
  Z.of_nat (length nodes) < 2 ^ 32 -> no_sentinel nodes.
Proof. intros Hlen j nd Hj%get_Some_range. unfold NODE_UNUSED. lia. Qed.

Lemma bins_ok_unlink nodes nodes' bi bi' L L' p pd :
  bins_ok nodes bi L ->
  no_sentinel nodes ->
  free_in nodes L p pd ->
  unlinked p (binListPrev pd) (binListNext pd) nodes nodes' ->
  (forall n, n <> p -> (n ∈ L' <-> n ∈ L)) ->
  (forall nd', p ∈ L' -> Arr.get nodes' p = Some nd' -> used nd' = true) ->
  (if decide (binListPrev pd = NODE_UNUSED)
   then Arr.set bi (bin_of pd) (binListNext pd) = Some bi' else bi' = bi) ->
  bins_ok nodes' bi' L'.
Proof.
  intros Hok Hval Hp [Hlen Hun] HL HpL Hbi.
  destruct Hok as [H1 H2 H3 H4 H5].
  set (q := binListPrev pd) in *. set (r := binListNext pd) in *.
  assert (Hpv : p <> NODE_UNUSED) by (destruct Hp as (_ & ? & _); by eapply Hval).
  assert (F1 : forall n nd, free_in nodes L n nd -> n <> p ->
            exists nd', free_in nodes' L' n nd' /\ dataSize nd' = dataSize nd
              /\ binListPrev nd' = (if decide (n = r) then q else binListPrev nd)
              /\ binListNext nd' = (if decide (n = q) then r else binListNext nd)).
  { intros n nd (HnL & Hnd & Hu) Hne.
    destruct (Hun n nd Hne Hnd) as (nd' & Hnd' & Hu' & ?).
    exists nd'. repeat split; try done; try tauto; [by apply HL|congruence]. }
  assert (F0 : forall n nd', free_in nodes' L' n nd' ->
            n <> p /\ exists nd, free_in nodes L n nd /\ dataSize nd' = dataSize nd
              /\ binListPrev nd' = (if decide (n = r) then q else binListPrev nd)
              /\ binListNext nd' = (if decide (n = q) then r else binListNext nd)).
  { intros n nd' (HnL & Hnd' & Hu).
    assert (n <> p) as Hne.
    { intros ->. specialize (HpL _ HnL Hnd'). congruence. }
    split; [done|].
    destruct (get_same_length nodes nodes' n Hlen) as [nd Hnd]; [by eauto|].
    destruct (Hun n nd Hne Hnd) as (nd2 & Hnd2 & Hu' & ?).
    assert (nd2 = nd') as -> by congruence.
    exists nd. repeat split; try done; try tauto; [by apply HL|congruence]. }
  assert (Fq : q <> NODE_UNUSED ->
            exists qd, free_in nodes L q qd /\ binListNext qd = p /\ bin_of qd = bin_of pd).
  { intros Hq. destruct (H4 p pd Hp Hq) as (qd & Hqf & Hqn). fold q in Hqf.
    exists qd. split; [done|]. split; [done|].
    destruct (H5 q qd Hqf) as (xd & (_ & Hxd & _) & _ & Hb); [congruence|].
    rewrite Hqn in Hxd. destruct Hp as (_ & Hpd & _). congruence. }
  assert (Fr : r <> NODE_UNUSED ->
            exists rd, free_in nodes L r rd /\ binListPrev rd = p /\ bin_of rd = bin_of pd).
  { intros Hr. apply (H5 p pd Hp Hr). }
  assert (Hqr : q = p <-> r = p).
  { destruct Hp as (? & Hpd & ?). split; intros Heq.
    - destruct Fq as (qd & (_ & Hqd & _) & Hn & _); [congruence|].
      rewrite Heq in Hqd. unfold r. congruence.
    - destruct Fr as (rd & (_ & Hrd & _) & Hn & _); [congruence|].
      rewrite Heq in Hrd. unfold q. congruence. }
  split; unfold bin_of in *.
  - (* heads *)
    intros b h Hb Hh.
    assert (Hcase : (q = NODE_UNUSED /\ b = uintToFloatRoundDown (dataSize pd) /\ h = r)
                    \/ Arr.get bi b = Some h /\ (q = NODE_UNUSED -> b <> uintToFloatRoundDown (dataSize pd))).
    { destruct (decide (q = NODE_UNUSED)) as [Hq|Hq].
      - rewrite (get_set _ _ _ _ b Hbi) in Hb.
        destruct (decide (b = uintToFloatRoundDown (dataSize pd))) as [Hbb|Hbb].
        + left. injection Hb as <-. done.
        + right. done.
      - subst bi'. right. done. }
    destruct Hcase as [(Hq & -> & ->)|[Hb' Hbne]].
    + destruct (Fr Hh) as (rd & Hrf & Hrp & Hrb).
      destruct (F1 r rd Hrf) as (rd' & ? & Hs & Hp' & _).
      { intros Hrp'. apply Hqr in Hrp'. congruence. }
      exists rd'. rewrite Hs, Hp', decide_True by done. done.
    + destruct (H1 b h Hb' Hh) as (hd & Hhf & Hhp & Hhb).
      assert (h <> p) as Hhp'.
      { intros ->. destruct Hp as (_ & Hpd & _), Hhf as (_ & Hhd & _).
        assert (hd = pd) as -> by congruence. apply Hbne; [done|]. done. }
      destruct (F1 h hd Hhf Hhp') as (hd' & ? & Hs & Hp' & _).
      exists hd'. rewrite Hs, Hp'. split; [done|]. split; [|done].
      case_decide as Hhr; [|done]. subst h.
      destruct (Fr Hh) as (rd & (_ & Hrd & _) & Hrp & _).
      destruct Hhf as (_ & Hhd & _). congruence.
  - intros n nd' (_ & nd & Hf & Hs & _)%F0. rewrite Hs. eauto.
  - (* first *)
    intros n nd' (Hnp & nd & Hf & Hs & Hp' & _)%F0. rewrite Hs, Hp'.
    case_decide as Hnr.
    + intros Hq. rewrite decide_True in Hbi by done.
      subst n. destruct Fr as (rd & (_ & Hrd & _) & _ & Hrb).
      { destruct Hf as (_ & ? & _). by eapply Hval. }
      destruct Hf as (_ & Hnd & _). assert (rd = nd) as -> by congruence.
      rewrite Hrb. rewrite (get_set _ _ _ _ _ Hbi). by rewrite decide_True.
    + intros Hnp'. pose proof (H3 n nd Hf Hnp') as Hb.
      destruct (decide (q = NODE_UNUSED)) as [Hq|Hq]; [|by subst bi'].
      rewrite (get_set _ _ _ _ _ Hbi). case_decide as Heq; [|done].
      exfalso. pose proof (H3 p pd Hp Hq) as Hb'. congruence.
  - (* prev *)
    intros n nd' (Hnp & nd & Hf & Hs & Hp' & _)%F0. rewrite Hp'.
    case_decide as Hnr.
    + intros Hq. destruct (Fq Hq) as (qd & Hqf & Hqn & _).
      destruct (F1 q qd Hqf) as (qd' & ? & _ & _ & Hn').
      { intros Hqp. apply Hqr in Hqp. congruence. }
      exists qd'. rewrite Hn', decide_True by done. split; [done|congruence].
    + intros Hne. destruct (H4 n nd Hf Hne) as (md & Hmf & Hmn).
      assert (binListPrev nd <> p) as Hmp.
      { intros Heq. rewrite Heq in Hmf. destruct Hp as (_ & Hpd & _), Hmf as (_ & Hmd & _).
        assert (md = pd) as -> by congruence. apply Hnr. by rewrite <- Hmn. }
      destruct (F1 _ md Hmf Hmp) as (md' & ? & _ & _ & Hn').
      exists md'. split; [done|]. rewrite Hn'.
      case_decide as Hmq; [|done]. exfalso.
      destruct Fq as (qd & (_ & Hqd & _) & Hqn & _).
      { rewrite <- Hmq. done. }
      rewrite <- Hmq in Hqd. destruct Hmf as (_ & Hmd & _).
      assert (qd = md) as -> by congruence. congruence.
  - (* next *)
    intros n nd' (Hnp & nd & Hf & Hs & _ & Hn')%F0. rewrite Hn', Hs.
    case_decide as Hnq.
    + intros Hr. destruct (Fr Hr) as (rd & Hrf & Hrp & Hrb).
      destruct (F1 r rd Hrf) as (rd' & ? & Hs' & Hp' & _).
      { intros Hrp'. apply Hqr in Hrp'. congruence. }
      exists rd'. rewrite Hs', Hp', decide_True by done.
      split; [done|]. split; [done|].
      destruct Fq as (qd & (_ & Hqd & _) & _ & Hqb).
      { rewrite <- Hnq. destruct Hf as (_ & ? & _). by eapply Hval. }
      rewrite <- Hnq in Hqd. destruct Hf as (_ & Hnd & _).
      assert (qd = nd) as -> by congruence. congruence.
    + intros Hne. destruct (H5 n nd Hf Hne) as (md & Hmf & Hmp & Hmb).
      assert (binListNext nd <> p) as Hmp'.
      { intros Heq. rewrite Heq in Hmf. destruct Hp as (_ & Hpd & _), Hmf as (_ & Hmd & _).
        assert (md = pd) as -> by congruence. apply Hnq. done. }
      destruct (F1 _ md Hmf Hmp') as (md' & ? & Hs' & Hp' & _).
      exists md'. split; [done|]. rewrite Hp', Hs'. split; [|done].
      case_decide as Hmr; [|done]. exfalso.
      destruct Fr as (rd & (_ & Hrd & _) & Hrp & _).
      { rewrite <- Hmr. done. }
      rewrite <- Hmr in Hrd. destruct Hmf as (_ & Hmd & _).
      assert (rd = md) as -> by congruence. congruence.
Qed.

End Bins.

Section BinsLink.

Implicit Types (nodes : list Node) (bi L : list Z).

Lemma bins_ok_link nodes nodes' bi bi' L L' k t size :
  bins_ok nodes bi L ->
  no_sentinel nodes' ->
  k ∉ L ->
  is_u32 size ->
  Arr.get bi (uintToFloatRoundDown size) = Some t ->
  Arr.set bi (uintToFloatRoundDown size) k = Some bi' ->
  linked k t size nodes nodes' ->
  (forall n, n ∈ L' <-> n = k \/ n ∈ L) ->
  bins_ok nodes' bi' L'.
Proof.
  intros Hok Hval HkL Hsize Hhead Hset (Hlen & (kd & Hkd & Hku & Hks & Hkp & Hkn) & Hlk) HL.
  destruct Hok as [H1 H2 H3 H4 H5].
  set (b := uintToFloatRoundDown size) in *.
  assert (Hkv : k <> NODE_UNUSED) by (by eapply Hval).
  assert (Hval0 : no_sentinel nodes).
  { intros j nd Hj.
    destruct (get_same_length nodes' nodes j) as [nd' Hj']; [done|by eauto|].
    by eapply Hval. }
  assert (Fk : free_in nodes' L' k kd).
  { split; [apply HL; by left|done]. }
  assert (F1 : forall n nd, free_in nodes L n nd ->
            n <> k /\ exists nd', free_in nodes' L' n nd' /\ dataSize nd' = dataSize nd
              /\ binListPrev nd' = (if decide (n = t) then k else binListPrev nd)
              /\ binListNext nd' = binListNext nd).
  { intros n nd (HnL & Hnd & Hu).
    assert (n <> k) as Hne by (intros ->; done).
    split; [done|].
    destruct (Hlk n nd Hne Hnd) as (nd' & Hnd' & Hu' & ?).
    exists nd'. repeat split; try done; try tauto; [apply HL; by right|congruence]. }
  assert (F0 : forall n nd', free_in nodes' L' n nd' ->
            (n = k /\ nd' = kd)
            \/ (n <> k /\ exists nd, free_in nodes L n nd /\ dataSize nd' = dataSize nd
              /\ binListPrev nd' = (if decide (n = t) then k else binListPrev nd)
              /\ binListNext nd' = binListNext nd)).
  { intros n nd' (HnL & Hnd' & Hu).
    destruct (decide (n = k)) as [->|Hne]; [left; split; [done|congruence]|right].
    split; [done|].
    destruct (get_same_length nodes nodes' n Hlen) as [nd Hnd]; [by eauto|].
    destruct (Hlk n nd Hne Hnd) as (nd2 & Hnd2 & Hu' & ?).
    assert (nd2 = nd') as -> by congruence.
    exists nd. repeat split; try done; try tauto; [|congruence].
    apply HL in HnL as [?|?]; done. }
  assert (Ft : t <> NODE_UNUSED ->
            exists td, free_in nodes L t td /\ binListPrev td = NODE_UNUSED /\ bin_of td = b).
  { intros Ht. apply (H1 b t Hhead Ht). }
  assert (Hbk : uintToFloatRoundDown (dataSize kd) = b) by (by rewrite Hks).
  split; unfold bin_of in *.
  - (* heads *)
    intros b' h Hb' Hh. rewrite (get_set _ _ _ _ _ Hset) in Hb'.
    case_decide as Hbb.
    + injection Hb' as <-. subst b'. exists kd. done.
    + destruct (H1 b' h Hb' Hh) as (hd & Hhf & Hhp & Hhb).
      destruct (F1 h hd Hhf) as (_ & hd' & ? & Hs & Hp' & _).
      exists hd'. rewrite Hs, Hp'. split; [done|]. split; [|done].
      case_decide as Hht; [|done]. exfalso. subst h.
      destruct (Ft Hh) as (td & (_ & Htd & _) & _ & Htb).
      destruct Hhf as (_ & Hhd & _). assert (td = hd) as -> by congruence.
      congruence.
  - intros n nd' [[-> ->]|(_ & nd & Hf & Hs & _)]%F0.
    + by rewrite Hks.
    + rewrite Hs. eauto.
  - (* first *)
    intros n nd' [[-> ->]|(Hnk & nd & Hf & Hs & Hp' & _)]%F0.
    + intros _. rewrite Hbk, (get_set _ _ _ _ _ Hset). by rewrite decide_True.
    + rewrite Hs, Hp'. case_decide as Hnt; [done|].
      intros Hnp. pose proof (H3 n nd Hf Hnp) as Hb.
      rewrite (get_set _ _ _ _ _ Hset). case_decide as Heq; [|done].
      exfalso. rewrite Heq in Hb. congruence.
  - (* prev *)
    intros n nd' [[-> ->]|(Hnk & nd & Hf & Hs & Hp' & _)]%F0; [done|].
    rewrite Hp'. case_decide as Hnt.
    + intros _. exists kd. split; [done|congruence].
    + intros Hne. destruct (H4 n nd Hf Hne) as (md & Hmf & Hmn).
      destruct (F1 _ md Hmf) as (_ & md' & ? & _ & _ & Hn').
      exists md'. split; [done|congruence].
  - (* next *)
    intros n nd' [[-> ->]|(Hnk & nd & Hf & Hs & _ & Hn')]%F0.
    + rewrite Hkn. intros Ht. destruct (Ft Ht) as (td & Htf & Htp & Htb).
      destruct (F1 t td Htf) as (_ & td' & ? & Hs' & Hp' & _).
      exists td'. rewrite Hs', Hp', decide_True by done.
      split; [done|]. split; [done|]. congruence.
    + rewrite Hn', Hs. intros Hne.
      destruct (H5 n nd Hf Hne) as (md & Hmf & Hmp & Hmb).
      destruct (F1 _ md Hmf) as (_ & md' & ? & Hs' & Hp' & _).
      exists md'. split; [done|]. rewrite Hp', Hs'. split; [|done].
      case_decide as Hmt; [|done]. exfalso.
      destruct Ft as (td & (_ & Htd & _) & Htp & _).
      { rewrite <- Hmt. done. }
      rewrite <- Hmt in Htd. destruct Hmf as (_ & Hmd & _).
      assert (td = md) as -> by congruence.
      destruct Hf as (_ & Hnd & _). apply (Hval0 n nd Hnd). congruence.
Qed.

End BinsLink.

(** ** The neighbor chain *)

Section Chain.

Implicit Types (nodes : list Node) (l : list Z).

Lemma last_or_cons {A} (d x : A) (l : list A) : last_or d (x :: l) = last_or x l.
Proof. unfold last_or. rewrite last_cons. by destruct (last l). Qed.

Lemma last_or_snoc {A} (d x : A) (l : list A) : last_or d (l ++ [x]) = x.
Proof. unfold last_or. by rewrite last_snoc. Qed.

Lemma last_or_app {A} (d : A) (l1 l2 : list A) :
  last_or d (l1 ++ l2) = last_or (last_or d l1) l2.
Proof.
  revert d. induction l1 as [|x l1 IH]; intros d; [done|].
  cbn [app]. rewrite !last_or_cons. apply IH.
Qed.

Lemma seg_app nodes prev off l1 l2 next e :
  seg nodes prev off (l1 ++ l2) next e <->
  exists mid, seg nodes prev off l1 (hd next l2) mid
              /\ seg nodes (last_or prev l1) mid l2 next e.
Proof.
  revert prev off. induction l1 as [|n l1 IH]; intros prev off; cbn [app seg].
  - split; [intros H; exists off; by split|intros (mid & -> & H); done].
  - split.
    + intros (nd & Hnd & Hp & Ho & Hs & Hn & Hrest).
      apply IH in Hrest as (mid & H1 & H2).
      exists mid. rewrite last_or_cons. split; [|done].
      exists nd. repeat split; try done.
      rewrite Hn. by destruct l1.
    + intros (mid & (nd & Hnd & Hp & Ho & Hs & Hn & H1) & H2).
      rewrite last_or_cons in H2.
      exists nd. repeat split; try done.
      * rewrite Hn. by destruct l1.
      * apply IH. eauto.
Qed.

Lemma seg_valid nodes prev off l next e n :
  seg nodes prev off l next e -> n ∈ l -> is_Some (Arr.get nodes n).
Proof.
  revert prev off. induction l as [|m l IH]; intros prev off Hseg Hn.
  - by apply elem_of_nil in Hn.
  - destruct Hseg as (nd & Hnd & _ & _ & _ & _ & Hrest).
    apply elem_of_cons in Hn as [->|Hn]; [by eauto|]. by eapply IH.
Qed.

Lemma seg_le nodes prev off l next e :
  seg nodes prev off l next e -> off <= e.
Proof.
  revert prev off. induction l as [|m l IH]; intros prev off Hseg.
  - cbn in Hseg. lia.
  - destruct Hseg as (nd & _ & _ & _ & Hs & _ & Hrest%IH). lia.
Qed.

(** What the chain says about the node in the middle of [l1 ++ n :: l2]. *)
Lemma seg_at nodes prev off l1 n l2 next e :
  seg nodes prev off (l1 ++ n :: l2) next e ->
  exists nd mid,
    Arr.get nodes n = Some nd
    /\ neighborPrev nd = last_or prev l1
    /\ neighborNext nd = hd next l2
    /\ dataOffset nd = mid /\ 0 <= dataSize nd
    /\ off <= mid /\ mid + dataSize nd <= e
    /\ seg nodes prev off l1 n mid
    /\ seg nodes n (mid + dataSize nd) l2 next e.
Proof.
  intros (mid & H1 & H2)%seg_app. cbn [hd] in H1.
  destruct H2 as (nd & Hnd & Hp & Ho & Hs & Hn & H2).
  exists nd, mid. repeat split; try done.
  - by eapply seg_le.
  - by eapply seg_le.
Qed.

(** Re-reading a segment in a changed node array: the address fields
    are kept, except that the first node now points back to [prev'] and
    the last one forward to [next']. *)
Lemma seg_relink nodes nodes' prev prev' off l next next' e :
  NoDup l ->
  seg nodes prev off l next e ->
  (forall m nd, m ∈ l -> Arr.get nodes m = Some nd ->
     exists nd', Arr.get nodes' m = Some nd'
       /\ dataOffset nd' = dataOffset nd /\ dataSize nd' = dataSize nd
       /\ neighborPrev nd' = (if decide (head l = Some m) then prev' else neighborPrev nd)
       /\ neighborNext nd' = (if decide (last l = Some m) then next' else neighborNext nd)) ->
  seg nodes' prev' off l next' e.
Proof.
  revert prev prev' off. induction l as [|n l IH]; intros prev prev' off Hnd Hseg Hrel; [done|].
  destruct Hseg as (nd & Hn & Hp & Ho & Hs & Hnx & Hrest).
  apply NoDup_cons in Hnd as [Hnl Hnd].
  destruct (Hrel n nd) as (nd' & Hn' & Ho' & Hs' & Hp' & Hnx'); [left|done|].
  cbn [head] in Hp'. rewrite decide_True in Hp' by done.
  exists nd'. split; [done|]. split; [done|]. split; [congruence|].
  split; [lia|]. split.
  - rewrite Hnx'. destruct l as [|m l].
    + cbn. by rewrite decide_True.
    + rewrite last_cons_cons. rewrite decide_False; [done|].
      intros Hl%last_Some_elem_of. done.
  - rewrite Hs'. apply (IH n n); [done|done|].
    intros m md Hm Hmd.
    destruct (Hrel m md) as (md' & Hm' & Hmo & Hms & Hmp & Hmn); [by right|done|].
    exists md'. repeat split; try done.
    + rewrite Hmp. cbn [head]. rewrite decide_False by (intros [= ->]; done).
      destruct (decide (head l = Some m)) as [Hh|Hh]; [|done].
      destruct l as [|x l]; [done|]. injection Hh as ->.
      destruct Hrest as (xd & Hxd & Hxp & _). congruence.
    + rewrite Hmn. destruct l as [|x l]; [by apply elem_of_nil in Hm|].
      by rewrite last_cons_cons.
Qed.

Lemma seg_frame nodes nodes' prev off l next e :
  seg nodes prev off l next e ->
  (forall m nd, m ∈ l -> Arr.get nodes m = Some nd ->
     exists nd', Arr.get nodes' m = Some nd' /\ geom_eq nd nd') ->
  seg nodes' prev off l next e.
Proof.
  revert prev off. induction l as [|n l IH]; intros prev off Hseg Hrel; [done|].
  destruct Hseg as (nd & Hn & Hp & Ho & Hs & Hnx & Hrest).
  destruct (Hrel n nd) as (nd' & Hn' & Ho' & Hs' & _ & Hp' & Hnx'); [left|done|].
  exists nd'. rewrite Ho', Hs', Hp', Hnx'. repeat split; try done.
  apply IH; [done|]. intros m md Hm. apply Hrel. by right.
Qed.

(** *** Free flags *)

Lemma sparse_app (p : bool) (f1 f2 : list bool) :
  sparse p (f1 ++ f2) <-> sparse p f1 /\ sparse (last_or p f1) f2.
Proof.
  revert p. induction f1 as [|b f1 IH]; intros p; cbn [app sparse].
  - unfold last_or. cbn. tauto.
  - rewrite last_or_cons, IH. tauto.
Qed.

Lemma sparse_weaken (p : bool) (f : list bool) : sparse p f -> sparse false f.
Proof. destruct f as [|b f]; [done|]. cbn. intros [_ ?]. split; [|done]. by intros [? _]. Qed.

Lemma sparse_head (p : bool) (f : list bool) :
  sparse p f -> hd false f = false -> sparse true f.
Proof. destruct f as [|b f]; [done|]. cbn. intros [_ ?] ->. split; [|done]. by intros [_ ?]. Qed.

Lemma sparse_true_head (f : list bool) : sparse true f -> hd false f = false.
Proof. destruct f as [|[] f]; cbn; [done| |done]. intros [H _]. by destruct H. Qed.

Lemma is_free_eq nodes nodes' (n : Z) :
  (forall nd, Arr.get nodes n = Some nd ->
     exists nd', Arr.get nodes' n = Some nd' /\ used nd' = used nd) ->
  is_Some (Arr.get nodes n) ->
  is_free nodes' n = is_free nodes n.
Proof.
  intros H [nd Hnd]. destruct (H nd Hnd) as (nd' & Hnd' & Hu).
  unfold is_free. by rewrite Hnd, Hnd', Hu.
Qed.

Lemma is_free_fmap_eq nodes nodes' l :
  (forall n, n ∈ l -> is_free nodes' n = is_free nodes n) ->
  is_free nodes' <$> l = is_free nodes <$> l.
Proof.
  intros H. apply list_fmap_ext. intros i n Hi. apply H.
  by eapply list_elem_of_lookup_2.
Qed.

End Chain.

(** ** The free-slot stack *)

Section Stack.

Implicit Types (FN fs : list Z) (fo k : Z).

Lemma stack_is_length FN fo fs : stack_is FN fo fs -> (length fs <= length FN)%nat.
Proof. intros (_ & _ & Ht). rewrite <- Ht at 1. rewrite length_take. lia. Qed.

Lemma stack_is_top FN fo fs :
  stack_is FN fo fs -> add32 fo 1 = Z.of_nat (length fs).
Proof.
  intros Hs. pose proof (stack_is_length _ _ _ Hs).
  destruct Hs as (Hlen & -> & _). unfold add32, u32.
  destruct fs as [|x fs]; [done|].
  rewrite (Z.mod_small (_ - 1)) by (cbn [length] in *; lia).
  rewrite Z.mod_small; cbn [length] in *; lia.
Qed.

Lemma stack_pop FN fo fs k :
  stack_is FN fo (fs ++ [k]) ->
  Arr.get FN fo = Some k /\ stack_is FN (sub32 fo 1) fs.
Proof.
  intros Hs. pose proof (stack_is_length _ _ _ Hs) as Hle.
  destruct Hs as (Hlen & -> & Ht). rewrite length_app in *. cbn [length] in *.
  assert (u32 (Z.of_nat (length fs + 1) - 1) = Z.of_nat (length fs)) as ->.
  { rewrite u32_small; lia. }
  split; [|split; [done|split]].
  - unfold Arr.get. case_decide; [|lia]. rewrite Nat2Z.id.
    rewrite <- (lookup_take_lt FN (length fs + 1)) by lia.
    rewrite Ht. rewrite lookup_app_r by lia. by rewrite Nat.sub_diag.
  - done.
  - apply (f_equal (take (length fs))) in Ht.
    rewrite take_take, take_app_length in Ht.
    rewrite Nat.min_l in Ht by lia. done.
Qed.

Lemma stack_empty FN fo : stack_is FN fo [] -> Arr.get FN fo = None.
Proof.
  intros (Hlen & -> & _). apply get_None. cbn [length].
  assert (u32 (Z.of_nat 0 - 1) = 4294967295) as -> by reflexivity. lia.
Qed.

Lemma stack_push FN fo fs k :
  stack_is FN fo fs -> (length fs < length FN)%nat ->
  exists FN',
    Arr.set FN (add32 fo 1) k = Some FN'
    /\ stack_is FN' (add32 fo 1) (fs ++ [k])
    /\ length FN' = length FN.
Proof.
  intros Hs Hlt. rewrite (stack_is_top _ _ _ Hs).
  destruct Hs as (Hlen & -> & Ht).
  eexists. split; [apply set_Some; lia|]. rewrite Nat2Z.id.
  split; [|by rewrite length_insert].
  split; [by rewrite length_insert|]. split.
  - rewrite length_app. cbn [length]. rewrite u32_small; lia.
  - rewrite length_app. cbn [length].
    replace (length fs + 1)%nat with (S (length fs)) by lia.
    erewrite take_S_r; [|apply list_lookup_insert_eq; lia].
    rewrite take_insert_ge by lia. by rewrite Ht.
Qed.

End Stack.

(** ** Bin lists reach their head; the free-storage sum *)

Section Rank.

Implicit Types (nodes : list Node) (bi L : list Z).

Lemma bin_rank_inv nodes (n : Z) (k : nat) :
  bin_rank nodes n k ->
  exists nd, Arr.get nodes n = Some nd
    /\ ((k = 0%nat /\ binListPrev nd = NODE_UNUSED)
        \/ (exists k0, k = S k0 /\ binListPrev nd <> NODE_UNUSED
              /\ bin_rank nodes (binListPrev nd) k0)).
Proof.
  destruct 1 as [n nd Hn Hp|n nd k Hn Hp Hk]; exists nd; split; try done.
  - by left.
  - right. by exists k.
Qed.

Lemma bin_rank_0_inv nodes (n : Z) (nd : Node) :
  bin_rank nodes n 0 -> Arr.get nodes n = Some nd -> binListPrev nd = NODE_UNUSED.
Proof.
  intros (nd' & Hn & [[_ Hp]|(k0 & Hk & _)])%bin_rank_inv Hnd; [congruence|done].
Qed.

Lemma bin_rank_S_inv nodes (n : Z) (k : nat) (nd : Node) :
  bin_rank nodes n (S k) -> Arr.get nodes n = Some nd ->
  binListPrev nd <> NODE_UNUSED /\ bin_rank nodes (binListPrev nd) k.
Proof.
  intros (nd' & Hn & [[Hk _]|(k0 & Hk & Hp & Hr)])%bin_rank_inv Hnd; [done|].
  assert (nd' = nd) as -> by congruence. injection Hk as ->. done.
Qed.

Lemma rank_ok_live nodes L L' :
  rank_ok nodes L ->
  (forall n nd, free_in nodes L' n nd -> free_in nodes L n nd) ->
  rank_ok nodes L'.
Proof. intros Hok HL n nd Hf. apply (Hok n nd). by apply HL. Qed.

Lemma bin_rank_frame nodes nodes' (n : Z) (k : nat) :
  bin_same nodes nodes' -> bin_rank nodes n k -> bin_rank nodes' n k.
Proof.
  intros [Hlen Hsame]. induction 1 as [n nd Hn Hp|n nd k Hn Hp _ IH].
  - destruct (Hsame n nd Hn) as (nd' & Hn' & _ & _ & Hp' & _).
    apply (rank_head _ n nd'); [done|congruence].
  - destruct (Hsame n nd Hn) as (nd' & Hn' & _ & _ & Hp' & _).
    apply (rank_next _ n nd'); [done|congruence|]. by rewrite Hp'.
Qed.

Lemma rank_ok_frame nodes nodes' L :
  rank_ok nodes L -> bin_same nodes nodes' -> rank_ok nodes' L.
Proof.
  intros Hok Hsame n nd' (HnL & Hn' & Hu).
  destruct Hsame as [Hlen Hs].
  destruct (get_same_length nodes nodes' n Hlen) as [nd Hn]; [by eauto|].
  destruct (Hs n nd Hn) as (nd2 & Hn2 & Hu2 & _).
  assert (nd2 = nd') as -> by congruence.
  destruct (Hok n nd) as [k Hk]; [split_and!; [done|done|congruence]|].
  exists k. by apply (bin_rank_frame nodes nodes').
Qed.

(** A new node [k] in front of [t]: every list grows at its head. *)
Lemma rank_ok_link nodes nodes' bi L L' k t size :
  bins_ok nodes bi L ->
  no_sentinel nodes' ->
  k ∉ L ->
  (t <> NODE_UNUSED -> exists td, free_in nodes L t td /\ binListPrev td = NODE_UNUSED) ->
  linked k t size nodes nodes' ->
  (forall n, n ∈ L' <-> n = k \/ n ∈ L) ->
  rank_ok nodes L -> rank_ok nodes' L'.
Proof.
  intros Hbins Hval HkL Ht (Hlen & (kd & Hkd & Hku & Hks & Hkp & Hkn) & Hlk) HL Hok.
  assert (Hk0 : bin_rank nodes' k 0) by (by apply (rank_head _ k kd)).
  assert (Hkv : k <> NODE_UNUSED) by (by eapply Hval).
  assert (Hmove : forall r n nd, free_in nodes L n nd -> bin_rank nodes n r ->
            exists r', bin_rank nodes' n r').
  { induction r as [|r IH]; intros n nd Hf Hr; pose proof Hf as (HnL & Hn & Hu).
    - pose proof (bin_rank_0_inv _ _ _ Hr Hn) as Hp0.
      assert (n <> k) as Hnk by (intros ->; done).
      destruct (Hlk n nd Hnk Hn) as (nd' & Hn' & _ & _ & Hp' & _).
      destruct (decide (n = t)) as [Heq|Hnt].
      + exists 1%nat. apply (rank_next _ n nd'); [done|congruence|by rewrite Hp'].
      + exists 0%nat. apply (rank_head _ n nd'); [done|congruence].
    - destruct (bin_rank_S_inv _ _ _ _ Hr Hn) as [Hp0 Hr0].
      assert (n <> k) as Hnk by (intros ->; done).
      destruct (Hlk n nd Hnk Hn) as (nd' & Hn' & _ & _ & Hp' & _).
      destruct (decide (n = t)) as [Heq|Hnt].
      + exists 1%nat. apply (rank_next _ n nd'); [done|congruence|by rewrite Hp'].
      + destruct (bins_prev _ _ _ Hbins n nd Hf Hp0) as (pd & Hpf & _).
        destruct (IH _ pd Hpf Hr0) as [r' Hr'].
        exists (S r'). apply (rank_next _ n nd'); [done|congruence|by rewrite Hp']. }
  intros n nd' (HnL & Hn' & Hu).
  apply HL in HnL as [->|HnL]; [by exists 0%nat|].
  assert (n <> k) as Hnk by (intros ->; done).
  destruct (get_same_length nodes nodes' n Hlen) as [nd Hn]; [by eauto|].
  destruct (Hlk n nd Hnk Hn) as (nd2 & Hn2 & Hu2 & _).
  assert (nd2 = nd') as -> by congruence.
  assert (Hf : free_in nodes L n nd) by (split_and!; [done|done|congruence]).
  destruct (Hok n nd Hf) as [r Hr]. by eapply Hmove.
Qed.

(** Node [p] leaves its list: the nodes behind it move one step closer
    to the head. *)
Lemma rank_ok_unlink nodes nodes' bi L L' p pd :
  bins_ok nodes bi L ->
  no_sentinel nodes ->
  free_in nodes L p pd ->
  unlinked p (binListPrev pd) (binListNext pd) nodes nodes' ->
  (forall n, n <> p -> (n ∈ L' <-> n ∈ L)) ->
  (forall nd', p ∈ L' -> Arr.get nodes' p = Some nd' -> used nd' = true) ->
  rank_ok nodes L -> rank_ok nodes' L'.
Proof.
  intros Hbins Hval Hp [Hlen Hun] HL HpL Hok.
  pose proof Hp as (HpL0 & Hpd & Hpu).
  set (q := binListPrev pd) in *. set (r := binListNext pd) in *.
  assert (Hpv : p <> NODE_UNUSED) by (by eapply Hval).
  (* the node behind [p] points back to [p] *)
  assert (Hr : forall n nd, free_in nodes L n nd -> n = r -> binListPrev nd = p).
  { intros n nd (_ & Hn & _) ->.
    assert (Hrn : r <> NODE_UNUSED) by (by eapply Hval).
    destruct (bins_next _ _ _ Hbins p pd Hp Hrn) as (xd & (_ & Hxd & _) & Hxp & _).
    fold r in Hxd. congruence. }
  (* only that node points back to [p] *)
  assert (Hr' : forall n nd, free_in nodes L n nd -> binListPrev nd = p -> n = r).
  { intros n nd Hf Hpp.
    destruct (bins_prev _ _ _ Hbins n nd Hf) as (pd' & (_ & Hpd' & _) & Hnx); [congruence|].
    rewrite Hpp in Hpd'. assert (pd' = pd) as -> by congruence. done. }
  assert (Hmove : forall k n nd, free_in nodes L n nd -> n <> p -> bin_rank nodes n k ->
            exists k', bin_rank nodes' n k').
  { induction k as [k IH] using lt_wf_ind. intros n nd Hf Hnp Hk.
    pose proof Hf as (HnL & Hn & Hu).
    destruct (Hun n nd Hnp Hn) as (nd' & Hn' & _ & _ & Hp' & _).
    destruct k as [|k0].
    - pose proof (bin_rank_0_inv _ _ _ Hk Hn) as Hp0.
      assert (n <> r) as Hnr.
      { intros Heq. rewrite (Hr n nd Hf Heq) in Hp0. done. }
      rewrite decide_False in Hp' by done.
      exists 0%nat. apply (rank_head _ n nd'); [done|congruence].
    - destruct (bin_rank_S_inv _ _ _ _ Hk Hn) as [Hp0 Hk0].
      destruct (decide (n = r)) as [Heq|Hnr].
      + (* [n] was right behind [p]: it now follows [q] *)
        pose proof (Hr n nd Hf Heq) as Hpp. rewrite Hpp in Hk0.
        destruct k0 as [|k1].
        * pose proof (bin_rank_0_inv _ _ _ Hk0 Hpd) as Hq0. fold q in Hq0.
          exists 0%nat. apply (rank_head _ _ nd'); [done|]. by rewrite Hp'.
        * destruct (bin_rank_S_inv _ _ _ _ Hk0 Hpd) as [Hq0 Hk1]. fold q in Hq0, Hk1.
          destruct (bins_prev _ _ _ Hbins p pd Hp Hq0) as (qd & Hqf & Hqn).
          fold q in Hqf, Hqn.
          assert (q <> p) as Hqp.
          { intros Hqp. rewrite Hqp in Hqf. destruct Hqf as (_ & Hqd & _).
            assert (qd = pd) as -> by congruence. fold r in Hqn. congruence. }
          destruct (IH k1 ltac:(lia) q qd Hqf Hqp Hk1) as [k' Hk'].
          exists (S k'). apply (rank_next _ _ nd'); [done|by rewrite Hp'|by rewrite Hp'].
      + destruct (bins_prev _ _ _ Hbins n nd Hf Hp0) as (xd & Hxf & _).
        assert (binListPrev nd <> p) as Hxp.
        { intros Hpp. apply Hnr. by eapply Hr'. }
        destruct (IH k0 ltac:(lia) _ xd Hxf Hxp Hk0) as [k' Hk'].
        exists (S k'). apply (rank_next _ _ nd'); [done|congruence|by rewrite Hp']. }
  intros n nd' (HnL & Hn' & Hu).
  assert (n <> p) as Hnp.
  { intros ->. specialize (HpL _ HnL Hn'). congruence. }
  destruct (get_same_length nodes nodes' n Hlen) as [nd Hn]; [by eauto|].
  destruct (Hun n nd Hnp Hn) as (nd2 & Hn2 & Hu2 & _).
  assert (nd2 = nd') as -> by congruence.
  assert (Hf : free_in nodes L n nd).
  { split_and!; [by apply HL|done|congruence]. }
  destruct (Hok n nd Hf) as [k Hk]. by eapply Hmove.
Qed.

(** With the lists reaching their heads, the bin of a free node is not
    empty. *)
Lemma rank_bin_nonempty nodes bi L (n : Z) (nd : Node) :
  bins_ok nodes bi L -> no_sentinel nodes -> rank_ok nodes L ->
  free_in nodes L n nd ->
  exists h, Arr.get bi (bin_of nd) = Some h /\ h <> NODE_UNUSED.
Proof.
  intros Hbins Hval Hok Hf. destruct (Hok n nd Hf) as [k Hk].
  revert n nd Hf Hk. induction k as [|k IH]; intros n nd Hf Hk;
    pose proof Hf as (_ & Hn & _).
  - pose proof (bin_rank_0_inv _ _ _ Hk Hn) as Hp0.
    exists n. split; [by apply (bins_first _ _ _ Hbins)|by eapply Hval].
  - destruct (bin_rank_S_inv _ _ _ _ Hk Hn) as [Hp0 Hk0].
    destruct (bins_prev _ _ _ Hbins n nd Hf Hp0) as (pd & Hpf & Hpn).
    destruct (IH _ pd Hpf Hk0) as (h & Hh & Hhne).
    assert (Hnv : binListNext pd <> NODE_UNUSED) by (rewrite Hpn; by eapply Hval).
    destruct (bins_next _ _ _ Hbins _ pd Hpf Hnv) as (xd & (_ & Hxd & _) & _ & Hbin).
    rewrite Hpn in Hxd. assert (xd = nd) as -> by congruence.
    exists h. by rewrite Hbin.
Qed.

End Rank.

Section FreeTotal.

Implicit Types (nodes : list Node) (l : list Z).

Lemma free_total_nil nodes : free_total nodes [] = 0.
Proof. done. Qed.

Lemma free_total_cons nodes n l :
  free_total nodes (n :: l) = free_size nodes n + free_total nodes l.
Proof. done. Qed.

Lemma free_total_app nodes l1 l2 :
  free_total nodes (l1 ++ l2) = free_total nodes l1 + free_total nodes l2.
Proof.
  induction l1 as [|n l1 IH]; [done|].
  cbn [app]. rewrite !free_total_cons, IH. lia.
Qed.

Lemma free_total_ext nodes nodes' l :
  (forall n, n ∈ l -> free_size nodes' n = free_size nodes n) ->
  free_total nodes' l = free_total nodes l.
Proof.
  induction l as [|n l IH]; intros H; [done|].
  rewrite !free_total_cons, H by (by left). rewrite IH; [done|].
  intros m Hm. apply H. by right.
Qed.

Lemma free_size_eq nodes nodes' (n : Z) (nd nd' : Node) :
  Arr.get nodes n = Some nd -> Arr.get nodes' n = Some nd' ->
  used nd' = used nd -> dataSize nd' = dataSize nd ->
  free_size nodes' n = free_size nodes n.
Proof. intros Hn Hn' Hu Hs. unfold free_size. by rewrite Hn, Hn', Hu, Hs. Qed.

Lemma free_size_free nodes (n : Z) (nd : Node) :
  Arr.get nodes n = Some nd -> used nd = false -> free_size nodes n = dataSize nd.
Proof. intros Hn Hu. unfold free_size. by rewrite Hn, Hu. Qed.

Lemma free_size_used nodes (n : Z) (nd : Node) :
  Arr.get nodes n = Some nd -> used nd = true -> free_size nodes n = 0.
Proof. intros Hn Hu. unfold free_size. by rewrite Hn, Hu. Qed.

(** A stretch of the chain holds no more free storage than its length. *)
Lemma free_total_bounds nodes prev off l next e :
  seg nodes prev off l next e -> 0 <= free_total nodes l <= e - off.
Proof.
  revert prev off. induction l as [|n l IH]; intros prev off Hseg.
  - cbn in Hseg. rewrite free_total_nil. lia.
  - destruct Hseg as (nd & Hn & _ & _ & Hs & _ & Hrest).
    apply IH in Hrest. rewrite free_total_cons.
    unfold free_size. rewrite Hn. destruct (used nd); lia.
Qed.

Lemma free_size_bounds nodes prev off l next e (n : Z) :
  seg nodes prev off l next e -> n ∈ l -> 0 <= free_size nodes n.
Proof.
  intros Hseg Hn. destruct (seg_valid _ _ _ _ _ _ n Hseg Hn) as [nd Hnd].
  destruct (list_elem_of_split _ _ Hn) as (l1 & l2 & ->).
  destruct (seg_at _ _ _ _ _ _ _ _ Hseg) as (nd' & mid & Hnd' & _ & _ & _ & Hs & _).
  unfold free_size. rewrite Hnd'. destruct (used nd'); lia.
Qed.

Lemma free_total_nonneg nodes l :
  (forall j, j ∈ l -> 0 <= free_size nodes j) -> 0 <= free_total nodes l.
Proof.
  induction l as [|n l IH]; intros H; [by rewrite free_total_nil|].
  rewrite free_total_cons. pose proof (H n ltac:(by left)).
  assert (0 <= free_total nodes l); [|lia].
  apply IH. intros j Hj. apply H. by right.
Qed.

(** A stretch of free nodes holds as much free storage as it is long. *)
Lemma free_total_all_free nodes prev off l next e :
  seg nodes prev off l next e ->
  (forall j, j ∈ l -> is_free nodes j = true) ->
  free_total nodes l = e - off.
Proof.
  revert prev off. induction l as [|n l IH]; intros prev off Hseg Hfree.
  - cbn in Hseg. rewrite free_total_nil. lia.
  - destruct Hseg as (nd & Hn & _ & _ & Hs & _ & Hrest).
    rewrite free_total_cons, (IH _ _ Hrest) by (intros j Hj; apply Hfree; by right).
    pose proof (Hfree n ltac:(by left)) as Hf. unfold is_free in Hf. rewrite Hn in Hf.
    unfold free_size. rewrite Hn. destruct (used nd); [done|]. lia.
Qed.

End FreeTotal.

(** ** Bin-list operations on the allocator *)

Ltac simpl_alloc :=
  cbn [m_size m_maxAllocs m_freeStorage m_usedBinsTop m_usedBins m_binIndices
       m_nodes m_freeNodes m_freeOffset set_freeStorage set_usedBinsTop
       set_usedBins set_binIndices set_nodes set_freeNodes set_freeOffset
       mbind option_bind fst snd] in *.

Section BinOps.

Lemma insertNodeIntoBin_spec (a : Allocator) (size off : Z) (L fs : list Z) (k : Z) :
  bitmap_ok (m_usedBinsTop a) (m_usedBins a) (m_binIndices a) ->
  bins_ok (m_nodes a) (m_binIndices a) L ->
  Z.of_nat (length (m_nodes a)) < 2 ^ 32 ->
  stack_is (m_freeNodes a) (m_freeOffset a) (fs ++ [k]) ->
  k ∉ L -> 0 <= k < Z.of_nat (length (m_nodes a)) -> is_u32 size ->
  exists a' kd,
    insertNodeIntoBin a size off = Some (k, a')
    /\ m_size a' = m_size a /\ m_maxAllocs a' = m_maxAllocs a
    /\ m_freeNodes a' = m_freeNodes a
    /\ stack_is (m_freeNodes a') (m_freeOffset a') fs
    /\ bitmap_ok (m_usedBinsTop a') (m_usedBins a') (m_binIndices a')
    /\ bins_ok (m_nodes a') (m_binIndices a') (k :: L)
    /\ geom_same k (m_nodes a) (m_nodes a')
    /\ Arr.get (m_nodes a') k = Some kd
    /\ dataOffset kd = off /\ dataSize kd = size
    /\ neighborPrev kd = NODE_UNUSED /\ neighborNext kd = NODE_UNUSED
    /\ used kd = false
    /\ m_freeStorage a' = add32 (m_freeStorage a) size
    /\ (rank_ok (m_nodes a) L -> rank_ok (m_nodes a') (k :: L)).
Proof.
  intros Hbm Hbins Hlen Hstack HkL Hk Hsize.
  destruct (uintToFloatRoundDown_bounds size Hsize) as [Hb _].
  destruct (bin_split (uintToFloatRoundDown size)) as (Ht & Hl & Hbtl); [lia|].
  cbn zeta in Ht, Hl, Hbtl.
  unfold insertNodeIntoBin. cbv zeta.
  set (b := uintToFloatRoundDown size) in *.
  set (t := Z.shiftr b TOP_BINS_INDEX_SHIFT) in *.
  set (l := Z.land b LEAF_BINS_INDEX_MASK) in *.
  destruct (bitmap_get_bin _ _ _ b Hbm) as [head Hhead]; [lia|].
  destruct (stack_pop _ _ _ _ Hstack) as [Hpop Hstack'].
  pose proof (bm_bins_len _ _ _ Hbm) as Hbilen.
  set (bi' := <[Z.to_nat b := k]> (m_binIndices a)).
  assert (Hset : Arr.set (m_binIndices a) b k = Some bi') by (apply set_Some; lia).
  assert (Hkv : k <> NODE_UNUSED) by (unfold NODE_UNUSED; lia).
  rewrite Hhead. simpl_alloc.
  (* the bitmap bits *)
  assert (exists top' ub',
    (if decide (head = NODE_UNUSED)
     then leafMask ← Arr.get (m_usedBins a) t;
          usedBins ← Arr.set (m_usedBins a) t (u8 (Z.lor leafMask (Z.shiftl 1 l)));
          Some (set_usedBinsTop (u32 (Z.lor (m_usedBinsTop a) (Z.shiftl 1 t)))
                  (set_usedBins usedBins a))
     else Some a) = Some (set_usedBinsTop top' (set_usedBins ub' a))
    /\ bitmap_ok top' ub' bi') as (top' & ub' & -> & Hbm').
  { case_decide as Hhd.
    - destruct (bitmap_get_leaf _ _ _ t Hbm Ht) as [x Hx]. rewrite Hx. simpl_alloc.
      pose proof (bm_leaf_len _ _ _ Hbm) as Hublen.
      rewrite set_Some by lia. simpl_alloc.
      eexists _, _. split; [reflexivity|].
      eapply (bitmap_ok_set _ _ _ t l); try done.
      + apply set_Some; lia.
      + by rewrite <- Hbtl.
    - exists (m_usedBinsTop a), (m_usedBins a). split; [by destruct a|].
      by eapply bitmap_ok_replace. }
  simpl_alloc. rewrite Hhead, Hpop. simpl_alloc.
  set (kd := mkNode off size NODE_UNUSED head NODE_UNUSED NODE_UNUSED false).
  set (nodes1 := <[Z.to_nat k := kd]> (m_nodes a)).
  assert (Hn1 : Arr.set (m_nodes a) k kd = Some nodes1) by (by apply set_Some).
  rewrite Hn1. simpl_alloc.
  (* the old head, when there is one *)
  assert (Hhd : head <> NODE_UNUSED ->
            exists hd, free_in (m_nodes a) L head hd /\ head <> k).
  { intros Hne. destruct (bins_head _ _ _ Hbins b head Hhead Hne) as (hd & Hf & _).
    exists hd. split; [done|]. intros ->. by destruct Hf. }
  assert (exists nodes2,
    (if decide (head = NODE_UNUSED) then Some nodes1
     else Arr.upd nodes1 head (with_binListPrev k)) = Some nodes2
    /\ length nodes2 = length (m_nodes a)
    /\ Arr.get nodes2 k = Some kd
    /\ forall j nd, j <> k -> Arr.get (m_nodes a) j = Some nd ->
         Arr.get nodes2 j
         = Some (if decide (j = head) then with_binListPrev k nd else nd))
    as (nodes2 & -> & Hlen2 & Hk2 & Hj2).
  { case_decide as Hne.
    - exists nodes1. split; [done|]. split; [by apply length_insert|].
      split; [by rewrite (get_set _ _ _ _ _ Hn1), decide_True|].
      intros j nd Hjk Hj. rewrite (get_set _ _ _ _ _ Hn1), decide_False by done.
      rewrite decide_False; [done|].
      intros ->. apply get_Some_range in Hj. unfold NODE_UNUSED in Hne. lia.
    - destruct (Hhd Hne) as (hd & (_ & Hhdn & _) & Hhk).
      assert (Arr.get nodes1 head = Some hd) as Hh1.
      { by rewrite (get_set _ _ _ _ _ Hn1), decide_False. }
      eexists. split; [by apply upd_Some|].
      assert (Hupd : Arr.upd nodes1 head (with_binListPrev k)
                     = Some (<[Z.to_nat head := with_binListPrev k hd]> nodes1))
        by (by apply upd_Some).
      split; [rewrite length_insert; apply length_insert|].
      split.
      + rewrite (get_upd _ _ _ _ _ Hupd), decide_False by done.
        by rewrite (get_set _ _ _ _ _ Hn1), decide_True.
      + intros j nd Hjk Hj. rewrite (get_upd _ _ _ _ _ Hupd).
        case_decide as Hjh.
        * subst j. rewrite Hh1. cbn. congruence.
        * by rewrite (get_set _ _ _ _ _ Hn1), decide_False. }
  simpl_alloc. rewrite Hset. simpl_alloc.
  eexists _, kd. split; [reflexivity|]. simpl_alloc.
  assert (Hlinked : linked k head size (m_nodes a) nodes2).
  { split; [done|]. split; [by exists kd|].
    intros j nd Hjk Hj. rewrite (Hj2 j nd Hjk Hj). eexists. split; [done|].
    case_decide; destruct nd; done. }
  split_and!; try done.
  - eapply bins_ok_link; try done.
    + apply no_sentinel_length. by rewrite Hlen2.
    + intros n. by rewrite elem_of_cons.
  - split; [done|].
    intros j nd Hjk Hj. rewrite (Hj2 j nd Hjk Hj). eexists. split; [done|].
    case_decide; destruct nd; done.
  - intros Hrank. eapply (rank_ok_link (m_nodes a) nodes2 _ L (k :: L) k head size);
      try done.
    + apply no_sentinel_length. by rewrite Hlen2.
    + intros Hne. destruct (bins_head _ _ _ Hbins b head Hhead Hne) as (hd & Hf & Hp & _).
      by exists hd.
    + intros n. by rewrite elem_of_cons.
Qed.

Lemma insertNodeIntoBin_empty (a : Allocator) (size off : Z) :
  stack_is (m_freeNodes a) (m_freeOffset a) [] ->
  insertNodeIntoBin a size off = None.
Proof.
  intros Hempty%stack_empty. unfold insertNodeIntoBin. cbv zeta.
  destruct (Arr.get (m_binIndices a) _) as [head|]; [|done]. simpl_alloc.
  case_decide.
  - destruct (Arr.get (m_usedBins a) _) as [x|]; [|done]. simpl_alloc.
    destruct (Arr.set (m_usedBins a) _ _) as [ub|]; [|done]. simpl_alloc.
    destruct (Arr.get (m_binIndices a) _) as [h|]; [|done]. simpl_alloc.
    by rewrite Hempty.
  - simpl_alloc.
    destruct (Arr.get (m_binIndices a) _) as [h|]; [|done]. simpl_alloc.
    by rewrite Hempty.
Qed.

Lemma unlink_fields_unlinked (nodes nodes' : list Node) (p q r : Z) :
  length nodes' = length nodes ->
  (forall j nd, Arr.get nodes j = Some nd ->
     Arr.get nodes' j = Some (unlink_fields q r j nd)) ->
  unlinked p q r nodes nodes' /\ geom_keep nodes nodes'.
Proof.
  intros Hlen Hdesc. split; (split; [done|]).
  - intros j nd _ Hj. rewrite (Hdesc j nd Hj). eexists. split; [done|].
    unfold unlink_fields. destruct nd. do 2 case_decide; done.
  - intros j nd Hj. rewrite (Hdesc j nd Hj). eexists. split; [done|].
    unfold unlink_fields. destruct nd. do 2 case_decide; done.
Qed.

Lemma removeNodeFromBin_spec (a : Allocator) (p : Z) (pd : Node) (L fs : list Z) :
  bitmap_ok (m_usedBinsTop a) (m_usedBins a) (m_binIndices a) ->
  bins_ok (m_nodes a) (m_binIndices a) L ->
  Z.of_nat (length (m_nodes a)) < 2 ^ 32 ->
  stack_is (m_freeNodes a) (m_freeOffset a) fs ->
  (length fs < length (m_freeNodes a))%nat ->
  free_in (m_nodes a) L p pd ->
  exists a',
    removeNodeFromBin a p = Some a'
    /\ m_size a' = m_size a /\ m_maxAllocs a' = m_maxAllocs a
    /\ stack_is (m_freeNodes a') (m_freeOffset a') (fs ++ [p])
    /\ length (m_freeNodes a') = length (m_freeNodes a)
    /\ bitmap_ok (m_usedBinsTop a') (m_usedBins a') (m_binIndices a')
    /\ (forall L', (forall n, n ∈ L' <-> n ∈ L /\ n <> p) ->
          bins_ok (m_nodes a') (m_binIndices a') L')
    /\ geom_keep (m_nodes a) (m_nodes a')
    /\ m_freeStorage a' = sub32 (m_freeStorage a) (dataSize pd)
    /\ (rank_ok (m_nodes a) L ->
        forall L', (forall n, n ∈ L' <-> n ∈ L /\ n <> p) -> rank_ok (m_nodes a') L').
Proof.
  intros Hbm Hbins Hlen Hstack Hroom Hp.
  pose proof Hp as (HpL & Hpd & Hpu).
  pose proof (no_sentinel_length _ Hlen) as Hval.
  set (q := binListPrev pd). set (r := binListNext pd).
  assert (Hq : q <> NODE_UNUSED -> exists qd, Arr.get (m_nodes a) q = Some qd).
  { intros Hne. destruct (bins_prev _ _ _ Hbins p pd Hp Hne) as (qd & (_ & ? & _) & _).
    by exists qd. }
  assert (Hr : r <> NODE_UNUSED -> exists rd, Arr.get (m_nodes a) r = Some rd).
  { intros Hne. destruct (bins_next _ _ _ Hbins p pd Hp Hne) as (rd & (_ & ? & _) & _).
    by exists rd. }
  unfold removeNodeFromBin. rewrite Hpd. simpl_alloc. fold q r.
  match goal with
  | |- exists a', mbind _ ?e = Some a' /\ _ =>
  assert (exists a1,
    e = Some a1
    /\ m_size a1 = m_size a /\ m_maxAllocs a1 = m_maxAllocs a
    /\ m_freeNodes a1 = m_freeNodes a /\ m_freeOffset a1 = m_freeOffset a
    /\ bitmap_ok (m_usedBinsTop a1) (m_usedBins a1) (m_binIndices a1)
    /\ length (m_nodes a1) = length (m_nodes a)
    /\ (forall j nd, Arr.get (m_nodes a) j = Some nd ->
          Arr.get (m_nodes a1) j = Some (unlink_fields q r j nd))
    /\ (if decide (q = NODE_UNUSED)
        then Arr.set (m_binIndices a) (bin_of pd) r = Some (m_binIndices a1)
        else m_binIndices a1 = m_binIndices a)
    /\ m_freeStorage a1 = m_freeStorage a)
    as (a1 & -> & Hsz & Hmx & Hfn & Hfo & Hbm1 & Hlen1 & Hdesc & Hbi1 & Hfs1)
  end.
  { destruct (decide (q <> NODE_UNUSED)) as [Hqn|Hqn].
    - (* easy case *)
      destruct (Hq Hqn) as [qd Hqd].
      pose proof (upd_Some _ _ _ (with_binListNext r) Hqd) as Hu1.
      rewrite Hu1. simpl_alloc.
      set (nodes1 := <[Z.to_nat q := with_binListNext r qd]> (m_nodes a)) in *.
      assert (exists node', Arr.get nodes1 p = Some node'
                /\ binListNext node' = r /\ binListPrev node' = q)
        as (node' & Hnode' & Hnx & Hpv).
      { rewrite (get_upd _ _ _ _ _ Hu1). case_decide as Hpq.
        - subst q. rewrite <- Hpq, Hpd. cbn. eexists. split; [done|].
          by rewrite Hpq.
        - exists pd. by rewrite Hpd. }
      rewrite Hnode'. simpl_alloc. rewrite Hnx, Hpv.
      assert (exists nodes2,
        (if decide (r <> NODE_UNUSED)
         then Arr.upd nodes1 r (with_binListPrev q) else Some nodes1) = Some nodes2
        /\ length nodes2 = length (m_nodes a)
        /\ forall j nd, Arr.get (m_nodes a) j = Some nd ->
             Arr.get nodes2 j = Some (unlink_fields q r j nd))
        as (nodes2 & -> & Hlen2 & Hd2).
      { assert (Hd1 : forall j nd, Arr.get (m_nodes a) j = Some nd ->
                  Arr.get nodes1 j
                  = Some ((if decide (j = q) then with_binListNext r else id) nd)).
        { intros j nd Hj. rewrite (get_upd _ _ _ _ _ Hu1).
          destruct (decide (j = q)) as [->|Hjq]; [by rewrite Hj|done]. }
        case_decide as Hrn.
        - destruct (Hr Hrn) as [rd Hrd].
          pose proof (upd_Some _ _ _ (with_binListPrev q) (Hd1 r rd Hrd)) as Hu2.
          rewrite Hu2. eexists. split; [done|].
          split; [rewrite length_insert; apply length_insert|].
          intros j nd Hj. rewrite (get_upd _ _ _ _ _ Hu2). unfold unlink_fields.
          destruct (decide (j = r)) as [->|Hjr].
          + rewrite (Hd1 r nd Hj). done.
          + by rewrite (Hd1 j nd Hj).
        - exists nodes1. split; [done|]. split; [apply length_insert|].
          intros j nd Hj. rewrite (Hd1 j nd Hj). unfold unlink_fields.
          rewrite (decide_False (P := j = r)); [done|].
          intros ->. by apply (Hval _ _ Hj). }
      simpl_alloc. eexists. split; [reflexivity|]. simpl_alloc.
      split_and!; try done. by rewrite decide_False.
    - (* hard case *)
      assert (Hq0 : q = NODE_UNUSED) by (by destruct (decide (q = NODE_UNUSED))).
      cbv zeta.
      pose proof (bins_size _ _ _ Hbins p pd Hp) as Hsize.
      destruct (uintToFloatRoundDown_bounds _ Hsize) as [Hb _].
      destruct (bin_split (uintToFloatRoundDown (dataSize pd))) as (Ht & Hl & Hbtl); [lia|].
      cbn zeta in Ht, Hl, Hbtl.
      set (b := uintToFloatRoundDown (dataSize pd)) in *.
      set (t := Z.shiftr b TOP_BINS_INDEX_SHIFT) in *.
      set (l := Z.land b LEAF_BINS_INDEX_MASK) in *.
      pose proof (bm_bins_len _ _ _ Hbm) as Hbilen.
      set (bi1 := <[Z.to_nat b := r]> (m_binIndices a)).
      assert (Hset : Arr.set (m_binIndices a) b r = Some bi1) by (apply set_Some; lia).
      rewrite Hset. simpl_alloc.
      assert (exists nodes2,
        (if decide (r <> NODE_UNUSED)
         then Arr.upd (m_nodes a) r (with_binListPrev NODE_UNUSED)
         else Some (m_nodes a)) = Some nodes2
        /\ length nodes2 = length (m_nodes a)
        /\ forall j nd, Arr.get (m_nodes a) j = Some nd ->
             Arr.get nodes2 j = Some (unlink_fields q r j nd))
        as (nodes2 & -> & Hlen2 & Hd2).
      { assert (Hjq : forall j nd, Arr.get (m_nodes a) j = Some nd -> j <> q).
        { intros j nd Hj ->. by eapply Hval. }
        case_decide as Hrn.
        - destruct (Hr Hrn) as [rd Hrd].
          pose proof (upd_Some _ _ _ (with_binListPrev NODE_UNUSED) Hrd) as Hu2.
          rewrite Hu2. eexists. split; [done|]. split; [apply length_insert|].
          intros j nd Hj. rewrite (get_upd _ _ _ _ _ Hu2). unfold unlink_fields.
          rewrite (decide_False (P := j = q)) by (by eapply Hjq).
          destruct (decide (j = r)) as [->|Hjr]; [rewrite Hj, Hq0; done|done].
        - exists (m_nodes a). split; [done|]. split; [done|].
          intros j nd Hj. unfold unlink_fields.
          rewrite (decide_False (P := j = q)) by (by eapply Hjq).
          rewrite (decide_False (P := j = r)); [done|].
          intros ->. by apply (Hval _ _ Hj). }
      simpl_alloc. rewrite (get_set _ _ _ _ _ Hset), decide_True by done. simpl_alloc.
      pose proof (bins_first _ _ _ Hbins p pd Hp Hq0) as Hhead. fold b in Hhead.
      case_decide as Hru.
      + destruct (clearBinBits_spec
                    (set_nodes nodes2 (set_binIndices bi1 a)) t l (m_binIndices a))
          as (top' & ub' & -> & Hbm'); simpl_alloc; try done.
        { rewrite <- Hbtl, <- Hru. done. }
        eexists. split; [reflexivity|]. simpl_alloc.
        split_and!; try done. by rewrite decide_True.
      + eexists. split; [reflexivity|]. simpl_alloc.
        split_and!; try done.
        * eapply bitmap_ok_replace; try done. by eapply Hval.
        * by rewrite decide_True. }
  simpl_alloc. rewrite Hfo, Hfn.
  destruct (stack_push _ _ _ p Hstack Hroom) as (FN' & -> & Hstack' & HlenFN).
  simpl_alloc. rewrite (Hdesc p pd Hpd). simpl_alloc.
  eexists. split; [reflexivity|]. simpl_alloc.
  destruct (unlink_fields_unlinked _ _ p q r Hlen1 Hdesc) as [Hunl Hkeep].
  split_and!; try done.
  - intros L' HL'. eapply (bins_ok_unlink _ _ _ _ L L' p pd); try done.
    + intros n Hn. rewrite HL'. tauto.
    + intros nd' HpL'. apply HL' in HpL'. tauto.
  - rewrite Hfs1. f_equal. unfold unlink_fields. destruct pd.
    destruct (decide (p = r)), (decide (p = q)); done.
  - intros Hrank L' HL'. eapply (rank_ok_unlink _ _ _ L L' p pd); try done.
    + intros n Hn. rewrite HL'. tauto.
    + intros nd' HpL'. apply HL' in HpL'. tauto.
Qed.

End BinOps.

(** ** The bitmap search of [allocate] *)

Section FindBin.

Lemma land_is_u32 (a b : Z) : is_u32 a -> 0 <= b -> is_u32 (Z.land a b).
Proof.
  unfold is_u32. intros Ha Hb.
  assert (0 <= Z.land a b) by (apply Z.land_nonneg; lia).
  split; [done|].
  destruct (decide (Z.land a b = 0)) as [->|Hne]; [lia|].
  apply Z.log2_lt_pow2; [lia|].
  pose proof (Z.log2_land a b ltac:(lia) Hb).
  assert (Z.log2 a < 32); [|lia].
  destruct (decide (a = 0)) as [->|]; [done|].
  apply Z.log2_lt_pow2; lia.
Qed.

Lemma mask_before (start : Z) :
  0 <= start < 32 -> sub32 (shl32 1 start) 1 = Z.ones start.
Proof.
  intros Hs. unfold sub32, shl32. rewrite Z.shiftl_mul_pow2, Z.mul_1_l by lia.
  rewrite Z.ones_equiv.
  assert (1 <= 2 ^ start <= 2 ^ 31).
  { split; [pose proof (Z.pow_pos_nonneg 2 start); lia|].
    apply Z.pow_le_mono_r; lia. }
  rewrite (u32_small (2 ^ start)) by lia. rewrite u32_small; lia.
Qed.

Lemma findLowestSetBitAfter_spec (mask start : Z) :
  is_u32 mask -> 0 <= start < 32 ->
  let r := findLowestSetBitAfter mask start in
  r = NO_SPACE \/ (start <= r < 32 /\ Z.testbit mask r = true).
Proof.
  intros Hm Hs. cbn zeta. unfold findLowestSetBitAfter.
  rewrite mask_before by done.
  set (after := Z.land mask (not32 (Z.ones start))).
  destruct (Z.eqb_spec after 0) as [|Hne]; [by left|right].
  assert (is_u32 after) as Hu.
  { apply land_is_u32; [done|]. unfold not32. apply is_u32_u32. }
  destruct (tzcnt_spec after Hu Hne) as (Hr & Hbit & _).
  set (r := tzcnt_nonzero after) in *.
  unfold after in Hbit. rewrite Z.land_spec in Hbit.
  apply andb_true_iff in Hbit as [Hb1 Hb2].
  split; [|done]. split; [|lia].
  unfold not32 in Hb2. rewrite testbit_u32, Z.lnot_spec in Hb2 by lia.
  apply negb_true_iff in Hb2.
  destruct (decide (start <= r)) as [|Hlt]; [done|].
  rewrite Z.ones_spec_low in Hb2 by lia. done.
Qed.

Lemma land_bit_nonzero (x i : Z) :
  0 <= i < 32 -> Z.land x (shl32 1 i) <> 0 -> Z.testbit x i = true.
Proof.
  intros Hi Hne. unfold shl32 in Hne.
  rewrite u32_small in Hne.
  - destruct (Z.testbit x i) eqn:Hb; [done|]. exfalso. apply Hne.
    apply Z.bits_inj'. intros j Hj.
    rewrite Z.land_spec, testbit_one_shl, Z.bits_0 by lia.
    destruct (Z.eqb_spec j i) as [->|]; [by rewrite Hb|by rewrite andb_false_r].
  - rewrite Z.shiftl_mul_pow2, Z.mul_1_l by lia.
    split; [pose proof (Z.pow_pos_nonneg 2 i); lia|].
    apply Z.pow_lt_mono_r; lia.
Qed.

Lemma u8_bit_range (x j : Z) : is_u8 x -> 0 <= j -> Z.testbit x j = true -> j < 8.
Proof.
  intros Hx Hj Hb. destruct (decide (j < 8)) as [|Hge]; [done|].
  rewrite (testbit_above x 8 j) in Hb; [done|done|lia].
Qed.

(** The bin found by the search is non-empty and at or above the
    round-up index of the request. *)
Lemma allocate_findBin_spec (a : Allocator) (size : Z) :
  bitmap_ok (m_usedBinsTop a) (m_usedBins a) (m_binIndices a) ->
  is_u32 size ->
  exists found, allocate_findBin a size = Some found
    /\ match found with
       | None => True
       | Some (t, l) =>
           0 <= t < 32 /\ 0 <= l < 8
           /\ uintToFloatRoundUp size <= 8 * t + l
           /\ exists x, Arr.get (m_usedBins a) t = Some x /\ Z.testbit x l = true
       end.
Proof.
  intros Hbm Hsize.
  pose proof (uintToFloatRoundUp_range size Hsize) as Hmin.
  destruct (bin_split (uintToFloatRoundUp size)) as (Ht & Hl & Hbtl); [lia|].
  cbn zeta in Ht, Hl, Hbtl.
  unfold allocate_findBin. cbv zeta.
  set (minBin := uintToFloatRoundUp size) in *.
  set (mt := Z.shiftr minBin TOP_BINS_INDEX_SHIFT) in *.
  set (ml := Z.land minBin LEAF_BINS_INDEX_MASK) in *.
  assert (Hmt : mt <= 30) by lia.
  (* the search from the next top bin on *)
  assert (Hnext :
    exists found,
      (let topBinIndex := findLowestSetBitAfter (m_usedBinsTop a) (add32 mt 1) in
       if decide (topBinIndex = NO_SPACE) then Some None
       else leafMask ← Arr.get (m_usedBins a) topBinIndex;
            Some (Some (topBinIndex, tzcnt_nonzero leafMask))) = Some found
      /\ match found with
         | None => True
         | Some (t, l) =>
             0 <= t < 32 /\ 0 <= l < 8 /\ minBin <= 8 * t + l
             /\ exists x, Arr.get (m_usedBins a) t = Some x /\ Z.testbit x l = true
         end).
  { cbv zeta. unfold add32. rewrite u32_small by lia.
    destruct (findLowestSetBitAfter_spec (m_usedBinsTop a) (mt + 1))
      as [->|[Hr Hbit]]; [by destruct Hbm|lia| |].
    - rewrite decide_True by done. by exists None.
    - set (t := findLowestSetBitAfter (m_usedBinsTop a) (mt + 1)) in *.
      rewrite decide_False by (unfold NO_SPACE; lia).
      destruct (bitmap_get_leaf _ _ _ t Hbm) as [x Hx]; [lia|].
      rewrite Hx. simpl_alloc.
      pose proof (bm_leaf_range _ _ _ Hbm t x Hx) as Hx8.
      assert (x <> 0) as Hx0 by (by apply (bm_top _ _ _ Hbm t x Hx)).
      destruct (tzcnt_spec x) as (Hl' & Hbl & _); [unfold is_u8 in Hx8; lia|done|].
      pose proof (u8_bit_range x (tzcnt_nonzero x) Hx8 ltac:(lia) Hbl).
      eexists. split; [done|]. cbv beta iota. split_and!; try lia. by exists x. }
  destruct Hnext as (found' & Hnext & Hfound').
  destruct (decide (Z.land (m_usedBinsTop a) (shl32 1 mt) <> 0)) as [Htop|Htop].
  - apply land_bit_nonzero in Htop; [|lia].
    destruct (bitmap_get_leaf _ _ _ mt Hbm) as [x Hx]; [lia|].
    rewrite Hx. simpl_alloc.
    pose proof (bm_leaf_range _ _ _ Hbm mt x Hx) as Hx8.
    destruct (findLowestSetBitAfter_spec x ml) as [Hr|[Hr Hbit]];
      [unfold is_u8, is_u32 in *; lia|lia| |].
    + rewrite Hr. rewrite decide_True by done. by exists found'.
    + rewrite decide_False by (unfold NO_SPACE; lia).
      pose proof (u8_bit_range x (findLowestSetBitAfter x ml) Hx8 ltac:(lia) Hbit).
      eexists. split; [done|]. cbv beta iota. split_and!; try lia. by exists x.
  - simpl_alloc. rewrite decide_True by done. by exists found'.
Qed.

End FindBin.

(** ** Rebuilding the invariant around a changed stretch of the chain *)

Section Splice.

Lemma seg_head_prev nodes prev off l next e m nd :
  seg nodes prev off l next e -> head l = Some m ->
  Arr.get nodes m = Some nd -> neighborPrev nd = prev.
Proof.
  destruct l as [|n l]; [done|]. intros (nd' & Hn & Hp & _) [= ->] Hm. congruence.
Qed.

Lemma seg_last_next nodes prev off l next e m nd :
  seg nodes prev off l next e -> last l = Some m ->
  Arr.get nodes m = Some nd -> neighborNext nd = next.
Proof.
  intros Hseg (l' & ->)%last_Some Hm.
  apply seg_app in Hseg as (mid & _ & (nd' & Hn & _ & _ & _ & Hnx & _)).
  cbn in Hnx. congruence.
Qed.

Lemma hd_app_nonempty {A} (d : A) (l1 l2 : list A) :
  l1 <> [] -> hd d (l1 ++ l2) = hd d l1.
Proof. by destruct l1. Qed.

Lemma last_or_nonempty {A} (d d' : A) (l : list A) :
  l <> [] -> last_or d l = last_or d' l.
Proof.
  intros Hl. unfold last_or. destruct (last l) eqn:E; [done|].
  by apply last_None in E.
Qed.

Lemma Inv_splice (a a' : Allocator) (l1 mid mid' l2 fs fs' : list Z) :
  Inv a (l1 ++ mid ++ l2) fs ->
  mid <> [] -> mid' <> [] ->
  m_size a' = m_size a -> m_maxAllocs a' = m_maxAllocs a ->
  length (m_nodes a') = length (m_nodes a) ->
  length (m_freeNodes a') = length (m_freeNodes a) ->
  stack_is (m_freeNodes a') (m_freeOffset a') fs' ->
  mid' ++ fs' ≡ₚ mid ++ fs ->
  bitmap_ok (m_usedBinsTop a') (m_usedBins a') (m_binIndices a') ->
  bins_ok (m_nodes a') (m_binIndices a') (l1 ++ mid' ++ l2) ->
  (forall j nd, j ∉ mid -> j ∉ mid' -> Arr.get (m_nodes a) j = Some nd ->
     exists nd', Arr.get (m_nodes a') j = Some nd'
       /\ dataOffset nd' = dataOffset nd /\ dataSize nd' = dataSize nd
       /\ used nd' = used nd
       /\ neighborPrev nd'
          = (if decide (head l2 = Some j) then last_or NODE_UNUSED mid'
             else neighborPrev nd)
       /\ neighborNext nd'
          = (if decide (last l1 = Some j) then hd NODE_UNUSED mid'
             else neighborNext nd)) ->
  (forall j nd', j ∈ fs' -> Arr.get (m_nodes a') j = Some nd' -> used nd' = false) ->
  (forall off e,
     seg (m_nodes a) (last_or NODE_UNUSED l1) off mid (hd NODE_UNUSED l2) e ->
     seg (m_nodes a') (last_or NODE_UNUSED l1) off mid' (hd NODE_UNUSED l2) e) ->
  (sparse (last_or false (is_free (m_nodes a) <$> l1))
     ((is_free (m_nodes a) <$> mid) ++ (is_free (m_nodes a) <$> l2)) ->
   sparse (last_or false (is_free (m_nodes a) <$> l1))
     ((is_free (m_nodes a') <$> mid') ++ (is_free (m_nodes a) <$> l2))) ->
  Inv a' (l1 ++ mid' ++ l2) fs'.
Proof.
  intros HI Hmid Hmid' Hsz Hmx Hnlen Hflen Hstack Hperm Hbm Hbins Hout Hfs Hsegmid Hsp.
  destruct HI as [I1 I2 I3 I4 I5 I6 I7 I8 I9 I10 I11 I12 I13 I14 I15].
  assert (HpermL : (l1 ++ mid' ++ l2) ++ fs' ≡ₚ (l1 ++ mid ++ l2) ++ fs).
  { rewrite <- !(assoc_L (++)). f_equiv.
    rewrite (Permutation_app_swap_app mid' l2 fs').
    rewrite (Permutation_app_swap_app mid l2 fs). by f_equiv. }
  assert (Hnd' : NoDup ((l1 ++ mid' ++ l2) ++ fs')) by (by rewrite HpermL).
  assert (Hin1 : forall j, j ∈ l1 -> (j ∉ mid) /\ (j ∉ mid') /\ (j ∉ l2)).
  { intros j Hj.
    apply NoDup_app in I7 as (I7 & _ & _). apply NoDup_app in I7 as (_ & I7 & _).
    apply NoDup_app in Hnd' as (Hnd' & _ & _). apply NoDup_app in Hnd' as (_ & Hnd' & _).
    specialize (I7 j Hj). specialize (Hnd' j Hj).
    rewrite !elem_of_app in I7, Hnd'. tauto. }
  assert (Hin2 : forall j, j ∈ l2 -> (j ∉ mid) /\ (j ∉ mid') /\ (j ∉ l1)).
  { intros j Hj. split_and!.
    - apply NoDup_app in I7 as (I7 & _ & _). apply NoDup_app in I7 as (_ & _ & I7).
      apply NoDup_app in I7 as (_ & I7 & _). intros Hm. by apply (I7 j Hm).
    - apply NoDup_app in Hnd' as (Hnd' & _ & _). apply NoDup_app in Hnd' as (_ & _ & Hnd').
      apply NoDup_app in Hnd' as (_ & Hnd' & _). intros Hm. by apply (Hnd' j Hm).
    - intros Hj1. by apply (Hin1 j Hj1). }
  assert (Hcover : forall i, 0 <= i < m_maxAllocs a -> i ∈ l1 ++ mid' ++ l2 \/ i ∈ fs').
  { intros i Hi. apply elem_of_app. rewrite HpermL. apply elem_of_app. by apply I8. }
  apply seg_app in I12 as (o1 & Hseg1 & I12).
  apply seg_app in I12 as (o2 & Hsegm & Hseg2).
  rewrite (hd_app_nonempty _ mid l2 Hmid) in Hseg1.
  split.
  - by rewrite Hsz.
  - by rewrite Hmx.
  - rewrite Hnlen, Hmx. done.
  - rewrite Hflen, Hmx. done.
  - by destruct Hstack as (_ & ? & _).
  - by destruct Hstack as (_ & _ & ?).
  - done.
  - rewrite Hmx. done.
  - intros k Hk. rewrite Hmx.
    assert (k ∈ mid' ++ fs') as Hk' by (apply elem_of_app; by right).
    rewrite Hperm in Hk'. apply elem_of_app in Hk' as [Hk'|Hk']; [|by apply I9].
    destruct (seg_valid _ _ _ _ _ _ k Hsegm Hk') as [nd Hnd%get_Some_range]. lia.
  - rewrite Hmx, <- I10. apply Permutation_length in HpermL.
    rewrite !length_app in HpermL. rewrite !length_app. lia.
  - intros i nd' Hi Hu. pose proof Hi as Hr%get_Some_range.
    destruct (Hcover i) as [?|Hif]; [lia|done|].
    rewrite (Hfs i nd' Hif Hi) in Hu. done.
  - rewrite Hsz. apply seg_app. exists o1. split.
    + rewrite (hd_app_nonempty _ mid' l2 Hmid').
      eapply (seg_relink _ _ NODE_UNUSED NODE_UNUSED); [|apply Hseg1|].
      { apply NoDup_app in I7 as (I7 & _ & _). by apply NoDup_app in I7 as (I7 & _ & _). }
      intros m nd Hm Hnd. destruct (Hin1 m Hm) as (Hm1 & Hm2 & Hm3).
      destruct (Hout m nd Hm1 Hm2 Hnd) as (nd' & Hnd'' & Ho & Hs & _ & Hp & Hn).
      exists nd'. split_and!; try done. rewrite Hp.
      rewrite decide_False by (intros Hh%head_Some_elem_of; done).
      destruct (decide (head l1 = Some m)) as [Hh|Hh]; [|done].
      by eapply seg_head_prev.
    + apply seg_app. exists o2. split; [by apply Hsegmid|].
      rewrite (last_or_nonempty _ NODE_UNUSED mid' Hmid').
      eapply (seg_relink _ _ _ _ _ _ NODE_UNUSED NODE_UNUSED); [|apply Hseg2|].
      { apply NoDup_app in I7 as (I7 & _ & _). apply NoDup_app in I7 as (_ & _ & I7).
        by apply NoDup_app in I7 as (_ & _ & I7). }
      intros m nd Hm Hnd. destruct (Hin2 m Hm) as (Hm1 & Hm2 & Hm3).
      destruct (Hout m nd Hm1 Hm2 Hnd) as (nd' & Hnd'' & Ho & Hs & _ & Hp & Hn).
      exists nd'. split_and!; try done. rewrite Hn.
      rewrite decide_False by (intros Hh%last_Some_elem_of; done).
      destruct (decide (last l2 = Some m)) as [Hh|Hh]; [|done].
      by eapply seg_last_next.
  - assert (Hfl : forall l : list Z, (forall j, j ∈ l -> (j ∉ mid) /\ (j ∉ mid')) ->
              (forall j, j ∈ l -> is_Some (Arr.get (m_nodes a) j)) ->
              is_free (m_nodes a') <$> l = is_free (m_nodes a) <$> l).
    { intros l Hl Hv. apply is_free_fmap_eq. intros n Hn.
      apply is_free_eq; [|by apply Hv].
      intros nd Hnd. destruct (Hl n Hn) as [Hm1 Hm2].
      destruct (Hout n nd Hm1 Hm2 Hnd) as (nd' & ? & _ & _ & ? & _). by exists nd'. }
    rewrite !fmap_app in *.
    rewrite (Hfl l1), (Hfl l2).
    + apply sparse_app in I13 as [Hs1 Hs2].
      apply sparse_app. split; [done|]. by apply Hsp.
    + intros j Hj. destruct (Hin2 j Hj). tauto.
    + intros j Hj. eapply seg_valid; [apply Hseg2|done].
    + intros j Hj. destruct (Hin1 j Hj). tauto.
    + intros j Hj. eapply seg_valid; [apply Hseg1|done].
  - done.
  - done.
Qed.

End Splice.

(** ** [allocate] keeps the invariant *)

Section Allocate.

Lemma head_Some_hd {A} (d : A) (l : list A) (j : A) : head l = Some j -> hd d l = j.
Proof. destruct l; [done|]. by intros [= ->]. Qed.

Lemma hd_head_Some {A} (d : A) (l : list A) (j : A) :
  hd d l = j -> j <> d -> head l = Some j.
Proof. destruct l; cbn; [congruence|]. by intros ->. Qed.

Lemma Inv_stack_is (a : Allocator) (L fs : list Z) :
  Inv a L fs -> stack_is (m_freeNodes a) (m_freeOffset a) fs.
Proof. intros HI. split_and!; [|apply HI|apply HI]. rewrite (inv_free_len _ _ _ HI). apply HI. Qed.

Lemma Inv_not_used_in_stack (a : Allocator) (L fs : list Z) (j : Z) (nd : Node) :
  Inv a L fs -> j ∈ fs -> Arr.get (m_nodes a) j = Some nd -> used nd = false.
Proof.
  intros HI Hj Hnd. destruct (used nd) eqn:Hu; [|done].
  pose proof (inv_used _ _ _ HI j nd Hnd Hu) as HjL.
  pose proof (inv_nodup _ _ _ HI) as Hnodup.
  apply NoDup_app in Hnodup as (_ & Hdis & _). by destruct (Hdis j HjL).
Qed.

Lemma Inv_nodes_lt (a : Allocator) (L fs : list Z) :
  Inv a L fs -> Z.of_nat (length (m_nodes a)) < 2 ^ 32.
Proof. intros HI. rewrite (inv_nodes_len _ _ _ HI). apply HI. Qed.

(** The four link updates that put the new node [k] behind [h]. *)
Lemma splice_after_spec (nodes : list Node) (h k x : Z) (hd kd : Node) :
  no_sentinel nodes ->
  Arr.get nodes h = Some hd -> Arr.get nodes k = Some kd ->
  h <> k -> neighborNext hd = x -> x <> k -> x <> h ->
  (x <> NODE_UNUSED -> is_Some (Arr.get nodes x)) ->
  exists n6 n7 hd7 n8 n9,
    (if decide (x <> NODE_UNUSED) then Arr.upd nodes x (with_neighborPrev k)
     else Some nodes) = Some n6
    /\ Arr.upd n6 k (with_neighborPrev h) = Some n7
    /\ Arr.get n7 h = Some hd7 /\ neighborNext hd7 = x
    /\ Arr.upd n7 k (with_neighborNext x) = Some n8
    /\ Arr.upd n8 h (with_neighborNext k) = Some n9
    /\ length n9 = length nodes
    /\ Arr.get n9 h = Some (with_neighborNext k hd)
    /\ Arr.get n9 k = Some (with_neighborNext x (with_neighborPrev h kd))
    /\ forall j nd, j <> h -> j <> k -> Arr.get nodes j = Some nd ->
         Arr.get n9 j = Some (if decide (j = x) then with_neighborPrev k nd else nd).
Proof.
  intros Hval Hh Hk Hhk Hx Hxk Hxh Hxv.
  assert (exists n6,
    (if decide (x <> NODE_UNUSED) then Arr.upd nodes x (with_neighborPrev k)
     else Some nodes) = Some n6
    /\ length n6 = length nodes
    /\ forall j nd, Arr.get nodes j = Some nd ->
         Arr.get n6 j = Some (if decide (j = x) then with_neighborPrev k nd else nd))
    as (n6 & H6 & Hl6 & Hd6).
  { destruct (decide (x <> NODE_UNUSED)) as [Hxn|Hxn].
    - destruct (Hxv Hxn) as [xd Hxd].
      pose proof (upd_Some _ _ _ (with_neighborPrev k) Hxd) as Hu.
      eexists. split; [done|]. split; [apply length_insert|].
      intros j nd Hj. rewrite (get_upd _ _ _ _ _ Hu).
      destruct (decide (j = x)) as [->|]; [by rewrite Hj|done].
    - exists nodes. split; [done|]. split; [done|].
      intros j nd Hj. rewrite decide_False; [done|].
      intros ->. apply Hxn. by eapply Hval. }
  pose proof (Hd6 h hd Hh) as Hh6. rewrite decide_False in Hh6 by done.
  pose proof (Hd6 k kd Hk) as Hk6. rewrite decide_False in Hk6 by done.
  pose proof (upd_Some _ _ _ (with_neighborPrev h) Hk6) as H7.
  set (n7 := <[Z.to_nat k := with_neighborPrev h kd]> n6) in *.
  assert (Hh7 : Arr.get n7 h = Some hd).
  { by rewrite (get_upd _ _ _ _ _ H7), decide_False. }
  assert (Hk7 : Arr.get n7 k = Some (with_neighborPrev h kd)).
  { rewrite (get_upd _ _ _ _ _ H7), decide_True by done. by rewrite Hk6. }
  pose proof (upd_Some _ _ _ (with_neighborNext x) Hk7) as H8.
  set (n8 := <[Z.to_nat k := with_neighborNext x (with_neighborPrev h kd)]> n7) in *.
  assert (Hh8 : Arr.get n8 h = Some hd).
  { by rewrite (get_upd _ _ _ _ _ H8), decide_False. }
  pose proof (upd_Some _ _ _ (with_neighborNext k) Hh8) as H9.
  set (n9 := <[Z.to_nat h := with_neighborNext k hd]> n8) in *.
  exists n6, n7, hd, n8, n9. split_and!; try done.
  - unfold n9, n8, n7. by rewrite !length_insert.
  - rewrite (get_upd _ _ _ _ _ H9), decide_True by done. by rewrite Hh8.
  - rewrite (get_upd _ _ _ _ _ H9), decide_False by done.
    rewrite (get_upd _ _ _ _ _ H8), decide_True by done. by rewrite Hk7.
  - intros j nd Hjh Hjk Hj.
    rewrite (get_upd _ _ _ _ _ H9), decide_False by done.
    rewrite (get_upd _ _ _ _ _ H8), decide_False by done.
    rewrite (get_upd _ _ _ _ _ H7), decide_False by done.
    by apply Hd6.
Qed.

Lemma alloc_more_failed (a : Allocator) (size : Z) (L : list Z) :
  m_freeOffset a = 0 \/ allocate_findBin a size = Some None ->
  alloc_more a size EmptyAllocation a L L.
Proof.
  intros Hwhy. split_and!.
  - done.
  - intros Hne. by destruct Hne.
  - intros j nd _ Hj Hu. by exists nd.
  - intros Hled. split; [done|]. intros Hne. by destruct Hne.
Qed.

Lemma alloc_more_success (a : Allocator) (size t l h off : Z) (a' : Allocator)
    (L L' : list Z) :
  m_freeOffset a <> 0 ->
  allocate_findBin a size = Some (Some (t, l)) ->
  Arr.get (m_binIndices a) (8 * t + l) = Some h ->
  h <> NODE_UNUSED ->
  others_kept a a' h ->
  (Ledger a L -> Ledger a' L' /\ m_freeStorage a' = m_freeStorage a - size) ->
  alloc_more a size (mkAllocation off h) a' L L'.
Proof.
  intros Hnz Hfind Hh Hhne Hkept Hled. split_and!; cbn [metadata].
  - split; [done|]. intros [?|Hnone]; [done|]. congruence.
  - intros _. by exists t, l.
  - done.
  - intros HL. destruct (Hled HL) as [? ?]. done.
Qed.

Lemma free_total_same (nodes nodes' : list Node) (l : list Z) :
  (forall j, j ∈ l -> exists nd nd', Arr.get nodes j = Some nd
      /\ Arr.get nodes' j = Some nd'
      /\ used nd' = used nd /\ dataSize nd' = dataSize nd) ->
  free_total nodes' l = free_total nodes l.
Proof.
  intros H. apply free_total_ext. intros j Hj.
  destruct (H j Hj) as (nd & nd' & Hn & Hn' & Hu & Hs).
  by eapply free_size_eq.
Qed.

Lemma allocate_inv_full (a : Allocator) (size : Z) (L fs : list Z) :
  Inv a L fs -> is_u32 size ->
  match allocate a size with
  | Some (res, a') =>
      m_maxAllocs a' = m_maxAllocs a
      /\ exists L' fs', Inv a' L' fs'
        /\ (fs' = fs \/ (fs' <> [] /\ exists k, fs = fs' ++ [k]))
        /\ alloc_post a size res a'
        /\ alloc_more a size res a' L L'
  | None => fs = []
  end.
Proof.
  intros HI Hsize. unfold allocate.
  destruct (decide (m_freeOffset a = 0)) as [Hz|Hnz].
  { split; [done|]. exists L, fs. split; [done|]. split; [by left|].
    split; [by left|]. apply alloc_more_failed. by left. }
  pose proof (inv_bitmap _ _ _ HI) as Hbm.
  pose proof (inv_bins _ _ _ HI) as Hbins.
  pose proof (Inv_nodes_lt _ _ _ HI) as Hnlt.
  pose proof (no_sentinel_length _ Hnlt) as Hval.
  destruct (allocate_findBin_spec a size Hbm Hsize) as (found & Hfind & Hfound).
  rewrite Hfind. simpl_alloc.
  destruct found as [[t l]|];
    [|split; [done|]; exists L, fs; split; [done|]; split; [by left|];
      split; [by left|]; apply alloc_more_failed; by right].
  destruct Hfound as (Ht & Hl & Hmin & x & Hx & Hbit).
  rewrite bin_join by done. set (b := 8 * t + l) in *.
  destruct (bitmap_get_bin _ _ _ b Hbm) as [h Hh]; [unfold b; lia|].
  rewrite Hh. simpl_alloc.
  assert (Hhne : h <> NODE_UNUSED).
  { by apply (bm_leaf _ _ _ Hbm t l x h Hl Hx Hh). }
  destruct (bins_head _ _ _ Hbins b h Hh Hhne) as (hd & Hhf & Hhp & Hhb).
  pose proof Hhf as (HhL & Hhd & Hhu).
  rewrite Hhd. simpl_alloc.
  set (T := dataSize hd) in *.
  pose proof (bins_size _ _ _ Hbins h hd Hhf) as HT. fold T in HT.
  assert (HsT : size <= T).
  { apply round_up_le_round_down; try done. unfold bin_of in Hhb. fold T in Hhb. lia. }
  apply list_elem_of_split in HhL as (l1 & l2 & ->).
  destruct (seg_at _ _ _ _ _ _ _ _ (inv_chain _ _ _ HI))
    as (hd0 & o & Hhd0 & Hnp & Hnn & Ho & HT0 & Ho0 & HoT & Hseg1 & Hseg2).
  assert (hd0 = hd) as -> by congruence. fold T in HT0, HoT, Hseg2.
  pose proof (inv_size _ _ _ HI) as Hmsz.
  set (r := binListNext hd) in *.
  (* mark the node used, of the requested size *)
  pose proof (upd_Some _ _ _ (fun n => with_used true (with_dataSize size n)) Hhd) as Hu1.
  rewrite Hu1. simpl_alloc.
  set (hd1 := with_used true (with_dataSize size hd)) in *.
  set (nodes1 := <[Z.to_nat h := hd1]> (m_nodes a)) in *.
  assert (Hh1 : Arr.get nodes1 h = Some hd1).
  { rewrite (get_upd _ _ _ _ _ Hu1), decide_True by done. by rewrite Hhd. }
  rewrite Hh1. simpl_alloc. change (binListNext hd1) with r.
  pose proof (bm_bins_len _ _ _ Hbm) as Hbilen.
  set (bi1 := <[Z.to_nat b := r]> (m_binIndices a)).
  assert (Hset : Arr.set (m_binIndices a) b r = Some bi1).
  { apply set_Some. unfold b. lia. }
  rewrite Hset. simpl_alloc.
  (* the next node of the bin becomes its head *)
  assert (Hr : r <> NODE_UNUSED ->
            exists rd, Arr.get (m_nodes a) r = Some rd /\ r <> h).
  { intros Hne. destruct (bins_next _ _ _ Hbins h hd Hhf Hne) as (rd & (_ & Hrd & _) & Hrp & _).
    exists rd. split; [done|]. fold r in Hrd. intros Hrh. rewrite Hrh in Hrd.
    assert (rd = hd) as -> by congruence. congruence. }
  match goal with
  | |- context [mbind _ (if decide (r <> NODE_UNUSED) then ?e1 else ?e2)] =>
  assert (exists nodes2,
    (if decide (r <> NODE_UNUSED) then e1 else e2) = Some nodes2
    /\ length nodes2 = length (m_nodes a)
    /\ Arr.get nodes2 h = Some hd1
    /\ forall j nd, j <> h -> Arr.get (m_nodes a) j = Some nd ->
         Arr.get nodes2 j = Some (unlink_fields NODE_UNUSED r j nd))
    as (nodes2 & -> & Hlen2 & Hh2 & Hd2)
  end.
  { assert (Hjq : forall j nd, Arr.get (m_nodes a) j = Some nd -> j <> NODE_UNUSED)
      by (intros j nd Hj; by eapply Hval).
    destruct (decide (r <> NODE_UNUSED)) as [Hrn|Hrn].
    - destruct (Hr Hrn) as (rd & Hrd & Hrh).
      assert (Arr.get nodes1 r = Some rd) as Hr1.
      { by rewrite (get_upd _ _ _ _ _ Hu1), decide_False. }
      pose proof (upd_Some _ _ _ (with_binListPrev NODE_UNUSED) Hr1) as Hu2.
      rewrite Hu2. eexists. split; [done|].
      split; [rewrite length_insert; apply length_insert|]. split.
      + by rewrite (get_upd _ _ _ _ _ Hu2), decide_False.
      + intros j nd Hjh Hj. rewrite (get_upd _ _ _ _ _ Hu2). unfold unlink_fields.
        rewrite (decide_False (P := j = NODE_UNUSED)) by (by eapply Hjq).
        destruct (decide (j = r)) as [->|Hjr].
        * rewrite Hr1. cbn. congruence.
        * by rewrite (get_upd _ _ _ _ _ Hu1), decide_False.
    - exists nodes1. split; [done|]. split; [apply length_insert|]. split; [done|].
      intros j nd Hjh Hj. unfold unlink_fields.
      rewrite (decide_False (P := j = NODE_UNUSED)) by (by eapply Hjq).
      rewrite (decide_False (P := j = r)).
      + by rewrite (get_upd _ _ _ _ _ Hu1), decide_False.
      + intros ->. apply Hrn. by eapply Hjq. }
  simpl_alloc. rewrite (get_set _ _ _ _ _ Hset), decide_True by done. simpl_alloc.
  set (a3 := set_freeStorage (sub32 (m_freeStorage a) T)
               (set_nodes nodes2 (set_binIndices bi1 (set_nodes nodes1 a)))).
  assert (exists a4,
    (if decide (r = NODE_UNUSED) then clearBinBits a3 t l else Some a3) = Some a4
    /\ m_size a4 = m_size a /\ m_maxAllocs a4 = m_maxAllocs a
    /\ m_freeNodes a4 = m_freeNodes a /\ m_freeOffset a4 = m_freeOffset a
    /\ m_nodes a4 = nodes2 /\ m_binIndices a4 = bi1
    /\ bitmap_ok (m_usedBinsTop a4) (m_usedBins a4) (m_binIndices a4)
    /\ m_freeStorage a4 = sub32 (m_freeStorage a) T)
    as (a4 & -> & Hsz4 & Hmx4 & Hfn4 & Hfo4 & Hn4 & Hbi4 & Hbm4 & Hfs4).
  { destruct (decide (r = NODE_UNUSED)) as [Hru|Hru].
    - destruct (clearBinBits_spec a3 t l (m_binIndices a))
        as (top' & ub' & -> & Hbm'); unfold a3; simpl_alloc; try done.
      { fold b. rewrite <- Hru. done. }
      eexists. split; [reflexivity|]. simpl_alloc. split_and!; done.
    - exists a3. split; [done|]. unfold a3. simpl_alloc. split_and!; try done.
      by eapply bitmap_ok_replace. }
  simpl_alloc.
  assert (Hgeom2 : forall j nd, j <> h -> Arr.get (m_nodes a) j = Some nd ->
            exists nd', Arr.get nodes2 j = Some nd' /\ geom_eq nd nd').
  { intros j nd Hjh Hj. rewrite (Hd2 j nd Hjh Hj). eexists. split; [done|].
    unfold unlink_fields. destruct nd. do 2 case_decide; done. }
  assert (Hbins2 : bins_ok nodes2 bi1 (l1 ++ h :: l2)).
  { eapply (bins_ok_unlink _ _ _ _ _ _ h hd Hbins Hval Hhf).
    - split; [done|]. intros j nd Hjh Hj. rewrite (Hd2 j nd Hjh Hj).
      eexists. split; [done|]. rewrite Hhp. fold r.
      unfold unlink_fields. destruct nd. do 2 case_decide; done.
    - done.
    - intros nd' _ Hnd'. rewrite Hh2 in Hnd'. by injection Hnd' as <-.
    - rewrite decide_True by done. unfold bin_of. fold T. unfold bin_of in Hhb.
      fold T in Hhb. rewrite Hhb. done. }
  assert (Hrank2 : rank_ok (m_nodes a) (l1 ++ h :: l2) -> rank_ok nodes2 (l1 ++ h :: l2)).
  { intros Hrk. eapply (rank_ok_unlink _ _ _ _ _ h hd Hbins Hval Hhf); try done.
    - split; [done|]. intros j nd Hjh Hj. rewrite (Hd2 j nd Hjh Hj).
      eexists. split; [done|]. rewrite Hhp. fold r.
      unfold unlink_fields. destruct nd. do 2 case_decide; done.
    - intros nd' _ Hnd'. rewrite Hh2 in Hnd'. by injection Hnd' as <-. }
  assert (Hrem : sub32 T size = T - size).
  { unfold sub32. apply u32_small. unfold is_u32 in *. lia. }
  rewrite Hrem.
  assert (Hprev2 : forall j nd, head l2 = Some j -> Arr.get (m_nodes a) j = Some nd ->
            neighborPrev nd = h) by (intros; by eapply seg_head_prev).
  assert (Hnext1 : forall j nd, last l1 = Some j -> Arr.get (m_nodes a) j = Some nd ->
            neighborNext nd = h) by (intros; by eapply seg_last_next).
  pose proof (inv_nodup _ _ _ HI) as Hnodup.
  assert (Hhfs : h ∉ fs).
  { apply NoDup_app in Hnodup as (_ & Hdis & _). apply Hdis.
    apply elem_of_app. right. by left. }
  assert (Hfsfree : forall j nd', j ∈ fs -> Arr.get nodes2 j = Some nd' -> used nd' = false).
  { intros j nd' Hj Hnd'.
    assert (j <> h) as Hjh by (intros ->; done).
    destruct (get_same_length (m_nodes a) nodes2 j Hlen2) as [nd Hnd]; [by eauto|].
    destruct (Hgeom2 j nd Hjh Hnd) as (nd2 & Hnd2 & _ & _ & Hu & _).
    assert (nd2 = nd') as -> by congruence. rewrite Hu.
    by eapply Inv_not_used_in_stack. }
  (* the free storage around [h] *)
  assert (HhL : (h ∉ l1) /\ (h ∉ l2)).
  { apply NoDup_app in Hnodup as (HndL & _ & _).
    apply NoDup_app in HndL as (_ & Hd1 & (Hd2' & _)%NoDup_cons).
    split; [|done]. intros Hin. apply (Hd1 h Hin). by left. }
  assert (HftL : free_total (m_nodes a) (l1 ++ h :: l2)
                 = free_total (m_nodes a) l1 + T + free_total (m_nodes a) l2).
  { rewrite free_total_app, free_total_cons, (free_size_free _ _ _ Hhd Hhu). fold T. lia. }
  pose proof (free_total_bounds _ _ _ _ _ _ (inv_chain _ _ _ HI)) as HbL.
  pose proof (free_total_bounds _ _ _ _ _ _ Hseg1) as Hb1.
  pose proof (free_total_bounds _ _ _ _ _ _ Hseg2) as Hb2.
  assert (Hrest : forall nodes', (forall j nd, j ∈ l1 ++ l2 -> Arr.get (m_nodes a) j = Some nd ->
              exists nd', Arr.get nodes' j = Some nd'
                /\ used nd' = used nd /\ dataSize nd' = dataSize nd) ->
            free_total nodes' l1 = free_total (m_nodes a) l1
            /\ free_total nodes' l2 = free_total (m_nodes a) l2).
  { intros nodes' Hsame. split; apply free_total_same; intros j Hj.
    - destruct (seg_valid _ _ _ _ _ _ j Hseg1 Hj) as [nd Hnd].
      destruct (Hsame j nd) as (nd' & ? & ? & ?); [apply elem_of_app; by left|done|].
      by exists nd, nd'.
    - destruct (seg_valid _ _ _ _ _ _ j Hseg2 Hj) as [nd Hnd].
      destruct (Hsame j nd) as (nd' & ? & ? & ?); [apply elem_of_app; by right|done|].
      by exists nd, nd'. }
  assert (Hhne9 : h <> NODE_UNUSED) by done.
  destruct (decide (T - size > 0)) as [Hpos|Hpos].
  2: { (* exact fit *)
    simpl_alloc. rewrite Hn4, Hh2. simpl_alloc.
    split; [exact Hmx4|].
    exists (l1 ++ [h] ++ l2), fs. split; [|split; [by left|split]].
    - eapply (Inv_splice a a4 l1 [h] [h] l2 fs fs); try done.
      + by rewrite Hn4.
      + by rewrite Hfn4.
      + rewrite Hfn4, Hfo4. by eapply Inv_stack_is.
      + by rewrite Hn4, Hbi4.
      + intros j nd Hjm _ Hj. rewrite Hn4.
        assert (j <> h) as Hjh by (intros ->; apply Hjm; by left).
        destruct (Hgeom2 j nd Hjh Hj) as (nd' & Hnd' & Hgo & Hgs & Hgu & Hgp & Hgn).
        exists nd'. split_and!; try done.
        * rewrite Hgp. destruct (decide (head l2 = Some j)) as [Hhd2|]; [|done].
          by rewrite (Hprev2 j nd Hhd2 Hj).
        * rewrite Hgn. destruct (decide (last l1 = Some j)) as [Hla1|]; [|done].
          by rewrite (Hnext1 j nd Hla1 Hj).
      + by rewrite Hn4.
      + intros off e. rewrite Hn4. cbn [seg].
        intros (nd & Hnd & Hp & Hof & Hs & Hnx & He).
        assert (nd = hd) as -> by congruence.
        exists hd1. unfold hd1. fold T in He. cbn. split_and!; try done; [|lia].
        unfold is_u32 in Hsize. lia.
      + rewrite Hn4. cbn [fmap list_fmap app sparse].
        unfold is_free. rewrite Hhd, Hh2, Hhu. cbn.
        intros [_ Hs]. split; [by intros [_ ?]|]. by eapply sparse_weaken.
    - right. exists hd, hd1. unfold node. cbn [metadata offset].
      rewrite Hn4. split_and!; try done; fold T; lia.
    - apply (alloc_more_success a size t l h); try done.
      + intros j nd Hjh Hj Hu. rewrite Hn4.
        destruct (Hgeom2 j nd Hjh Hj) as (nd' & Hnd' & Hgo & Hgs & Hgu & _).
        exists nd'. split_and!; congruence.
      + intros [Hrk Hst]. rewrite Hfs4, Hst.
        destruct (Hrest nodes2) as [Hft1 Hft2].
        { intros j nd Hjin Hj. assert (j <> h) as Hjh.
          { intros ->. apply elem_of_app in Hjin. tauto. }
          destruct (Hgeom2 j nd Hjh Hj) as (nd' & Hnd' & _ & Hgs & Hgu & _).
          by exists nd'. }
        assert (Hfh : free_size nodes2 h = 0) by (by apply (free_size_used _ _ hd1)).
        assert (Hsum : free_total nodes2 (l1 ++ [h] ++ l2)
                       = free_total (m_nodes a) l1 + free_total (m_nodes a) l2).
        { rewrite free_total_app. cbn [app]. rewrite free_total_cons. lia. }
        assert (Hsub : sub32 (free_total (m_nodes a) (l1 ++ h :: l2)) T
                       = free_total (m_nodes a) l1 + free_total (m_nodes a) l2).
        { unfold sub32. rewrite u32_small; unfold is_u32 in *; lia. }
        split; [split|].
        * rewrite Hn4. exact (Hrank2 Hrk).
        * rewrite Hfs4, Hst, Hn4, Hsub, Hsum. done.
        * rewrite Hsub, HftL. lia. }
  (* split: the rest goes into a new free node behind [h] *)
  simpl_alloc. rewrite Hn4, Hh2. simpl_alloc.
  change (dataOffset hd1) with (dataOffset hd). rewrite Ho.
  assert (Hoff : add32 o size = o + size).
  { unfold add32. apply u32_small. unfold is_u32 in *. lia. }
  rewrite Hoff.
  pose proof (Inv_stack_is _ _ _ HI) as Hstack.
  destruct (decide (fs = [])) as [->|Hfsne].
  { rewrite insertNodeIntoBin_empty; [done|]. by rewrite Hfn4, Hfo4. }
  apply last_is_Some in Hfsne as [k Hk]. apply last_Some in Hk as [fs' ->].
  assert (Hkfs : k ∈ fs' ++ [k]) by (apply elem_of_app; right; by left).
  assert (HkL : k ∉ l1 ++ h :: l2).
  { apply NoDup_app in Hnodup as (_ & Hdis & _). intros HkL. by apply (Hdis k HkL). }
  assert (Hkr : 0 <= k < Z.of_nat (length (m_nodes a))).
  { rewrite (inv_nodes_len _ _ _ HI). by apply (inv_fs_range _ _ _ HI). }
  assert (Hhk : h <> k).
  { intros ->. apply HkL. apply elem_of_app. right. by left. }
  destruct (insertNodeIntoBin_spec a4 (T - size) (o + size) (l1 ++ h :: l2) fs' k)
    as (a5 & kd & Hins & Hsz5 & Hmx5 & Hfn5 & Hst5 & Hbm5 & Hbins5 & [Hlen5 Hgeom5]
        & Hk5 & Hko & Hks & Hkp & Hkn & Hku & Hfs5 & Hrank5).
  { done. }
  { by rewrite Hn4, Hbi4. }
  { by rewrite Hn4, Hlen2. }
  { by rewrite Hfn4, Hfo4. }
  { done. }
  { by rewrite Hn4, Hlen2. }
  { unfold is_u32 in *. lia. }
  rewrite Hins. simpl_alloc.
  rewrite Hn4 in Hgeom5, Hlen5.
  destruct (Hgeom5 h hd1 Hhk Hh2) as (hd5 & Hh5 & Hg5o & Hg5s & Hg5u & Hg5p & Hg5n).
  unfold hd1 in Hg5o, Hg5s, Hg5u, Hg5p, Hg5n. cbn in Hg5o, Hg5s, Hg5u, Hg5p, Hg5n.
  rewrite Hh5. simpl_alloc.
  set (xn := List.hd NODE_UNUSED l2) in *.
  assert (Hx5 : neighborNext hd5 = xn) by (rewrite Hg5n; exact Hnn).
  rewrite Hx5.
  assert (Hxl2 : xn <> NODE_UNUSED -> xn ∈ l2).
  { unfold xn. destruct l2; cbn; [done|]. intros _. by left. }
  assert (HndL : NoDup (l1 ++ h :: l2)) by (by apply NoDup_app in Hnodup as (? & _ & _)).
  assert (Hhl2 : h ∉ l2).
  { apply NoDup_app in HndL as (_ & _ & HndL). by apply NoDup_cons in HndL as [? _]. }
  assert (Hxk : xn <> k).
  { intros Hxk. destruct (decide (xn = NODE_UNUSED)) as [Hxu|Hxu].
    - rewrite Hxk in Hxu. unfold NODE_UNUSED in Hxu. lia.
    - apply HkL. rewrite <- Hxk. apply elem_of_app. right. right. by apply Hxl2. }
  assert (Hxh : xn <> h).
  { intros Hxh. apply Hhl2. rewrite <- Hxh. apply Hxl2. by rewrite Hxh. }
  assert (Hval5 : no_sentinel (m_nodes a5)).
  { apply no_sentinel_length. by rewrite Hlen5, Hlen2. }
  destruct (splice_after_spec (m_nodes a5) h k xn hd5 kd)
    as (n6 & n7 & hd7 & n8 & n9 & H6 & H7 & Hh7 & Hx7 & H8 & H9 & Hl9 & Hh9 & Hk9 & Hd9);
    try done.
  { intros Hxu. apply (get_same_length (m_nodes a5) (m_nodes a)); [by rewrite Hlen5, Hlen2|].
    eapply seg_valid; [apply Hseg2|by apply Hxl2]. }
  rewrite H6. simpl_alloc. rewrite H7. simpl_alloc. rewrite Hh7. simpl_alloc.
  rewrite Hx7, H8. simpl_alloc. rewrite H9. simpl_alloc. rewrite Hh9. simpl_alloc.
  (* every node but [h] and [k], from the first array to the last *)
  assert (Hout : forall j nd, j <> h -> j <> k -> Arr.get (m_nodes a) j = Some nd ->
            exists nd', Arr.get n9 j = Some nd'
              /\ dataOffset nd' = dataOffset nd /\ dataSize nd' = dataSize nd
              /\ used nd' = used nd
              /\ neighborPrev nd' = (if decide (j = xn) then k else neighborPrev nd)
              /\ neighborNext nd' = neighborNext nd).
  { intros j nd Hjh Hjk Hj.
    destruct (Hgeom2 j nd Hjh Hj) as (nd2 & Hnd2 & Ho2 & Hs2 & Hu2 & Hp2 & Hx2).
    destruct (Hgeom5 j nd2 Hjk Hnd2) as (nd5 & Hnd5 & Ho5 & Hs5 & Hu5 & Hp5 & Hxx5).
    rewrite (Hd9 j nd5 Hjh Hjk Hnd5). eexists. split; [done|].
    destruct (decide (j = xn)); destruct nd5; cbn in *; split_and!; congruence. }
  split; [simpl_alloc; by rewrite Hmx5, Hmx4|].
  assert (Hsame9 : bin_same (m_nodes a5) n9).
  { split; [done|].
    intros j nd5 Hj.
    destruct (decide (j = h)) as [->|Hjh].
    { rewrite Hh9. eexists. split; [done|].
      assert (nd5 = hd5) as -> by congruence. by destruct hd5. }
    destruct (decide (j = k)) as [->|Hjk].
    { rewrite Hk9. eexists. split; [done|].
      assert (nd5 = kd) as -> by congruence. by destruct kd. }
    rewrite (Hd9 j nd5 Hjh Hjk Hj). eexists. split; [done|].
    destruct (decide (j = xn)); by destruct nd5. }
  exists (l1 ++ [h; k] ++ l2), fs'. split; [|split; [|split]].
  - eapply (Inv_splice a _ l1 [h] [h; k] l2 (fs' ++ [k]) fs'); simpl_alloc; try done.
    + by rewrite Hsz5.
    + by rewrite Hmx5.
    + by rewrite Hl9, Hlen5.
    + by rewrite Hfn5, Hfn4.
    + cbn. f_equiv. apply Permutation_cons_append.
    + apply (bins_ok_live _ _ (k :: l1 ++ h :: l2)).
      * eapply bins_ok_frame; [apply Hbins5|]. exact Hsame9.
      * intros n nd. unfold free_in. cbn [app].
        rewrite elem_of_cons, !elem_of_app, !elem_of_cons. tauto.
    + intros j nd Hjm Hjm' Hj.
      assert (j <> h) as Hjh by (intros ->; apply Hjm; by left).
      assert (j <> k) as Hjk by (intros ->; apply Hjm'; right; by left).
      destruct (Hout j nd Hjh Hjk Hj) as (nd' & Hnd' & Hgo & Hgs & Hgu & Hgp & Hgn).
      exists nd'. split_and!; try done.
      * rewrite Hgp. change (last_or NODE_UNUSED [h; k]) with k.
        destruct (decide (head l2 = Some j)) as [Hhd2|Hhd2].
        { rewrite decide_True; [done|]. symmetry. by apply head_Some_hd. }
        rewrite decide_False; [done|]. intros ->. apply Hhd2.
        apply (hd_head_Some NODE_UNUSED); [done|]. by eapply Hval.
      * rewrite Hgn. change (List.hd NODE_UNUSED [h; k]) with h.
        destruct (decide (last l1 = Some j)) as [Hla1|]; [|done].
        by rewrite (Hnext1 j nd Hla1 Hj).
    + intros j nd' Hjf Hnd'.
      assert (j ∈ fs' ++ [k]) as Hjfs by (apply elem_of_app; by left).
      assert (j <> h) as Hjh by (intros ->; done).
      assert (j <> k) as Hjk.
      { intros ->. apply NoDup_app in Hnodup as (_ & _ & Hnd).
        apply NoDup_app in Hnd as (_ & Hdis & _). apply (Hdis k Hjf). by left. }
      destruct (get_same_length (m_nodes a) n9 j) as [nd Hnd];
        [by rewrite Hl9, Hlen5, Hlen2|by eauto|].
      destruct (Hout j nd Hjh Hjk Hnd) as (nd9 & Hnd9 & _ & _ & Hu9 & _).
      assert (nd9 = nd') as -> by congruence. rewrite Hu9.
      by eapply Inv_not_used_in_stack.
    + intros off e. cbn [seg List.hd].
      intros (nd & Hnd & Hp & Hof & Hs & Hnx & He).
      assert (nd = hd) as -> by congruence. fold T in He.
      eexists. split; [exact Hh9|]. cbn. rewrite Hg5s.
      split_and!; try congruence; [unfold is_u32 in Hsize; lia|].
      eexists. split; [exact Hk9|]. cbn. rewrite Hks, Hko.
      split_and!; try done; lia.
    + assert (Hf1 : is_free (m_nodes a) h = true)
        by (unfold is_free; by rewrite Hhd, Hhu).
      assert (Hf2 : is_free n9 h = false)
        by (unfold is_free; rewrite Hh9; cbn; by rewrite Hg5u).
      assert (Hf3 : is_free n9 k = true)
        by (unfold is_free; rewrite Hk9; cbn; by rewrite Hku).
      cbn [fmap list_fmap app sparse]. rewrite Hf1, Hf2, Hf3.
      intros [_ Hs]. split; [by intros [_ ?]|]. split; [by intros [? _]|done].
  - right. split; [|by exists k].
    intros ->. apply Hnz. rewrite (inv_offset _ _ _ HI). done.
  - right. exists hd. eexists. unfold node. cbn [metadata offset m_nodes set_nodes].
    split; [done|]. split; [done|]. split; [done|]. split; [done|].
    split; [exact Hh9|]. cbn. rewrite Hg5u, Hg5s, Hg5o. cbn.
    split_and!; try done.
    intros _. exists (with_neighborNext xn (with_neighborPrev h kd)).
    split; [exact Hk9|]. cbn. split_and!; try done. fold T. congruence.
  - apply (alloc_more_success a size t l h); try done.
    + intros j nd Hjh Hj Hu. cbn [m_nodes set_nodes].
      assert (j <> k) as Hjk.
      { intros ->. rewrite (Inv_not_used_in_stack _ _ _ k nd HI Hkfs Hj) in Hu. done. }
      destruct (Hout j nd Hjh Hjk Hj) as (nd' & Hnd' & Hgo & Hgs & Hgu & _).
      exists nd'. split_and!; congruence.
    + intros [Hrk Hst]. cbn [m_nodes set_nodes m_freeStorage].
      destruct (Hrest n9) as [Hft1 Hft2].
      { intros j nd Hjin Hj. assert (j <> h) as Hjh.
        { intros ->. apply elem_of_app in Hjin. tauto. }
        assert (j <> k) as Hjk.
        { intros ->. apply HkL. rewrite elem_of_app, elem_of_cons.
          apply elem_of_app in Hjin. tauto. }
        destruct (Hout j nd Hjh Hjk Hj) as (nd' & Hnd' & _ & Hgs & Hgu & _).
        by exists nd'. }
      assert (Hfh : free_size n9 h = 0).
      { eapply free_size_used; [exact Hh9|]. done. }
      assert (Hfk : free_size n9 k = T - size).
      { erewrite free_size_free; [|exact Hk9|done]. cbn. done. }
      assert (Hsum : free_total n9 (l1 ++ [h; k] ++ l2)
                     = free_total (m_nodes a) l1 + (T - size) + free_total (m_nodes a) l2).
      { rewrite free_total_app. cbn [app]. rewrite !free_total_cons. lia. }
      assert (Hsub : add32 (sub32 (free_total (m_nodes a) (l1 ++ h :: l2)) T) (T - size)
                     = free_total (m_nodes a) l1 + (T - size) + free_total (m_nodes a) l2).
      { unfold add32, sub32.
        rewrite (u32_small (_ - T)) by (unfold is_u32 in *; lia).
        rewrite u32_small; unfold is_u32 in *; lia. }
      rewrite Hfs5, Hfs4, Hst.
      split; [split|].
      * cbn [m_nodes set_nodes].
        apply (rank_ok_live _ (k :: l1 ++ h :: l2)).
        -- eapply rank_ok_frame; [|exact Hsame9]. apply Hrank5.
           rewrite Hn4. exact (Hrank2 Hrk).
        -- intros n nd. unfold free_in. cbn [app].
           rewrite elem_of_cons, !elem_of_app, !elem_of_cons. tauto.
      * cbn [m_nodes set_nodes m_freeStorage]. rewrite Hfs5, Hfs4, Hst, Hsub, Hsum. done.
      * rewrite Hsub, HftL. lia.
Qed.

Lemma allocate_inv (a : Allocator) (size : Z) (L fs : list Z) :
  Inv a L fs -> is_u32 size ->
  match allocate a size with
  | Some (res, a') =>
      m_maxAllocs a' = m_maxAllocs a
      /\ exists L' fs', Inv a' L' fs'
        /\ (fs' = fs \/ (fs' <> [] /\ exists k, fs = fs' ++ [k]))
        /\ alloc_post a size res a'
  | None => fs = []
  end.
Proof.
  intros HI Hsize. pose proof (allocate_inv_full a size L fs HI Hsize) as Hfull.
  destruct (allocate a size) as [[res a']|]; [|done].
  destruct Hfull as (Hm & L' & fs' & HI' & Hfs & Hpost & _).
  split; [done|]. by exists L', fs'.
Qed.

End Allocate.

(** ** [freeAllocation] keeps the invariant *)

Section Free.

Ltac case_and :=
  match goal with
  | |- context [@decide (and ?A ?B) ?i] => destruct (@decide (and A B) i) as [[? ?]|?]
  end.

Lemma last_or_ne_valid (d : Z) (l : list Z) :
  last_or d l <> d -> exists l', l = l' ++ [last_or d l].
Proof.
  unfold last_or. destruct (last l) as [x|] eqn:E; cbn; [|done].
  intros _. by apply last_Some.
Qed.

Lemma Inv_room (a : Allocator) (L fs : list Z) :
  Inv a L fs ->
  Z.of_nat (length L) + Z.of_nat (length fs) = Z.of_nat (length (m_freeNodes a)).
Proof. intros HI. rewrite (inv_free_len _ _ _ HI). apply HI. Qed.

Lemma Merged_start (a : Allocator) (l1 l2 fs : list Z) (n : Z) (nd : Node) :
  Inv a (l1 ++ n :: l2) fs -> Arr.get (m_nodes a) n = Some nd ->
  Merged a a l1 [] n [] l2 fs.
Proof.
  intros HI Hn.
  destruct (seg_at _ _ _ _ _ _ _ _ (inv_chain _ _ _ HI))
    as (nd' & o & Hnd' & Hnp & Hnn & _).
  assert (nd' = nd) as -> by congruence.
  split; try done.
  - rewrite !app_nil_r. by eapply Inv_stack_is.
  - apply HI.
  - apply HI.
  - intros j ndj _ Hj. by exists ndj.
  - by exists nd, nd.
Qed.

Lemma is_free_true nodes (j : Z) (nd : Node) :
  Arr.get nodes j = Some nd -> used nd = false -> is_free nodes j = true.
Proof. intros Hj Hu. unfold is_free. by rewrite Hj, Hu. Qed.

Lemma is_free_false nodes (j : Z) (nd : Node) :
  Arr.get nodes j = Some nd -> used nd = true -> is_free nodes j = false.
Proof. intros Hj Hu. unfold is_free. by rewrite Hj, Hu. Qed.

(** One merge step: the free neighbor [q] of [n] leaves its bin and its
    slot goes back on the stack; then a neighbor link of [n] is rewritten
    by [f]. *)
Lemma unlink_step (a0 a : Allocator) (l1 mp mx l2 fs : list Z) (n q : Z)
    (qd : Node) (f : Node -> Node) :
  Merged a0 a l1 mp n mx l2 fs ->
  Z.of_nat (length (m_nodes a0)) < 2 ^ 32 ->
  (length (fs ++ mp ++ mx) < length (m_freeNodes a0))%nat ->
  free_in (m_nodes a) (l1 ++ n :: l2) q qd -> q <> n ->
  (forall nd, dataOffset (f nd) = dataOffset nd /\ dataSize (f nd) = dataSize nd
              /\ used (f nd) = used nd /\ binListPrev (f nd) = binListPrev nd
              /\ binListNext (f nd) = binListNext nd) ->
  exists a1 nd1 qd1 nodes1,
    removeNodeFromBin a q = Some a1
    /\ Arr.get (m_nodes a1) n = Some nd1
    /\ Arr.get (m_nodes a1) q = Some qd1 /\ geom_eq qd qd1
    /\ Arr.upd (m_nodes a1) n f = Some nodes1
    /\ m_size a1 = m_size a0 /\ m_maxAllocs a1 = m_maxAllocs a0
    /\ length nodes1 = length (m_nodes a0)
    /\ length (m_freeNodes a1) = length (m_freeNodes a0)
    /\ stack_is (m_freeNodes a1) (m_freeOffset a1) ((fs ++ mp ++ mx) ++ [q])
    /\ bitmap_ok (m_usedBinsTop a1) (m_usedBins a1) (m_binIndices a1)
    /\ (forall L', (forall j, j ∈ L' <-> j ∈ l1 ++ n :: l2 /\ j <> q) ->
          bins_ok nodes1 (m_binIndices a1) L')
    /\ (forall j nd, j <> n -> Arr.get (m_nodes a0) j = Some nd ->
          exists nd', Arr.get nodes1 j = Some nd' /\ geom_eq nd nd')
    /\ m_freeStorage a1 = sub32 (m_freeStorage a) (dataSize qd)
    /\ (rank_ok (m_nodes a) (l1 ++ n :: l2) ->
        forall L', (forall j, j ∈ L' <-> j ∈ l1 ++ n :: l2 /\ j <> q) ->
          rank_ok nodes1 L')
    /\ (exists nd0, Arr.get (m_nodes a0) n = Some nd0
          /\ Arr.get nodes1 n = Some (f nd1)
          /\ used nd1 = used nd0
          /\ neighborPrev nd1 = last_or NODE_UNUSED l1
          /\ neighborNext nd1 = hd NODE_UNUSED l2).
Proof.
  intros HM Hlt Hroom Hq Hqn Hf.
  destruct (removeNodeFromBin_spec a q qd (l1 ++ n :: l2) (fs ++ mp ++ mx))
    as (a1 & Hrm & Hsz & Hmx & Hst & Hfl & Hbm & Hbins & [Hgl Hgk] & Hfsr & Hrankr);
    try apply HM; try done.
  { by rewrite (mg_nlen _ _ _ _ _ _ _ _ HM). }
  { by rewrite (mg_flen _ _ _ _ _ _ _ _ HM). }
  destruct (mg_node _ _ _ _ _ _ _ _ HM) as (nd0 & nd' & Hnd0 & Hnd' & Hu' & Hp' & Hn').
  destruct (Hgk n nd' Hnd') as (nd1 & Hnd1 & Hg1).
  destruct Hq as (HqL & Hqd & Hqu).
  destruct (Hgk q qd Hqd) as (qd1 & Hqd1 & Hgq).
  pose proof (upd_Some _ _ _ f Hnd1) as Hupd.
  assert (Hsame : bin_same (m_nodes a1) (<[Z.to_nat n := f nd1]> (m_nodes a1))).
  { split; [by rewrite length_insert|].
    intros j nd Hj. rewrite (get_upd _ _ _ _ j Hupd).
    destruct (decide (j = n)) as [->|Hjn].
    + rewrite Hnd1. cbn. exists (f nd1). assert (nd = nd1) as -> by congruence.
      destruct (Hf nd1) as (_ & ? & ? & ? & ?). done.
    + by exists nd. }
  exists a1, nd1, qd1, (<[Z.to_nat n := f nd1]> (m_nodes a1)).
  split_and!; try done.
  - rewrite Hsz. apply HM.
  - rewrite Hmx. apply HM.
  - rewrite length_insert, Hgl. apply HM.
  - rewrite Hfl. apply HM.
  - intros L' HL'. eapply bins_ok_frame; [by apply Hbins|done].
  - intros j nd Hjn Hj. rewrite (get_upd _ _ _ _ j Hupd).
    rewrite decide_False by done.
    destruct (mg_geom _ _ _ _ _ _ _ _ HM j nd Hjn Hj) as (nd2 & Hnd2 & Hg2).
    destruct (Hgk j nd2 Hnd2) as (nd3 & Hnd3 & Hg3).
    exists nd3. split; [done|].
    destruct Hg2 as (? & ? & ? & ? & ?), Hg3 as (? & ? & ? & ? & ?).
    unfold geom_eq. split_and!; congruence.
  - intros Hrk L' HL'. eapply rank_ok_frame; [by apply Hrankr|done].
  - exists nd0. rewrite (get_upd _ _ _ _ n Hupd). rewrite decide_True by done.
    rewrite Hnd1. destruct Hg1 as (? & ? & ? & ? & ?). split_and!; try done; congruence.
Qed.

Lemma elem_of_remove_mid (l1 l2 : list Z) (p j : Z) :
  NoDup (l1 ++ p :: l2) ->
  j ∈ l1 ++ l2 <-> j ∈ l1 ++ p :: l2 /\ j <> p.
Proof.
  intros (H1 & H2 & [H3 H4]%NoDup_cons)%NoDup_app.
  rewrite !elem_of_app, elem_of_cons. split.
  - intros [H|H]; (split; [tauto|]); intros ->; [|done].
    apply (H2 p H). by left.
  - tauto.
Qed.

Lemma Inv_nodup_live (a : Allocator) (L fs : list Z) : Inv a L fs -> NoDup L.
Proof. intros HI. by destruct (proj1 (NoDup_app _ _) (inv_nodup _ _ _ HI)). Qed.

Lemma mergePrev_spec (a : Allocator) (l1 l2 fs : list Z) (n : Z) (nd : Node) :
  Inv a (l1 ++ n :: l2) fs ->
  Arr.get (m_nodes a) n = Some nd -> used nd = true ->
  exists l1a mp a1 off1 size1,
    freeAllocation_mergePrev a n (dataOffset nd) (dataSize nd) = Some (off1, size1, a1)
    /\ l1 = l1a ++ mp
    /\ Merged a a1 l1a mp n [] l2 fs
    /\ 0 <= size1 <= dataOffset nd + dataSize nd
    /\ (forall off e nx,
          seg (m_nodes a) (last_or NODE_UNUSED l1a) off (mp ++ [n]) nx e ->
          off1 = off /\ size1 = e - off)
    /\ last_or false (is_free (m_nodes a) <$> l1a) = false
    /\ (forall j, j ∈ mp -> is_free (m_nodes a) j = true)
    /\ (Ledger a (l1 ++ n :: l2) -> MergedLedger a a1 l1a mp n [] l2).
Proof.
  intros HI Hn Hu.
  pose proof (Merged_start _ _ _ _ _ _ HI Hn) as Hstart.
  destruct (seg_at _ _ _ _ _ _ _ _ (inv_chain _ _ _ HI))
    as (nd' & o & Hnd' & Hnp & Hnn & Ho & HS & Ho0 & HoS & Hseg1 & Hseg2).
  assert (nd' = nd) as -> by congruence.
  pose proof (inv_size _ _ _ HI) as Hmsz.
  unfold freeAllocation_mergePrev. rewrite Hn. simpl_alloc.
  (* nothing to merge: the result in both such cases *)
  assert (Hkeep : last_or false (is_free (m_nodes a) <$> l1) = false ->
    exists l1a mp a1 off1 size1,
      Some (dataOffset nd, dataSize nd, a) = Some (off1, size1, a1)
      /\ l1 = l1a ++ mp
      /\ Merged a a1 l1a mp n [] l2 fs
      /\ 0 <= size1 <= dataOffset nd + dataSize nd
      /\ (forall off e nx,
            seg (m_nodes a) (last_or NODE_UNUSED l1a) off (mp ++ [n]) nx e ->
            off1 = off /\ size1 = e - off)
      /\ last_or false (is_free (m_nodes a) <$> l1a) = false
      /\ (forall j, j ∈ mp -> is_free (m_nodes a) j = true)
      /\ (Ledger a (l1 ++ n :: l2) -> MergedLedger a a1 l1a mp n [] l2)).
  { intros Hlast. exists l1, [], a, (dataOffset nd), (dataSize nd).
    split; [done|]. split; [by rewrite app_nil_r|]. split; [done|].
    split; [lia|]. split; [|split; [done|split]].
    - intros off e nx (nd' & Hnd'' & _ & Hof & _ & _ & He). cbn in He.
      assert (nd' = nd) as -> by congruence. lia.
    - intros j Hj. by apply elem_of_nil in Hj.
    - intros [Hrk Hst]. split; [done|]. cbn [app]. rewrite free_total_nil. lia. }
  assert (neighborPrev nd = NODE_UNUSED \/ neighborPrev nd <> NODE_UNUSED)
    as [Hpn|Hpn] by lia.
  { rewrite (decide_False (P := neighborPrev nd <> NODE_UNUSED)) by tauto.
    simpl_alloc. case_and; [done|]. apply Hkeep.
    assert (l1 = []) as ->; [|done].
    destruct l1 as [|y l1 _] using rev_ind; [done|].
    rewrite last_or_snoc in Hnp.
    destruct (seg_valid _ _ _ _ _ _ y Hseg1) as [yd Hyd%get_Some_range].
    { apply elem_of_app. right. by left. }
    pose proof (Inv_nodes_lt _ _ _ HI).
    rewrite Hnp in Hpn. unfold NODE_UNUSED in Hpn. lia. }
  rewrite (decide_True (P := neighborPrev nd <> NODE_UNUSED)) by done.
  rewrite Hnp in Hpn. destruct (last_or_ne_valid _ _ Hpn) as [l1a Hl1].
  set (p := last_or NODE_UNUSED l1) in *. rewrite Hnp.
  assert (HI' : Inv a (l1a ++ p :: n :: l2) fs).
  { rewrite Hl1 in HI. by rewrite <- (assoc_L (++)) in HI. }
  destruct (seg_at _ _ _ _ _ _ _ _ (inv_chain _ _ _ HI'))
    as (pd & po & Hpd & Hpp & _ & Hpo & HpS & Hpo0 & _ & Hsegp1 & Hsegp2).
  rewrite Hpd. cbn [fmap option_fmap option_map]. simpl_alloc.
  destruct (used pd) eqn:Hpu.
  { case_and; [done|]. apply Hkeep.
    rewrite Hl1, fmap_app, last_or_app. cbn. unfold last_or. cbn.
    by eapply is_free_false. }
  case_and; [|tauto].
  pose proof (Inv_nodup_live _ _ _ HI') as Hnodup.
  pose proof (Inv_room _ _ _ HI') as Hroom.
  rewrite length_app in Hroom. cbn [length] in Hroom.
  destruct (unlink_step a a l1 [] [] l2 fs n p pd
              (with_neighborPrev (last_or NODE_UNUSED l1a)) Hstart)
    as (a1 & nd1 & pd1 & nodes1 & Hrm & Hnd1 & Hpd1 & Hgp & Hupd & Hsz & Hmx
        & Hnl & Hfl & Hst & Hbm & Hbins & Hgeom & Hfsr & Hrankr
        & (nd0 & Hnd0 & Hn1 & Hu1 & Hp1 & Hx1)).
  { by eapply Inv_nodes_lt. }
  { rewrite app_nil_r. lia. }
  { split_and!; [|done|done]. rewrite Hl1. rewrite !elem_of_app, list_elem_of_singleton. tauto. }
  { intros ->. apply NoDup_app in Hnodup as (_ & _ & Hn2).
    apply NoDup_cons in Hn2 as [Hn2 _]. apply Hn2. by left. }
  { done. }
  assert (nd0 = nd) as -> by congruence.
  destruct Hgp as (Hgo & Hgs & Hgu & Hgpp & Hgpn).
  rewrite Hrm. simpl_alloc. rewrite Hpd1. simpl_alloc.
  rewrite Hgpp, Hpp, Hupd. simpl_alloc.
  assert (Hpn2 : po + dataSize pd = o).
  { destruct Hsegp2 as (nd2 & Hnd2 & _ & Ho2 & _). 
    assert (nd2 = nd) as -> by congruence. lia. }
  assert (Hadd : add32 (dataSize nd) (dataSize pd) = dataSize nd + dataSize pd).
  { unfold add32. apply u32_small. unfold is_u32 in Hmsz. lia. }
  exists l1a, [p], (set_nodes nodes1 a1), (dataOffset pd),
    (add32 (dataSize nd) (dataSize pd)).
  split; [done|]. split; [done|]. split; [|split; [|split; [|split; [|split]]]].
  - split; simpl_alloc; try done.
    + by rewrite !app_nil_r in *.
    + apply Hbins. intros j. rewrite Hl1, <- (assoc_L (++)). cbn [app].
      by apply elem_of_remove_mid.
    + exists nd, (with_neighborPrev (last_or NODE_UNUSED l1a) nd1).
      split_and!; try done.
  - rewrite Hadd. lia.
  - intros off e nx (pd' & Hpd' & _ & Hof & _ & _ & nd' & Hnd'' & _ & Hof' & _ & _ & He).
    cbn in He. assert (pd' = pd) as -> by congruence.
    assert (nd' = nd) as -> by congruence. rewrite Hadd. lia.
  - pose proof (inv_sparse _ _ _ HI') as Hsp.
    rewrite fmap_app in Hsp. apply sparse_app in Hsp as [_ Hsp].
    cbn in Hsp. destruct Hsp as [Hsp _].
    rewrite (is_free_true _ _ _ Hpd Hpu) in Hsp.
    destruct (last_or false (is_free (m_nodes a) <$> l1a)); [tauto|done].
  - intros j ->%list_elem_of_singleton. by eapply is_free_true.
  - intros [Hrk Hstor]. split; simpl_alloc.
    + apply (Hrankr Hrk). intros j. rewrite Hl1, <- (assoc_L (++)). cbn [app].
      by apply elem_of_remove_mid.
    + rewrite Hfsr, Hstor.
      pose proof (free_size_free _ _ _ Hpd Hpu) as Hfp.
      pose proof (free_total_bounds _ _ _ _ _ _ (inv_chain _ _ _ HI')) as HbL.
      pose proof (free_total_bounds _ _ _ _ _ _ Hsegp1) as Hb1.
      pose proof (free_total_bounds _ _ _ _ _ _ Hsegp2) as Hb2.
      rewrite Hl1, <- !(assoc_L (++)). cbn [app].
      rewrite !free_total_app, !free_total_cons, free_total_nil in *.
      rewrite Hfp in *. unfold sub32. rewrite u32_small; unfold is_u32 in *; lia.
Qed.

Lemma NoDup_drop_mid (l1 mp l2 : list Z) : NoDup (l1 ++ mp ++ l2) -> NoDup (l1 ++ l2).
Proof.
  intros (H1 & H2 & (H3 & H4 & H5)%NoDup_app)%NoDup_app.
  apply NoDup_app. split_and!; [done| |done].
  intros x Hx. specialize (H2 x Hx). rewrite elem_of_app in H2. tauto.
Qed.

Lemma mergeNext_spec (a0 a : Allocator) (l1 mp l2 fs : list Z) (n size : Z) (nd0 : Node) :
  Inv a0 (l1 ++ mp ++ n :: l2) fs ->
  Merged a0 a l1 mp n [] l2 fs ->
  Arr.get (m_nodes a0) n = Some nd0 ->
  0 <= size <= dataOffset nd0 + dataSize nd0 ->
  exists mx l2b a2 size2,
    freeAllocation_mergeNext a n size = Some (size2, a2)
    /\ l2 = mx ++ l2b
    /\ Merged a0 a2 l1 mp n mx l2b fs
    /\ (forall off e nl, seg (m_nodes a0) n off mx nl e -> size2 = size + (e - off))
    /\ hd false (is_free (m_nodes a0) <$> l2b) = false
    /\ (forall j, j ∈ mx -> is_free (m_nodes a0) j = true)
    /\ (MergedLedger a0 a l1 mp n [] l2 -> MergedLedger a0 a2 l1 mp n mx l2b).
Proof.
  intros HI HM Hn Hsize.
  assert (HI' : Inv a0 ((l1 ++ mp) ++ n :: l2) fs) by (by rewrite <- (assoc_L (++))).
  destruct (seg_at _ _ _ _ _ _ _ _ (inv_chain _ _ _ HI'))
    as (nd' & o & Hnd' & _ & Hnn & Ho & HS & Ho0 & HoS & _ & Hseg2).
  assert (nd' = nd0) as -> by congruence.
  pose proof (inv_size _ _ _ HI) as Hmsz.
  destruct (mg_node _ _ _ _ _ _ _ _ HM) as (nd0' & nd1 & Hnd0' & Hnd1 & Hu1 & Hp1 & Hx1).
  unfold freeAllocation_mergeNext. rewrite Hnd1. simpl_alloc. rewrite Hx1.
  assert (Hkeep : hd false (is_free (m_nodes a0) <$> l2) = false ->
    exists mx l2b a2 size2,
      Some (size, a) = Some (size2, a2)
      /\ l2 = mx ++ l2b
      /\ Merged a0 a2 l1 mp n mx l2b fs
      /\ (forall off e nl, seg (m_nodes a0) n off mx nl e -> size2 = size + (e - off))
      /\ hd false (is_free (m_nodes a0) <$> l2b) = false
      /\ (forall j, j ∈ mx -> is_free (m_nodes a0) j = true)
      /\ (MergedLedger a0 a l1 mp n [] l2 -> MergedLedger a0 a2 l1 mp n mx l2b)).
  { intros Hhd. exists [], l2, a, size. split_and!; try done.
    - intros off e nl He. cbn in He. lia.
    - intros j Hj. by apply elem_of_nil in Hj. }
  destruct l2 as [|x l2b].
  { cbn [hd]. rewrite (decide_False (P := NODE_UNUSED <> NODE_UNUSED)) by tauto.
    simpl_alloc. case_and; [done|]. by apply Hkeep. }
  cbn [hd] in *.
  destruct Hseg2 as (xd & Hxd & Hxp & Hxo & HxS & Hxn & Hseg3).
  pose proof (seg_le _ _ _ _ _ _ Hseg3) as Hle3.
  pose proof (Inv_nodes_lt _ _ _ HI) as Hlt.
  pose proof (get_Some_range _ _ _ Hxd) as Hxr.
  assert (Hxu : x <> NODE_UNUSED) by (unfold NODE_UNUSED; lia).
  pose proof (Inv_nodup_live _ _ _ HI) as Hnodup.
  apply NoDup_drop_mid in Hnodup.
  assert (Hxn' : x <> n).
  { intros ->. apply NoDup_app in Hnodup as (_ & _ & Hn2).
    apply NoDup_cons in Hn2 as [Hn2 _]. apply Hn2. by left. }
  destruct (mg_geom _ _ _ _ _ _ _ _ HM x xd Hxn' Hxd) as (xd1 & Hxd1 & Hgx).
  destruct Hgx as (Hgo & Hgs & Hgu & Hgp & Hgn).
  rewrite (decide_True (P := x <> NODE_UNUSED)) by done.
  rewrite Hxd1. cbn [fmap option_fmap option_map]. simpl_alloc.
  destruct (used xd) eqn:Hxused.
  { rewrite Hgu. case_and; [done|]. apply Hkeep. cbn. by eapply is_free_false. }
  rewrite Hgu. case_and; [|tauto].
  pose proof (Inv_room _ _ _ HI) as Hroom.
  rewrite !length_app in Hroom. cbn [length] in Hroom.
  destruct (unlink_step a0 a l1 mp [] (x :: l2b) fs n x xd1
              (with_neighborNext (hd NODE_UNUSED l2b)) HM)
    as (a1 & nd2 & xd2 & nodes1 & Hrm & Hnd2 & Hxd2 & Hgx2 & Hupd & Hsz & Hmx
        & Hnl & Hfl & Hst & Hbm & Hbins & Hgeom & Hfsr & Hrankr
        & (nd3 & Hnd3 & Hn3 & Hu3 & Hp3 & Hx3)).
  { done. }
  { rewrite app_nil_r, length_app. lia. }
  { split_and!; [|done|congruence].
    rewrite elem_of_app, !elem_of_cons. tauto. }
  { done. }
  { done. }
  assert (nd3 = nd0) as -> by congruence.
  destruct Hgx2 as (_ & _ & _ & _ & Hgn2).
  rewrite Hrm. simpl_alloc. rewrite Hxd2. simpl_alloc.
  rewrite Hgn2, Hgn, Hxn, Hupd. simpl_alloc.
  assert (Hadd : add32 size (dataSize xd1) = size + dataSize xd).
  { rewrite Hgs. unfold add32. apply u32_small. unfold is_u32 in Hmsz. lia. }
  exists [x], l2b, (set_nodes nodes1 a1), (add32 size (dataSize xd1)).
  split; [done|]. split; [done|]. split; [|split; [|split; [|split]]].
  - split; simpl_alloc; try done.
    + by rewrite app_nil_r, <- !(assoc_L (++)) in Hst.
    + apply Hbins. intros j.
      change (l1 ++ n :: l2b) with (l1 ++ [n] ++ l2b).
      change (l1 ++ n :: x :: l2b) with (l1 ++ [n] ++ x :: l2b).
      rewrite !(assoc_L (++)). apply elem_of_remove_mid.
      by rewrite <- (assoc_L (++)).
    + exists nd0, (with_neighborNext (hd NODE_UNUSED l2b) nd2).
      split_and!; try done.
  - intros off e nl (xd' & Hxd' & _ & Hof & _ & _ & He).
    cbn in He. assert (xd' = xd) as -> by congruence. rewrite Hadd. lia.
  - pose proof (inv_sparse _ _ _ HI) as Hsp.
    change (l1 ++ mp ++ n :: x :: l2b) with (l1 ++ mp ++ [n] ++ [x] ++ l2b) in Hsp.
    rewrite !(assoc_L (++)) in Hsp.
    rewrite fmap_app in Hsp. apply sparse_app in Hsp as [_ Hsp].
    rewrite !fmap_app, last_or_app in Hsp. cbn in Hsp.
    rewrite (is_free_true _ _ _ Hxd Hxused) in Hsp.
    by apply sparse_true_head.
  - intros j ->%list_elem_of_singleton. by eapply is_free_true.
  - intros [Hrk Hstor]. split; simpl_alloc.
    + apply (Hrankr Hrk). intros j.
      change (l1 ++ n :: l2b) with (l1 ++ [n] ++ l2b).
      change (l1 ++ n :: x :: l2b) with (l1 ++ [n] ++ x :: l2b).
      rewrite !(assoc_L (++)). apply elem_of_remove_mid.
      by rewrite <- (assoc_L (++)).
    + rewrite Hfsr, Hstor, Hgs.
      pose proof (free_size_free _ _ _ Hxd Hxused) as Hfx.
      pose proof (free_total_bounds _ _ _ _ _ _ (inv_chain _ _ _ HI)) as HbL.
      assert (Hpos : forall l, (forall j, j ∈ l -> j ∈ l1 ++ mp ++ n :: x :: l2b) ->
                0 <= free_total (m_nodes a0) l).
      { intros l Hl. apply free_total_nonneg. intros j Hj.
        eapply free_size_bounds; [apply (inv_chain _ _ _ HI)|by apply Hl]. }
      pose proof (Hpos l1 ltac:(intros j Hj; rewrite !elem_of_app; tauto)) as Hq1.
      pose proof (Hpos [n] ltac:(intros j Hj; rewrite !elem_of_app, !elem_of_cons;
                                apply list_elem_of_singleton in Hj; tauto)) as Hq2.
      pose proof (Hpos l2b ltac:(intros j Hj; rewrite !elem_of_app, !elem_of_cons; tauto))
        as Hq3.
      pose proof (Hpos mp ltac:(intros j Hj; rewrite !elem_of_app; tauto)) as Hq4.
      cbn [app] in *.
      repeat first [rewrite free_total_app in * | rewrite free_total_cons in *
                   | rewrite free_total_nil in *].
      rewrite Hfx in *. unfold sub32. rewrite u32_small; unfold is_u32 in *; lia.
Qed.

End Free.

(** ** The combined region goes back into its bin *)

Section FreeInsert.

(** One of the two link updates at the end of [freeAllocation]: when
    the neighbor [t] exists, node [n] is rewritten by [fn] and [t] by [ft]. *)
(** The node [insertNodeIntoBin] takes becomes the first node of the
    bin of its size. *)
Lemma insertNodeIntoBin_first (a : Allocator) (size off k : Z) (a' : Allocator) :
  insertNodeIntoBin a size off = Some (k, a') ->
  Arr.get (m_binIndices a') (uintToFloatRoundDown size) = Some k.
Proof.
  unfold insertNodeIntoBin. cbv zeta. intros H.
  step_bind H.
  match type of H with
  | mbind _ ?e = _ =>
      assert (Hbi : forall a1, e = Some a1 -> m_binIndices a1 = m_binIndices a)
  end.
  { intros a1. case_decide; [|by intros [= <-]].
    intros H1. repeat step_bind H1. by injection H1 as <-. }
  step_bind H. pose proof (Hbi _ eq_refl) as Hbi1.
  repeat step_bind H. injection H as <- <-. simpl_alloc.
  match goal with
  | E : Arr.set _ _ _ = Some ?l |- Arr.get ?l _ = _ =>
      rewrite (get_set _ _ _ _ (uintToFloatRoundDown size) E)
  end.
  by rewrite decide_True.
Qed.

Lemma link_stage (nodes : list Node) (n t : Z) (kd : Node) (fn ft : Node -> Node) :
  no_sentinel nodes -> Arr.get nodes n = Some kd -> t <> n ->
  (t <> NODE_UNUSED -> is_Some (Arr.get nodes t)) ->
  (t = NODE_UNUSED -> fn kd = kd) ->
  exists nodes1,
    (if decide (t <> NODE_UNUSED) then
       nodes' ← Arr.upd nodes n fn; Arr.upd nodes' t ft
     else Some nodes) = Some nodes1
    /\ length nodes1 = length nodes
    /\ Arr.get nodes1 n = Some (fn kd)
    /\ forall j nd, j <> n -> Arr.get nodes j = Some nd ->
         Arr.get nodes1 j = Some (if decide (j = t) then ft nd else nd).
Proof.
  intros Hns Hn Htn Ht Hfn.
  assert (t = NODE_UNUSED \/ t <> NODE_UNUSED) as [Htu|Htu] by lia.
  - rewrite (decide_False (P := t <> NODE_UNUSED)) by tauto.
    exists nodes. split_and!; try done.
    + by rewrite Hfn.
    + intros j nd Hjn Hj. rewrite decide_False; [done|].
      intros ->. by apply (Hns _ _ Hj).
  - rewrite (decide_True (P := t <> NODE_UNUSED)) by done.
    destruct (Ht Htu) as [td Htd].
    pose proof (upd_Some _ _ _ fn Hn) as Hu1. rewrite Hu1. simpl_alloc.
    assert (Htd1 : Arr.get (<[Z.to_nat n := fn kd]> nodes) t = Some td).
    { rewrite (get_upd _ _ _ _ t Hu1). by rewrite decide_False. }
    pose proof (upd_Some _ _ _ ft Htd1) as Hu2. rewrite Hu2.
    eexists. split; [done|]. split_and!.
    + by rewrite !length_insert.
    + rewrite (get_upd _ _ _ _ n Hu2). rewrite decide_False by done.
      rewrite (get_upd _ _ _ _ n Hu1). rewrite decide_True by done. by rewrite Hn.
    + intros j nd Hjn Hj. rewrite (get_upd _ _ _ _ j Hu2).
      destruct (decide (j = t)) as [->|Hjt].
      * rewrite Htd1. cbn. congruence.
      * rewrite (get_upd _ _ _ _ j Hu1). by rewrite decide_False.
Qed.

Lemma last_or_last {A} (d j : A) (l : list A) :
  last_or d l = j -> j <> d -> last l = Some j.
Proof. unfold last_or. destruct (last l); cbn; congruence. Qed.

Lemma last_last_or {A} (d j : A) (l : list A) : last l = Some j -> last_or d l = j.
Proof. unfold last_or. by intros ->. Qed.

Lemma insertCombined_spec (a0 a : Allocator) (l1 mp mx l2 fs : list Z)
    (n size off : Z) (nd0 : Node) :
  Inv a0 (l1 ++ (mp ++ [n] ++ mx) ++ l2) fs ->
  Merged a0 a l1 mp n mx l2 fs ->
  Arr.get (m_nodes a0) n = Some nd0 -> used nd0 = true ->
  (forall o e,
     seg (m_nodes a0) (last_or NODE_UNUSED l1) o (mp ++ [n] ++ mx) (hd NODE_UNUSED l2) e ->
     off = o /\ size = e - o) ->
  last_or false (is_free (m_nodes a0) <$> l1) = false ->
  hd false (is_free (m_nodes a0) <$> l2) = false ->
  (forall j, j ∈ mp ++ mx -> is_free (m_nodes a0) j = true) ->
  exists a', freeAllocation_insertCombined a n size off = Some a'
    /\ m_maxAllocs a' = m_maxAllocs a0
    /\ Inv a' (l1 ++ [n] ++ l2) (fs ++ mp ++ mx)
    /\ others_kept a0 a' n
    /\ (exists nd', Arr.get (m_nodes a') n = Some nd' /\ used nd' = false
          /\ dataOffset nd' = dataOffset nd0 - free_total (m_nodes a0) mp
          /\ dataSize nd'
             = free_total (m_nodes a0) mp + dataSize nd0 + free_total (m_nodes a0) mx
          /\ Arr.get (m_binIndices a') (uintToFloatRoundDown (dataSize nd')) = Some n)
    /\ (MergedLedger a0 a l1 mp n mx l2 ->
          Ledger a' (l1 ++ [n] ++ l2)
          /\ m_freeStorage a'
             = free_total (m_nodes a0) (l1 ++ (mp ++ [n] ++ mx) ++ l2) + dataSize nd0).
Proof.
  intros HI HM Hn0 Hu0 Hmeasure Hleft Hright Hfree.
  pose proof (inv_size _ _ _ HI) as Hmsz.
  pose proof (Inv_nodes_lt _ _ _ HI) as Hlt.
  pose proof (inv_nodup _ _ _ HI) as Hnodup.
  apply NoDup_app in Hnodup as (HndL & HdisL & Hndfs).
  apply NoDup_app in HndL as (Hnd1 & Hdis1 & HndL).
  apply NoDup_app in HndL as (Hndm & Hdism & Hnd2).
  assert (Hnmid : n ∈ mp ++ [n] ++ mx).
  { rewrite !elem_of_app, list_elem_of_singleton. tauto. }
  assert (Hn1 : n ∉ l1).
  { intros Hin. apply (Hdis1 n Hin). rewrite elem_of_app. tauto. }
  assert (Hn2 : n ∉ l2) by (by apply Hdism).
  assert (Hnfs : n ∉ fs).
  { apply HdisL. apply elem_of_app; right. apply elem_of_app; by left. }
  assert (Hnmm : n ∉ mp ++ mx).
  { apply NoDup_app in Hndm as (_ & Hd & (Hd' & _)%NoDup_cons).
    rewrite elem_of_app. intros [Hin|Hin]; [|done].
    apply (Hd n Hin). by left. }
  pose proof (inv_chain _ _ _ HI) as Hchain.
  apply seg_app in Hchain as (m1 & Hseg1 & Hchain).
  apply seg_app in Hchain as (m2 & Hsegm & Hseg2).
  destruct (Hmeasure _ _ Hsegm) as [-> ->].
  pose proof (seg_le _ _ _ _ _ _ Hseg1) as Hle1.
  pose proof (seg_le _ _ _ _ _ _ Hsegm) as Hlem.
  pose proof (seg_le _ _ _ _ _ _ Hseg2) as Hle2.
  destruct (mg_node _ _ _ _ _ _ _ _ HM) as (nd0' & nd' & Hnd0' & Hnd' & Hu' & Hp' & Hx').
  assert (nd0' = nd0) as -> by congruence.
  pose proof (get_Some_range _ _ _ Hn0) as Hnr.
  pose proof (mg_nlen _ _ _ _ _ _ _ _ HM) as Hnlen.
  pose proof (mg_flen _ _ _ _ _ _ _ _ HM) as Hflen.
  pose proof (Inv_room _ _ _ HI) as Hroom.
  rewrite !length_app in Hroom. cbn [length] in Hroom.
  destruct (stack_push _ _ _ n (mg_stack _ _ _ _ _ _ _ _ HM)) as (FN' & Hset & Hst' & HFl).
  { rewrite Hflen. rewrite !length_app. lia. }
  unfold freeAllocation_insertCombined. rewrite Hnd'. simpl_alloc.
  rewrite Hset. simpl_alloc.
  destruct (insertNodeIntoBin_spec
              (set_freeNodes FN' (set_freeOffset (add32 (m_freeOffset a) 1) a))
              (m2 - m1) m1 (l1 ++ l2) (fs ++ mp ++ mx) n)
    as (a5 & kd & Hins & Hsz5 & Hmx5 & HFN5 & Hst5 & Hbm5 & Hbins5 & [Hgl5 Hgs5]
        & Hkd & Hko & Hks & Hkp & Hkn & Hku & Hfs5 & Hrank5); simpl_alloc.
  { apply HM. }
  { eapply bins_ok_live; [apply HM|].
    intros j nd. unfold free_in. rewrite !elem_of_app, elem_of_cons.
    split; [|tauto]. intros (Hin & Hj & Hu). split_and!; [|done|done].
    destruct Hin as [?|[->|?]]; [tauto| |tauto]. congruence. }
  { by rewrite Hnlen. }
  { done. }
  { rewrite elem_of_app. tauto. }
  { rewrite Hnlen. done. }
  { unfold is_u32 in *. lia. }
  rewrite Hins. simpl_alloc.
  assert (Hns5 : no_sentinel (m_nodes a5)).
  { apply no_sentinel_length. by rewrite Hgl5, Hnlen. }
  assert (Hvalid : forall j, j ∈ l1 ++ l2 -> j <> NODE_UNUSED /\ j <> n
                             /\ is_Some (Arr.get (m_nodes a5) j)).
  { intros j Hj.
    assert (is_Some (Arr.get (m_nodes a0) j)) as [jd Hjd].
    { apply elem_of_app in Hj as [Hj|Hj];
        [exact (seg_valid _ _ _ _ _ _ j Hseg1 Hj)|exact (seg_valid _ _ _ _ _ _ j Hseg2 Hj)]. }
    pose proof (get_Some_range _ _ _ Hjd). split_and!.
    - unfold NODE_UNUSED. lia.
    - intros ->. rewrite elem_of_app in Hj. tauto.
    - apply get_in_range. rewrite Hgl5, Hnlen. done. }
  destruct (link_stage (m_nodes a5) n (neighborNext nd') kd
              (with_neighborNext (neighborNext nd')) (with_neighborPrev n))
    as (nodes6 & HE1 & Hl6 & Hn6 & Ho6); try done.
  { rewrite Hx'. intros Heq. destruct l2 as [|x l2']; cbn in Heq.
    - unfold NODE_UNUSED in Heq. lia.
    - subst x. apply Hn2. by left. }
  { rewrite Hx'. intros Hne. destruct l2 as [|x l2']; [done|]. cbn.
    apply Hvalid. rewrite elem_of_app, elem_of_cons. tauto. }
  { intros ->. destruct kd; cbn in *. by subst. }
  rewrite HE1. simpl_alloc.
  destruct (link_stage nodes6 n (neighborPrev nd') (with_neighborNext (neighborNext nd') kd)
              (with_neighborPrev (neighborPrev nd')) (with_neighborNext n))
    as (nodes7 & HE2 & Hl7 & Hn7 & Ho7); try done.
  { apply no_sentinel_length. by rewrite Hl6, Hgl5, Hnlen. }
  { rewrite Hp'. intros Heq. destruct l1 as [|x l1' _] using rev_ind.
    - unfold last_or in Heq; cbn in Heq. unfold NODE_UNUSED in Heq. lia.
    - rewrite last_or_snoc in Heq. subst x. apply Hn1.
      rewrite elem_of_app, list_elem_of_singleton. tauto. }
  { rewrite Hp'. intros Hne. apply last_or_ne_valid in Hne as [l1' Hl1'].
    apply (get_same_length nodes6 (m_nodes a5)); [done|].
    apply Hvalid. rewrite Hl1' at 2. rewrite !elem_of_app, list_elem_of_singleton. tauto. }
  { intros ->. destruct kd; cbn in *. by subst. }
  rewrite HE2. simpl_alloc.
  eexists. split; [done|]. simpl_alloc.
  split; [rewrite Hmx5; simpl_alloc; apply HM|].
  assert (Htrace : forall j nd, j <> n -> Arr.get (m_nodes a0) j = Some nd ->
            exists nd7, Arr.get nodes7 j = Some nd7
              /\ dataOffset nd7 = dataOffset nd /\ dataSize nd7 = dataSize nd
              /\ used nd7 = used nd
              /\ neighborPrev nd7 = (if decide (j = neighborNext nd') then n else neighborPrev nd)
              /\ neighborNext nd7 = (if decide (j = neighborPrev nd') then n else neighborNext nd)).
  { intros j nd Hjn Hj.
    destruct (mg_geom _ _ _ _ _ _ _ _ HM j nd Hjn Hj) as (nda & Hnda & Hga).
    destruct (Hgs5 j nda Hjn Hnda) as (nd5 & Hnd5 & Hg5).
    pose proof (Ho6 j nd5 Hjn Hnd5) as Hj6.
    pose proof (Ho7 j _ Hjn Hj6) as Hj7.
    eexists. split; [exact Hj7|].
    destruct Hga as (? & ? & ? & ? & ?), Hg5 as (? & ? & ? & ? & ?).
    destruct (decide (j = neighborNext nd')), (decide (j = neighborPrev nd'));
      cbn; split_and!; congruence. }
  assert (Hsame7 : bin_same (m_nodes a5) nodes7).
  { split; [by rewrite Hl7, Hl6|].
    intros j nd5 Hj5. destruct (decide (j = n)) as [->|Hjn].
    - rewrite Hn7. eexists. split; [done|].
      assert (nd5 = kd) as -> by congruence. by cbn.
    - pose proof (Ho6 j nd5 Hjn Hj5) as Hj6.
      pose proof (Ho7 j _ Hjn Hj6) as Hj7.
      eexists. split; [exact Hj7|].
      destruct (decide (j = neighborNext nd')), (decide (j = neighborPrev nd')); by cbn. }
  split; [|split; [|split]].
  2:{ intros j nd Hjn Hj Hu. simpl_alloc.
      destruct (Htrace j nd Hjn Hj) as (nd7 & Hj7 & Hto & Hts & Htu & _).
      exists nd7. split_and!; congruence. }
  2:{ eexists. split; [exact Hn7|]. cbn.
      destruct (seg_at _ _ _ _ _ _ _ _ Hsegm)
        as (ndm & o & Hgm & _ & _ & Ho & HS & Ho0 & HoS & Hsmp & Hsmx).
      assert (ndm = nd0) as -> by congruence.
      rewrite (free_total_all_free _ _ _ _ _ _ Hsmp)
        by (intros j Hj; apply Hfree, elem_of_app; by left).
      rewrite (free_total_all_free _ _ _ _ _ _ Hsmx)
        by (intros j Hj; apply Hfree, elem_of_app; by right).
      split_and!; [done|lia|lia|].
      rewrite Hks. exact (insertNodeIntoBin_first _ _ _ _ _ Hins). }
  2:{ intros [Hrk Hst].
      destruct (seg_at _ _ _ _ _ _ _ _ Hsegm)
        as (ndm & o & Hgm & _ & _ & Ho & HS & Ho0 & HoS & Hsmp & Hsmx).
      assert (ndm = nd0) as -> by congruence.
      pose proof (free_total_bounds _ _ _ _ _ _ Hseg1) as Hb1.
      pose proof (free_total_bounds _ _ _ _ _ _ Hseg2) as Hb2.
      pose proof (free_total_all_free _ _ _ _ _ _ Hsmp) as Hap.
      pose proof (free_total_all_free _ _ _ _ _ _ Hsmx) as Hax.
      pose proof (free_size_used _ _ _ Hn0 Hu0) as Hfn0.
      assert (Hkeep : forall l, n ∉ l -> (forall j, j ∈ l -> is_Some (Arr.get (m_nodes a0) j)) ->
                free_total nodes7 l = free_total (m_nodes a0) l).
      { intros l Hnl Hval. apply free_total_ext. intros j Hj.
        destruct (Hval j Hj) as [nd Hjd].
        assert (Hjn : j <> n) by (intros ->; done).
        destruct (Htrace j nd Hjn Hjd) as (nd7 & Hj7 & _ & Hts & Htu & _).
        by eapply free_size_eq. }
      assert (Hn7f : free_size nodes7 n = m2 - m1).
      { erewrite free_size_free; [|exact Hn7|by cbn]. by cbn. }
      assert (Hsum : m_freeStorage a
                     = free_total (m_nodes a0) l1 + free_total (m_nodes a0) l2).
      { rewrite Hst.
        repeat first [rewrite free_total_app | rewrite free_total_cons
                     | rewrite free_total_nil].
        rewrite Hap by (intros j Hj; apply Hfree, elem_of_app; by left).
        rewrite Hax by (intros j Hj; apply Hfree, elem_of_app; by right).
        lia. }
      assert (Hfs7 : m_freeStorage a5
                     = free_total (m_nodes a0) l1 + free_total (m_nodes a0) l2 + (m2 - m1)).
      { rewrite Hfs5, Hsum. unfold add32. rewrite u32_small; [done|].
        unfold is_u32 in *. lia. }
      split; [split|]; simpl_alloc.
      - eapply rank_ok_live.
        + eapply rank_ok_frame; [|exact Hsame7]. apply Hrank5.
          eapply rank_ok_live; [exact Hrk|].
          intros j nd. unfold free_in. rewrite !elem_of_app, elem_of_cons. tauto.
        + intros j nd. unfold free_in.
          rewrite !elem_of_app, !elem_of_cons, elem_of_app, elem_of_nil. tauto.
      - rewrite Hfs7.
        repeat first [rewrite free_total_app | rewrite free_total_cons
                     | rewrite free_total_nil].
        rewrite Hn7f.
        rewrite (Hkeep l1 Hn1) by (intros j Hj; exact (seg_valid _ _ _ _ _ _ j Hseg1 Hj)).
        rewrite (Hkeep l2 Hn2) by (intros j Hj; exact (seg_valid _ _ _ _ _ _ j Hseg2 Hj)).
        lia.
      - rewrite Hfs7.
        repeat first [rewrite free_total_app | rewrite free_total_cons
                     | rewrite free_total_nil].
        rewrite Hap by (intros j Hj; apply Hfree, elem_of_app; by left).
        rewrite Hax by (intros j Hj; apply Hfree, elem_of_app; by right).
        rewrite Hfn0. lia. }
  eapply (Inv_splice a0 _ l1 (mp ++ [n] ++ mx) [n] l2 fs (fs ++ mp ++ mx) HI);
    simpl_alloc.
  - by destruct mp.
  - done.
  - rewrite Hsz5. simpl_alloc. apply HM.
  - rewrite Hmx5. simpl_alloc. apply HM.
  - by rewrite Hl7, Hl6, Hgl5.
  - rewrite HFN5. simpl_alloc. by rewrite HFl.
  - done.
  - rewrite <- !(assoc_L (++)).
    rewrite (Permutation_app_comm fs (mp ++ mx)).
    rewrite <- !(assoc_L (++)).
    by rewrite (Permutation_app_swap_app [n] mp).
  - done.
  - eapply bins_ok_live.
    + eapply bins_ok_frame; [exact Hbins5|exact Hsame7].
    + intros j nd. unfold free_in. rewrite !elem_of_app, !elem_of_cons, elem_of_app.
      rewrite elem_of_nil. tauto.
  - intros j nd Hjm Hjn Hj.
    assert (Hjn' : j <> n) by (intros ->; by apply Hjm).
    destruct (Htrace j nd Hjn' Hj) as (nd7 & Hj7 & Hto & Hts & Htu & Htp & Htn).
    pose proof (get_Some_range _ _ _ Hj) as Hjr.
    assert (Hju : j <> NODE_UNUSED) by (unfold NODE_UNUSED; lia).
    exists nd7. split_and!; try done.
    + rewrite Htp, Hx'. destruct (decide (j = hd NODE_UNUSED l2)) as [Heq|Hne].
      * rewrite decide_True; [done|]. apply (hd_head_Some NODE_UNUSED); done.
      * rewrite decide_False; [done|]. intros Hhd. apply Hne.
        symmetry. by apply head_Some_hd.
    + rewrite Htn, Hp'. destruct (decide (j = last_or NODE_UNUSED l1)) as [Heq|Hne].
      * rewrite decide_True; [done|]. by apply (last_or_last NODE_UNUSED).
      * rewrite decide_False; [done|]. intros Hla. apply Hne.
        symmetry. by apply last_last_or.
  - intros j nd7 Hjfs Hj7.
    assert (Hjn : j <> n).
    { intros ->. rewrite elem_of_app in Hjfs. tauto. }
    assert (is_Some (Arr.get (m_nodes a0) j)) as [nd Hj].
    { apply get_in_range. apply get_Some_range in Hj7.
      rewrite Hl7, Hl6, Hgl5, Hnlen in Hj7. done. }
    destruct (Htrace j nd Hjn Hj) as (nd7' & Hj7' & _ & _ & Htu & _).
    assert (nd7' = nd7) as -> by congruence. rewrite Htu.
    apply elem_of_app in Hjfs as [Hjfs|Hjfs].
    + by eapply Inv_not_used_in_stack.
    + specialize (Hfree j Hjfs). unfold is_free in Hfree. rewrite Hj in Hfree.
      by destruct (used nd).
  - intros o e Hseg. destruct (Hmeasure o e Hseg) as [Ho He].
    pose proof (seg_le _ _ _ _ _ _ Hseg).
    cbn. eexists. split; [exact Hn7|]. cbn. split_and!; try done; lia.
  - rewrite Hleft. intros Hsp. apply sparse_app in Hsp as [_ Hsp].
    cbn. split; [by intros [? _]|].
    rewrite (is_free_true _ _ _ Hn7) by (by cbn).
    eapply sparse_head; [|done]. exact Hsp.
Qed.

Lemma free_size_not_free nodes (j : Z) :
  is_free nodes j = false -> free_size nodes j = 0.
Proof.
  unfold is_free, free_size. destruct (Arr.get nodes j) as [nd|]; [|done].
  by destruct (used nd).
Qed.

Lemma is_free_sentinel (a : Allocator) (L fs : list Z) :
  Inv a L fs -> is_free (m_nodes a) NODE_UNUSED = false.
Proof.
  intros HI. unfold is_free. rewrite get_None; [done|].
  pose proof (Inv_nodes_lt _ _ _ HI). unfold NODE_UNUSED. lia.
Qed.

(** The free nodes taken out before [n]: none, or the previous neighbor
    alone. *)
Lemma merged_before (a : Allocator) (l1a mp l2 fs : list Z) (n : Z) (nd : Node) :
  Inv a (l1a ++ mp ++ n :: l2) fs -> Arr.get (m_nodes a) n = Some nd ->
  last_or false (is_free (m_nodes a) <$> l1a) = false ->
  (forall j, j ∈ mp -> is_free (m_nodes a) j = true) ->
  free_total (m_nodes a) mp = free_size (m_nodes a) (neighborPrev nd)
  /\ forall k, k ∈ mp
       <-> k = neighborPrev nd /\ k <> NODE_UNUSED /\ is_free (m_nodes a) k = true.
Proof.
  intros HI Hn Hleft Hfree.
  pose proof (is_free_sentinel a _ fs HI) as Hsent.
  assert (HI' : Inv a ((l1a ++ mp) ++ n :: l2) fs) by (by rewrite <- (assoc_L (++))).
  destruct (seg_at _ _ _ _ _ _ _ _ (inv_chain _ _ _ HI')) as (nd' & o & Hnd' & Hnp & _).
  assert (nd' = nd) as -> by congruence.
  rewrite last_or_app in Hnp.
  destruct mp as [|x [|y mp]].
  - assert (Hp : is_free (m_nodes a) (neighborPrev nd) = false).
    { rewrite Hnp. unfold last_or at 1. cbn [last default].
      destruct l1a as [|z l1a _] using rev_ind; [exact Hsent|].
      rewrite last_or_snoc. rewrite fmap_app in Hleft.
      cbn [fmap list_fmap] in Hleft. by rewrite last_or_snoc in Hleft. }
    split; [rewrite free_total_nil; symmetry; by apply free_size_not_free|].
    intros k. split; [by intros ?%elem_of_nil|]. intros (-> & _ & Hf). congruence.
  - rewrite last_or_cons in Hnp. unfold last_or in Hnp. cbn in Hnp.
    assert (Hx : is_free (m_nodes a) x = true) by (apply Hfree; by left).
    split; [rewrite free_total_cons, free_total_nil, Hnp; lia|].
    intros k. rewrite list_elem_of_singleton, Hnp. split.
    + intros ->. split_and!; [done| |done]. intros ->. congruence.
    + by intros (-> & _).
  - exfalso. pose proof (inv_sparse _ _ _ HI) as Hsp.
    rewrite fmap_app in Hsp. apply sparse_app in Hsp as [_ Hsp]. cbn in Hsp.
    destruct Hsp as (_ & Hxy & _). apply Hxy.
    split; apply Hfree; [by left|right; by left].
Qed.

(** The free nodes taken out after [n]: none, or the next neighbor
    alone. *)
Lemma merged_after (a : Allocator) (l1 mx l2b fs : list Z) (n : Z) (nd : Node) :
  Inv a (l1 ++ n :: mx ++ l2b) fs -> Arr.get (m_nodes a) n = Some nd ->
  hd false (is_free (m_nodes a) <$> l2b) = false ->
  (forall j, j ∈ mx -> is_free (m_nodes a) j = true) ->
  free_total (m_nodes a) mx = free_size (m_nodes a) (neighborNext nd)
  /\ forall k, k ∈ mx
       <-> k = neighborNext nd /\ k <> NODE_UNUSED /\ is_free (m_nodes a) k = true.
Proof.
  intros HI Hn Hright Hfree.
  pose proof (is_free_sentinel a _ fs HI) as Hsent.
  destruct (seg_at _ _ _ _ _ _ _ _ (inv_chain _ _ _ HI)) as (nd' & o & Hnd' & _ & Hnn & _).
  assert (nd' = nd) as -> by congruence.
  destruct mx as [|x [|y mx]].
  - assert (Hp : is_free (m_nodes a) (neighborNext nd) = false).
    { rewrite Hnn. cbn [app]. destruct l2b as [|z l2b]; [exact Hsent|]. exact Hright. }
    split; [rewrite free_total_nil; symmetry; by apply free_size_not_free|].
    intros k. split; [by intros ?%elem_of_nil|]. intros (-> & _ & Hf). congruence.
  - cbn in Hnn.
    assert (Hx : is_free (m_nodes a) x = true) by (apply Hfree; by left).
    split; [rewrite free_total_cons, free_total_nil, Hnn; lia|].
    intros k. rewrite list_elem_of_singleton, Hnn. split.
    + intros ->. split_and!; [done| |done]. intros ->. congruence.
    + by intros (-> & _).
  - exfalso. pose proof (inv_sparse _ _ _ HI) as Hsp.
    rewrite fmap_app in Hsp. apply sparse_app in Hsp as [_ Hsp]. cbn in Hsp.
    destruct Hsp as (_ & _ & Hxy & _). apply Hxy.
    split; apply Hfree; [by left|right; by left].
Qed.

(** [freeAllocation] of a handed-out node returns, keeps the invariant,
    never shrinks the free-slot stack, merges the node with its free
    neighbors, leaves the other handed-out nodes alone and keeps the
    books. *)
Lemma free_inv_full (a : Allocator) (al : Allocation) (L fs : list Z) :
  Inv a L fs -> node_in_use a (metadata al) ->
  exists a' L' fs',
    freeAllocation a al = Some a' /\ m_maxAllocs a' = m_maxAllocs a
    /\ Inv a' L' fs' /\ (length fs <= length fs')%nat
    /\ free_more a (metadata al) a' L L'.
Proof.
  intros HI (nd & Hnd & Hu). unfold node in Hnd.
  set (n := metadata al) in *.
  pose proof (inv_used _ _ _ HI n nd Hnd Hu) as HnL.
  apply list_elem_of_split in HnL as (l1 & l2 & ->).
  destruct (mergePrev_spec a l1 l2 fs n nd HI Hnd Hu)
    as (l1a & mp & a1 & off1 & size1 & Hmp & -> & HM1 & Hb1 & Hmeas1 & Hleft & Hfp & Hled1).
  rewrite <- (assoc_L (++)) in HI.
  destruct (mergeNext_spec a a1 l1a mp l2 fs n size1 nd HI HM1 Hnd Hb1)
    as (mx & l2b & a2 & size2 & Hmn & -> & HM2 & Hmeas2 & Hright & Hfx & Hled2).
  assert (HI' : Inv a (l1a ++ (mp ++ [n] ++ mx) ++ l2b) fs).
  { by rewrite <- !(assoc_L (++)). }
  destruct (insertCombined_spec a a2 l1a mp mx l2b fs n size2 off1 nd HI' HM2 Hnd Hu)
    as (a' & Hins & Hmax' & HI'' & Hothers & Hfreed & Hled3); try done.
  { intros o e Hseg. rewrite (assoc_L (++)) in Hseg.
    apply seg_app in Hseg as (m & Hs1 & Hs2).
    rewrite last_or_snoc in Hs2.
    destruct (Hmeas1 _ _ _ Hs1) as [-> ->].
    rewrite (Hmeas2 _ _ _ Hs2). lia. }
  { intros j [Hj|Hj]%elem_of_app; eauto. }
  destruct (merged_before a l1a mp (mx ++ l2b) fs n nd HI Hnd Hleft Hfp) as [Htp Hinp].
  assert (HI2 : Inv a ((l1a ++ mp) ++ n :: mx ++ l2b) fs).
  { by rewrite <- (assoc_L (++)). }
  destruct (merged_after a (l1a ++ mp) mx l2b fs n nd HI2 Hnd Hright Hfx) as [Htx Hinx].
  exists a', (l1a ++ [n] ++ l2b), (fs ++ mp ++ mx).
  split_and!; [|done|done|rewrite length_app; lia|].
  - unfold freeAllocation. fold n. rewrite Hnd. simpl_alloc.
    rewrite Hmp. simpl_alloc. rewrite Hmn. simpl_alloc. done.
  - split; [|split; [done|]].
    { rewrite !elem_of_app, list_elem_of_singleton. tauto. }
    intros nd1 Hnd1.
    assert (nd1 = nd) as -> by congruence.
    destruct Hfreed as (nd' & Hn' & Hu' & Ho1 & Hs1 & Hb1').
    exists nd'. rewrite <- Htp, <- Htx. split_and!; try done.
    + intros k.
      assert (Hfn : free_neighbor_of a nd k <-> k ∈ mp ++ mx).
      { unfold free_neighbor_of. rewrite elem_of_app, Hinp, Hinx. tauto. }
      rewrite Hfn.
      assert (Hperm : l1a ++ mp ++ n :: mx ++ l2b ≡ₚ (mp ++ mx) ++ l1a ++ [n] ++ l2b).
      { rewrite (Permutation_app_swap_app l1a mp).
        change (n :: mx ++ l2b) with ([n] ++ mx ++ l2b).
        rewrite (Permutation_app_swap_app [n] mx).
        rewrite (Permutation_app_swap_app l1a mx).
        by rewrite (assoc_L (++) mp mx). }
      pose proof (Inv_nodup_live _ _ _ HI) as Hnodup.
      rewrite Hperm in Hnodup. apply NoDup_app in Hnodup as (_ & Hdis & _).
      rewrite <- (assoc_L (++) l1a mp (n :: mx ++ l2b)).
      rewrite Hperm. rewrite (elem_of_app (mp ++ mx)). split.
      * intros Hk. split; [by right|]. intros Hm. by apply (Hdis k Hm).
      * intros [[Hm|Hk] Hnm]; [by destruct Hnm|done].
    + intros Hled.
      destruct (Hled3 (Hled2 (Hled1 Hled))) as [Hl' Hst'].
      split; [done|]. rewrite Hst'.
      rewrite (led_storage _ _ Hled).
      by rewrite <- !(assoc_L (++)).
Qed.

(** [freeAllocation] of a handed-out node returns, keeps the invariant
    and never shrinks the free-slot stack. *)
Lemma free_inv (a : Allocator) (al : Allocation) (L fs : list Z) :
  Inv a L fs -> node_in_use a (metadata al) ->
  exists a' L' fs',
    freeAllocation a al = Some a' /\ m_maxAllocs a' = m_maxAllocs a
    /\ Inv a' L' fs' /\ (length fs <= length fs')%nat.
Proof.
  intros HI Hu.
  destruct (free_inv_full a al L fs HI Hu) as (a' & L' & fs' & H1 & H2 & H3 & H4 & _).
  by exists a', L', fs'.
Qed.

End FreeInsert.

(** ** [resetAllocator] and [initAllocator] establish the invariant *)

Section Reset.

Lemma freeNodes_loop_length (n : nat) (i m : Z) : length (freeNodes_loop n i m) = n.
Proof. revert i. induction n as [|n IH]; intros i; cbn; [done|]. by rewrite IH. Qed.

Lemma freeNodes_loop_lookup (n : nat) (i m : Z) (j : nat) :
  (j < n)%nat ->
  freeNodes_loop n i m !! j = Some (sub32 (sub32 m (i + Z.of_nat j)) 1).
Proof.
  revert i j. induction n as [|n IH]; intros i j Hj; [lia|].
  destruct j as [|j]; cbn.
  - by rewrite Z.add_0_r.
  - rewrite IH by lia. do 3 f_equal. lia.
Qed.

Lemma freeNodes_loop_value (m : Z) (j : nat) :
  0 < m < 2 ^ 32 -> Z.of_nat j < m ->
  freeNodes_loop (Z.to_nat m) 0 m !! j = Some (m - Z.of_nat j - 1).
Proof.
  intros Hm Hj. rewrite freeNodes_loop_lookup by lia. f_equal.
  unfold sub32. rewrite (u32_small (m - _)) by (unfold is_u32; lia).
  rewrite u32_small by (unfold is_u32; lia). lia.
Qed.

Lemma freeNodes_loop_split (m : Z) :
  0 < m < 2 ^ 32 ->
  freeNodes_loop (Z.to_nat m) 0 m
  = take (Z.to_nat (m - 1)) (freeNodes_loop (Z.to_nat m) 0 m) ++ [0].
Proof.
  intros Hm. set (FN := freeNodes_loop (Z.to_nat m) 0 m).
  rewrite <- (take_drop (Z.to_nat (m - 1)) FN) at 1. f_equal.
  assert (Hlast : FN !! Z.to_nat (m - 1) = Some 0).
  { unfold FN. rewrite freeNodes_loop_value by lia. f_equal. lia. }
  rewrite (drop_S _ _ _ Hlast). f_equal. apply drop_ge.
  unfold FN. rewrite freeNodes_loop_length. lia.
Qed.

Lemma freeNodes_loop_elem (m k : Z) :
  0 < m < 2 ^ 32 ->
  k ∈ freeNodes_loop (Z.to_nat m) 0 m <-> 0 <= k < m.
Proof.
  intros Hm. rewrite list_elem_of_lookup. split.
  - intros [j Hj]. pose proof (lookup_lt_Some _ _ _ Hj) as Hlt.
    rewrite freeNodes_loop_length in Hlt.
    rewrite freeNodes_loop_value in Hj by lia. injection Hj as <-. lia.
  - intros Hk. exists (Z.to_nat (m - k - 1)).
    rewrite freeNodes_loop_value by lia. f_equal. lia.
Qed.

Lemma freeNodes_loop_NoDup (m : Z) :
  0 < m < 2 ^ 32 -> NoDup (freeNodes_loop (Z.to_nat m) 0 m).
Proof.
  intros Hm. apply NoDup_alt. intros i j x Hi Hj.
  pose proof (lookup_lt_Some _ _ _ Hi) as Hlti.
  pose proof (lookup_lt_Some _ _ _ Hj) as Hltj.
  rewrite freeNodes_loop_length in Hlti, Hltj.
  rewrite freeNodes_loop_value in Hi, Hj by lia.
  injection Hi as <-. injection Hj as Hj. lia.
Qed.

Lemma bitmap_ok_init :
  bitmap_ok 0 (replicate (Z.to_nat NUM_TOP_BINS) 0)
    (replicate (Z.to_nat NUM_LEAF_BINS) NODE_UNUSED).
Proof.
  split.
  - done.
  - by rewrite length_replicate.
  - by rewrite length_replicate.
  - intros i x. rewrite get_replicate. case_decide; [|done]. by intros [= <-].
  - intros i x. rewrite get_replicate. case_decide; [|done]. intros [= <-].
    rewrite Z.bits_0. split; done.
  - intros i j x h Hj. rewrite !get_replicate.
    case_decide; [|done]. intros [= <-]. case_decide; [|done]. intros [= <-].
    rewrite Z.bits_0. split; done.
Qed.

Lemma bins_ok_init (nodes : list Node) (n : nat) :
  bins_ok nodes (replicate n NODE_UNUSED) [].
Proof.
  split.
  - intros b h. rewrite get_replicate. case_decide; [|done]. by intros [= <-].
  - intros j nd (Hin & _). by apply elem_of_nil in Hin.
  - intros j nd (Hin & _). by apply elem_of_nil in Hin.
  - intros j nd (Hin & _). by apply elem_of_nil in Hin.
  - intros j nd (Hin & _). by apply elem_of_nil in Hin.
Qed.

Lemma resetAllocator_zero (a : Allocator) :
  m_maxAllocs a = 0 -> resetAllocator a = None.
Proof.
  intros Hm. unfold resetAllocator. cbv zeta. simpl_alloc. rewrite Hm.
  rewrite insertNodeIntoBin_empty; [done|]. simpl_alloc.
  split_and!; done.
Qed.

Lemma resetAllocator_inv (a : Allocator) :
  is_u32 (m_size a) -> 0 < m_maxAllocs a < 2 ^ 32 ->
  exists a' fs,
    resetAllocator a = Some a' /\ Inv a' [0] fs
    /\ Z.of_nat (length fs) = m_maxAllocs a - 1
    /\ m_size a' = m_size a /\ m_maxAllocs a' = m_maxAllocs a
    /\ Ledger a' [0]
    /\ m_freeStorage a' = m_size a
    /\ exists nd, Arr.get (m_nodes a') 0 = Some nd
         /\ dataOffset nd = 0 /\ dataSize nd = m_size a /\ used nd = false
         /\ neighborPrev nd = NODE_UNUSED /\ neighborNext nd = NODE_UNUSED.
Proof.
  intros Hsize Hmax. unfold resetAllocator. cbv zeta. simpl_alloc.
  set (m := m_maxAllocs a) in *.
  set (FN := freeNodes_loop (Z.to_nat m) 0 m).
  set (fs := take (Z.to_nat (m - 1)) FN).
  pose proof (freeNodes_loop_split m Hmax) as HFN. fold FN fs in HFN.
  assert (HlenFN : length FN = Z.to_nat m) by apply freeNodes_loop_length.
  assert (Hlenfs : length fs = Z.to_nat (m - 1)).
  { unfold fs. rewrite length_take. lia. }
  match goal with
  | |- context [insertNodeIntoBin ?ar _ _] =>
      destruct (insertNodeIntoBin_spec ar (m_size a) 0 [] fs 0)
        as (a' & kd & Hins & Hsz & Hmx & HFN' & Hst & Hbm & Hbins & [Hgl Hgs]
            & Hkd & Hko & Hks & Hkp & Hkn & Hku & Hfs & Hrank); simpl_alloc
  end.
  { apply bitmap_ok_init. }
  { apply bins_ok_init. }
  { rewrite length_replicate. lia. }
  { split_and!.
    - lia.
    - rewrite length_app, Hlenfs. cbn [length]. unfold sub32. f_equal. lia.
    - rewrite <- HFN. by apply take_ge. }
  { apply not_elem_of_nil. }
  { rewrite length_replicate. lia. }
  { done. }
  exists a', fs. rewrite Hins. simpl_alloc. split; [done|].
  rewrite length_replicate in Hgl.
  assert (Hfs' : m_freeStorage a' = m_size a).
  { rewrite Hfs. unfold add32. rewrite u32_small; [lia|]. unfold is_u32 in *. lia. }
  split; [|split_and!; [lia|done|done| |done|by exists kd]].
  2:{ split.
      - apply Hrank. intros n nd (Hin & _). by apply elem_of_nil in Hin.
      - rewrite Hfs', free_total_cons, free_total_nil.
        rewrite (free_size_free _ _ _ Hkd Hku), Hks. lia. }
  assert (Hnodup : NoDup (fs ++ [0])).
  { rewrite <- HFN. by apply freeNodes_loop_NoDup. }
  split.
  - by rewrite Hsz.
  - rewrite Hmx. simpl_alloc. fold m. lia.
  - rewrite Hgl, Hmx. simpl_alloc. fold m. lia.
  - rewrite HFN', Hmx. simpl_alloc. fold m. lia.
  - apply Hst.
  - apply Hst.
  - cbn [app]. apply NoDup_cons. apply NoDup_app in Hnodup as (Hn1 & Hn2 & _).
    split; [|done]. intros Hin. apply (Hn2 0 Hin). by left.
  - intros i Hi. rewrite Hmx in Hi. simpl_alloc. fold m in Hi.
    apply (freeNodes_loop_elem m i Hmax) in Hi. fold FN in Hi.
    rewrite HFN in Hi. apply elem_of_app in Hi. rewrite list_elem_of_singleton in *. tauto.
  - intros k Hk. rewrite Hmx. simpl_alloc. fold m.
    apply (freeNodes_loop_elem m k Hmax). fold FN. rewrite HFN.
    apply elem_of_app. by left.
  - rewrite Hmx. simpl_alloc. fold m. cbn [length]. lia.
  - intros i nd Hi Hu. destruct (decide (i = 0)) as [->|Hne]; [by left|].
    exfalso.
    pose proof (get_Some_range _ _ _ Hi) as Hr. rewrite Hgl in Hr.
    match type of Hgs with
    | forall j nd, _ -> Arr.get ?l j = Some nd -> _ =>
        destruct (get_in_range l i) as [nd0 Hnd0]; [by rewrite length_replicate|];
        pose proof Hnd0 as Hnd0'; rewrite get_replicate in Hnd0'
    end.
    destruct (Hgs i nd0 Hne Hnd0) as (nd' & Hnd' & _ & _ & Hu' & _).
    assert (nd' = nd) as -> by congruence.
    case_decide; [|done]. injection Hnd0' as <-. cbn in Hu'. congruence.
  - cbn. exists kd. rewrite Hsz. simpl_alloc. unfold is_u32 in Hsize.
    split_and!; try done; lia.
  - cbn. split; [by intros [? _]|done].
  - done.
  - done.
Qed.

End Reset.

(** ** Every reachable state satisfies the invariant *)

Section Reachable.

Lemma Inv_max_nonneg (a : Allocator) (L fs : list Z) : Inv a L fs -> 0 <= m_maxAllocs a.
Proof. intros HI. rewrite <- (inv_nodes_len _ _ _ HI). lia. Qed.

Lemma resetAllocator_reach (a a' : Allocator) :
  is_u32 (m_size a) -> 0 <= m_maxAllocs a < 2 ^ 32 ->
  resetAllocator a = Some a' ->
  exists fs, Inv a' [0] fs /\ Z.of_nat (length fs) = m_maxAllocs a' - 1.
Proof.
  intros Hsz Hmax Hreset.
  assert (m_maxAllocs a = 0 \/ 0 < m_maxAllocs a) as [Hz|Hpos] by lia.
  { rewrite resetAllocator_zero in Hreset by done. done. }
  destruct (resetAllocator_inv a Hsz) as (a'' & fs & Hr & HI & Hlen & _ & Hm & _); [lia|].
  assert (a'' = a') as -> by congruence.
  exists fs. split; [done|]. by rewrite Hm.
Qed.

Lemma reachable_inv (a : Allocator) :
  reachable a -> exists L fs, Inv a L fs.
Proof.
  induction 1 as [size max_allocs a Hsize Hmax Hinit
                 |a a' _ (L & fs & HI) Hreset
                 |a size res a' _ (L & fs & HI) Hsize Halloc
                 |a al a' _ (L & fs & HI) Huse Hfree].
  - unfold initAllocator in Hinit.
    destruct (resetAllocator_reach (mkAllocator size max_allocs 0 0 [] [] [] [] 0) a
                Hsize Hmax Hinit) as (fs & HI & _).
    by exists [0], fs.
  - destruct (resetAllocator_reach a a') as (fs' & HI' & _); [apply HI| |done|].
    + split; [by eapply Inv_max_nonneg|apply HI].
    + by exists [0], fs'.
  - pose proof (allocate_inv a size L fs HI Hsize) as Hpost.
    rewrite Halloc in Hpost. destruct Hpost as (_ & L' & fs' & HI' & _). eauto.
  - destruct (free_inv a al L fs HI Huse) as (a'' & L' & fs' & Hf & _ & HI' & _).
    assert (a'' = a') as -> by congruence. eauto.
Qed.

(** With at least two node slots the free-slot stack never runs empty. *)
Lemma reachable_stack (a : Allocator) :
  reachable a -> 2 <= m_maxAllocs a ->
  exists L fs, Inv a L fs /\ fs <> [].
Proof.
  induction 1 as [size max_allocs a Hsize Hmax Hinit
                 |a a' Hreach IH Hreset
                 |a size res a' Hreach IH Hsize Halloc
                 |a al a' Hreach IH Huse Hfree]; intros Htwo.
  - unfold initAllocator in Hinit.
    destruct (resetAllocator_reach (mkAllocator size max_allocs 0 0 [] [] [] [] 0) a
                Hsize Hmax Hinit) as (fs & HI & Hlen).
    exists [0], fs. split; [done|]. intros ->. cbn in Hlen. lia.
  - destruct (reachable_inv a Hreach) as (L & fs & HI).
    destruct (resetAllocator_reach a a') as (fs' & HI' & Hlen); [apply HI| |done|].
    + split; [by eapply Inv_max_nonneg|apply HI].
    + exists [0], fs'. split; [done|]. intros ->. cbn in Hlen. lia.
  - destruct (reachable_inv a Hreach) as (L0 & fs0 & HI0).
    pose proof (allocate_inv a size L0 fs0 HI0 Hsize) as Hpost.
    rewrite Halloc in Hpost. destruct Hpost as (Hm & L' & fs' & HI' & Hfs & _).
    rewrite Hm in Htwo. destruct (IH Htwo) as (L & fs & HI & Hne).
    pose proof (allocate_inv a size L fs HI Hsize) as Hpost.
    rewrite Halloc in Hpost. destruct Hpost as (_ & L2 & fs2 & HI2 & Hfs2 & _).
    exists L2, fs2. split; [done|]. by destruct Hfs2 as [->|[? _]].
  - assert (Htwo' : 2 <= m_maxAllocs a).
    { destruct (reachable_inv a Hreach) as (L0 & fs0 & HI0).
      destruct (free_inv a al L0 fs0 HI0 Huse) as (a'' & _ & _ & Hf & Hm & _).
      assert (a'' = a') as -> by congruence. by rewrite <- Hm. }
    destruct (IH Htwo') as (L & fs & HI & Hne).
    destruct (free_inv a al L fs HI Huse) as (a'' & L' & fs' & Hf & _ & HI' & Hlen).
    assert (a'' = a') as -> by congruence.
    exists L', fs'. split; [done|]. intros ->. destruct fs; [done|]. cbn in Hlen. lia.
Qed.

(** With at least two node slots [allocate] always returns. *)
Lemma allocate_total (a : Allocator) (size : Z) :
  reachable a -> 2 <= m_maxAllocs a -> is_u32 size ->
  is_Some (allocate a size).
Proof.
  intros Hreach Htwo Hsize.
  destruct (reachable_stack a Hreach Htwo) as (L & fs & HI & Hne).
  pose proof (allocate_inv a size L fs HI Hsize) as Hpost.
  destruct (allocate a size) as [r|]; [by eauto|done].
Qed.

(** A handed-out node can always be freed. *)
Lemma freeAllocation_total (a : Allocator) (al : Allocation) :
  reachable a -> node_in_use a (metadata al) -> is_Some (freeAllocation a al).
Proof.
  intros (L & fs & HI)%reachable_inv Huse.
  destruct (free_inv a al L fs HI Huse) as (a' & _ & _ & -> & _). by eexists.
Qed.

End Reachable.

(** ** What the invariant says in the words of the specification *)

Section Properties.

Lemma Inv_stack (a : Allocator) (L fs : list Z) : Inv a L fs -> stack a = fs.
Proof.
  intros HI. unfold stack. rewrite (inv_offset _ _ _ HI).
  pose proof (inv_count _ _ _ HI) as Hc. pose proof (inv_max _ _ _ HI) as Hm.
  assert (add32 (u32 (Z.of_nat (length fs) - 1)) 1 = Z.of_nat (length fs)) as ->.
  { unfold add32, u32. rewrite Z.add_mod_idemp_l by lia.
    rewrite Z.mod_small; lia. }
  rewrite Nat2Z.id. apply HI.
Qed.

Lemma Inv_live (a : Allocator) (L fs : list Z) (n : Z) :
  Inv a L fs -> n ∈ L <-> live a n.
Proof.
  intros HI. unfold live. rewrite (Inv_stack _ _ _ HI).
  pose proof (inv_nodup _ _ _ HI) as (_ & Hdis & _)%NoDup_app. split.
  - intros Hn. split; [|by apply Hdis].
    destruct (seg_valid _ _ _ _ _ _ n (inv_chain _ _ _ HI) Hn) as [nd Hnd%get_Some_range].
    by rewrite <- (inv_nodes_len _ _ _ HI).
  - intros [Hr Hnfs]. by destruct (inv_cover _ _ _ HI n Hr).
Qed.

Lemma Inv_chain_tiles (a : Allocator) (L fs : list Z) :
  Inv a L fs -> neighbor_chain_tiles a.
Proof.
  intros HI. exists L. split_and!.
  - by eapply Inv_nodup_live.
  - intros n. by eapply Inv_live.
  - apply HI.
Qed.

Lemma Inv_next_adjacent (a : Allocator) (L fs : list Z) :
  Inv a L fs -> next_is_adjacent a.
Proof.
  intros HI n nd Hlive Hnd Hnext. unfold node in *.
  apply (Inv_live _ _ _ n HI) in Hlive.
  apply list_elem_of_split in Hlive as (l1 & l2 & HL).
  pose proof (inv_chain _ _ _ HI) as Hchain. rewrite HL in Hchain.
  destruct (seg_at _ _ _ _ _ _ _ _ Hchain)
    as (nd' & o & Hnd' & _ & Hnn & Ho & _ & _ & _ & _ & Hseg2).
  assert (nd' = nd) as -> by congruence.
  destruct l2 as [|x l2]; [done|]. cbn [hd] in Hnn.
  destruct Hseg2 as (xd & Hxd & _ & Hxo & _).
  exists xd. rewrite Hnn. split_and!; [done| |lia].
  apply (Inv_live _ _ _ x HI). rewrite HL, elem_of_app, !elem_of_cons. tauto.
Qed.

Lemma Inv_no_adjacent_free (a : Allocator) (L fs : list Z) :
  Inv a L fs -> no_adjacent_free a.
Proof.
  intros HI n nd Hlive Hnd Hfree. unfold node in *.
  apply (Inv_live _ _ _ n HI) in Hlive.
  apply list_elem_of_split in Hlive as (l1 & l2 & HL).
  pose proof (inv_chain _ _ _ HI) as Hchain. rewrite HL in Hchain.
  pose proof (inv_sparse _ _ _ HI) as Hsp. rewrite HL in Hsp.
  destruct (seg_at _ _ _ _ _ _ _ _ Hchain)
    as (nd' & o & Hnd' & Hnp & Hnn & Ho & _ & _ & _ & Hseg1 & Hseg2).
  assert (nd' = nd) as -> by congruence.
  pose proof (is_free_true _ _ _ Hnd Hfree) as Hfn.
  split.
  - intros Hnext. destruct l2 as [|x l2]; [done|]. cbn [hd] in Hnn. rewrite Hnn.
    destruct Hseg2 as (xd & Hxd & _).
    exists xd. split; [done|].
    rewrite fmap_app in Hsp. apply sparse_app in Hsp as [_ Hsp].
    cbn in Hsp. destruct Hsp as (_ & Hsp & _).
    rewrite Hfn in Hsp. unfold is_free in Hsp. rewrite Hxd in Hsp.
    destruct (used xd); [done|]. cbn in Hsp. tauto.
  - intros Hprev. rewrite Hnp in Hprev |- *.
    destruct (last_or_ne_valid _ _ Hprev) as [l1' Hl1].
    set (p := last_or NODE_UNUSED l1) in *.
    destruct (seg_valid _ _ _ _ _ _ p Hseg1) as [pd Hpd].
    { rewrite Hl1. apply elem_of_app. right. by left. }
    exists pd. split; [done|].
    rewrite Hl1, <- (assoc_L (++)), fmap_app in Hsp.
    apply sparse_app in Hsp as [_ Hsp].
    cbn in Hsp. destruct Hsp as (_ & Hsp & _).
    rewrite Hfn in Hsp. unfold is_free in Hsp. rewrite Hpd in Hsp.
    destruct (used pd); [done|]. cbn in Hsp. tauto.
Qed.

Lemma Inv_bitmap_exact (a : Allocator) (L fs : list Z) :
  Inv a L fs -> bitmap_exact a.
Proof.
  intros HI. pose proof (inv_bitmap _ _ _ HI) as Hbm. split.
  - intros i Hi. destruct (bitmap_get_leaf _ _ _ i Hbm Hi) as [x Hx].
    exists x. split; [done|]. by apply (bm_top _ _ _ Hbm).
  - intros i j Hi Hj. destruct (bitmap_get_leaf _ _ _ i Hbm Hi) as [x Hx].
    destruct (bitmap_get_bin _ _ _ (i * 8 + j) Hbm) as [h Hh]; [lia|].
    exists x, h. split_and!; [done|done|].
    apply (bm_leaf _ _ _ Hbm i j x h Hj Hx).
    by replace (8 * i + j) with (i * 8 + j) by lia.
Qed.

Lemma Inv_report_defined (a : Allocator) (L fs : list Z) :
  Inv a L fs -> report_defined a.
Proof.
  intros HI. pose proof (inv_bitmap _ _ _ HI) as Hbm. split_and!.
  - apply Hbm.
  - apply Hbm.
  - apply Hbm.
  - intros i x Hx Hbit. by apply (bm_top _ _ _ Hbm i x Hx).
Qed.

(** [freeAllocation] in terms of the state alone. *)
Lemma free_merges (a : Allocator) (L fs : list Z) (al : Allocation) (nd : Node) :
  Inv a L fs -> Arr.get (m_nodes a) (metadata al) = Some nd -> used nd = true ->
  exists a' L' fs', freeAllocation a al = Some a' /\ Inv a' L' fs'
    /\ merged_free a (metadata al) nd a' /\ others_kept a a' (metadata al).
Proof.
  intros HI Hnd Hu.
  destruct (free_inv_full a al L fs HI) as (a' & L' & fs' & Hf & _ & HI' & _ & Hin & Hkept & Hn);
    [by exists nd|].
  exists a', L', fs'. split; [done|]. split; [done|]. split; [|done].
  destruct (Hn nd Hnd) as (nd' & Hnd' & Hu' & Ho & Hs & Hb & Hlive & _).
  exists nd'. split_and!; try done.
  - by apply (Inv_live a' L' fs' _ HI').
  - intros k. rewrite <- (Inv_live a' L' fs' k HI'), <- (Inv_live a L fs k HI).
    apply Hlive.
Qed.

End Properties.

(** ** The demonstration run *)

Lemma demo_fresh_reachable : reachable demo_fresh.
Proof.
  apply (reach_init 1024 8); [unfold is_u32; lia..|]. vm_compute. reflexivity.
Qed.

Lemma demo_first_reachable : reachable demo_first.2.
Proof.
  apply (reach_allocate demo_fresh 100 demo_first.1 _ demo_fresh_reachable);
    [unfold is_u32; lia|]. vm_compute. reflexivity.
Qed.

Lemma demo_second_reachable : reachable demo_second.2.
Proof.
  apply (reach_allocate demo_first.2 200 demo_second.1 _ demo_first_reachable);
    [unfold is_u32; lia|]. vm_compute. reflexivity.
Qed.

Lemma demo_freed_reachable : reachable demo_freed.
Proof.
  apply (reach_free demo_second.2 demo_first.1 _ demo_second_reachable).
  - eexists. split; vm_compute; reflexivity.
  - vm_compute. reflexivity.
Qed.

Lemma demo_merged_reachable : reachable demo_merged.
Proof.
  apply (reach_free demo_freed demo_second.1 _ demo_freed_reachable).
  - eexists. split; vm_compute; reflexivity.
  - vm_compute. reflexivity.
Qed.

Lemma two_slots_reachable : reachable two_slots.
Proof.
  apply (reach_init 1024 2); [unfold is_u32; lia..|]. vm_compute. reflexivity.
Qed.

Lemma reachable_report_defined (a : Allocator) : reachable a -> report_defined a.
Proof. intros (L & fs & HI)%reachable_inv. by eapply Inv_report_defined. Qed.

(** ** The invariants of the specification *)

(** C6: after every public operation the live nodes, in neighbor order,
    tile [[0, m_size)] without gap or overlap, and the next neighbor of a
    live node starts where the node ends. *)
Theorem chain_tiles_space (a : Allocator) :
  reachable a -> neighbor_chain_tiles a /\ next_is_adjacent a.
Proof.
  intros (L & fs & HI)%reachable_inv. split.
  - by eapply Inv_chain_tiles.
  - by eapply Inv_next_adjacent.
Qed.

Lemma chain_tiles_space_witness :
  reachable demo_merged /\ neighbor_chain_tiles demo_merged /\ next_is_adjacent demo_merged.
Proof.
  split; [exact demo_merged_reachable|].
  exact (chain_tiles_space demo_merged demo_merged_reachable).
Defined.

(** C7: after every public operation no free live node has a free
    neighbor, before it or after it; and [freeAllocation] of a handed-out
    node returns with that node free and merged with its free previous
    and next neighbors: it starts where the free previous neighbor
    started, its size is its own plus those of the free neighbors, it is
    the first node of the bin of that size, and the merged neighbors have
    left the chain. *)
Theorem no_free_neighbors (a : Allocator) :
  reachable a ->
  no_adjacent_free a
  /\ forall al nd, node a (metadata al) = Some nd -> used nd = true ->
       exists a', freeAllocation a al = Some a'
         /\ merged_free a (metadata al) nd a'
         /\ no_adjacent_free a'.
Proof.
  intros (L & fs & HI)%reachable_inv. split; [by eapply Inv_no_adjacent_free|].
  intros al nd Hnd Hu.
  destruct (free_merges a L fs al nd HI Hnd Hu) as (a' & L' & fs' & Hf & HI' & Hm & _).
  exists a'. split; [done|]. split; [done|]. by eapply Inv_no_adjacent_free.
Qed.

Lemma no_free_neighbors_witness :
  reachable demo_freed
  /\ node demo_freed (metadata demo_second.1)
     = Some (mkNode 100 200 NODE_UNUSED NODE_UNUSED 0 2 true)
  /\ free_size (m_nodes demo_freed) 0 = 100
  /\ free_size (m_nodes demo_freed) 2 = 724
  /\ freeAllocation demo_freed demo_second.1 = Some demo_merged
  /\ node demo_merged (metadata demo_second.1)
     = Some (mkNode 0 1024 NODE_UNUSED NODE_UNUSED NODE_UNUSED NODE_UNUSED false)
  /\ no_adjacent_free demo_freed
  /\ forall al nd, node demo_freed (metadata al) = Some nd -> used nd = true ->
       exists a', freeAllocation demo_freed al = Some a'
         /\ merged_free demo_freed (metadata al) nd a'
         /\ no_adjacent_free a'.
Proof.
  split; [exact demo_freed_reachable|].
  split; [vm_compute; reflexivity|]. split; [vm_compute; reflexivity|].
  split; [vm_compute; reflexivity|]. split; [vm_compute; reflexivity|].
  split; [vm_compute; reflexivity|].
  exact (no_free_neighbors demo_freed demo_freed_reachable).
Defined.

(** C8: after every public operation bit [i] of [m_usedBinsTop] is set
    exactly when [m_usedBins[i]] is not zero, and bit [j] of [m_usedBins[i]]
    exactly when bin [i * 8 + j] has a head. *)
Theorem bitmap_reflects_bins (a : Allocator) :
  reachable a -> bitmap_exact a.
Proof. intros (L & fs & HI)%reachable_inv. by eapply Inv_bitmap_exact. Qed.

Lemma bitmap_reflects_bins_witness :
  reachable demo_second.2 /\ bitmap_exact demo_second.2.
Proof.
  split; [exact demo_second_reachable|].
  exact (bitmap_reflects_bins demo_second.2 demo_second_reachable).
Defined.

(** C10: in a reachable state, an [allocate] that does not fail pops a
    free node at least as large as the request; the remainder is computed
    without wrap-around and, when positive, becomes the size of the new
    free node behind the allocation. *)
Theorem split_never_wraps (a : Allocator) (size : Z) (res : Allocation) (a' : Allocator) :
  reachable a -> is_u32 size ->
  allocate a size = Some (res, a') ->
  alloc_post a size res a'.
Proof.
  intros (L & fs & HI)%reachable_inv Hsize Halloc.
  pose proof (allocate_inv a size L fs HI Hsize) as Hpost.
  rewrite Halloc in Hpost. by destruct Hpost as (_ & _ & _ & _ & _ & Hpost).
Qed.

Lemma split_never_wraps_witness :
  reachable demo_first.2 /\ is_u32 200
  /\ allocate demo_first.2 200 = Some (demo_second.1, demo_second.2)
  /\ alloc_post demo_first.2 200 demo_second.1 demo_second.2.
Proof.
  assert (Hsize : is_u32 200) by (unfold is_u32; lia).
  assert (Halloc : allocate demo_first.2 200 = Some (demo_second.1, demo_second.2))
    by (vm_compute; reflexivity).
  split_and!; [exact demo_first_reachable|exact Hsize|exact Halloc|].
  exact (split_never_wraps _ _ _ _ demo_first_reachable Hsize Halloc).
Defined.

(** ** Single calls, on the demonstration run *)

Lemma allocate_failure_keeps_state_witness :
  pool_sized demo_fresh
  /\ allocate demo_fresh 2000 = Some (EmptyAllocation, demo_fresh)
  /\ demo_fresh = demo_fresh.
Proof.
  assert (Hpool : pool_sized demo_fresh).
  { split; [vm_compute; reflexivity|vm_compute; split; [discriminate|reflexivity]]. }
  assert (Halloc : allocate demo_fresh 2000 = Some (EmptyAllocation, demo_fresh))
    by (vm_compute; reflexivity).
  split_and!; [exact Hpool|exact Halloc|].
  exact (allocate_failure_keeps_state demo_fresh 2000 EmptyAllocation demo_fresh
           Hpool Halloc eq_refl).
Defined.

(** The report while the test [m_freeOffset > 0] of [storageReport]
    passes: in a reachable state it is the free-storage counter and the
    nominal size of the highest non-empty bin (zero without one). *)
Theorem storageReport_spec (a : Allocator) :
  reachable a ->
  m_freeOffset a > 0 ->
  storageReport a = Some (report_spec a).
Proof.
  intros Hreach Hpos. apply storageReport_positive; [|done].
  by apply reachable_report_defined.
Qed.

Lemma storageReport_spec_witness :
  reachable demo_freed /\ m_freeOffset demo_freed > 0
  /\ storageReport demo_freed = Some (report_spec demo_freed)
  /\ report_spec demo_freed = mkStorageReport 824 704.
Proof.
  assert (Hpos : m_freeOffset demo_freed > 0) by (vm_compute; reflexivity).
  split_and!; [exact demo_freed_reachable|exact Hpos| |vm_compute; reflexivity].
  exact (storageReport_spec demo_freed demo_freed_reachable Hpos).
Defined.

(** C2: [storageReport] does not give the free-storage counter and the
    size of the highest non-empty bin in every state.  Its test
    [m_freeOffset > 0], commented "Out of allocations?", fails while one
    slot is still on the free-slot stack, and then both fields are zero.
    With two node slots this is the state right after [initAllocator]:
    slot 1 is on the stack, the whole pool is free and in bin 64, and the
    report is zero.  With a single slot the stack is empty, [m_freeOffset]
    has wrapped to [0xFFFFFFFF], and the report is filled in. *)
Theorem storageReport_ignores_last_slot :
  (forall a, m_freeOffset a = 0 -> storageReport a = Some (mkStorageReport 0 0))
  /\ reachable two_slots
  /\ stack two_slots = [1]
  /\ m_freeStorage two_slots = 1024
  /\ m_usedBinsTop two_slots <> 0
  /\ storageReport two_slots = Some (mkStorageReport 0 0)
  /\ report_spec two_slots = mkStorageReport 1024 1024
  /\ storageReport two_slots <> Some (report_spec two_slots)
  /\ stack one_slot = []
  /\ m_freeOffset one_slot = 0xFFFFFFFF
  /\ storageReport one_slot = Some (mkStorageReport 1024 1024).
Proof.
  split; [exact storageReport_zero_offset|].
  split; [exact two_slots_reachable|].
  split; [vm_compute; reflexivity|].
  split; [vm_compute; reflexivity|].
  split; [vm_compute; discriminate|].
  split; [vm_compute; reflexivity|].
  split; [vm_compute; reflexivity|].
  split; [vm_compute; discriminate|].
  split; [vm_compute; reflexivity|].
  split; vm_compute; reflexivity.
Qed.

(** * Further properties of the allocator *)

(** ** Regions of live nodes *)

Section Regions.

Lemma seg_region nodes prev off l next e (n : Z) (nd : Node) :
  seg nodes prev off l next e -> n ∈ l -> Arr.get nodes n = Some nd ->
  off <= dataOffset nd /\ 0 <= dataSize nd /\ dataOffset nd + dataSize nd <= e.
Proof.
  intros Hseg (l1 & l2 & ->)%list_elem_of_split Hnd.
  destruct (seg_at _ _ _ _ _ _ _ _ Hseg) as (nd' & mid & Hnd' & _ & _ & Ho & Hs & ? & ? & _).
  assert (nd' = nd) as -> by congruence. lia.
Qed.

(** In a chain, a node that comes later starts at or after the end of
    a node that comes earlier. *)
Lemma seg_before nodes prev off l1 l2 next e (n m : Z) (nd md : Node) :
  seg nodes prev off (l1 ++ n :: l2) next e -> m ∈ l2 ->
  Arr.get nodes n = Some nd -> Arr.get nodes m = Some md ->
  dataOffset nd + dataSize nd <= dataOffset md.
Proof.
  intros Hseg Hm Hnd Hmd.
  destruct (seg_at _ _ _ _ _ _ _ _ Hseg)
    as (nd' & mid & Hnd' & _ & _ & Ho & _ & _ & _ & _ & Hseg2).
  assert (nd' = nd) as -> by congruence.
  destruct (seg_region _ _ _ _ _ _ m md Hseg2 Hm Hmd). lia.
Qed.

Lemma Inv_region (a : Allocator) (L fs : list Z) (n : Z) (nd : Node) :
  Inv a L fs -> n ∈ L -> Arr.get (m_nodes a) n = Some nd -> region_in_space a nd.
Proof.
  intros HI Hn Hnd.
  destruct (seg_region _ _ _ _ _ _ n nd (inv_chain _ _ _ HI) Hn Hnd) as (? & ? & ?).
  unfold region_in_space. lia.
Qed.

Lemma Inv_apart (a : Allocator) (L fs : list Z) (n m : Z) (nd md : Node) :
  Inv a L fs -> n ∈ L -> m ∈ L -> n <> m ->
  Arr.get (m_nodes a) n = Some nd -> Arr.get (m_nodes a) m = Some md ->
  regions_apart nd md.
Proof.
  intros HI Hn Hm Hne Hnd Hmd.
  pose proof (inv_chain _ _ _ HI) as Hchain.
  apply list_elem_of_split in Hn as (l1 & l2 & HL). rewrite HL in Hm, Hchain.
  apply elem_of_app in Hm as [Hm|Hm].
  - right. apply list_elem_of_split in Hm as (l1a & l1b & Hl1).
    rewrite Hl1, <- (assoc_L (++)) in Hchain. cbn [app] in Hchain.
    eapply (seg_before _ _ _ _ _ _ _ m n md nd Hchain); [|done|done].
    apply elem_of_app. right. by left.
  - left. apply elem_of_cons in Hm as [->|Hm]; [done|].
    by eapply (seg_before _ _ _ _ _ _ _ n m nd md Hchain).
Qed.

Lemma Inv_chain_nonempty (a : Allocator) (L fs : list Z) :
  Inv a L fs -> 0 < m_size a -> L <> [].
Proof.
  intros HI Hpos ->. pose proof (inv_chain _ _ _ HI) as Hc. cbn in Hc. lia.
Qed.

Lemma Inv_all_free_single (a : Allocator) (L fs : list Z) :
  Inv a L fs -> 0 < m_size a -> nothing_in_use a ->
  exists n nd, L = [n] /\ Arr.get (m_nodes a) n = Some nd
    /\ dataOffset nd = 0 /\ dataSize nd = m_size a /\ used nd = false.
Proof.
  intros HI Hpos Hfree.
  pose proof (Inv_chain_nonempty _ _ _ HI Hpos) as Hne.
  destruct L as [|n L]; [done|].
  pose proof (inv_chain _ _ _ HI) as Hchain.
  destruct Hchain as (nd & Hnd & _ & Ho & _ & _ & Hrest).
  assert (Hlive : forall k, k ∈ n :: L -> live a k).
  { intros k Hk. by apply (Inv_live _ _ _ k HI). }
  assert (Hun : used nd = false).
  { apply (Hfree n nd); [apply Hlive; by left|done]. }
  destruct L as [|m L].
  { exists n, nd. cbn in Hrest. split_and!; try done; lia. }
  exfalso. destruct Hrest as (md & Hmd & _).
  assert (Hum : used md = false).
  { apply (Hfree m md); [apply Hlive; right; by left|done]. }
  pose proof (inv_sparse _ _ _ HI) as Hsp. cbn in Hsp.
  destruct Hsp as (_ & Hsp & _). apply Hsp.
  split; by eapply is_free_true.
Qed.

End Regions.

(** ** The books of every reachable state *)

Section Books.

Lemma reachable_books (a : Allocator) :
  reachable a -> exists L fs, Inv a L fs /\ Ledger a L.
Proof.
  induction 1 as [size max_allocs a Hsize Hmax Hinit
                 |a a' _ (L & fs & HI & HL) Hreset
                 |a size res a' _ (L & fs & HI & HL) Hsize Halloc
                 |a al a' _ (L & fs & HI & HL) Huse Hfree].
  - unfold initAllocator in Hinit.
    assert (max_allocs = 0 \/ 0 < max_allocs) as [->|Hpos] by (unfold is_u32 in *; lia).
    { by rewrite resetAllocator_zero in Hinit. }
    destruct (resetAllocator_inv (mkAllocator size max_allocs 0 0 [] [] [] [] 0))
      as (a'' & fs & Hr & HI & _ & _ & _ & HL & _); [done|simpl_alloc; unfold is_u32 in *; lia|].
    assert (a'' = a) as -> by congruence. by exists [0], fs.
  - pose proof (Inv_max_nonneg _ _ _ HI) as Hnn.
    assert (m_maxAllocs a = 0 \/ 0 < m_maxAllocs a) as [Hz|Hpos] by lia.
    { by rewrite resetAllocator_zero in Hreset. }
    destruct (resetAllocator_inv a) as (a'' & fs' & Hr & HI' & _ & _ & _ & HL' & _);
      [apply HI|split; [done|apply HI]|].
    assert (a'' = a') as -> by congruence. by exists [0], fs'.
  - pose proof (allocate_inv_full a size L fs HI Hsize) as Hpost.
    rewrite Halloc in Hpost.
    destruct Hpost as (_ & L' & fs' & HI' & _ & _ & _ & _ & _ & Hled).
    exists L', fs'. split; [done|]. by apply Hled.
  - destruct (free_inv_full a al L fs HI Huse)
      as (a'' & L' & fs' & Hf & _ & HI' & _ & _ & _ & Hfm).
    assert (a'' = a') as -> by congruence.
    destruct Huse as (nd & Hnd & Hu).
    destruct (Hfm nd Hnd) as (nd' & _ & _ & _ & _ & _ & _ & Hled).
    exists L', fs'. split; [done|]. by apply Hled.
Qed.

Lemma free_total_perm nodes (l l' : list Z) :
  l ≡ₚ l' -> free_total nodes l = free_total nodes l'.
Proof.
  induction 1 as [|x l l' _ IH|x y l|l l' l'' _ IH1 _ IH2].
  - done.
  - by rewrite !free_total_cons, IH.
  - rewrite !free_total_cons. lia.
  - congruence.
Qed.

Lemma live_nodes_spec (a : Allocator) (n : Z) : n ∈ live_nodes a <-> live a n.
Proof.
  unfold live_nodes, live. rewrite list_elem_of_filter, elem_of_seqZ. tauto.
Qed.

Lemma live_nodes_NoDup (a : Allocator) : NoDup (live_nodes a).
Proof. apply NoDup_filter, NoDup_seqZ. Qed.

Lemma Inv_live_nodes (a : Allocator) (L fs : list Z) : Inv a L fs -> live_nodes a ≡ₚ L.
Proof.
  intros HI. apply NoDup_Permutation.
  - apply live_nodes_NoDup.
  - by eapply Inv_nodup_live.
  - intros n. rewrite live_nodes_spec. symmetry. by eapply Inv_live.
Qed.

Lemma reachable_free_space (a : Allocator) :
  reachable a -> m_freeStorage a = free_space a.
Proof.
  intros (L & fs & HI & HL)%reachable_books.
  rewrite (led_storage _ _ HL). unfold free_space.
  symmetry. apply free_total_perm. by eapply Inv_live_nodes.
Qed.

End Books.

(** ** The bitmap search finds the lowest fitting bin *)

Section LowestBin.

Lemma findLowestSetBitAfter_lowest (mask start : Z) :
  is_u32 mask -> 0 <= start < 32 ->
  let r := findLowestSetBitAfter mask start in
  (r = NO_SPACE /\ forall i, start <= i < 32 -> Z.testbit mask i = false)
  \/ (start <= r < 32 /\ Z.testbit mask r = true
      /\ forall i, start <= i < r -> Z.testbit mask i = false).
Proof.
  intros Hm Hs. cbn zeta. unfold findLowestSetBitAfter.
  rewrite mask_before by done.
  set (after := Z.land mask (not32 (Z.ones start))).
  assert (Hbits : forall i, start <= i < 32 -> Z.testbit after i = Z.testbit mask i).
  { intros i Hi. unfold after, not32.
    rewrite Z.land_spec, testbit_u32, Z.lnot_spec by lia.
    rewrite Z.ones_spec_high by lia. cbn. by rewrite andb_true_r. }
  destruct (Z.eqb_spec after 0) as [Hz|Hne].
  - left. split; [done|]. intros i Hi. rewrite <- Hbits by done.
    rewrite Hz. apply Z.bits_0.
  - right.
    assert (is_u32 after) as Hu.
    { apply land_is_u32; [done|]. unfold not32. apply is_u32_u32. }
    destruct (tzcnt_spec after Hu Hne) as (Hr & Hbit & Hlow).
    set (r := tzcnt_nonzero after) in *.
    assert (Hsr : start <= r).
    { destruct (decide (start <= r)) as [|Hlt]; [done|]. exfalso.
      unfold after, not32 in Hbit.
      rewrite Z.land_spec, testbit_u32, Z.lnot_spec in Hbit by lia.
      rewrite Z.ones_spec_low in Hbit by lia.
      cbn in Hbit. by rewrite andb_false_r in Hbit. }
    split; [lia|]. split; [by rewrite <- Hbits by lia|].
    intros i Hi. rewrite <- Hbits by lia. apply Hlow. lia.
Qed.

Lemma land_bit_zero (x i : Z) :
  0 <= i < 32 -> Z.land x (shl32 1 i) = 0 -> Z.testbit x i = false.
Proof.
  intros Hi Hz. unfold shl32 in Hz. rewrite u32_small in Hz.
  - assert (Hb : Z.testbit (Z.land x (Z.shiftl 1 i)) i = false) by (rewrite Hz; apply Z.bits_0).
    rewrite Z.land_spec, testbit_one_shl, Z.eqb_refl, andb_true_r in Hb by lia. done.
  - rewrite Z.shiftl_mul_pow2, Z.mul_1_l by lia.
    split; [pose proof (Z.pow_pos_nonneg 2 i); lia|].
    apply Z.pow_lt_mono_r; lia.
Qed.

(** Under the bitmap invariant a bin has a first node exactly when its
    leaf bit is set. *)
Lemma bin_nonempty_bit (a : Allocator) (t l x : Z) :
  bitmap_ok (m_usedBinsTop a) (m_usedBins a) (m_binIndices a) ->
  0 <= t < 32 -> 0 <= l < 8 -> Arr.get (m_usedBins a) t = Some x ->
  bin_nonempty a (8 * t + l) <-> Z.testbit x l = true.
Proof.
  intros Hbm Ht Hl Hx.
  destruct (bitmap_get_bin _ _ _ (8 * t + l) Hbm) as [h Hh]; [lia|].
  rewrite (bm_leaf _ _ _ Hbm t l x h Hl Hx Hh). unfold bin_nonempty. split.
  - intros (h' & Hh' & Hne). congruence.
  - intros Hne. by exists h.
Qed.

Lemma bin_empty_top (a : Allocator) (t l : Z) :
  bitmap_ok (m_usedBinsTop a) (m_usedBins a) (m_binIndices a) ->
  0 <= t < 32 -> 0 <= l < 8 -> Z.testbit (m_usedBinsTop a) t = false ->
  ~ bin_nonempty a (8 * t + l).
Proof.
  intros Hbm Ht Hl Htop.
  destruct (bitmap_get_leaf _ _ _ t Hbm) as [x Hx]; [lia|].
  rewrite (bin_nonempty_bit a t l x) by done.
  assert (x = 0) as ->.
  { destruct (decide (x = 0)) as [|Hne]; [done|].
    apply (bm_top _ _ _ Hbm t x Hx) in Hne. congruence. }
  by rewrite Z.bits_0.
Qed.

(** The search returns the lowest non-empty bin at or above the round-up
    index of the request, and reports no space only when there is none. *)
Lemma allocate_findBin_lowest (a : Allocator) (size : Z) :
  bitmap_ok (m_usedBinsTop a) (m_usedBins a) (m_binIndices a) ->
  is_u32 size ->
  exists found, allocate_findBin a size = Some found
    /\ match found with
       | None =>
           forall b, uintToFloatRoundUp size <= b < 256 -> ~ bin_nonempty a b
       | Some (t, l) =>
           0 <= t < 32 /\ 0 <= l < 8
           /\ uintToFloatRoundUp size <= 8 * t + l
           /\ bin_nonempty a (8 * t + l)
           /\ forall b, uintToFloatRoundUp size <= b < 8 * t + l -> ~ bin_nonempty a b
       end.
Proof.
  intros Hbm Hsize.
  pose proof (uintToFloatRoundUp_range size Hsize) as Hmin.
  destruct (bin_split (uintToFloatRoundUp size)) as (Ht & Hl & Hbtl); [lia|].
  cbn zeta in Ht, Hl, Hbtl.
  unfold allocate_findBin. cbv zeta.
  set (minBin := uintToFloatRoundUp size) in *.
  set (mt := Z.shiftr minBin TOP_BINS_INDEX_SHIFT) in *.
  set (ml := Z.land minBin LEAF_BINS_INDEX_MASK) in *.
  assert (Hmt : mt <= 30) by lia.
  assert (Hsplit : forall b, 0 <= b < 256 ->
            exists t l, b = 8 * t + l /\ 0 <= t < 32 /\ 0 <= l < 8).
  { intros b Hb. exists (b / 8), (b mod 8).
    pose proof (Z.div_mod b 8 ltac:(lia)).
    pose proof (Z.mod_pos_bound b 8 ltac:(lia)).
    split; [lia|]. split; [|lia].
    split; [apply Z.div_pos; lia|apply Z.div_lt_upper_bound; lia]. }
  (* the search from the next top bin on, when top bin [mt] has nothing *)
  assert (Hnext :
    (forall b, minBin <= b < 8 * (mt + 1) -> ~ bin_nonempty a b) ->
    exists found,
      (let topBinIndex := findLowestSetBitAfter (m_usedBinsTop a) (add32 mt 1) in
       if decide (topBinIndex = NO_SPACE) then Some None
       else leafMask ← Arr.get (m_usedBins a) topBinIndex;
            Some (Some (topBinIndex, tzcnt_nonzero leafMask))) = Some found
      /\ match found with
         | None => forall b, minBin <= b < 256 -> ~ bin_nonempty a b
         | Some (t, l) =>
             0 <= t < 32 /\ 0 <= l < 8 /\ minBin <= 8 * t + l
             /\ bin_nonempty a (8 * t + l)
             /\ forall b, minBin <= b < 8 * t + l -> ~ bin_nonempty a b
         end).
  { intros Hlow. cbv zeta. unfold add32. rewrite u32_small by lia.
    destruct (findLowestSetBitAfter_lowest (m_usedBinsTop a) (mt + 1))
      as [[-> Hnone]|(Hr & Hbit & Hbelow)]; [by destruct Hbm|lia| |].
    - rewrite decide_True by done. exists None. split; [done|].
      intros b Hb. destruct (decide (b < 8 * (mt + 1))) as [|Hge]; [apply Hlow; lia|].
      destruct (Hsplit b) as (t & l & -> & Ht' & Hl'); [lia|].
      apply bin_empty_top; try done. apply Hnone. lia.
    - set (t := findLowestSetBitAfter (m_usedBinsTop a) (mt + 1)) in *.
      rewrite decide_False by (unfold NO_SPACE; lia).
      destruct (bitmap_get_leaf _ _ _ t Hbm) as [x Hx]; [lia|].
      rewrite Hx. simpl_alloc.
      pose proof (bm_leaf_range _ _ _ Hbm t x Hx) as Hx8.
      assert (x <> 0) as Hx0 by (by apply (bm_top _ _ _ Hbm t x Hx)).
      destruct (tzcnt_spec x) as (Hl' & Hbl & Hbelow'); [unfold is_u8 in Hx8; lia|done|].
      pose proof (u8_bit_range x (tzcnt_nonzero x) Hx8 ltac:(lia) Hbl).
      eexists. split; [done|]. cbv beta iota. split_and!; try lia.
      + apply (bin_nonempty_bit a t _ x); [done|lia|lia|done|done].
      + intros b Hb. destruct (decide (b < 8 * (mt + 1))) as [|Hge]; [apply Hlow; lia|].
        destruct (Hsplit b) as (t' & l' & -> & Ht' & Hl''); [lia|].
        destruct (decide (t' = t)) as [->|Hne].
        * rewrite (bin_nonempty_bit a t l' x) by (done || lia).
          rewrite Hbelow' by lia. done.
        * apply bin_empty_top; try done. apply Hbelow. lia. }
  destruct (decide (Z.land (m_usedBinsTop a) (shl32 1 mt) <> 0)) as [Htop|Htop].
  - apply land_bit_nonzero in Htop; [|lia].
    destruct (bitmap_get_leaf _ _ _ mt Hbm) as [x Hx]; [lia|].
    rewrite Hx. simpl_alloc.
    pose proof (bm_leaf_range _ _ _ Hbm mt x Hx) as Hx8.
    destruct (findLowestSetBitAfter_lowest x ml) as [[Hr Hnone]|(Hr & Hbit & Hbelow)];
      [unfold is_u8, is_u32 in *; lia|lia| |].
    + rewrite Hr. rewrite decide_True by done. apply Hnext.
      intros b Hb. destruct (Hsplit b) as (t' & l' & -> & Ht' & Hl'); [lia|].
      assert (t' = mt) as -> by lia.
      rewrite (bin_nonempty_bit a mt l' x) by (done || lia).
      rewrite Hnone by lia. done.
    + rewrite decide_False by (unfold NO_SPACE; lia).
      pose proof (u8_bit_range x (findLowestSetBitAfter x ml) Hx8 ltac:(lia) Hbit).
      eexists. split; [done|]. cbv beta iota. split_and!; try lia.
      * apply (bin_nonempty_bit a mt _ x); [done|lia|lia|done|done].
      * intros b Hb. destruct (Hsplit b) as (t' & l' & -> & Ht' & Hl'); [lia|].
        assert (t' = mt) as -> by lia.
        rewrite (bin_nonempty_bit a mt l' x) by (done || lia).
        rewrite Hbelow by lia. done.
  - simpl_alloc. rewrite decide_True by done. apply Hnext.
    intros b Hb. destruct (Hsplit b) as (t' & l' & -> & Ht' & Hl'); [lia|].
    assert (t' = mt) as -> by lia.
    apply bin_empty_top; try done. apply land_bit_zero; [lia|].
    destruct (decide (Z.land (m_usedBinsTop a) (shl32 1 mt) = 0)); [done|tauto].
Qed.

End LowestBin.

(** ** The bin lists, as [storageReportFull] walks them *)

Section BinWalk.

Context (nodes : list Node) (bi L : list Z).
Hypothesis Hbins : bins_ok nodes bi L.
Hypothesis Hval : no_sentinel nodes.

Lemma bin_rank_fun (n : Z) (k k' : nat) :
  bin_rank nodes n k -> bin_rank nodes n k' -> k = k'.
Proof.
  intros Hk. revert k'. induction Hk as [n nd Hn Hp|n nd k Hn Hp _ IH]; intros k' Hk'.
  - destruct k' as [|k']; [done|].
    by destruct (bin_rank_S_inv _ _ _ _ Hk' Hn).
  - destruct k' as [|k'].
    + by pose proof (bin_rank_0_inv _ _ _ Hk' Hn).
    + destruct (bin_rank_S_inv _ _ _ _ Hk' Hn) as [_ Hr]. f_equal. by apply IH.
Qed.

(** The nodes before a node of rank [k] on its bin list. *)
Lemma rank_chain (k : nat) (n : Z) (nd : Node) :
  free_in nodes L n nd -> bin_rank nodes n k ->
  exists l, length l = S k /\ NoDup l
    /\ forall x, x ∈ l -> x ∈ L /\ exists j, (j <= k)%nat /\ bin_rank nodes x j.
Proof.
  revert n nd. induction k as [|k IH]; intros n nd Hf Hk.
  - exists [n]. split_and!; [done|apply NoDup_singleton|].
    intros x ->%list_elem_of_singleton. split; [apply Hf|]. by exists 0%nat.
  - pose proof Hf as (_ & Hn & _).
    destruct (bin_rank_S_inv _ _ _ _ Hk Hn) as [Hp Hr].
    destruct (bins_prev _ _ _ Hbins n nd Hf Hp) as (pd & Hpf & _).
    destruct (IH _ _ Hpf Hr) as (l & Hlen & Hnd & Hl).
    exists (n :: l). split_and!.
    + cbn. by rewrite Hlen.
    + apply NoDup_cons. split; [|done]. intros Hin.
      destruct (Hl n Hin) as (_ & j & Hj & Hrj).
      pose proof (bin_rank_fun _ _ _ Hk Hrj). lia.
    + intros x [->|Hx]%elem_of_cons.
      * split; [apply Hf|]. by exists (S k).
      * destruct (Hl x Hx) as (HxL & j & Hj & Hrj). split; [done|].
        exists j. split; [lia|done].
Qed.

Lemma rank_bound (k : nat) (n : Z) (nd : Node) :
  free_in nodes L n nd -> bin_rank nodes n k -> (k < length L)%nat.
Proof.
  intros Hf Hk. destruct (rank_chain k n nd Hf Hk) as (l & Hlen & Hnd & Hl).
  assert (l ⊆+ L) as Hsub%submseteq_length; [|lia].
  apply NoDup_submseteq; [done|]. intros x Hx. by apply Hl.
Qed.

(** From a free node on, the bin list ends, within the number of live
    nodes; it only holds free nodes of the same bin. *)
Lemma bin_list_exists (d k : nat) (n : Z) (nd : Node) :
  free_in nodes L n nd -> bin_rank nodes n k -> (length L - k <= d)%nat ->
  exists l, bin_list nodes n l /\ NoDup l /\ (length l <= d)%nat
    /\ forall m, m ∈ l ->
         exists md j, free_in nodes L m md /\ bin_of md = bin_of nd
           /\ bin_rank nodes m j /\ (k <= j)%nat.
Proof.
  revert k n nd. induction d as [|d IH]; intros k n nd Hf Hk Hd.
  { pose proof (rank_bound k n nd Hf Hk). lia. }
  pose proof Hf as (_ & Hn & _).
  pose proof (Hval _ _ Hn) as Hnu.
  destruct (decide (binListNext nd = NODE_UNUSED)) as [Hx|Hx].
  - exists [n]. split_and!.
    + eapply bin_list_step; [done|done|]. rewrite Hx. constructor.
    + apply NoDup_singleton.
    + cbn. lia.
    + intros m ->%list_elem_of_singleton. by exists nd, k.
  - destruct (bins_next _ _ _ Hbins n nd Hf Hx) as (xd & Hxf & Hxp & Hxb).
    pose proof Hxf as (_ & Hxn & _).
    assert (Hxk : bin_rank nodes (binListNext nd) (S k)).
    { eapply rank_next; [done|by rewrite Hxp|by rewrite Hxp]. }
    destruct (IH (S k) _ xd Hxf Hxk) as (l & Hl & Hnd & Hlen & Hall); [lia|].
    exists (n :: l). split_and!.
    + by eapply bin_list_step.
    + apply NoDup_cons. split; [|done]. intros Hin.
      destruct (Hall n Hin) as (md & j & _ & _ & Hrj & Hj).
      pose proof (bin_rank_fun _ _ _ Hk Hrj). lia.
    + cbn. lia.
    + intros m [->|Hm]%elem_of_cons; [by exists nd, k|].
      destruct (Hall m Hm) as (md & j & Hmf & Hmb & Hrj & Hj).
      exists md, j. split_and!; [done|congruence|done|lia].
Qed.

Lemma bin_list_fun (n : Z) (l l' : list Z) :
  bin_list nodes n l -> bin_list nodes n l' -> l = l'.
Proof.
  intros Hl. revert l'. induction Hl as [|n nd l Hnu Hn _ IH]; intros l' Hl'.
  - inversion Hl'; [done|congruence].
  - inversion Hl' as [|n' nd' l2 _ Hn' Hl2]; [congruence|]. subst.
    assert (nd' = nd) as -> by congruence. f_equal. by apply IH.
Qed.

Lemma bin_list_closed (n p : Z) (pd : Node) (l : list Z) :
  bin_list nodes n l -> p ∈ l -> Arr.get nodes p = Some pd ->
  binListNext pd <> NODE_UNUSED -> binListNext pd ∈ l.
Proof.
  intros Hl. induction Hl as [|n nd l Hnu Hn Hrest IH]; intros Hp Hpd Hx.
  - by apply elem_of_nil in Hp.
  - apply elem_of_cons in Hp as [->|Hp].
    + assert (pd = nd) as -> by congruence. right.
      inversion Hrest; [congruence|]. by left.
    + right. by apply IH.
Qed.

(** Every free node is on the list that starts at the first node of
    its bin. *)
Lemma bin_list_complete (j : nat) (m h : Z) (md : Node) (l : list Z) :
  free_in nodes L m md -> bin_rank nodes m j ->
  Arr.get bi (bin_of md) = Some h -> bin_list nodes h l -> m ∈ l.
Proof.
  revert m md. induction j as [|j IH]; intros m md Hf Hj Hh Hl;
    pose proof Hf as (_ & Hm & _).
  - pose proof (bin_rank_0_inv _ _ _ Hj Hm) as Hp.
    pose proof (bins_first _ _ _ Hbins m md Hf Hp) as Hfirst.
    assert (h = m) as -> by congruence.
    inversion Hl; [by pose proof (Hval _ _ Hm)|]. by left.
  - destruct (bin_rank_S_inv _ _ _ _ Hj Hm) as [Hp Hr].
    destruct (bins_prev _ _ _ Hbins m md Hf Hp) as (pd & Hpf & Hpx).
    pose proof Hpf as (_ & Hpn & _).
    pose proof (Hval _ _ Hm) as Hmu.
    destruct (bins_next _ _ _ Hbins _ pd Hpf) as (xd & Hxf & _ & Hxb);
      [by rewrite Hpx|].
    rewrite Hpx in Hxf. destruct Hxf as (_ & Hxm & _).
    assert (xd = md) as -> by congruence.
    assert (Hpin : binListPrev md ∈ l).
    { eapply (IH _ pd); [done|done| |done]. by rewrite <- Hxb. }
    rewrite <- Hpx. eapply bin_list_closed; [done|done|done|].
    by rewrite Hpx.
Qed.

Lemma binCount_list (n : Z) (l : list Z) (fuel : nat) (c : Z) :
  bin_list nodes n l -> (length l <= fuel)%nat ->
  0 <= c -> c + Z.of_nat (length l) < 2 ^ 32 ->
  binCount fuel nodes n c = Some (c + Z.of_nat (length l)).
Proof.
  intros Hl. revert fuel c. induction Hl as [|n nd l Hnu Hn _ IH]; intros fuel c Hf Hc Hb.
  - destruct fuel; cbn; rewrite decide_True by done; f_equal; lia.
  - destruct fuel as [|fuel]; [cbn in Hf; lia|].
    cbn [binCount]. rewrite decide_False by done. rewrite Hn. cbn [mbind option_bind].
    cbn [length] in *. unfold add32. rewrite u32_small by lia.
    rewrite IH by lia. f_equal. lia.
Qed.

End BinWalk.

Section FullReport.

Lemma mapM_total {A B} (f : A -> option B) (g : A -> B) (l : list A) :
  (forall x, x ∈ l -> f x = Some (g x)) -> mapM f l = Some (g <$> l).
Proof.
  induction l as [|x l IH]; intros H; [done|].
  cbn. rewrite (H x) by (by left). cbn.
  rewrite IH by (intros y Hy; apply H; by right). done.
Qed.

Lemma regions_in_bin_spec (a : Allocator) (L fs : list Z) (b n : Z) :
  Inv a L fs ->
  n ∈ regions_in_bin a b <->
  exists nd, free_in (m_nodes a) L n nd /\ bin_of nd = b.
Proof.
  intros HI. unfold regions_in_bin. rewrite list_elem_of_filter, live_nodes_spec.
  rewrite <- (Inv_live a L fs n HI). unfold free_in, is_free. split.
  - intros [[Hfree Hbin] HnL].
    destruct (Arr.get (m_nodes a) n) as [nd|]; [|done].
    exists nd. cbn in Hbin. split_and!; try done; [by destruct (used nd)|congruence].
  - intros (nd & (HnL & Hn & Hu) & Hb). rewrite Hn. cbn.
    split; [|done]. split; [by rewrite Hu|by rewrite Hb].
Qed.

(** The loop of [storageReportFull] ends on every bin, with the number
    of free live nodes of the bin. *)
Lemma binCount_bin (a : Allocator) (L fs : list Z) (b : Z) (fuel : nat) :
  Inv a L fs -> Ledger a L -> 0 <= b < 256 ->
  (Z.to_nat (m_maxAllocs a) <= fuel)%nat ->
  exists h, Arr.get (m_binIndices a) b = Some h
    /\ binCount fuel (m_nodes a) h 0
       = Some (Z.of_nat (length (regions_in_bin a b))).
Proof.
  intros HI HL Hb Hfuel.
  pose proof (inv_bins _ _ _ HI) as Hbins.
  pose proof (no_sentinel_length _ (Inv_nodes_lt _ _ _ HI)) as Hval.
  pose proof (led_rank _ _ HL) as Hrank.
  destruct (bitmap_get_bin _ _ _ b (inv_bitmap _ _ _ HI)) as [h Hh]; [done|].
  exists h. split; [done|].
  assert (HlenL : Z.of_nat (length L) <= m_maxAllocs a).
  { pose proof (inv_count _ _ _ HI). lia. }
  pose proof (inv_max _ _ _ HI) as Hmax.
  assert (Hnd : NoDup (regions_in_bin a b)).
  { apply NoDup_filter, live_nodes_NoDup. }
  destruct (decide (h = NODE_UNUSED)) as [->|Hne].
  - assert (regions_in_bin a b = []) as ->.
    { apply elem_of_nil_inv. intros n Hn.
      apply (regions_in_bin_spec a L fs b n HI) in Hn as (nd & Hf & Hbn).
      destruct (rank_bin_nonempty _ _ _ n nd Hbins Hval Hrank Hf) as (h' & Hh' & Hne').
      rewrite Hbn in Hh'. congruence. }
    destruct fuel; cbn; by rewrite decide_True.
  - destruct (bins_head _ _ _ Hbins b h Hh Hne) as (hd & Hhf & Hhp & Hhb).
    pose proof Hhf as (_ & Hhn & _).
    assert (Hh0 : bin_rank (m_nodes a) h 0) by (by eapply rank_head).
    destruct (bin_list_exists (m_nodes a) (m_binIndices a) L Hbins Hval
                (length L) 0 h hd Hhf Hh0) as (l & Hl & Hlnd & Hlen & Hall); [lia|].
    assert (Hperm : l ≡ₚ regions_in_bin a b).
    { apply NoDup_Permutation; [done|done|]. intros m.
      rewrite (regions_in_bin_spec a L fs b m HI). split.
      - intros Hm. destruct (Hall m Hm) as (md & j & Hmf & Hmb & _).
        exists md. split; [done|congruence].
      - intros (md & Hmf & Hmb). destruct (Hrank m md Hmf) as [j Hj].
        eapply (bin_list_complete (m_nodes a) (m_binIndices a) L Hbins Hval j m h md);
          [done|done|by rewrite Hmb|done]. }
    rewrite <- Hperm.
    rewrite (binCount_list (m_nodes a) h l fuel 0 Hl); [done|lia|lia|lia].
Qed.

Lemma storageReportFull_books (a : Allocator) (L fs : list Z) (fuel : nat) :
  Inv a L fs -> Ledger a L -> (Z.to_nat (m_maxAllocs a) <= fuel)%nat ->
  storageReportFull fuel a = Some (full_report a).
Proof.
  intros HI HL Hfuel. unfold storageReportFull, full_report.
  apply mapM_total. intros b Hb%elem_of_seqZ. cbv zeta.
  destruct (binCount_bin a L fs b fuel HI HL) as (h & Hh & Hc); [done|done|].
  rewrite Hh. cbn [mbind option_bind]. rewrite Hc. done.
Qed.

End FullReport.

(** ** Size classes: which sizes a bin holds *)

Section SizeClasses.

Lemma floatToUint_strict_steps : forallb step_strict (seqZ 0 239) = true.
Proof. vm_compute. reflexivity. Qed.

Lemma floatToUint_strict (v w : Z) :
  0 <= v < w -> w <= 239 -> floatToUint v < floatToUint w.
Proof.
  intros [Hv Hvw] Hw.
  assert (Hstep : floatToUint v < floatToUint (v + 1)).
  { pose proof floatToUint_strict_steps as Hall.
    rewrite forallb_forall in Hall. specialize (Hall v). unfold step_strict in Hall.
    apply Z.ltb_lt, Hall. apply list_elem_of_In, elem_of_seqZ. lia. }
  pose proof (floatToUint_mono (v + 1) w). lia.
Qed.

Lemma floatToUint_roundtrip (b : Z) :
  0 <= b <= 239 ->
  uintToFloatRoundUp (floatToUint b) = b /\ uintToFloatRoundDown (floatToUint b) = b.
Proof.
  intros Hb. pose proof roundtrip_all as Hall.
  rewrite forallb_forall in Hall. specialize (Hall b). unfold roundtrip_ok in Hall.
  assert (Hin : In b (seqZ 0 240)) by (apply list_elem_of_In, elem_of_seqZ; lia).
  apply Hall in Hin. apply andb_true_iff in Hin as [H1 H2].
  split; by apply Z.eqb_eq.
Qed.

(** A size lies below the nominal size of the bin after its own. *)
Lemma round_down_next (S : Z) :
  is_u32 S -> uintToFloatRoundDown S <= 238 ->
  S < floatToUint (uintToFloatRoundDown S + 1).
Proof.
  intros HS. unfold is_u32 in HS. destruct (decide (S < 8)) as [Hs|Hs].
  - destruct (uintToFloat_denorm S) as [_ ->]; [lia|]. intros _.
    destruct (decide (S = 7)) as [->|]; [by vm_compute|].
    rewrite floatToUint_denorm; lia.
  - destruct (enc_large S) as (Hm & Hq & -> & _); [lia|].
    set (m := Z.log2 S - 3) in *. intros Hb.
    pose proof (pow2_range m Hm) as Hp.
    pose proof (Z.div_mod S (2 ^ m) ltac:(lia)) as Hdm.
    pose proof (Z.mod_pos_bound S (2 ^ m) ltac:(lia)) as Hmb.
    destruct (decide (S / 2 ^ m < 15)) as [Hlt|Hge].
    + replace (8 * (m + 1) + (S / 2 ^ m - 8) + 1)
        with (8 * (m + 1) + (S / 2 ^ m - 7)) by lia.
      rewrite floatToUint_enc by lia.
      replace (m + 1 - 1) with m by lia. nia.
    + assert (S / 2 ^ m = 15) as Hq15 by lia. rewrite Hq15 in *.
      replace (8 * (m + 1) + (15 - 8) + 1) with (8 * (m + 2) + 0) by lia.
      rewrite floatToUint_enc by lia.
      replace (m + 2 - 1) with (Z.succ m) by lia.
      rewrite Z.pow_succ_r by lia. lia.
Qed.

(** Rounding up gives the bin of rounding down when the size is a
    nominal size, and the next bin otherwise. *)
Lemma round_up_cases (S : Z) :
  is_u32 S ->
  (S = floatToUint (uintToFloatRoundDown S)
   /\ uintToFloatRoundUp S = uintToFloatRoundDown S)
  \/ (floatToUint (uintToFloatRoundDown S) < S
      /\ uintToFloatRoundUp S = uintToFloatRoundDown S + 1).
Proof.
  intros HS. unfold is_u32 in HS. destruct (decide (S < 8)) as [Hs|Hs].
  - left. destruct (uintToFloat_denorm S) as [-> ->]; [lia|].
    rewrite floatToUint_denorm; lia.
  - destruct (enc_large S) as (Hm & Hq & Hd & Hu); [lia|].
    rewrite Hu, Hd. set (m := Z.log2 S - 3) in *.
    pose proof (pow2_range m Hm) as Hp.
    pose proof (Z.div_mod S (2 ^ m) ltac:(lia)) as Hdm.
    pose proof (Z.mod_pos_bound S (2 ^ m) ltac:(lia)) as Hmb.
    rewrite floatToUint_enc by lia. replace (m + 1 - 1) with m by lia.
    destruct (Z.eqb_spec (S mod 2 ^ m) 0) as [Hz|Hnz]; [left|right]; split; nia.
Qed.

Lemma round_down_bin_iff (S b : Z) :
  is_u32 S -> 0 <= b <= 239 ->
  uintToFloatRoundDown S = b
  <-> floatToUint b <= S /\ (b < 239 -> S < floatToUint (b + 1)).
Proof.
  intros HS Hb.
  destruct (uintToFloatRoundDown_bounds S HS) as [Hr Hlow].
  set (r := uintToFloatRoundDown S) in *. split.
  - intros <-. split; [done|]. intros Hlt. apply round_down_next; [done|fold r; lia].
  - intros [Hlo Hhi]. destruct (Z.lt_trichotomy r b) as [Hlt|[Heq|Hgt]]; [|done|].
    + pose proof (round_down_next S HS ltac:(fold r; lia)) as Hnext. fold r in Hnext.
      pose proof (floatToUint_mono (r + 1) b). lia.
    + pose proof (floatToUint_mono (b + 1) r). lia.
Qed.

Lemma round_up_bin_iff (S b : Z) :
  is_u32 S -> 0 <= b <= 240 ->
  uintToFloatRoundUp S = b
  <-> (b = 0 \/ floatToUint (b - 1) < S) /\ (b < 240 -> S <= floatToUint b).
Proof.
  intros HS Hb.
  destruct (uintToFloatRoundDown_bounds S HS) as [Hr Hlow].
  pose proof (round_down_next S HS) as Hnext.
  destruct (round_up_cases S HS) as [[Hex ->]|[Hin ->]];
    set (r := uintToFloatRoundDown S) in *.
  - split.
    + intros <-. split; [|lia].
      destruct (decide (r = 0)) as [|Hr0]; [by left|right].
      rewrite Hex. apply floatToUint_strict; lia.
    + intros [Hlo Hhi]. destruct (Z.lt_trichotomy r b) as [Hlt|[Heq|Hgt]]; [|done|].
      * destruct Hlo as [->|Hlo]; [lia|].
        pose proof (floatToUint_mono r (b - 1)). lia.
      * pose proof (floatToUint_strict b r). lia.
  - split.
    + intros <-. split; [right; by replace (r + 1 - 1) with r by lia|].
      intros Hlt. specialize (Hnext ltac:(lia)). lia.
    + intros [Hlo Hhi]. destruct (Z.lt_trichotomy (r + 1) b) as [Hlt|[Heq|Hgt]]; [|done|].
      * destruct Hlo as [->|Hlo]; [lia|].
        specialize (Hnext ltac:(lia)).
        pose proof (floatToUint_mono (r + 1) (b - 1)). lia.
      * pose proof (floatToUint_mono b r). lia.
Qed.

Lemma round_down_mono (S T : Z) :
  is_u32 S -> is_u32 T -> S <= T -> uintToFloatRoundDown S <= uintToFloatRoundDown T.
Proof.
  intros HS HT Hle.
  destruct (uintToFloatRoundDown_bounds S HS) as [Hs Hslow].
  destruct (uintToFloatRoundDown_bounds T HT) as [Ht Htlow].
  destruct (decide (uintToFloatRoundDown S <= uintToFloatRoundDown T)) as [|Hgt]; [done|].
  pose proof (round_down_next T HT ltac:(lia)).
  pose proof (floatToUint_mono (uintToFloatRoundDown T + 1) (uintToFloatRoundDown S)). lia.
Qed.

Lemma round_up_mono (S T : Z) :
  is_u32 S -> is_u32 T -> S <= T -> uintToFloatRoundUp S <= uintToFloatRoundUp T.
Proof.
  intros HS HT Hle.
  pose proof (uintToFloatRoundUp_range S HS) as Hs.
  pose proof (uintToFloatRoundUp_range T HT) as Ht.
  destruct (decide (uintToFloatRoundUp S <= uintToFloatRoundUp T)) as [|Hgt]; [done|].
  destruct (proj1 (round_up_bin_iff T _ HT Ht) eq_refl) as [_ HT2].
  destruct (proj1 (round_up_bin_iff S _ HS Hs) eq_refl) as [[HS1|HS1] _]; [lia|].
  pose proof (floatToUint_mono (uintToFloatRoundUp T) (uintToFloatRoundUp S - 1)). lia.
Qed.

(** Rounding a size up to a bin adds less than an eighth. *)
Lemma round_up_precision (S : Z) :
  0 <= S <= 0xF0000000 ->
  8 * (floatToUint (uintToFloatRoundUp S) - S) <= S.
Proof.
  intros HS. destruct (decide (S < 8)) as [Hs|Hs].
  - destruct (uintToFloat_denorm S) as [-> _]; [lia|].
    rewrite floatToUint_denorm; lia.
  - destruct (enc_large S) as (Hm & Hq & _ & ->); [lia|].
    set (m := Z.log2 S - 3) in *.
    pose proof (pow2_range m Hm) as Hp.
    pose proof (Z.div_mod S (2 ^ m) ltac:(lia)) as Hdm.
    pose proof (Z.mod_pos_bound S (2 ^ m) ltac:(lia)) as Hmb.
    destruct (Z.eqb_spec (S mod 2 ^ m) 0) as [Hz|Hnz].
    + rewrite Z.add_0_r. rewrite floatToUint_enc by lia.
      replace (m + 1 - 1) with m by lia. nia.
    + assert (Hcarry : m <= 27 \/ S / 2 ^ m < 15).
      { destruct (decide (m <= 27)); [by left|right].
        assert (m = 28) as Hm28 by lia. rewrite Hm28 in *.
        change (2 ^ 28) with 268435456 in *. lia. }
      destruct (decide (S / 2 ^ m < 15)) as [Hlt|Hge].
      * replace (8 * (m + 1) + (S / 2 ^ m - 8) + 1)
          with (8 * (m + 1) + (S / 2 ^ m - 7)) by lia.
        rewrite floatToUint_enc by lia.
        replace (m + 1 - 1) with m by lia. nia.
      * assert (S / 2 ^ m = 15) as Hq15 by lia. rewrite Hq15 in *.
        replace (8 * (m + 1) + (15 - 8) + 1) with (8 * (m + 2) + 0) by lia.
        rewrite floatToUint_enc by lia.
        replace (m + 2 - 1) with (Z.succ m) by lia.
        rewrite Z.pow_succ_r by lia. nia.
Qed.

Lemma round_up_eighth (S : Z) :
  0 <= S <= 0xF0000000 ->
  S <= floatToUint (uintToFloatRoundUp S) <= S + S / 8.
Proof.
  intros HS. destruct (uintToFloatRoundUp_bounds S HS) as [_ Hlow].
  pose proof (round_up_precision S HS) as Hp.
  split; [done|].
  assert (floatToUint (uintToFloatRoundUp S) - S <= S / 8); [|lia].
  apply Z.div_le_lower_bound; lia.
Qed.

(** A region an eighth larger than a request is in a bin that serves
    the request. *)
Lemma roomy_region_fits (size total : Z) :
  0 <= size -> is_u32 total -> size + size / 8 <= total ->
  is_u32 size /\ uintToFloatRoundUp size <= uintToFloatRoundDown total.
Proof.
  intros Hpos Htotal Hroom. unfold is_u32 in Htotal.
  pose proof (Z.div_mod size 8 ltac:(lia)) as Hdm.
  pose proof (Z.mod_pos_bound size 8 ltac:(lia)) as Hmb.
  assert (Hsize : 0 <= size <= 0xF0000000) by lia.
  split; [unfold is_u32; lia|].
  destruct (round_up_eighth size Hsize) as [Hlo Hhi].
  destruct (uintToFloatRoundUp_bounds size Hsize) as [Hr _].
  destruct (floatToUint_roundtrip _ Hr) as [_ Hrt].
  rewrite <- Hrt. apply round_down_mono; unfold is_u32; lia.
Qed.

(** A size is in a bin below [b] exactly when it is below the nominal
    size of [b]. *)
Lemma round_down_below (T b : Z) :
  is_u32 T -> 0 <= b <= 239 ->
  uintToFloatRoundDown T < b <-> T < floatToUint b.
Proof.
  intros HT Hb. destruct (uintToFloatRoundDown_bounds T HT) as [Hr Hlow]. split.
  - intros Hlt. pose proof (round_down_next T HT ltac:(lia)).
    pose proof (floatToUint_mono (uintToFloatRoundDown T + 1) b). lia.
  - intros Hlt. destruct (decide (uintToFloatRoundDown T < b)) as [|Hge]; [done|].
    pose proof (floatToUint_mono b (uintToFloatRoundDown T)). lia.
Qed.

End SizeClasses.

(** ** When [allocate] finds room *)

Section Fit.

Lemma free_bin_nonempty (a : Allocator) (L fs : list Z) (n : Z) (nd : Node) :
  Inv a L fs -> Ledger a L -> free_in (m_nodes a) L n nd ->
  0 <= bin_of nd <= 239 /\ bin_nonempty a (bin_of nd).
Proof.
  intros HI HL Hf.
  pose proof (inv_bins _ _ _ HI) as Hbins.
  pose proof (no_sentinel_length _ (Inv_nodes_lt _ _ _ HI)) as Hval.
  split.
  - apply uintToFloatRoundDown_bounds. by apply (bins_size _ _ _ Hbins n nd).
  - exact (rank_bin_nonempty _ _ _ n nd Hbins Hval (led_rank _ _ HL) Hf).
Qed.

Lemma nonempty_bin_free (a : Allocator) (L fs : list Z) (b : Z) :
  Inv a L fs -> bin_nonempty a b ->
  exists h hd, Arr.get (m_binIndices a) b = Some h
    /\ free_in (m_nodes a) L h hd /\ bin_of hd = b.
Proof.
  intros HI (h & Hh & Hne).
  destruct (bins_head _ _ _ (inv_bins _ _ _ HI) b h Hh Hne) as (hd & Hf & _ & Hb).
  by exists h, hd.
Qed.

Lemma free_in_live (a : Allocator) (L fs : list Z) (n : Z) (nd : Node) :
  Inv a L fs ->
  free_in (m_nodes a) L n nd <-> live a n /\ node a n = Some nd /\ used nd = false.
Proof. intros HI. unfold free_in, node. by rewrite (Inv_live a L fs n HI). Qed.

(** The search reports no space exactly when no free live node is in a
    bin at or above the round-up index of the request. *)
Lemma findBin_none_iff (a : Allocator) (L fs : list Z) (size : Z) :
  Inv a L fs -> Ledger a L -> is_u32 size ->
  allocate_findBin a size = Some None
  <-> forall n nd, free_in (m_nodes a) L n nd -> bin_of nd < uintToFloatRoundUp size.
Proof.
  intros HI HL Hsize.
  destruct (allocate_findBin_lowest a size (inv_bitmap _ _ _ HI) Hsize)
    as (found & Hfind & Hfound).
  rewrite Hfind. split.
  - intros [= ->] n nd Hf.
    destruct (free_bin_nonempty a L fs n nd HI HL Hf) as [Hb Hne].
    destruct (decide (bin_of nd < uintToFloatRoundUp size)) as [|Hge]; [done|].
    destruct (Hfound (bin_of nd)); [lia|done].
  - intros Hall. destruct found as [[t l]|]; [exfalso|done].
    destruct Hfound as (_ & _ & Hge & Hne & _).
    destruct (nonempty_bin_free a L fs _ HI Hne) as (h & hd & _ & Hf & Hb).
    specialize (Hall h hd Hf). lia.
Qed.

(** The node [allocate] takes is in the lowest bin that can serve the
    request. *)
Lemma findBin_lowest_node (a : Allocator) (L fs : list Z) (size t l h : Z) :
  Inv a L fs -> Ledger a L -> is_u32 size ->
  allocate_findBin a size = Some (Some (t, l)) ->
  Arr.get (m_binIndices a) (8 * t + l) = Some h ->
  exists hd, free_in (m_nodes a) L h hd
    /\ bin_of hd = 8 * t + l
    /\ uintToFloatRoundUp size <= bin_of hd
    /\ forall m md, free_in (m_nodes a) L m md ->
         uintToFloatRoundUp size <= bin_of md -> bin_of hd <= bin_of md.
Proof.
  intros HI HL Hsize Hfind Hh.
  destruct (allocate_findBin_lowest a size (inv_bitmap _ _ _ HI) Hsize)
    as (found & Hfind' & Hfound).
  assert (found = Some (t, l)) as -> by congruence.
  destruct Hfound as (_ & _ & Hge & Hne & Hlow).
  destruct (nonempty_bin_free a L fs _ HI Hne) as (h' & hd & Hh' & Hf & Hb).
  assert (h' = h) as -> by congruence.
  exists hd. split_and!; [done|done|lia|].
  intros m md Hmf Hmge.
  destruct (free_bin_nonempty a L fs m md HI HL Hmf) as [_ Hmne].
  destruct (decide (bin_of hd <= bin_of md)) as [|Hlt]; [done|].
  destruct (Hlow (bin_of md)); [lia|done].
Qed.

Lemma free_size_le_total nodes prev off l next e (n : Z) :
  seg nodes prev off l next e -> n ∈ l -> free_size nodes n <= free_total nodes l.
Proof.
  intros Hseg Hn. pose proof Hn as (l1 & l2 & ->)%list_elem_of_split.
  rewrite free_total_app, free_total_cons.
  assert (0 <= free_total nodes l1).
  { apply free_total_nonneg. intros j Hj.
    apply (free_size_bounds _ _ _ _ _ _ j Hseg). apply elem_of_app. by left. }
  assert (0 <= free_total nodes l2); [|lia].
  apply free_total_nonneg. intros j Hj.
  apply (free_size_bounds _ _ _ _ _ _ j Hseg). apply elem_of_app. right. by right.
Qed.

(** The counter covers every single free node, and fits the space. *)
Lemma ledger_bounds (a : Allocator) (L fs : list Z) :
  Inv a L fs -> Ledger a L ->
  0 <= m_freeStorage a <= m_size a
  /\ forall n nd, free_in (m_nodes a) L n nd -> dataSize nd <= m_freeStorage a.
Proof.
  intros HI HL. rewrite (led_storage _ _ HL).
  pose proof (free_total_bounds _ _ _ _ _ _ (inv_chain _ _ _ HI)) as Hb.
  split; [lia|]. intros n nd (Hn & Hnd & Hu).
  rewrite <- (free_size_free _ _ _ Hnd Hu).
  by eapply free_size_le_total; [apply (inv_chain _ _ _ HI)|].
Qed.

End Fit.

(** ** The storage report and the books *)

Section Report.

(** The top free region of the report is the nominal size of a bin
    that holds a free node. *)
Lemma report_spec_bin (a : Allocator) (L fs : list Z) :
  Inv a L fs -> m_usedBinsTop a <> 0 ->
  exists b, 0 <= b < 256 /\ bin_nonempty a b
    /\ largestFreeRegion (report_spec a) = floatToUint b.
Proof.
  intros HI Hne.
  pose proof (inv_bitmap _ _ _ HI) as Hbm.
  pose proof (bm_top_range _ _ _ Hbm) as Htop. unfold is_u32 in Htop.
  set (t := Z.log2 (m_usedBinsTop a)).
  assert (0 <= t < 32) as Ht.
  { split; [apply Z.log2_nonneg|]. apply Z.log2_lt_pow2; lia. }
  destruct (bitmap_get_leaf _ _ _ t Hbm Ht) as [x Hx].
  pose proof (bm_leaf_range _ _ _ Hbm t x Hx) as Hx8. unfold is_u8 in Hx8.
  assert (x <> 0) as Hx0.
  { apply (bm_top _ _ _ Hbm t x Hx). apply Z.bit_log2. lia. }
  set (l := Z.log2 x).
  assert (0 <= l < 8) as Hl.
  { split; [apply Z.log2_nonneg|]. apply Z.log2_lt_pow2; lia. }
  exists (8 * t + l). split; [lia|]. split.
  - apply (bin_nonempty_bit a t l x); try done. apply Z.bit_log2. lia.
  - unfold report_spec, highest_set_bit. cbn [largestFreeRegion].
    rewrite decide_False by done. fold t. rewrite Hx. cbn [default id]. fold l.
    by rewrite lor_shl3 by lia.
Qed.

Lemma storageReport_books (a : Allocator) (L fs : list Z) :
  Inv a L fs -> Ledger a L ->
  exists r, storageReport a = Some r
    /\ totalFreeSpace r <= m_size a
    /\ 0 <= largestFreeRegion r <= totalFreeSpace r
    /\ (0 < largestFreeRegion r ->
          m_freeOffset a <> 0
          /\ exists b h hd, 0 <= b <= 239
               /\ largestFreeRegion r = floatToUint b
               /\ free_in (m_nodes a) L h hd /\ bin_of hd = b).
Proof.
  intros HI HL.
  destruct (ledger_bounds a L fs HI HL) as [Hfs Hall].
  pose proof (inv_size _ _ _ HI) as Hsz. unfold is_u32 in Hsz.
  destruct (decide (m_freeOffset a > 0)) as [Hpos|Hz].
  - rewrite (storageReport_positive a (Inv_report_defined _ _ _ HI) Hpos).
    eexists. split; [done|].
    destruct (decide (m_usedBinsTop a = 0)) as [Hz|Hne].
    + unfold report_spec. rewrite decide_True by done. cbn. split_and!; lia.
    + destruct (report_spec_bin a L fs HI Hne) as (b & Hb & Hbne & ->).
      cbn [totalFreeSpace report_spec].
      destruct (nonempty_bin_free a L fs b HI Hbne) as (h & hd & _ & Hf & Hbin).
      pose proof (bins_size _ _ _ (inv_bins _ _ _ HI) h hd Hf) as Hu.
      destruct (uintToFloatRoundDown_bounds _ Hu) as [Hr Hlow].
      fold (bin_of hd) in Hr, Hlow. rewrite Hbin in Hr, Hlow.
      pose proof (floatToUint_mono 0 b ltac:(lia) ltac:(lia)) as Hm.
      rewrite floatToUint_denorm in Hm by lia.
      specialize (Hall h hd Hf).
      split_and!; [lia|lia|lia|]. intros _. split; [lia|].
      by exists b, h, hd.
  - unfold storageReport. rewrite decide_False by done.
    eexists. split; [done|]. cbn. split_and!; lia.
Qed.

End Report.

(** ** Small pools and fresh states *)

Section Edge.

Lemma resetAllocator_fresh_state (a : Allocator) :
  is_u32 (m_size a) -> 0 < m_maxAllocs a < 2 ^ 32 ->
  exists a', resetAllocator a = Some a' /\ fresh_state a'
    /\ m_size a' = m_size a /\ m_maxAllocs a' = m_maxAllocs a.
Proof.
  intros Hsize Hmax.
  destruct (resetAllocator_inv a Hsize Hmax)
    as (a' & fs & Hr & HI & Hlen & Hsz & Hmx & _ & Hfs & nd & Hnd & Ho & Hs & Hu & Hp & Hx).
  exists a'. split; [done|]. split; [|done].
  split_and!.
  - intros k. rewrite <- (Inv_live a' [0] fs k HI). apply list_elem_of_singleton.
  - exists nd. unfold node. rewrite Hsz. done.
  - by rewrite Hsz.
  - rewrite (Inv_stack a' [0] fs HI). lia.
Qed.

Lemma reset_two_slots (a a' : Allocator) :
  is_u32 (m_size a) -> 0 <= m_maxAllocs a < 2 ^ 32 ->
  resetAllocator a = Some a' -> m_maxAllocs a' = 2 ->
  m_freeOffset a' = 0 /\ forall n, ~ node_in_use a' n.
Proof.
  intros Hsize Hmax Hreset Htwo.
  assert (m_maxAllocs a = 0 \/ 0 < m_maxAllocs a) as [Hz|Hpos] by lia.
  { by rewrite resetAllocator_zero in Hreset. }
  destruct (resetAllocator_inv a Hsize ltac:(lia))
    as (a'' & fs & Hr & HI & Hlen & _ & Hmx & _ & _ & nd & Hnd & _ & _ & Hu & _).
  assert (a'' = a') as -> by congruence.
  split.
  - rewrite (inv_offset _ _ _ HI).
    replace (Z.of_nat (length fs) - 1) with 0 by lia. done.
  - intros n (md & Hmd & Hmu). unfold node in Hmd.
    pose proof (inv_used _ _ _ HI n md Hmd Hmu) as ->%list_elem_of_singleton.
    congruence.
Qed.

(** A pool of two slots stays as [initAllocator] left it. *)
Lemma two_slots_idle (a : Allocator) :
  reachable a -> m_maxAllocs a = 2 ->
  m_freeOffset a = 0 /\ forall n, ~ node_in_use a n.
Proof.
  induction 1 as [size max_allocs a Hsize Hmax Hinit
                 |a a' Hreach _ Hreset
                 |a size res a' Hreach IH Hsize Halloc
                 |a al a' Hreach IH Huse Hfree]; intros Htwo.
  - unfold initAllocator in Hinit.
    eapply reset_two_slots; [| |exact Hinit|done]; simpl_alloc; [done|].
    unfold is_u32 in Hmax. lia.
  - destruct (reachable_inv a Hreach) as (L & fs & HI).
    eapply reset_two_slots; [| |exact Hreset|done]; [apply HI|].
    split; [by eapply Inv_max_nonneg|apply HI].
  - destruct (reachable_inv a Hreach) as (L & fs & HI).
    pose proof (allocate_inv a size L fs HI Hsize) as Hpost.
    rewrite Halloc in Hpost. destruct Hpost as (Hm & _).
    destruct (IH ltac:(lia)) as [Hoff Hidle].
    rewrite (allocate_out_of_allocations a size Hoff) in Halloc.
    injection Halloc as _ <-. done.
  - destruct (reachable_inv a Hreach) as (L & fs & HI).
    destruct (free_inv a al L fs HI Huse) as (a'' & _ & _ & Hf & Hm & _).
    assert (a'' = a') as -> by congruence.
    destruct (IH ltac:(lia)) as [_ Hidle]. by destruct (Hidle _ Huse).
Qed.

End Edge.

(** ** The outcome of [allocate] *)

Section Outcome.

Lemma allocate_no_space_iff (a : Allocator) (L fs : list Z) (size : Z)
    (res : Allocation) (a' : Allocator) :
  Inv a L fs -> Ledger a L -> is_u32 size ->
  allocate a size = Some (res, a') ->
  metadata res = NO_SPACE
  <-> m_freeOffset a = 0
      \/ forall n nd, free_in (m_nodes a) L n nd -> bin_of nd < uintToFloatRoundUp size.
Proof.
  intros HI HL Hsize Halloc.
  pose proof (allocate_inv_full a size L fs HI Hsize) as Hpost.
  rewrite Halloc in Hpost.
  destruct Hpost as (_ & L' & fs' & _ & _ & _ & Hiff & _).
  rewrite Hiff. by rewrite (findBin_none_iff a L fs size HI HL Hsize).
Qed.

Lemma allocate_fits (a : Allocator) (L fs : list Z) (size n : Z) (nd : Node)
    (res : Allocation) (a' : Allocator) :
  Inv a L fs -> Ledger a L -> is_u32 size -> m_freeOffset a <> 0 ->
  free_in (m_nodes a) L n nd -> uintToFloatRoundUp size <= bin_of nd ->
  allocate a size = Some (res, a') -> metadata res <> NO_SPACE.
Proof.
  intros HI HL Hsize Hoff Hf Hfit Halloc Hno.
  apply (allocate_no_space_iff a L fs size res a' HI HL Hsize Halloc) in Hno
    as [?|Hall]; [done|].
  specialize (Hall n nd Hf). lia.
Qed.

(** The node handed out: the first node of the lowest bin that can
    serve the request. *)
Lemma allocate_taken_node (a : Allocator) (L fs : list Z) (size : Z)
    (res : Allocation) (a' : Allocator) :
  Inv a L fs -> Ledger a L -> is_u32 size ->
  allocate a size = Some (res, a') -> metadata res <> NO_SPACE ->
  exists hd, free_in (m_nodes a) L (metadata res) hd
    /\ uintToFloatRoundUp size <= bin_of hd
    /\ Arr.get (m_binIndices a) (bin_of hd) = Some (metadata res)
    /\ forall m md, free_in (m_nodes a) L m md ->
         uintToFloatRoundUp size <= bin_of md -> bin_of hd <= bin_of md.
Proof.
  intros HI HL Hsize Halloc Hne.
  pose proof (allocate_inv_full a size L fs HI Hsize) as Hpost.
  rewrite Halloc in Hpost.
  destruct Hpost as (_ & L' & fs' & _ & _ & _ & _ & Hbin & _).
  destruct (Hbin Hne) as (t & l & Hfind & Hh).
  destruct (findBin_lowest_node a L fs size t l _ HI HL Hsize Hfind Hh)
    as (hd & Hf & Hb & Hge & Hlow).
  exists hd. split_and!; [done|done|by rewrite Hb|done].
Qed.

End Outcome.

Section OneSlot.

(** With a single node slot there is no slot for the remainder of a
    split. *)
Lemma one_slot_no_split (a : Allocator) (L fs : list Z) (size n : Z) (nd : Node) :
  Inv a L fs -> Ledger a L -> m_maxAllocs a = 1 -> is_u32 size ->
  free_in (m_nodes a) L n nd ->
  uintToFloatRoundUp size <= bin_of nd -> size < dataSize nd ->
  allocate a size = None.
Proof.
  intros HI HL Hone Hsize Hf Hfit Hlt.
  pose proof Hf as (HnL & Hnd & Hu).
  pose proof (inv_count _ _ _ HI) as Hcount.
  assert (HL1 : L = [n]).
  { destruct L as [|x [|y L]]; cbn in Hcount; [by apply elem_of_nil in HnL| |lia].
    by apply list_elem_of_singleton in HnL as ->. }
  assert (Hfs : fs = []) by (destruct fs; [done|subst L; cbn in Hcount; lia]).
  assert (Hoff : m_freeOffset a <> 0).
  { rewrite (inv_offset _ _ _ HI), Hfs. by vm_compute. }
  pose proof (allocate_inv_full a size L fs HI Hsize) as Hpost.
  destruct (allocate a size) as [[res a']|] eqn:Halloc; [exfalso|done].
  pose proof (allocate_fits a L fs size n nd res a' HI HL Hsize Hoff Hf Hfit Halloc) as Hne.
  destruct (allocate_taken_node a L fs size res a' HI HL Hsize Halloc Hne)
    as (hd & (HhL & Hhd & _) & _).
  rewrite HL1 in HhL. apply list_elem_of_singleton in HhL.
  rewrite HhL in Hhd. assert (hd = nd) as -> by congruence.
  destruct Hpost as (Hm & L' & fs' & HI' & Hfs' & Hap & _).
  assert (fs' = []) as ->.
  { destruct Hfs' as [->|(_ & k & Hk)]; [done|]. rewrite Hfs in Hk. by destruct fs'. }
  destruct Hap as [[-> _]|(nd0 & nd' & Hn0 & _ & _ & _ & Hn' & Hu' & _ & _ & _ & Hrem)];
    [done|].
  unfold node in *. rewrite HhL in Hn0, Hn'.
  assert (nd0 = nd) as -> by congruence.
  destruct Hrem as (kd & Hkd & _); [lia|].
  pose proof (inv_used _ _ _ HI' n nd' Hn' Hu') as HnL'.
  pose proof (inv_count _ _ _ HI') as Hcount'. cbn in Hcount'.
  assert (HL' : L' = [n]).
  { destruct L' as [|x [|y L']]; cbn in Hcount'; [by apply elem_of_nil in HnL'| |lia].
    by apply list_elem_of_singleton in HnL' as ->. }
  pose proof (inv_chain _ _ _ HI') as Hchain. rewrite HL' in Hchain.
  destruct Hchain as (nd'' & Hnd'' & _ & _ & _ & Hnext & _).
  assert (nd'' = nd') as -> by congruence. cbn in Hnext.
  rewrite Hnext in Hkd.
  by apply (no_sentinel_length _ (Inv_nodes_lt _ _ _ HI')) in Hkd.
Qed.

End OneSlot.

Lemma one_slot_reachable : reachable one_slot.
Proof.
  apply (reach_init 1024 1); [unfold is_u32; lia..|]. vm_compute. reflexivity.
Qed.

Lemma nothing_in_use_check (a : Allocator) :
  forallb (fun nd => negb (used nd)) (m_nodes a) = true -> nothing_in_use a.
Proof.
  intros Hall n nd _ Hnd. rewrite forallb_forall in Hall.
  unfold node, Arr.get in Hnd. case_decide; [|done].
  apply list_elem_of_lookup_2, list_elem_of_In in Hnd.
  apply Hall in Hnd. by destruct (used nd).
Qed.

Lemma odd_pool_reachable : reachable odd_pool.
Proof.
  apply (reach_init 1000 8); [unfold is_u32; lia..|]. vm_compute. reflexivity.
Qed.

(** * Further properties of the operations *)

(** ** Size classes *)

(** X1: [uintToFloatRoundDown] puts a size [S] in bin [b] exactly when
    [S] lies between the nominal size of [b] and that of the next bin;
    bin 239 takes every size from its nominal size on. *)
Theorem round_down_bin (S b : Z) :
  is_u32 S -> 0 <= b <= 239 ->
  uintToFloatRoundDown S = b
  <-> floatToUint b <= S /\ (b < 239 -> S < floatToUint (b + 1)).
Proof. apply round_down_bin_iff. Qed.

Lemma round_down_bin_witness :
  is_u32 118 /\ 0 <= 38 <= 239
  /\ (uintToFloatRoundDown 118 = 38
      <-> floatToUint 38 <= 118 /\ (38 < 239 -> 118 < floatToUint (38 + 1))).
Proof.
  assert (HS : is_u32 118) by (unfold is_u32; lia).
  assert (Hb : 0 <= 38 <= 239) by lia.
  split; [exact HS|]. split; [exact Hb|].
  exact (round_down_bin 118 38 HS Hb).
Defined.

(** X2: [uintToFloatRoundUp] gives the lowest bin whose nominal size is at
    least [S], and 240 when [S] is above the nominal size of bin 239. *)
Theorem round_up_bin (S b : Z) :
  is_u32 S -> 0 <= b <= 240 ->
  uintToFloatRoundUp S = b
  <-> (b = 0 \/ floatToUint (b - 1) < S) /\ (b < 240 -> S <= floatToUint b).
Proof. apply round_up_bin_iff. Qed.

Lemma round_up_bin_witness :
  is_u32 118 /\ 0 <= 39 <= 240
  /\ (uintToFloatRoundUp 118 = 39
      <-> (39 = 0 \/ floatToUint (39 - 1) < 118) /\ (39 < 240 -> 118 <= floatToUint 39)).
Proof.
  assert (HS : is_u32 118) by (unfold is_u32; lia).
  assert (Hb : 0 <= 39 <= 240) by lia.
  split; [exact HS|]. split; [exact Hb|].
  exact (round_up_bin 118 39 HS Hb).
Defined.

(** X3: both conversions are monotone: a larger size never gets a lower
    bin index. *)
Theorem rounding_monotone (S T : Z) :
  is_u32 S -> is_u32 T -> S <= T ->
  uintToFloatRoundDown S <= uintToFloatRoundDown T
  /\ uintToFloatRoundUp S <= uintToFloatRoundUp T.
Proof.
  intros HS HT Hle. split; [by apply round_down_mono|by apply round_up_mono].
Qed.

Lemma rounding_monotone_witness :
  is_u32 118 /\ is_u32 1024 /\ 118 <= 1024
  /\ uintToFloatRoundDown 118 <= uintToFloatRoundDown 1024
  /\ uintToFloatRoundUp 118 <= uintToFloatRoundUp 1024.
Proof.
  assert (HS : is_u32 118) by (unfold is_u32; lia).
  assert (HT : is_u32 1024) by (unfold is_u32; lia).
  assert (Hle : 118 <= 1024) by lia.
  split; [exact HS|]. split; [exact HT|]. split; [exact Hle|].
  exact (rounding_monotone 118 1024 HS HT Hle).
Defined.

(** X4: up to [0xF0000000], the nominal size of the round-up bin exceeds
    the size by at most an eighth of it. *)
Theorem round_up_within_eighth (S : Z) :
  0 <= S <= 0xF0000000 ->
  S <= floatToUint (uintToFloatRoundUp S) <= S + S / 8.
Proof. apply round_up_eighth. Qed.

Lemma round_up_within_eighth_witness :
  0 <= 529445 <= 0xF0000000
  /\ 529445 <= floatToUint (uintToFloatRoundUp 529445) <= 529445 + 529445 / 8.
Proof.
  assert (HS : 0 <= 529445 <= 0xF0000000) by lia.
  split; [exact HS|]. exact (round_up_within_eighth 529445 HS).
Defined.

(** ** The bit scan *)

(** X5: [findLowestSetBitAfter] returns the lowest set bit of the mask at
    or after the start index, and [NO_SPACE] exactly when no bit is set
    from the start index on. *)
Theorem findLowestSetBitAfter_scan (mask start : Z) :
  is_u32 mask -> 0 <= start < 32 ->
  (findLowestSetBitAfter mask start = NO_SPACE
   /\ forall i, start <= i < 32 -> Z.testbit mask i = false)
  \/ (start <= findLowestSetBitAfter mask start < 32
      /\ Z.testbit mask (findLowestSetBitAfter mask start) = true
      /\ forall i, start <= i < findLowestSetBitAfter mask start ->
           Z.testbit mask i = false).
Proof. intros Hm Hs. exact (findLowestSetBitAfter_lowest mask start Hm Hs). Qed.

Lemma findLowestSetBitAfter_scan_witness :
  is_u32 0x50 /\ 0 <= 5 < 32
  /\ findLowestSetBitAfter 0x50 5 = 6
  /\ ((findLowestSetBitAfter 0x50 5 = NO_SPACE
       /\ forall i, 5 <= i < 32 -> Z.testbit 0x50 i = false)
      \/ (5 <= findLowestSetBitAfter 0x50 5 < 32
          /\ Z.testbit 0x50 (findLowestSetBitAfter 0x50 5) = true
          /\ forall i, 5 <= i < findLowestSetBitAfter 0x50 5 ->
               Z.testbit 0x50 i = false)).
Proof.
  assert (Hm : is_u32 0x50) by (unfold is_u32; lia).
  assert (Hs : 0 <= 5 < 32) by lia.
  split; [exact Hm|]. split; [exact Hs|]. split; [vm_compute; reflexivity|].
  exact (findLowestSetBitAfter_scan 0x50 5 Hm Hs).
Defined.

(** ** [initAllocator] and [resetAllocator] *)

(** X6: whatever the allocator held before, [resetAllocator] leaves node 0
    as the only live node, free and spanning the whole space, every other
    slot on the free-slot stack, and the free storage equal to the size. *)
Theorem reset_gives_fresh_state (a : Allocator) :
  is_u32 (m_size a) -> 0 < m_maxAllocs a < 2 ^ 32 ->
  exists a', resetAllocator a = Some a' /\ fresh_state a'
    /\ m_size a' = m_size a /\ m_maxAllocs a' = m_maxAllocs a.
Proof. apply resetAllocator_fresh_state. Qed.

Lemma reset_gives_fresh_state_witness :
  is_u32 (m_size demo_stale) /\ 0 < m_maxAllocs demo_stale < 2 ^ 32
  /\ exists a', resetAllocator demo_stale = Some a' /\ fresh_state a'
       /\ m_size a' = m_size demo_stale /\ m_maxAllocs a' = m_maxAllocs demo_stale.
Proof.
  assert (Hsize : is_u32 (m_size demo_stale)) by (vm_compute; split; [discriminate|reflexivity]).
  assert (Hmax : 0 < m_maxAllocs demo_stale < 2 ^ 32) by (vm_compute; split; reflexivity).
  split; [exact Hsize|]. split; [exact Hmax|].
  exact (reset_gives_fresh_state demo_stale Hsize Hmax).
Defined.

(** X7: with [max_allocs = 0] the free-slot stack is empty and
    [initAllocator] reads it out of range when it takes the slot for the
    first node. *)
Theorem init_without_slots (size : Z) : initAllocator size 0 = None.
Proof. unfold initAllocator. by apply resetAllocator_zero. Qed.

(** ** [allocate] *)

(** X8: in a reachable state of an allocator with at least two node
    slots, [allocate] stays within the arrays and returns. *)
Theorem allocate_returns (a : Allocator) (size : Z) :
  reachable a -> 2 <= m_maxAllocs a -> is_u32 size ->
  exists res a', allocate a size = Some (res, a').
Proof.
  intros Hreach Htwo Hsize.
  destruct (reachable_stack a Hreach Htwo) as (L & fs & HI & Hne).
  pose proof (allocate_inv a size L fs HI Hsize) as Hpost.
  destruct (allocate a size) as [[res a']|]; [by eauto|done].
Qed.

Lemma allocate_returns_witness :
  reachable demo_second.2 /\ 2 <= m_maxAllocs demo_second.2 /\ is_u32 300
  /\ exists res a', allocate demo_second.2 300 = Some (res, a').
Proof.
  assert (Htwo : 2 <= m_maxAllocs demo_second.2) by (vm_compute; discriminate).
  assert (Hsize : is_u32 300) by (unfold is_u32; lia).
  split; [exact demo_second_reachable|]. split; [exact Htwo|]. split; [exact Hsize|].
  exact (allocate_returns demo_second.2 300 demo_second_reachable Htwo Hsize).
Defined.

(** X9: [allocate] returns [NO_SPACE] exactly when the pool is down to
    its last free slot ([m_freeOffset = 0]) or no free live node has a
    round-down bin at or above the round-up bin of the request. *)
Theorem allocate_fails_iff (a : Allocator) (size : Z) (res : Allocation) (a' : Allocator) :
  reachable a -> is_u32 size ->
  allocate a size = Some (res, a') ->
  metadata res = NO_SPACE
  <-> m_freeOffset a = 0
      \/ forall n nd, live a n -> node a n = Some nd -> used nd = false ->
           uintToFloatRoundDown (dataSize nd) < uintToFloatRoundUp size.
Proof.
  intros (L & fs & HI & HL)%reachable_books Hsize Halloc.
  rewrite (allocate_no_space_iff a L fs size res a' HI HL Hsize Halloc).
  split; (intros [?|Hall]; [by left|right]); intros n nd.
  - intros Hn Hnd Hu. apply (Hall n nd). by apply (free_in_live a L fs n nd HI).
  - intros (Hn & Hnd & Hu)%(free_in_live a L fs n nd HI). by apply (Hall n nd).
Qed.

Lemma allocate_fails_iff_witness :
  reachable demo_fresh /\ is_u32 2000
  /\ allocate demo_fresh 2000 = Some (EmptyAllocation, demo_fresh)
  /\ (metadata EmptyAllocation = NO_SPACE
      <-> m_freeOffset demo_fresh = 0
          \/ forall n nd, live demo_fresh n -> node demo_fresh n = Some nd ->
               used nd = false ->
               uintToFloatRoundDown (dataSize nd) < uintToFloatRoundUp 2000).
Proof.
  assert (Hsize : is_u32 2000) by (unfold is_u32; lia).
  assert (Halloc : allocate demo_fresh 2000 = Some (EmptyAllocation, demo_fresh))
    by (vm_compute; reflexivity).
  split; [exact demo_fresh_reachable|]. split; [exact Hsize|]. split; [exact Halloc|].
  exact (allocate_fails_iff demo_fresh 2000 EmptyAllocation demo_fresh
           demo_fresh_reachable Hsize Halloc).
Defined.

(** X10: the node [allocate] hands out was free and live, and first in
    its bin; its bin is the lowest one, at or above the round-up bin of
    the request, that holds a free live node. *)
Theorem allocate_lowest_bin (a : Allocator) (size : Z) (res : Allocation) (a' : Allocator) :
  reachable a -> is_u32 size ->
  allocate a size = Some (res, a') -> metadata res <> NO_SPACE ->
  exists nd, live a (metadata res) /\ node a (metadata res) = Some nd /\ used nd = false
    /\ Arr.get (m_binIndices a) (uintToFloatRoundDown (dataSize nd)) = Some (metadata res)
    /\ uintToFloatRoundUp size <= uintToFloatRoundDown (dataSize nd)
    /\ forall m md, live a m -> node a m = Some md -> used md = false ->
         uintToFloatRoundUp size <= uintToFloatRoundDown (dataSize md) ->
         uintToFloatRoundDown (dataSize nd) <= uintToFloatRoundDown (dataSize md).
Proof.
  intros (L & fs & HI & HL)%reachable_books Hsize Halloc Hne.
  destruct (allocate_taken_node a L fs size res a' HI HL Hsize Halloc Hne)
    as (hd & Hf & Hge & Hfirst & Hlow).
  pose proof Hf as (Hn & Hnd & Hu)%(free_in_live a L fs _ hd HI).
  exists hd. split_and!; try done.
  intros m md Hm Hmd Hmu. apply (Hlow m md). by apply (free_in_live a L fs m md HI).
Qed.

Lemma allocate_lowest_bin_witness :
  reachable demo_freed /\ is_u32 50
  /\ allocate demo_freed 50 = Some (mkAllocation 0 0, (default (EmptyAllocation, blank) (allocate demo_freed 50)).2)
  /\ metadata (mkAllocation 0 0) <> NO_SPACE
  /\ exists nd, live demo_freed 0 /\ node demo_freed 0 = Some nd /\ used nd = false
       /\ Arr.get (m_binIndices demo_freed) (uintToFloatRoundDown (dataSize nd)) = Some 0
       /\ uintToFloatRoundUp 50 <= uintToFloatRoundDown (dataSize nd)
       /\ forall m md, live demo_freed m -> node demo_freed m = Some md -> used md = false ->
            uintToFloatRoundUp 50 <= uintToFloatRoundDown (dataSize md) ->
            uintToFloatRoundDown (dataSize nd) <= uintToFloatRoundDown (dataSize md).
Proof.
  assert (Hsize : is_u32 50) by (unfold is_u32; lia).
  assert (Halloc : allocate demo_freed 50
                   = Some (mkAllocation 0 0,
                           (default (EmptyAllocation, blank) (allocate demo_freed 50)).2))
    by (vm_compute; reflexivity).
  assert (Hne : metadata (mkAllocation 0 0) <> NO_SPACE) by (vm_compute; discriminate).
  split; [exact demo_freed_reachable|]. split; [exact Hsize|]. split; [exact Halloc|].
  split; [exact Hne|].
  exact (allocate_lowest_bin demo_freed 50 _ _ demo_freed_reachable Hsize Halloc Hne).
Defined.

(** X26: for a request of at most [0xF0000000], [allocate] fails exactly
    when the pool is down to its last free slot or every free live node is
    smaller than the nominal size of the round-up bin of the request; a
    free node that fits the request but not that nominal size is not
    used. *)
Theorem allocate_needs_nominal_size (a : Allocator) (size : Z) (res : Allocation)
    (a' : Allocator) :
  reachable a -> 0 <= size <= 0xF0000000 ->
  allocate a size = Some (res, a') ->
  metadata res = NO_SPACE
  <-> m_freeOffset a = 0
      \/ forall n nd, live a n -> node a n = Some nd -> used nd = false ->
           dataSize nd < floatToUint (uintToFloatRoundUp size).
Proof.
  intros (L & fs & HI & HL)%reachable_books Hsize Halloc.
  assert (Hu : is_u32 size) by (unfold is_u32; lia).
  destruct (uintToFloatRoundUp_bounds size Hsize) as [Hb _].
  rewrite (allocate_no_space_iff a L fs size res a' HI HL Hu Halloc).
  split; (intros [?|Hall]; [by left|right]); intros n nd.
  - intros Hn Hnd Hfree.
    assert (Hf : free_in (m_nodes a) L n nd) by (by apply (free_in_live a L fs n nd HI)).
    pose proof (bins_size _ _ _ (inv_bins _ _ _ HI) n nd Hf) as Hu32.
    apply (round_down_below _ _ Hu32 Hb). by apply (Hall n nd).
  - intros Hf.
    pose proof (bins_size _ _ _ (inv_bins _ _ _ HI) n nd Hf) as Hu32.
    apply (round_down_below _ _ Hu32 Hb).
    apply (free_in_live a L fs n nd HI) in Hf as (Hn & Hnd & Hfree).
    by apply (Hall n nd).
Qed.

Lemma allocate_needs_nominal_size_witness :
  reachable odd_pool /\ 0 <= 1000 <= 0xF0000000
  /\ m_freeStorage odd_pool = 1000
  /\ floatToUint (uintToFloatRoundUp 1000) = 1024
  /\ allocate odd_pool 1000 = Some (EmptyAllocation, odd_pool)
  /\ (metadata EmptyAllocation = NO_SPACE
      <-> m_freeOffset odd_pool = 0
          \/ forall n nd, live odd_pool n -> node odd_pool n = Some nd -> used nd = false ->
               dataSize nd < floatToUint (uintToFloatRoundUp 1000)).
Proof.
  assert (Hsize : 0 <= 1000 <= 0xF0000000) by lia.
  assert (Halloc : allocate odd_pool 1000 = Some (EmptyAllocation, odd_pool))
    by (vm_compute; reflexivity).
  split; [exact odd_pool_reachable|]. split; [exact Hsize|].
  split; [vm_compute; reflexivity|]. split; [vm_compute; reflexivity|].
  split; [exact Halloc|].
  exact (allocate_needs_nominal_size odd_pool 1000 EmptyAllocation odd_pool
           odd_pool_reachable Hsize Halloc).
Defined.

(** X11: when more than one free slot is left ([m_freeOffset <> 0]) and
    some free live node is at least an eighth larger than the request,
    [allocate] succeeds. *)
Theorem allocate_with_room (a : Allocator) (size n : Z) (nd : Node) :
  reachable a -> 2 <= m_maxAllocs a -> m_freeOffset a <> 0 -> 0 <= size ->
  live a n -> node a n = Some nd -> used nd = false ->
  size + size / 8 <= dataSize nd ->
  exists res a', allocate a size = Some (res, a') /\ metadata res <> NO_SPACE.
Proof.
  intros Hreach Htwo Hoff Hpos Hn Hnd Hu Hroom.
  destruct (reachable_books a Hreach) as (L & fs & HI & HL).
  assert (Hf : free_in (m_nodes a) L n nd) by (by apply (free_in_live a L fs n nd HI)).
  pose proof (bins_size _ _ _ (inv_bins _ _ _ HI) n nd Hf) as Hu32.
  destruct (roomy_region_fits size (dataSize nd) Hpos Hu32 Hroom) as [Hsize Hfit].
  destruct (allocate_total a size Hreach Htwo Hsize) as [[res a'] Halloc].
  exists res, a'. split; [done|].
  exact (allocate_fits a L fs size n nd res a' HI HL Hsize Hoff Hf Hfit Halloc).
Qed.

Lemma allocate_with_room_witness :
  reachable demo_second.2 /\ 2 <= m_maxAllocs demo_second.2
  /\ m_freeOffset demo_second.2 <> 0 /\ 0 <= 600
  /\ live demo_second.2 2
  /\ node demo_second.2 2 = Some (mkNode 300 724 NODE_UNUSED NODE_UNUSED 1 NODE_UNUSED false)
  /\ 600 + 600 / 8 <= 724
  /\ exists res a', allocate demo_second.2 600 = Some (res, a') /\ metadata res <> NO_SPACE.
Proof.
  assert (Htwo : 2 <= m_maxAllocs demo_second.2) by (vm_compute; discriminate).
  assert (Hoff : m_freeOffset demo_second.2 <> 0) by (vm_compute; discriminate).
  assert (Hpos : 0 <= 600) by lia.
  assert (Hlive : live demo_second.2 2) by (unfold live; compute_done).
  assert (Hnd : node demo_second.2 2
                = Some (mkNode 300 724 NODE_UNUSED NODE_UNUSED 1 NODE_UNUSED false))
    by (vm_compute; reflexivity).
  assert (Hroom : 600 + 600 / 8 <= 724) by (vm_compute; discriminate).
  split; [exact demo_second_reachable|]. split; [exact Htwo|]. split; [exact Hoff|].
  split; [exact Hpos|]. split; [exact Hlive|]. split; [exact Hnd|]. split; [exact Hroom|].
  exact (allocate_with_room demo_second.2 600 2 _ demo_second_reachable Htwo Hoff Hpos
           Hlive Hnd eq_refl Hroom).
Defined.

(** X12: [allocate] leaves every node that was handed out before handed
    out, at the same offset and with the same size. *)
Theorem allocate_keeps_allocations (a : Allocator) (size : Z) (res : Allocation)
    (a' : Allocator) (j : Z) (nd : Node) :
  reachable a -> is_u32 size ->
  allocate a size = Some (res, a') ->
  node a j = Some nd -> used nd = true ->
  exists nd', node a' j = Some nd' /\ used nd' = true
    /\ dataOffset nd' = dataOffset nd /\ dataSize nd' = dataSize nd.
Proof.
  intros (L & fs & HI)%reachable_inv Hsize Halloc Hnd Hu.
  pose proof (allocate_inv_full a size L fs HI Hsize) as Hpost.
  rewrite Halloc in Hpost.
  destruct Hpost as (_ & L' & fs' & _ & _ & Hap & _ & _ & Hkept & _).
  destruct Hap as [[_ ->]|(nd0 & nd' & Hn0 & Hu0 & _)]; [by exists nd|].
  assert (Hne : j <> metadata res) by (intros ->; congruence).
  destruct (Hkept j nd Hne Hnd Hu) as (nd1 & Hn1 & Ho1 & Hs1 & Hu1).
  by exists nd1.
Qed.

Lemma allocate_keeps_allocations_witness :
  reachable demo_first.2 /\ is_u32 200
  /\ allocate demo_first.2 200 = Some (demo_second.1, demo_second.2)
  /\ node demo_first.2 0 = Some (mkNode 0 100 NODE_UNUSED NODE_UNUSED NODE_UNUSED 1 true)
  /\ exists nd', node demo_second.2 0 = Some nd' /\ used nd' = true
       /\ dataOffset nd' = 0 /\ dataSize nd' = 100.
Proof.
  assert (Hsize : is_u32 200) by (unfold is_u32; lia).
  assert (Halloc : allocate demo_first.2 200 = Some (demo_second.1, demo_second.2))
    by (vm_compute; reflexivity).
  assert (Hnd : node demo_first.2 0
                = Some (mkNode 0 100 NODE_UNUSED NODE_UNUSED NODE_UNUSED 1 true))
    by (vm_compute; reflexivity).
  split; [exact demo_first_reachable|]. split; [exact Hsize|]. split; [exact Halloc|].
  split; [exact Hnd|].
  exact (allocate_keeps_allocations demo_first.2 200 _ _ 0 _ demo_first_reachable
           Hsize Halloc Hnd eq_refl).
Defined.

(** X13: a successful [allocate] lowers the free-storage counter by the
    requested size, without wrap-around. *)
Theorem allocate_takes_from_storage (a : Allocator) (size : Z) (res : Allocation)
    (a' : Allocator) :
  reachable a -> is_u32 size ->
  allocate a size = Some (res, a') -> metadata res <> NO_SPACE ->
  m_freeStorage a' = m_freeStorage a - size.
Proof.
  intros (L & fs & HI & HL)%reachable_books Hsize Halloc Hne.
  pose proof (allocate_inv_full a size L fs HI Hsize) as Hpost.
  rewrite Halloc in Hpost.
  destruct Hpost as (_ & L' & fs' & _ & _ & _ & _ & _ & _ & Hled).
  destruct (Hled HL) as [_ Hfs]. by apply Hfs.
Qed.

Lemma allocate_takes_from_storage_witness :
  reachable demo_first.2 /\ is_u32 200
  /\ allocate demo_first.2 200 = Some (demo_second.1, demo_second.2)
  /\ metadata demo_second.1 <> NO_SPACE
  /\ m_freeStorage demo_second.2 = m_freeStorage demo_first.2 - 200.
Proof.
  assert (Hsize : is_u32 200) by (unfold is_u32; lia).
  assert (Halloc : allocate demo_first.2 200 = Some (demo_second.1, demo_second.2))
    by (vm_compute; reflexivity).
  assert (Hne : metadata demo_second.1 <> NO_SPACE) by (vm_compute; discriminate).
  split; [exact demo_first_reachable|]. split; [exact Hsize|]. split; [exact Halloc|].
  split; [exact Hne|].
  exact (allocate_takes_from_storage demo_first.2 200 _ _ demo_first_reachable
           Hsize Halloc Hne).
Defined.

(** X14: an allocator with two node slots never hands out anything: in
    each of its reachable states [allocate] fails and changes nothing. *)
Theorem two_slot_pool_never_allocates (a : Allocator) (size : Z) :
  reachable a -> m_maxAllocs a = 2 ->
  allocate a size = Some (EmptyAllocation, a).
Proof.
  intros Hreach Htwo. destruct (two_slots_idle a Hreach Htwo) as [Hoff _].
  by apply allocate_out_of_allocations.
Qed.

Lemma two_slot_pool_never_allocates_witness :
  reachable two_slots /\ m_maxAllocs two_slots = 2
  /\ allocate two_slots 16 = Some (EmptyAllocation, two_slots).
Proof.
  assert (Htwo : m_maxAllocs two_slots = 2) by (vm_compute; reflexivity).
  split; [exact two_slots_reachable|]. split; [exact Htwo|].
  exact (two_slot_pool_never_allocates two_slots 16 two_slots_reachable Htwo).
Defined.

(** X15: an allocator with a single node slot has no slot for the
    remainder of a split: an [allocate] that is served from a free node
    larger than the request reads the free-slot stack out of range. *)
Theorem one_slot_pool_overruns (a : Allocator) (size n : Z) (nd : Node) :
  reachable a -> m_maxAllocs a = 1 -> is_u32 size ->
  live a n -> node a n = Some nd -> used nd = false ->
  uintToFloatRoundUp size <= uintToFloatRoundDown (dataSize nd) ->
  size < dataSize nd ->
  allocate a size = None.
Proof.
  intros (L & fs & HI & HL)%reachable_books Hone Hsize Hn Hnd Hu Hfit Hlt.
  apply (one_slot_no_split a L fs size n nd HI HL Hone Hsize); try done.
  by apply (free_in_live a L fs n nd HI).
Qed.

Lemma one_slot_pool_overruns_witness :
  reachable one_slot /\ m_maxAllocs one_slot = 1 /\ is_u32 100
  /\ live one_slot 0
  /\ node one_slot 0
     = Some (mkNode 0 1024 NODE_UNUSED NODE_UNUSED NODE_UNUSED NODE_UNUSED false)
  /\ uintToFloatRoundUp 100 <= uintToFloatRoundDown 1024
  /\ 100 < 1024
  /\ allocate one_slot 100 = None.
Proof.
  assert (Hone : m_maxAllocs one_slot = 1) by (vm_compute; reflexivity).
  assert (Hsize : is_u32 100) by (unfold is_u32; lia).
  assert (Hlive : live one_slot 0) by (unfold live; compute_done).
  assert (Hnd : node one_slot 0
                = Some (mkNode 0 1024 NODE_UNUSED NODE_UNUSED NODE_UNUSED NODE_UNUSED false))
    by (vm_compute; reflexivity).
  assert (Hfit : uintToFloatRoundUp 100 <= uintToFloatRoundDown 1024)
    by (vm_compute; discriminate).
  assert (Hlt : 100 < 1024) by lia.
  split; [exact one_slot_reachable|]. split; [exact Hone|]. split; [exact Hsize|].
  split; [exact Hlive|]. split; [exact Hnd|]. split; [exact Hfit|]. split; [exact Hlt|].
  exact (one_slot_pool_overruns one_slot 100 0 _ one_slot_reachable Hone Hsize Hlive Hnd
           eq_refl Hfit Hlt).
Defined.

(** ** [freeAllocation] *)

(** X16: in a reachable state, [freeAllocation] of a handed-out node
    stays within the arrays and returns. *)
Theorem free_returns (a : Allocator) (al : Allocation) :
  reachable a -> node_in_use a (metadata al) ->
  exists a', freeAllocation a al = Some a'.
Proof.
  intros (L & fs & HI)%reachable_inv Huse.
  destruct (free_inv a al L fs HI Huse) as (a' & _ & _ & Hf & _). by exists a'.
Qed.

Lemma free_returns_witness :
  reachable demo_second.2 /\ node_in_use demo_second.2 (metadata demo_first.1)
  /\ exists a', freeAllocation demo_second.2 demo_first.1 = Some a'.
Proof.
  assert (Huse : node_in_use demo_second.2 (metadata demo_first.1)).
  { eexists. split; vm_compute; reflexivity. }
  split; [exact demo_second_reachable|]. split; [exact Huse|].
  exact (free_returns demo_second.2 demo_first.1 demo_second_reachable Huse).
Defined.

(** X17: after [freeAllocation] the node it was given is a free live
    node merged with its free neighbors: it starts where its free previous
    neighbor started (at its own offset without one), its size is its own
    plus the sizes of its free previous and next neighbors, it is the first
    node of the bin of that size, the merged neighbors are no longer live
    while every other live node still is; and every other handed-out node
    is as it was. *)
Theorem free_releases_region (a : Allocator) (al : Allocation) (nd : Node) (a' : Allocator) :
  reachable a -> node a (metadata al) = Some nd -> used nd = true ->
  freeAllocation a al = Some a' ->
  merged_free a (metadata al) nd a' /\ others_kept a a' (metadata al).
Proof.
  intros (L & fs & HI)%reachable_inv Hnd Hu Hfree.
  destruct (free_merges a L fs al nd HI Hnd Hu) as (a'' & L' & fs' & Hf & _ & Hm & Hkept).
  assert (a'' = a') as -> by congruence. done.
Qed.

Lemma free_releases_region_witness :
  reachable demo_freed
  /\ node demo_freed (metadata demo_second.1)
     = Some (mkNode 100 200 NODE_UNUSED NODE_UNUSED 0 2 true)
  /\ freeAllocation demo_freed demo_second.1 = Some demo_merged
  /\ free_size (m_nodes demo_freed) 0 = 100
  /\ free_size (m_nodes demo_freed) 2 = 724
  /\ merged_free demo_freed (metadata demo_second.1)
       (mkNode 100 200 NODE_UNUSED NODE_UNUSED 0 2 true) demo_merged
  /\ others_kept demo_freed demo_merged (metadata demo_second.1).
Proof.
  assert (Hnd : node demo_freed (metadata demo_second.1)
                = Some (mkNode 100 200 NODE_UNUSED NODE_UNUSED 0 2 true))
    by (vm_compute; reflexivity).
  assert (Hfree : freeAllocation demo_freed demo_second.1 = Some demo_merged)
    by (vm_compute; reflexivity).
  split; [exact demo_freed_reachable|]. split; [exact Hnd|]. split; [exact Hfree|].
  split; [vm_compute; reflexivity|]. split; [vm_compute; reflexivity|].
  exact (free_releases_region demo_freed demo_second.1 _ demo_merged demo_freed_reachable
           Hnd eq_refl Hfree).
Defined.

(** X18: [freeAllocation] raises the free-storage counter by the size of
    the node it is given, without wrap-around. *)
Theorem free_gives_back_storage (a : Allocator) (al : Allocation) (nd : Node)
    (a' : Allocator) :
  reachable a -> node a (metadata al) = Some nd -> used nd = true ->
  freeAllocation a al = Some a' ->
  m_freeStorage a' = m_freeStorage a + dataSize nd.
Proof.
  intros (L & fs & HI & HL)%reachable_books Hnd Hu Hfree.
  destruct (free_inv_full a al L fs HI) as (a'' & L' & fs' & Hf & _ & _ & _ & _ & _ & Hn);
    [by exists nd|].
  assert (a'' = a') as -> by congruence.
  destruct (Hn nd Hnd) as (nd' & _ & _ & _ & _ & _ & _ & Hled).
  by destruct (Hled HL).
Qed.

Lemma free_gives_back_storage_witness :
  reachable demo_second.2
  /\ node demo_second.2 (metadata demo_first.1)
     = Some (mkNode 0 100 NODE_UNUSED NODE_UNUSED NODE_UNUSED 1 true)
  /\ freeAllocation demo_second.2 demo_first.1 = Some demo_freed
  /\ m_freeStorage demo_freed = m_freeStorage demo_second.2 + 100.
Proof.
  assert (Hnd : node demo_second.2 (metadata demo_first.1)
                = Some (mkNode 0 100 NODE_UNUSED NODE_UNUSED NODE_UNUSED 1 true))
    by (vm_compute; reflexivity).
  assert (Hfree : freeAllocation demo_second.2 demo_first.1 = Some demo_freed)
    by (vm_compute; reflexivity).
  split; [exact demo_second_reachable|]. split; [exact Hnd|]. split; [exact Hfree|].
  exact (free_gives_back_storage demo_second.2 demo_first.1 _ demo_freed
           demo_second_reachable Hnd eq_refl Hfree).
Defined.

(** ** What holds in every reachable state *)

(** X19: the regions of two different live nodes lie within the space of
    the allocator and do not overlap. *)
Theorem live_regions_disjoint (a : Allocator) (n m : Z) (nd md : Node) :
  reachable a -> live a n -> live a m -> n <> m ->
  node a n = Some nd -> node a m = Some md ->
  region_in_space a nd /\ region_in_space a md /\ regions_apart nd md.
Proof.
  intros (L & fs & HI)%reachable_inv Hn Hm Hne Hnd Hmd.
  apply (Inv_live a L fs n HI) in Hn. apply (Inv_live a L fs m HI) in Hm.
  unfold node in *.
  split; [exact (Inv_region a L fs n nd HI Hn Hnd)|].
  split; [exact (Inv_region a L fs m md HI Hm Hmd)|].
  exact (Inv_apart a L fs n m nd md HI Hn Hm Hne Hnd Hmd).
Qed.

Lemma live_regions_disjoint_witness :
  reachable demo_second.2 /\ live demo_second.2 0 /\ live demo_second.2 2 /\ 0 <> 2
  /\ node demo_second.2 0 = Some (mkNode 0 100 NODE_UNUSED NODE_UNUSED NODE_UNUSED 1 true)
  /\ node demo_second.2 2 = Some (mkNode 300 724 NODE_UNUSED NODE_UNUSED 1 NODE_UNUSED false)
  /\ region_in_space demo_second.2 (mkNode 0 100 NODE_UNUSED NODE_UNUSED NODE_UNUSED 1 true)
  /\ region_in_space demo_second.2 (mkNode 300 724 NODE_UNUSED NODE_UNUSED 1 NODE_UNUSED false)
  /\ regions_apart (mkNode 0 100 NODE_UNUSED NODE_UNUSED NODE_UNUSED 1 true)
       (mkNode 300 724 NODE_UNUSED NODE_UNUSED 1 NODE_UNUSED false).
Proof.
  assert (Hn : live demo_second.2 0) by (unfold live; compute_done).
  assert (Hm : live demo_second.2 2) by (unfold live; compute_done).
  assert (Hne : 0 <> 2) by lia.
  assert (Hnd : node demo_second.2 0
                = Some (mkNode 0 100 NODE_UNUSED NODE_UNUSED NODE_UNUSED 1 true))
    by (vm_compute; reflexivity).
  assert (Hmd : node demo_second.2 2
                = Some (mkNode 300 724 NODE_UNUSED NODE_UNUSED 1 NODE_UNUSED false))
    by (vm_compute; reflexivity).
  split; [exact demo_second_reachable|]. split; [exact Hn|]. split; [exact Hm|].
  split; [exact Hne|]. split; [exact Hnd|]. split; [exact Hmd|].
  exact (live_regions_disjoint demo_second.2 0 2 _ _ demo_second_reachable Hn Hm Hne Hnd Hmd).
Defined.

(** X20: when no live node is handed out (everything has been freed), a
    single live node is left, free and spanning the whole space. *)
Theorem all_free_is_one_region (a : Allocator) :
  reachable a -> 0 < m_size a -> nothing_in_use a ->
  exists n nd, (forall k, live a k <-> k = n) /\ node a n = Some nd
    /\ dataOffset nd = 0 /\ dataSize nd = m_size a /\ used nd = false.
Proof.
  intros (L & fs & HI)%reachable_inv Hpos Hidle.
  destruct (Inv_all_free_single a L fs HI Hpos Hidle) as (n & nd & -> & Hnd & Ho & Hs & Hu).
  exists n, nd. split_and!; try done.
  intros k. rewrite <- (Inv_live a [n] fs k HI). apply list_elem_of_singleton.
Qed.

Lemma all_free_is_one_region_witness :
  reachable demo_merged /\ 0 < m_size demo_merged /\ nothing_in_use demo_merged
  /\ exists n nd, (forall k, live demo_merged k <-> k = n) /\ node demo_merged n = Some nd
       /\ dataOffset nd = 0 /\ dataSize nd = m_size demo_merged /\ used nd = false.
Proof.
  assert (Hpos : 0 < m_size demo_merged) by (vm_compute; reflexivity).
  assert (Hidle : nothing_in_use demo_merged).
  { apply nothing_in_use_check. vm_compute. reflexivity. }
  split; [exact demo_merged_reachable|]. split; [exact Hpos|]. split; [exact Hidle|].
  exact (all_free_is_one_region demo_merged demo_merged_reachable Hpos Hidle).
Defined.

(** X21: the free-storage counter is the sum of the sizes of the free
    live nodes, and lies between zero and the size of the space. *)
Theorem freeStorage_is_free_space (a : Allocator) :
  reachable a ->
  m_freeStorage a = free_space a /\ 0 <= m_freeStorage a <= m_size a.
Proof.
  intros Hreach. split; [by apply reachable_free_space|].
  destruct (reachable_books a Hreach) as (L & fs & HI & HL).
  by destruct (ledger_bounds a L fs HI HL).
Qed.

Lemma freeStorage_is_free_space_witness :
  reachable demo_freed
  /\ free_space demo_freed = 824
  /\ m_freeStorage demo_freed = free_space demo_freed
  /\ 0 <= m_freeStorage demo_freed <= m_size demo_freed.
Proof.
  split; [exact demo_freed_reachable|]. split; [vm_compute; reflexivity|].
  exact (freeStorage_is_free_space demo_freed demo_freed_reachable).
Defined.

(** ** [allocationSize] *)

(** X22: [allocationSize] of the allocation that [allocate] has just
    returned is the requested size, and 0 when [allocate] failed. *)
Theorem allocationSize_of_allocate (a : Allocator) (size : Z) (res : Allocation)
    (a' : Allocator) :
  reachable a -> is_u32 size ->
  allocate a size = Some (res, a') ->
  allocationSize a' res = Some (if decide (metadata res = NO_SPACE) then 0 else size).
Proof.
  intros (L & fs & HI)%reachable_inv Hsize Halloc.
  pose proof (allocate_inv a size L fs HI Hsize) as Hpost.
  rewrite Halloc in Hpost. destruct Hpost as (_ & L' & fs' & HI' & _ & Hap).
  unfold allocationSize.
  destruct Hap as [[-> _]|(nd0 & nd' & _ & _ & _ & _ & Hn' & _ & Hs' & _)].
  - cbn. by rewrite !decide_True.
  - unfold node in Hn'.
    pose proof (no_sentinel_length _ (Inv_nodes_lt _ _ _ HI') _ _ Hn') as Hne.
    rewrite !decide_False by done.
    destruct (m_nodes a') as [|x l] eqn:Hnodes.
    { apply get_Some_range in Hn'. cbn in Hn'. lia. }
    rewrite Hn'. cbn. by rewrite Hs'.
Qed.

Lemma allocationSize_of_allocate_witness :
  reachable demo_first.2 /\ is_u32 200
  /\ allocate demo_first.2 200 = Some (demo_second.1, demo_second.2)
  /\ allocationSize demo_second.2 demo_second.1 = Some 200.
Proof.
  assert (Hsize : is_u32 200) by (unfold is_u32; lia).
  assert (Halloc : allocate demo_first.2 200 = Some (demo_second.1, demo_second.2))
    by (vm_compute; reflexivity).
  split; [exact demo_first_reachable|]. split; [exact Hsize|]. split; [exact Halloc|].
  exact (allocationSize_of_allocate demo_first.2 200 _ _ demo_first_reachable Hsize Halloc).
Defined.

(** ** [storageReport] and [storageReportFull] *)

(** X23: [storageReport] returns in every reachable state; the total it
    reports fits the space, the largest free region it reports is not
    above the total (the assertion of the source), and when that region
    is not zero some free live node is at least that large. *)
Theorem storageReport_within_books (a : Allocator) :
  reachable a ->
  exists r, storageReport a = Some r
    /\ totalFreeSpace r <= m_size a
    /\ 0 <= largestFreeRegion r <= totalFreeSpace r
    /\ (0 < largestFreeRegion r ->
          exists n nd, live a n /\ node a n = Some nd /\ used nd = false
            /\ largestFreeRegion r <= dataSize nd).
Proof.
  intros (L & fs & HI & HL)%reachable_books.
  destruct (storageReport_books a L fs HI HL) as (r & Hr & Htot & Hlar & Hpos).
  exists r. split_and!; try done; [lia|lia|].
  intros Hgt. destruct (Hpos Hgt) as (_ & b & h & hd & Hb & -> & Hf & Hbin).
  pose proof Hf as (Hn & Hnd & Hu)%(free_in_live a L fs h hd HI).
  exists h, hd. split_and!; try done.
  pose proof (bins_size _ _ _ (inv_bins _ _ _ HI) h hd Hf) as Hu32.
  destruct (uintToFloatRoundDown_bounds _ Hu32) as [_ Hlow].
  fold (bin_of hd) in Hlow. by rewrite Hbin in Hlow.
Qed.

Lemma storageReport_within_books_witness :
  reachable demo_freed
  /\ storageReport demo_freed = Some (mkStorageReport 824 704)
  /\ exists r, storageReport demo_freed = Some r
       /\ totalFreeSpace r <= m_size demo_freed
       /\ 0 <= largestFreeRegion r <= totalFreeSpace r
       /\ (0 < largestFreeRegion r ->
             exists n nd, live demo_freed n /\ node demo_freed n = Some nd
               /\ used nd = false /\ largestFreeRegion r <= dataSize nd).
Proof.
  split; [exact demo_freed_reachable|]. split; [vm_compute; reflexivity|].
  exact (storageReport_within_books demo_freed demo_freed_reachable).
Defined.

(** X24: with at least two node slots, a request for the largest free
    region that [storageReport] reports, when it is not zero, succeeds. *)
Theorem largest_region_allocatable (a : Allocator) (r : StorageReport) :
  reachable a -> 2 <= m_maxAllocs a ->
  storageReport a = Some r -> 0 < largestFreeRegion r ->
  exists res a', allocate a (largestFreeRegion r) = Some (res, a')
    /\ metadata res <> NO_SPACE.
Proof.
  intros Hreach Htwo Hrep Hgt.
  destruct (reachable_books a Hreach) as (L & fs & HI & HL).
  destruct (storageReport_books a L fs HI HL) as (r' & Hr & _ & _ & Hpos).
  assert (r' = r) as -> by congruence.
  destruct (Hpos Hgt) as (Hoff & b & h & hd & Hb & Hlar & Hf & Hbin).
  pose proof (bins_size _ _ _ (inv_bins _ _ _ HI) h hd Hf) as Hu32.
  destruct (uintToFloatRoundDown_bounds _ Hu32) as [_ Hlow].
  fold (bin_of hd) in Hlow. rewrite Hbin, <- Hlar in Hlow.
  assert (Hsize : is_u32 (largestFreeRegion r)) by (unfold is_u32 in *; lia).
  destruct (allocate_total a _ Hreach Htwo Hsize) as [[res a'] Halloc].
  exists res, a'. split; [done|].
  apply (allocate_fits a L fs _ h hd res a' HI HL Hsize Hoff Hf); [|done].
  rewrite Hlar, Hbin. by destruct (floatToUint_roundtrip b Hb) as [-> _].
Qed.

Lemma largest_region_allocatable_witness :
  reachable demo_freed /\ 2 <= m_maxAllocs demo_freed
  /\ storageReport demo_freed = Some (mkStorageReport 824 704)
  /\ 0 < largestFreeRegion (mkStorageReport 824 704)
  /\ exists res a', allocate demo_freed (largestFreeRegion (mkStorageReport 824 704))
                    = Some (res, a')
       /\ metadata res <> NO_SPACE.
Proof.
  assert (Htwo : 2 <= m_maxAllocs demo_freed) by (vm_compute; discriminate).
  assert (Hrep : storageReport demo_freed = Some (mkStorageReport 824 704))
    by (vm_compute; reflexivity).
  assert (Hgt : 0 < largestFreeRegion (mkStorageReport 824 704)) by (vm_compute; reflexivity).
  split; [exact demo_freed_reachable|]. split; [exact Htwo|]. split; [exact Hrep|].
  split; [exact Hgt|].
  exact (largest_region_allocatable demo_freed _ demo_freed_reachable Htwo Hrep Hgt).
Defined.

(** X25: in every reachable state the loops of [storageReportFull] end
    within as many turns as the pool has slots, and the report gives, for
    each of the 256 bins, its nominal size and the number of free live
    nodes whose size rounds down to that bin. *)
Theorem storageReportFull_counts (a : Allocator) (fuel : nat) :
  reachable a -> (Z.to_nat (m_maxAllocs a) <= fuel)%nat ->
  storageReportFull fuel a = Some (full_report a).
Proof.
  intros (L & fs & HI & HL)%reachable_books Hfuel.
  by apply (storageReportFull_books a L fs).
Qed.

Lemma storageReportFull_counts_witness :
  reachable demo_freed /\ (Z.to_nat (m_maxAllocs demo_freed) <= 8)%nat
  /\ storageReportFull 8 demo_freed = Some (full_report demo_freed)
  /\ full_report demo_freed !! 36%nat = Some (mkFreeRegion 96 1)
  /\ full_report demo_freed !! 59%nat = Some (mkFreeRegion 704 1)
  /\ full_report demo_freed !! 64%nat = Some (mkFreeRegion 1024 0).
Proof.
  assert (Hfuel : (Z.to_nat (m_maxAllocs demo_freed) <= 8)%nat) by (vm_compute; lia).
  split; [exact demo_freed_reachable|]. split; [exact Hfuel|].
  split; [exact (storageReportFull_counts demo_freed 8 demo_freed_reachable Hfuel)|].
  split; [vm_compute; reflexivity|]. split; vm_compute; reflexivity.
Defined.

(** ** Allocate, then free *)

(** X27: freeing the allocation that [allocate] has just returned
    succeeds and brings the free-storage counter back to its value before
    the [allocate]. *)
Theorem allocate_then_free_restores_storage (a : Allocator) (size : Z) (res : Allocation)
    (a' : Allocator) :
  reachable a -> is_u32 size ->
  allocate a size = Some (res, a') -> metadata res <> NO_SPACE ->
  exists a'', freeAllocation a' res = Some a''
    /\ m_freeStorage a'' = m_freeStorage a.
Proof.
  intros Hreach Hsize Halloc Hne.
  destruct (reachable_books a Hreach) as (L & fs & HI & HL).
  pose proof (allocate_inv_full a size L fs HI Hsize) as Hpost.
  rewrite Halloc in Hpost.
  destruct Hpost as (_ & L' & fs' & HI' & _ & Hap & _ & _ & _ & Hled).
  destruct (Hled HL) as [HL' Hfs]. specialize (Hfs Hne).
  destruct Hap as [[-> _]|(nd0 & nd' & _ & _ & _ & _ & Hn' & Hu' & Hs' & _)]; [done|].
  destruct (free_inv_full a' res L' fs' HI')
    as (a'' & L'' & fs'' & Hf & _ & _ & _ & _ & _ & Hn); [by exists nd'|].
  exists a''. split; [done|].
  destruct (Hn nd' Hn') as (nd'' & _ & _ & _ & _ & _ & _ & Hled').
  destruct (Hled' HL') as [_ ->]. lia.
Qed.

Lemma allocate_then_free_restores_storage_witness :
  reachable demo_fresh /\ is_u32 100
  /\ allocate demo_fresh 100 = Some (demo_first.1, demo_first.2)
  /\ metadata demo_first.1 <> NO_SPACE
  /\ exists a'', freeAllocation demo_first.2 demo_first.1 = Some a''
       /\ m_freeStorage a'' = m_freeStorage demo_fresh.
Proof.
  assert (Hsize : is_u32 100) by (unfold is_u32; lia).
  assert (Halloc : allocate demo_fresh 100 = Some (demo_first.1, demo_first.2))
    by (vm_compute; reflexivity).
  assert (Hne : metadata demo_first.1 <> NO_SPACE) by (vm_compute; discriminate).
  split; [exact demo_fresh_reachable|]. split; [exact Hsize|]. split; [exact Halloc|].
  split; [exact Hne|].
  exact (allocate_then_free_restores_storage demo_fresh 100 _ _ demo_fresh_reachable
           Hsize Halloc Hne).
Defined.
